(** * Stock reservation and reconciliation of the equipment-rental workflow

    A shallow embedding of the reservation core of the rental application:
    - [src/services/dataService.ts]: the localStorage service
      ([calculateRentalCosts], [adjustStockForItem], [addRentalApplication],
      [updateRentalApplication], [cancelRentalApplication], [updateItem]);
    - [src/worker.ts]: the D1 worker, in its two variants (the itty-router
      variant, lines 1-702, and the direct-handler variant, lines 703-1829).

    Around that core, the file also embeds the item services and the
    queries of [dataService.ts], the catalog, delete, cancel and dashboard
    handlers of the worker with its base64url helpers, and the handlers of
    the pages that call the service: the application page and the edit
    modal of [src/unnamed/part_001] and the item modal of
    [src/pages/admin/AdminItemManagementPage.tsx].

    JavaScript numbers that hold stock, prices and quantities are integers
    of the INTEGER columns of [src/schema.sql]; they are modelled as [Z].
    Arrays are lists, [Array.prototype.find] is [List.find], a [Map] is a
    [gmap], a [Set] is a list without repetition in insertion order. *)

From Stdlib Require Import ZArith List Lia Bool Sorted.
From stdpp Require Import gmap strings list fin_maps.
Import ListNotations.
Open Scope Z_scope.

(** ** Data model ([types.ts], mirrored at the top of [worker.ts]) *)

Inductive RentalStatus := PENDING | RENTED | RETURNED.

Record Item := mkItem {
  id : string;
  name : string;
  initialStock : Z;
  currentStock : Z;
  price : Z;
  description : string;
  imageUrl : string;
  unitName : string   (* field [unit] of the source *)
}.

Record SelectedItemEntry := mkEntry {
  itemId : string;
  quantity : Z
}.

(** [Omit<RentalApplication, 'items'>]: one row of the RentalApplications
    table.  [appId] is the field [id] of the source. *)
Record ApplicationRow := mkRow {
  appId : string;
  applicantName : string;
  phoneNumber : string;
  studentId : string;
  accountHolderName : string;
  accountNumber : string;
  rentalDate : string;
  returnDate : string;
  totalItemCost : Z;
  deposit : Z;
  totalAmount : Z;
  status : RentalStatus;
  applicationDate : string;
  rentalStaff : option string;
  returnStaff : option string;
  actualReturnDate : option string;
  depositRefunded : bool
}.

Record RentalApplication := mkApp {
  row :> ApplicationRow;
  items : list SelectedItemEntry
}.

#[global] Instance RentalStatus_eq_dec : EqDecision RentalStatus.
Proof. solve_decision. Defined.
#[global] Instance Item_eq_dec : EqDecision Item.
Proof. solve_decision. Defined.
#[global] Instance SelectedItemEntry_eq_dec : EqDecision SelectedItemEntry.
Proof. solve_decision. Defined.
#[global] Instance ApplicationRow_eq_dec : EqDecision ApplicationRow.
Proof. solve_decision. Defined.
#[global] Instance RentalApplication_eq_dec : EqDecision RentalApplication.
Proof. solve_decision. Defined.

(** [{ ...item, currentStock: newStock }] *)
Definition withCurrentStock (item : Item) (newStock : Z) : Item :=
  mkItem (id item) (name item) (initialStock item) newStock (price item)
         (description item) (imageUrl item) (unitName item).

(** [status === PENDING || status === RENTED] *)
Definition isReserved (st : RentalStatus) : bool :=
  match st with
  | PENDING | RENTED => true
  | RETURNED => false
  end.

(** [s || fallback] on strings: the empty string is falsy. *)
Definition orElse (s fallback : string) : string :=
  if String.eqb s "" then fallback else s.

(** [allItems.find(i => i.id === itemId)] *)
Definition findItem (itemId' : string) (allItems : list Item) : option Item :=
  find (fun i => String.eqb (id i) itemId') allItems.

(** [items.find(i => i.itemId === itemId)] *)
Definition findEntry (itemId' : string) (entries : list SelectedItemEntry)
  : option SelectedItemEntry :=
  find (fun e => String.eqb (itemId e) itemId') entries.

(** [entry ? entry.quantity : 0] *)
Definition qtyOf (itemId' : string) (entries : list SelectedItemEntry) : Z :=
  match findEntry itemId' entries with
  | Some e => quantity e
  | None => 0
  end.

(** [new Set([...xs])]: the elements in order of first insertion. *)
Definition setAdd (acc : list string) (x : string) : list string :=
  if bool_decide (x ∈ acc) then acc else acc ++ [x].

Definition newSet (xs : list string) : list string :=
  fold_left setAdd xs [].

(** [new Map(allItems.map(item => [item.id, item.currentStock]))]: a later
    pair with the same key replaces an earlier one. *)
Definition stockMapOf (allItems : list Item) : gmap string Z :=
  fold_left (fun m item => <[id item := currentStock item]> m) allItems ∅.

(** The identifiers of the entries, [items.map(i => i.itemId)]. *)
Definition itemIds (entries : list SelectedItemEntry) : list string :=
  map itemId entries.

(** [new Set([...originalApp.items.map(i => i.itemId),
              ...newItems.map(i => i.itemId)])] *)
Definition allInvolvedItemIds (oldItems newItems : list SelectedItemEntry)
  : list string :=
  newSet (itemIds oldItems ++ itemIds newItems).

(** ** Quantities held by the ledger

    The amount an application holds back of an item: the quantities of its
    entries for that item while its status is reserved, nothing otherwise. *)
Definition entryTotal (itemId' : string) (entries : list SelectedItemEntry) : Z :=
  fold_right (fun e acc =>
                (if String.eqb (itemId e) itemId' then quantity e else 0) + acc)
             0 entries.

Definition heldBy (itemId' : string) (app : RentalApplication) : Z :=
  if isReserved (status app) then entryTotal itemId' (items app) else 0.

Definition reservedTotal (itemId' : string) (ledger : list RentalApplication) : Z :=
  fold_right (fun app acc => heldBy itemId' app + acc) 0 ledger.

(** The conservation law for one item against a ledger. *)
Definition conservedItem (ledger : list RentalApplication) (item : Item) : Prop :=
  currentStock item + reservedTotal (id item) ledger = initialStock item.

(** The stock bounds of one item (the two CHECK constraints of the Items
    table in [schema.sql]). *)
Definition stockInBounds (item : Item) : Prop :=
  0 <= currentStock item <= initialStock item.

(** The shape of a selection, as the data model has it: one entry per item
    and no negative quantity. *)
Definition wellFormedEntries (entries : list SelectedItemEntry) : Prop :=
  NoDup (itemIds entries) /\ Forall (fun e => 0 <= quantity e) entries.

(** ** The localStorage service ([src/services/dataService.ts]) *)

Module DataService.

(** The two localStorage keys, parsed. *)
Record Storage := mkStorage {
  kaistWelfareItems : list Item;
  kaistWelfareRentals : list RentalApplication
}.

Inductive Operation := decrease | increase.

Record StockAdjustment := mkAdj {
  adjItemId : string;
  adjQuantity : Z;
  adjOperation : Operation
}.

(** The [Error]s the service throws, one constructor per message. *)
Inductive Thrown :=
| InsufficientStock (itemName : string) (requested available : Z)
| InsufficientStockForUpdate (itemName : string) (requested available : Z)
| ItemNotFoundForAdjustment (itemId' : string)
| ItemDetailsNotFound (itemId' : string)
| ApplicationNotFound (applicationId : string)
| CannotCancelRentedOrReturned
| CurrentStockExceedsInitial (current initial : Z) (itemName : string).

(** A call either returns or throws; what it wrote to localStorage before
    throwing stays written. *)
Inductive Outcome (A : Type) :=
| Returned (a : A) (s : Storage)
| Threw (e : Thrown) (s : Storage).
Arguments Returned {A} a s.
Arguments Threw {A} e s.

Definition storageAfter {A} (o : Outcome A) : Storage :=
  match o with
  | Returned _ s => s
  | Threw _ s => s
  end.

Definition hasReturned {A} (o : Outcome A) : bool :=
  match o with
  | Returned _ _ => true
  | Threw _ _ => false
  end.

(** [xs.forEach(x => f(x))] for a callback that writes and may throw. *)
Fixpoint forEach {A} (f : A -> Storage -> Outcome unit) (xs : list A)
         (s : Storage) : Outcome unit :=
  match xs with
  | [] => Returned tt s
  | x :: rest =>
      match f x s with
      | Returned _ s' => forEach f rest s'
      | Threw e s' => Threw e s'
      end
  end.

Definition getItems (s : Storage) : list Item := kaistWelfareItems s.

(** [getRentalApplications]: the default [deposit: app.deposit ?? ...] is
    the identity on applications that carry a deposit, as all here do. *)
Definition getRentalApplications (s : Storage) : list RentalApplication :=
  kaistWelfareRentals s.

Definition setItems (newItems : list Item) (s : Storage) : Storage :=
  mkStorage newItems (kaistWelfareRentals s).

Definition setRentals (rentals : list RentalApplication) (s : Storage) : Storage :=
  mkStorage (kaistWelfareItems s) rentals.

(** [updateItem] *)
Definition updateItem (updatedItem : Item) (s : Storage) : Outcome Item :=
  let allItems := getItems s in
  if currentStock updatedItem >? initialStock updatedItem then
    Threw (CurrentStockExceedsInitial (currentStock updatedItem)
             (initialStock updatedItem) (name updatedItem)) s
  else
    Returned updatedItem
      (setItems (map (fun item => if String.eqb (id item) (id updatedItem)
                                  then updatedItem else item) allItems) s).

Section WithDeposit.

(** [FIXED_DEPOSIT_AMOUNT] of [constants.ts] *)
Variable FIXED_DEPOSIT_AMOUNT : Z.

(** [calculateRentalCosts]: the pair is [{ totalItemCost, totalAmount }]. *)
Definition calculateRentalCosts (selected : list SelectedItemEntry)
           (allItems : list Item) : Z * Z :=
  let totalItemCost' :=
    fold_left (fun total sel =>
                 match findItem (itemId sel) allItems with
                 | Some itemDetails => total + price itemDetails * quantity sel
                 | None => total
                 end) selected 0 in
  (totalItemCost', totalItemCost' + FIXED_DEPOSIT_AMOUNT).

(** [adjustStockForItem] *)
Definition adjustStockForItem (itemId' : string) (quantity' : Z)
           (operation : Operation) (s : Storage) : Outcome unit :=
  let currentItems := getItems s in
  match findItem itemId' currentItems with
  | Some item =>
      let write newStock :=
        Returned tt
          (setItems (map (fun i => if String.eqb (id i) itemId'
                                   then withCurrentStock item newStock else i)
                         currentItems) s) in
      match operation with
      | decrease =>
          if currentStock item <? quantity' then
            Threw (InsufficientStock (name item) quantity' (currentStock item)) s
          else write (currentStock item - quantity')
      | increase =>
          let newStock := currentStock item + quantity' in
          write (if newStock >? initialStock item then initialStock item
                 else newStock)
      end
  | None => Threw (ItemNotFoundForAdjustment itemId') s
  end.

(** The stock check at the head of [addRentalApplication]: the first entry
    whose item is missing or short of stock, with the message's
    [itemDetail?.name || 'unknown item'] and
    [itemDetail?.currentStock || 0]. *)
Fixpoint validateStock (selected : list SelectedItemEntry) (allItems : list Item)
  : option Thrown :=
  match selected with
  | [] => None
  | selectedItem :: rest =>
      match findItem (itemId selectedItem) allItems with
      | None =>
          Some (InsufficientStock "unknown item" (quantity selectedItem) 0)
      | Some itemDetail =>
          if currentStock itemDetail <? quantity selectedItem then
            Some (InsufficientStock (orElse (name itemDetail) "unknown item")
                    (quantity selectedItem) (currentStock itemDetail))
          else validateStock rest allItems
      end
  end.

(** [{ ...app, id, applicationDate, status, totalItemCost, deposit,
       totalAmount }] *)
Definition withDerived (r : ApplicationRow) (newId applicationDate' : string)
           (status' : RentalStatus) (cost amount : Z) : ApplicationRow :=
  mkRow newId (applicantName r) (phoneNumber r) (studentId r)
        (accountHolderName r) (accountNumber r) (rentalDate r) (returnDate r)
        cost FIXED_DEPOSIT_AMOUNT amount status' applicationDate'
        (rentalStaff r) (returnStaff r) (actualReturnDate r) (depositRefunded r).

(** [addRentalApplication].  [appData] is the object the caller passes:
    whatever it carries in the omitted fields is replaced.  [newId] and
    [today] stand for the generated identifier and [new Date()]. *)
Definition addRentalApplication (appData : RentalApplication)
           (newId today : string) (s : Storage) : Outcome RentalApplication :=
  let allItems := getItems s in
  match validateStock (items appData) allItems with
  | Some e => Threw e s
  | None =>
      let costs := calculateRentalCosts (items appData) allItems in
      let newApplication :=
        mkApp (withDerived appData newId today PENDING (fst costs) (snd costs))
              (items appData) in
      match forEach (fun itemEntry =>
                       adjustStockForItem (itemId itemEntry) (quantity itemEntry)
                                          decrease)
                    (items newApplication) s with
      | Threw e s' => Threw e s'
      | Returned _ s' =>
          let rentals := getRentalApplications s' in
          Returned newApplication (setRentals (rentals ++ [newApplication]) s')
      end
  end.

(** The body of [allInvolvedItemIds.forEach] in [updateRentalApplication]:
    the adjustment an item asks for, if any. *)
Definition adjustmentFor (oldStatusIsReserved newStatusIsReserved : bool)
           (oldQty newQty : Z) (itemId' : string) : list StockAdjustment :=
  if oldStatusIsReserved && negb newStatusIsReserved then
    if oldQty >? 0 then [mkAdj itemId' oldQty increase] else []
  else if negb oldStatusIsReserved && newStatusIsReserved then
    if newQty >? 0 then [mkAdj itemId' newQty decrease] else []
  else if oldStatusIsReserved && newStatusIsReserved then
    let delta := newQty - oldQty in
    if delta >? 0 then [mkAdj itemId' delta decrease]
    else if delta <? 0 then [mkAdj itemId' (- delta) increase]
    else []
  else [].

Fixpoint collectAdjustments (oldStatusIsReserved newStatusIsReserved : bool)
         (oldItems newItems : list SelectedItemEntry) (allItems : list Item)
         (involved : list string) : Thrown + list StockAdjustment :=
  match involved with
  | [] => inr []
  | itemId' :: rest =>
      let oldQty := qtyOf itemId' oldItems in
      let newQty := qtyOf itemId' newItems in
      match findItem itemId' allItems with
      | None => inl (ItemDetailsNotFound itemId')
      | Some _ =>
          match collectAdjustments oldStatusIsReserved newStatusIsReserved
                  oldItems newItems allItems rest with
          | inl e => inl e
          | inr adjs =>
              inr (adjustmentFor oldStatusIsReserved newStatusIsReserved
                     oldQty newQty itemId' ++ adjs)
          end
      end
  end.

(** The validation loop over [stockAdjustments] with [tempStockLevels]. *)
Fixpoint validateAdjustments (adjs : list StockAdjustment)
         (tempStockLevels : gmap string Z) (allItems : list Item)
  : option Thrown :=
  match adjs with
  | [] => None
  | adj :: rest =>
      let currentTempStock := default 0 (tempStockLevels !! adjItemId adj) in
      match adjOperation adj with
      | decrease =>
          if currentTempStock <? adjQuantity adj then
            Some (InsufficientStockForUpdate
                    (match findItem (adjItemId adj) allItems with
                     | Some item => orElse (name item) (adjItemId adj)
                     | None => adjItemId adj
                     end) (adjQuantity adj) currentTempStock)
          else validateAdjustments rest
                 (<[adjItemId adj := currentTempStock - adjQuantity adj]>
                    tempStockLevels) allItems
      | increase => validateAdjustments rest tempStockLevels allItems
      end
  end.

(** [updateRentalApplication] *)
Definition updateRentalApplication (updatedApp : RentalApplication)
           (s : Storage) : Outcome RentalApplication :=
  let rentals := getRentalApplications s in
  let allItems := getItems s in
  match find (fun r : RentalApplication =>
                String.eqb (appId r) (appId updatedApp)) rentals with
  | None => Threw (ApplicationNotFound (appId updatedApp)) s
  | Some originalApp =>
      let costs := calculateRentalCosts (items updatedApp) allItems in
      let appWithRecalculatedCosts :=
        mkApp (withDerived updatedApp (appId updatedApp)
                 (applicationDate updatedApp) (status updatedApp)
                 (fst costs) (snd costs))
              (items updatedApp) in
      let oldStatusIsReserved := isReserved (status originalApp) in
      let newStatusIsReserved := isReserved (status appWithRecalculatedCosts) in
      match collectAdjustments oldStatusIsReserved newStatusIsReserved
              (items originalApp) (items appWithRecalculatedCosts) allItems
              (allInvolvedItemIds (items originalApp)
                 (items appWithRecalculatedCosts)) with
      | inl e => Threw e s
      | inr stockAdjustments =>
          match validateAdjustments stockAdjustments (stockMapOf allItems)
                  allItems with
          | Some e => Threw e s
          | None =>
              match forEach (fun adj =>
                               adjustStockForItem (adjItemId adj)
                                 (adjQuantity adj) (adjOperation adj))
                            stockAdjustments s with
              | Threw e s' => Threw e s'
              | Returned _ s' =>
                  Returned appWithRecalculatedCosts
                    (setRentals
                       (map (fun app : RentalApplication =>
                               if String.eqb (appId app)
                                    (appId appWithRecalculatedCosts)
                               then appWithRecalculatedCosts else app) rentals)
                       s')
              end
          end
      end
  end.

(** [cancelRentalApplication] *)
Definition cancelRentalApplication (applicationId : string) (s : Storage)
  : Outcome bool :=
  let rentals := getRentalApplications s in
  match find (fun r : RentalApplication =>
                String.eqb (appId r) applicationId) rentals with
  | Some appToCancel =>
      match status appToCancel with
      | PENDING =>
          match forEach (fun itemEntry =>
                           adjustStockForItem (itemId itemEntry)
                             (quantity itemEntry) increase)
                        (items appToCancel) s with
          | Threw e s' => Threw e s'
          | Returned _ s' =>
              Returned true
                (setRentals
                   (List.filter
                      (fun r : RentalApplication =>
                         negb (String.eqb (appId r) applicationId))
                      rentals) s')
          end
      | RENTED | RETURNED => Threw CannotCancelRentedOrReturned s
      end
  | None => Returned false s
  end.

End WithDeposit.

End DataService.

(** ** The D1 database ([src/schema.sql]) and the statements the worker
       prepares against it *)

Module D1.

(** A row of the junction table RentalApplicationItems. *)
Record ApplicationItemRow := mkItemRow {
  rentalApplicationId : string;
  rowItemId : string;
  rowQuantity : Z
}.

Record Database := mkDb {
  Items : list Item;
  RentalApplications : list ApplicationRow;
  RentalApplicationItems : list ApplicationItemRow
}.

(** The prepared statements of [worker.ts], with their bound values. *)
Inductive Statement :=
(* INSERT INTO RentalApplications (13 columns) VALUES (...) *)
| InsertApplication (newRow : ApplicationRow)
(* INSERT INTO RentalApplicationItems (rentalApplicationId, itemId, quantity) *)
| InsertApplicationItem (applicationId itemId' : string) (quantity' : Z)
(* UPDATE Items SET currentStock = currentStock - ? WHERE id = ? AND currentStock >= ? *)
| DecreaseStockGuarded (amount : Z) (itemId' : string) (atLeast : Z)
(* UPDATE Items SET currentStock = currentStock + ? WHERE id = ? *)
| IncreaseStock (amount : Z) (itemId' : string)
(* DELETE FROM RentalApplicationItems WHERE rentalApplicationId = ? *)
| DeleteApplicationItems (applicationId : string)
(* DELETE FROM RentalApplications WHERE id = ? *)
| DeleteApplication (applicationId : string)
(* UPDATE RentalApplications SET (16 columns) WHERE id = ? *)
| UpdateApplication (newRow : ApplicationRow)
(* UPDATE Items SET name, initialStock, currentStock, price, description,
   imageUrl, unit WHERE id = ? *)
| UpdateItem (newValues : Item) (itemId' : string).

(** CHECK (currentStock >= 0), CHECK (currentStock <= initialStock) *)
Definition checkItem (item : Item) : bool :=
  (0 <=? currentStock item) && (currentStock item <=? initialStock item).

(** An UPDATE of the Items table: the rows that match are rewritten, and the
    statement fails when a rewritten row violates a CHECK constraint. *)
Fixpoint updateItems (matches : Item -> bool) (change : Item -> Item)
         (rows : list Item) : option (list Item) :=
  match rows with
  | [] => Some []
  | r :: rest =>
      if matches r then
        if checkItem (change r) then
          match updateItems matches change rest with
          | Some rest' => Some (change r :: rest')
          | None => None
          end
        else None
      else
        match updateItems matches change rest with
        | Some rest' => Some (r :: rest')
        | None => None
        end
  end.

Definition hasItem (itemId' : string) (db : Database) : bool :=
  existsb (fun i => String.eqb (id i) itemId') (Items db).

Definition hasApplication (applicationId : string) (db : Database) : bool :=
  existsb (fun r => String.eqb (appId r) applicationId) (RentalApplications db).

Definition hasApplicationItem (applicationId itemId' : string) (db : Database)
  : bool :=
  existsb (fun r => String.eqb (rentalApplicationId r) applicationId
                    && String.eqb (rowItemId r) itemId')
          (RentalApplicationItems db).

(** The columns the INSERT of an application does not name take their
    defaults: NULL for the staff fields and the actual return date, 0 for
    depositRefunded. *)
Definition insertedRow (r : ApplicationRow) : ApplicationRow :=
  mkRow (appId r) (applicantName r) (phoneNumber r) (studentId r)
        (accountHolderName r) (accountNumber r) (rentalDate r) (returnDate r)
        (totalItemCost r) (deposit r) (totalAmount r) (status r)
        (applicationDate r) None None None false.

(** One statement: [None] when a constraint of the schema fails (a primary
    key, a foreign key or a CHECK). *)
Definition exec (st : Statement) (db : Database) : option Database :=
  match st with
  | InsertApplication r =>
      if hasApplication (appId r) db then None
      else Some (mkDb (Items db) (RentalApplications db ++ [insertedRow r])
                      (RentalApplicationItems db))
  | InsertApplicationItem a i q =>
      if hasApplicationItem a i db then None
      else if negb (hasApplication a db) then None
      else if negb (hasItem i db) then None
      else Some (mkDb (Items db) (RentalApplications db)
                      (RentalApplicationItems db ++ [mkItemRow a i q]))
  | DecreaseStockGuarded amount i atLeast =>
      match updateItems
              (fun r => String.eqb (id r) i && (atLeast <=? currentStock r))
              (fun r => withCurrentStock r (currentStock r - amount))
              (Items db) with
      | Some rows => Some (mkDb rows (RentalApplications db)
                                (RentalApplicationItems db))
      | None => None
      end
  | IncreaseStock amount i =>
      match updateItems (fun r => String.eqb (id r) i)
              (fun r => withCurrentStock r (currentStock r + amount))
              (Items db) with
      | Some rows => Some (mkDb rows (RentalApplications db)
                                (RentalApplicationItems db))
      | None => None
      end
  | DeleteApplicationItems a =>
      Some (mkDb (Items db) (RentalApplications db)
                 (List.filter
                    (fun r => negb (String.eqb (rentalApplicationId r) a))
                    (RentalApplicationItems db)))
  | DeleteApplication a =>
      (* ON DELETE CASCADE on the junction table *)
      Some (mkDb (Items db)
                 (List.filter (fun r => negb (String.eqb (appId r) a))
                              (RentalApplications db))
                 (List.filter
                    (fun r => negb (String.eqb (rentalApplicationId r) a))
                    (RentalApplicationItems db)))
  | UpdateApplication r =>
      Some (mkDb (Items db)
                 (map (fun old => if String.eqb (appId old) (appId r)
                                  then r else old) (RentalApplications db))
                 (RentalApplicationItems db))
  | UpdateItem v i =>
      match updateItems (fun r => String.eqb (id r) i)
              (fun r => mkItem (id r) (name v) (initialStock v)
                               (currentStock v) (price v) (description v)
                               (imageUrl v) (unitName v))
              (Items db) with
      | Some rows => Some (mkDb rows (RentalApplications db)
                                (RentalApplicationItems db))
      | None => None
      end
  end.

(** The statements of a batch in sequence. *)
Fixpoint run (ops : list Statement) (db : Database) : option Database :=
  match ops with
  | [] => Some db
  | st :: rest =>
      match exec st db with
      | Some db' => run rest db'
      | None => None
      end
  end.

(** [env.DB.batch(ops)]: a batch is one transaction; when a statement fails
    the batch throws and the database is as before. *)
Definition batch (ops : list Statement) (db : Database) : option Database :=
  run ops db.

(** SELECT itemId, quantity FROM RentalApplicationItems
    WHERE rentalApplicationId = ? *)
Definition selectItemsOf (applicationId : string) (db : Database)
  : list SelectedItemEntry :=
  map (fun r => mkEntry (rowItemId r) (rowQuantity r))
      (List.filter (fun r => String.eqb (rentalApplicationId r) applicationId)
                   (RentalApplicationItems db)).

(** SELECT * FROM RentalApplications WHERE id = ? *)
Definition selectApplication (applicationId : string) (db : Database)
  : option ApplicationRow :=
  find (fun r => String.eqb (appId r) applicationId) (RentalApplications db).

(** Every application with its items, as GET /api/admin/rentals joins
    them: the ledger the database holds. *)
Definition ledgerOf (db : Database) : list RentalApplication :=
  map (fun r => mkApp r (selectItemsOf (appId r) db)) (RentalApplications db).

End D1.

(** ** What the two variants of [worker.ts] share *)

Module WorkerBase.
Import D1.

(** [env.FIXED_DEPOSIT_AMOUNT], when configured, as [parseInt] reads it. *)
Record Env := mkEnv {
  FIXED_DEPOSIT_AMOUNT : option Z
}.

(** [parseInt(env.FIXED_DEPOSIT_AMOUNT || "10000", 10)] *)
Definition FIXED_DEPOSIT_AMOUNT_FN (env : Env) : Z :=
  default 10000 (FIXED_DEPOSIT_AMOUNT env).

(** The error bodies of the responses and the messages of the thrown
    errors.  A failed batch of
    POST /api/rentals/apply is answered with [StockBecameUnavailable]
    ('... during transaction or data invalid. Please check stock and try
    again.') by the direct handler and with
    [StockBecameUnavailableDuringTransaction] ('... during transaction.
    Please try again.') by the router handler. *)
Inductive ApiError :=
| ItemWithIdNotFound (itemId' : string)
| InsufficientStock (itemName : string) (requested available : Z)
| StockBecameUnavailable
| FailedToSubmit
| InvalidData
| ApplicationNotFound
| OnlyPendingCanBeModified
| OnlyPendingCanBeCancelled
| InsufficientStockForUpdate (itemName : string)
                             (requiredChange effectiveAvailable : Z)
| ItemDetailsNotFound (itemId' : string)
| ActualReturnDateRequired
| FailedToUpdate
| FailedToCancel
| FailedToDelete
| CurrentStockExceedsInitial
| StockAndPriceCannotBeNegative
| ItemNotFoundOrNoChanges
| StockBecameUnavailableDuringTransaction.

Inductive Response (A : Type) :=
| Json (statusCode : Z) (value : A)
| Failed (statusCode : Z) (error : ApiError).
Arguments Json {A} statusCode value.
Arguments Failed {A} statusCode error.

Definition statusCodeOf {A} (r : Response A) : Z :=
  match r with
  | Json c _ => c
  | Failed c _ => c
  end.

(** A JSON body read as [Partial<RentalApplication>]: each key is present
    or not; the optional fields may be present with the value null. *)
Record ApplicationPatch := mkPatch {
  patchId : option string;
  patchApplicantName : option string;
  patchPhoneNumber : option string;
  patchStudentId : option string;
  patchAccountHolderName : option string;
  patchAccountNumber : option string;
  patchRentalDate : option string;
  patchReturnDate : option string;
  patchItems : option (list SelectedItemEntry);
  patchTotalItemCost : option Z;
  patchDeposit : option Z;
  patchTotalAmount : option Z;
  patchStatus : option RentalStatus;
  patchApplicationDate : option string;
  patchRentalStaff : option (option string);
  patchReturnStaff : option (option string);
  patchActualReturnDate : option (option string);
  patchDepositRefunded : option bool
}.

(** [!s] for a string that may be missing. *)
Definition falsyString (s : option string) : bool :=
  match s with
  | None => true
  | Some v => String.eqb v ""
  end.

(** [{ ...fullOriginalApp, ...adminUpdatedData, id: fullOriginalApp.id }] *)
Definition mergePatch (original : ApplicationRow) (p : ApplicationPatch)
  : ApplicationRow :=
  mkRow (appId original)
        (default (applicantName original) (patchApplicantName p))
        (default (phoneNumber original) (patchPhoneNumber p))
        (default (studentId original) (patchStudentId p))
        (default (accountHolderName original) (patchAccountHolderName p))
        (default (accountNumber original) (patchAccountNumber p))
        (default (rentalDate original) (patchRentalDate p))
        (default (returnDate original) (patchReturnDate p))
        (default (totalItemCost original) (patchTotalItemCost p))
        (default (deposit original) (patchDeposit p))
        (default (totalAmount original) (patchTotalAmount p))
        (default (status original) (patchStatus p))
        (default (applicationDate original) (patchApplicationDate p))
        (default (rentalStaff original) (patchRentalStaff p))
        (default (returnStaff original) (patchReturnStaff p))
        (default (actualReturnDate original) (patchActualReturnDate p))
        (default (depositRefunded original) (patchDepositRefunded p)).

(** [{ ...fullOriginalApp, rentalDate, returnDate }] *)
Definition withDates (original : ApplicationRow) (rentalDate' returnDate' : string)
  : ApplicationRow :=
  mkRow (appId original) (applicantName original) (phoneNumber original)
        (studentId original) (accountHolderName original)
        (accountNumber original) rentalDate' returnDate'
        (totalItemCost original) (deposit original) (totalAmount original)
        (status original) (applicationDate original) (rentalStaff original)
        (returnStaff original) (actualReturnDate original)
        (depositRefunded original).

(** [calculateRentalCosts] of the worker (the same in both variants); the
    [isNaN] guards never fire on integers. *)
Definition calculateRentalCosts (selectedItems : list SelectedItemEntry)
           (allDbItems : list Item) (env : Env) : Z * Z :=
  let totalItemCostCalc :=
    fold_left (fun total selected =>
                 match findItem (itemId selected) allDbItems with
                 | Some itemDetails =>
                     total + price itemDetails * quantity selected
                 | None => total
                 end) selectedItems 0 in
  (totalItemCostCalc, totalItemCostCalc + FIXED_DEPOSIT_AMOUNT_FN env).

(** The [stockChange] of one item in [manageRentalUpdate], before the stock
    check and the cap: positive to give stock back, negative to take it. *)
Definition stockChangeFor (oldStatusIsReserved newStatusIsReserved : bool)
           (oldQty newQty : Z) : Z :=
  if oldStatusIsReserved && negb newStatusIsReserved then
    if oldQty >? 0 then oldQty else 0
  else if negb oldStatusIsReserved && newStatusIsReserved then
    if newQty >? 0 then - newQty else 0
  else if oldStatusIsReserved && newStatusIsReserved then
    oldQty - newQty
  else 0.

(** The application [manageRentalUpdate] returns:
    [{ ...updatedAppCore, id: originalApp.id, items: newItems,
       totalItemCost, deposit, totalAmount,
       depositRefunded: !!updatedAppCore.depositRefunded }] *)
Definition finalAppOf (env : Env) (originalApp : RentalApplication)
           (updatedAppCore : ApplicationRow) (newItems : list SelectedItemEntry)
           (allDbItems : list Item) : RentalApplication :=
  let costs := calculateRentalCosts newItems allDbItems env in
  mkApp (mkRow (appId originalApp) (applicantName updatedAppCore)
               (phoneNumber updatedAppCore) (studentId updatedAppCore)
               (accountHolderName updatedAppCore) (accountNumber updatedAppCore)
               (rentalDate updatedAppCore) (returnDate updatedAppCore)
               (fst costs) (FIXED_DEPOSIT_AMOUNT_FN env)
               (fst costs + FIXED_DEPOSIT_AMOUNT_FN env)
               (status updatedAppCore) (applicationDate updatedAppCore)
               (rentalStaff updatedAppCore) (returnStaff updatedAppCore)
               (actualReturnDate updatedAppCore)
               (depositRefunded updatedAppCore))
        newItems.

(** The statements [manageRentalUpdate] pushes after the stock updates: the
    old item rows are deleted, the new ones inserted, the application row
    rewritten. *)
Definition ledgerOperations (originalApp finalApp : RentalApplication)
           (newItems : list SelectedItemEntry) : list Statement :=
  DeleteApplicationItems (appId originalApp)
  :: map (fun item => InsertApplicationItem (appId originalApp) (itemId item)
                                            (quantity item)) newItems
  ++ [UpdateApplication finalApp].

(** [{ ...row, items, depositRefunded: ... }]: the stored application as the
    handlers read it back. *)
Definition fullOriginalAppOf (originalAppFromDb : ApplicationRow)
           (originalItemsFromDb : list SelectedItemEntry) : RentalApplication :=
  mkApp originalAppFromDb originalItemsFromDb.

End WorkerBase.

(** ** The worker, direct-handler variant ([src/worker.ts], lines 703-1829) *)

Module Worker.
Import D1 WorkerBase.

(** The stock part of the loop body of [manageRentalUpdate] for an item
    that exists: the statement it pushes, if any, and the stock map after
    it; or the error it throws. *)
Definition stockUpdateFor (itemDetails : Item) (itemId' : string)
           (oldQty stockChange : Z) (currentItemStockMap : gmap string Z)
  : ApiError + (list Statement * gmap string Z) :=
  if negb (stockChange =? 0) then
    let currentItemStock := default 0 (currentItemStockMap !! itemId') in
    let futureStock := currentItemStock + stockChange in
    if futureStock <? 0 then
      inl (InsufficientStockForUpdate (name itemDetails) (- stockChange)
             (currentItemStock + (if stockChange <? 0 then 0 else oldQty)))
    else
      let initialItemStock := initialStock itemDetails in
      let stockChange' :=
        if (futureStock >? initialItemStock) && (stockChange >? 0)
        then initialItemStock - currentItemStock
        else stockChange in
      if negb (stockChange' =? 0) then
        inr ([IncreaseStock stockChange' itemId'],
             <[itemId' := currentItemStock + stockChange']> currentItemStockMap)
      else inr ([], currentItemStockMap)
  else inr ([], currentItemStockMap).

(** [for (const itemId of allInvolvedItemIds)]: an item the database does
    not have is skipped. *)
Fixpoint stockUpdates (oldStatusIsReserved newStatusIsReserved : bool)
         (oldItems newItems : list SelectedItemEntry) (allDbItems : list Item)
         (involved : list string) (currentItemStockMap : gmap string Z)
  : ApiError + list Statement :=
  match involved with
  | [] => inr []
  | itemId' :: rest =>
      let oldQty := qtyOf itemId' oldItems in
      let newQty := qtyOf itemId' newItems in
      match findItem itemId' allDbItems with
      | None =>
          stockUpdates oldStatusIsReserved newStatusIsReserved oldItems
            newItems allDbItems rest currentItemStockMap
      | Some itemDetails =>
          match stockUpdateFor itemDetails itemId' oldQty
                  (stockChangeFor oldStatusIsReserved newStatusIsReserved
                     oldQty newQty) currentItemStockMap with
          | inl e => inl e
          | inr (ops, stockMap') =>
              match stockUpdates oldStatusIsReserved newStatusIsReserved
                      oldItems newItems allDbItems rest stockMap' with
              | inl e => inl e
              | inr ops' => inr (ops ++ ops')
              end
          end
      end
  end.

(** [manageRentalUpdate]: the final application and the operations of the
    batch, or the error thrown. *)
Definition manageRentalUpdate (env : Env) (originalApp : RentalApplication)
           (updatedAppCore : ApplicationRow) (newItems : list SelectedItemEntry)
           (db : Database) : ApiError + (RentalApplication * list Statement) :=
  let allDbItems := Items db in
  let currentItemStockMap := stockMapOf allDbItems in
  let oldStatusIsReserved := isReserved (status originalApp) in
  let newStatusIsReserved := isReserved (status updatedAppCore) in
  match stockUpdates oldStatusIsReserved newStatusIsReserved
          (items originalApp) newItems allDbItems
          (allInvolvedItemIds (items originalApp) newItems)
          currentItemStockMap with
  | inl e => inl e
  | inr stockOps =>
      let finalApp :=
        finalAppOf env originalApp updatedAppCore newItems allDbItems in
      inr (finalApp, stockOps ++ ledgerOperations originalApp finalApp newItems)
  end.

(** The status of the response to an error caught around
    [manageRentalUpdate]: 409 when the message tells of insufficient
    stock, 500 otherwise. *)
Definition caughtStatus (e : ApiError) : Z :=
  match e with
  | InsufficientStockForUpdate _ _ _ => 409
  | _ => 500
  end.

(** *** POST /api/rentals/apply *)

(** The loop that validates the stock and prepares the guarded
    decrements. *)
Fixpoint prepareStockAdjustments (selected : list SelectedItemEntry)
         (allDbItems : list Item) : ApiError + list Statement :=
  match selected with
  | [] => inr []
  | selectedItem :: rest =>
      match findItem (itemId selectedItem) allDbItems with
      | None => inl (ItemWithIdNotFound (itemId selectedItem))
      | Some itemDetail =>
          if currentStock itemDetail <? quantity selectedItem then
            inl (InsufficientStock (name itemDetail) (quantity selectedItem)
                   (currentStock itemDetail))
          else
            match prepareStockAdjustments rest allDbItems with
            | inl e => inl e
            | inr ops =>
                inr (DecreaseStockGuarded (quantity selectedItem)
                       (itemId selectedItem) (quantity selectedItem) :: ops)
            end
      end
  end.

(** [{ ...appData, id, applicationDate, status: PENDING, totalItemCost,
       deposit, totalAmount }] *)
Definition newApplicationOf (env : Env) (appData : RentalApplication)
           (newId today : string) (allDbItems : list Item) : RentalApplication :=
  let costs := calculateRentalCosts (items appData) allDbItems env in
  mkApp (mkRow newId (applicantName appData) (phoneNumber appData)
               (studentId appData) (accountHolderName appData)
               (accountNumber appData) (rentalDate appData)
               (returnDate appData) (fst costs) (FIXED_DEPOSIT_AMOUNT_FN env)
               (fst costs + FIXED_DEPOSIT_AMOUNT_FN env) PENDING today
               (rentalStaff appData) (returnStaff appData)
               (actualReturnDate appData) (depositRefunded appData))
        (items appData).

(** The handler up to its batch, on the items it has read: the new
    application and [batchOps], or the 400 response. *)
Definition prepareApplication (env : Env) (appData : RentalApplication)
           (newId today : string) (allDbItems : list Item)
  : ApiError + (RentalApplication * list Statement) :=
  match prepareStockAdjustments (items appData) allDbItems with
  | inl e => inl e
  | inr stockAdjustments =>
      let newApplication := newApplicationOf env appData newId today allDbItems in
      inr (newApplication,
           InsertApplication newApplication
           :: map (fun item => InsertApplicationItem (appId newApplication)
                                 (itemId item) (quantity item))
                  (items newApplication)
           ++ stockAdjustments)
  end.

(** [await env.DB.batch(batchOps)] and the response. *)
Definition commitApplication (prepared : RentalApplication * list Statement)
           (db : Database) : Response RentalApplication * Database :=
  match batch (snd prepared) db with
  | Some db' => (Json 201 (fst prepared), db')
  | None => (Failed 409 StockBecameUnavailable, db)
  end.

Definition postRentalsApply (env : Env) (appData : RentalApplication)
           (newId today : string) (db : Database)
  : Response RentalApplication * Database :=
  match prepareApplication env appData newId today (Items db) with
  | inl e => (Failed 400 e, db)
  | inr prepared => commitApplication prepared db
  end.

(** Two requests to POST /api/rentals/apply in flight.  A request awaits
    twice: the SELECT of the items and the batch.  Between the two the
    other request may run. *)
Inductive RequestState :=
| Received (appData : RentalApplication) (newId today : string)
| Prepared (prepared : RentalApplication * list Statement)
| Responded (response : Response RentalApplication).

Definition stepRequest (env : Env) (r : RequestState) (db : Database)
  : RequestState * Database :=
  match r with
  | Received appData newId today =>
      match prepareApplication env appData newId today (Items db) with
      | inl e => (Responded (Failed 400 e), db)
      | inr prepared => (Prepared prepared, db)
      end
  | Prepared prepared =>
      let '(response, db') := commitApplication prepared db in
      (Responded response, db')
  | Responded _ => (r, db)
  end.

(** A schedule names, step by step, the request that runs next: [false]
    the first, [true] the second. *)
Fixpoint runSchedule (env : Env) (schedule : list bool)
         (first second : RequestState) (db : Database)
  : RequestState * RequestState * Database :=
  match schedule with
  | [] => (first, second, db)
  | false :: rest =>
      let '(first', db') := stepRequest env first db in
      runSchedule env rest first' second db'
  | true :: rest =>
      let '(second', db') := stepRequest env second db in
      runSchedule env rest first second' db'
  end.

(** *** PUT /api/rentals/:id *)

Definition invalidEdit (body : ApplicationPatch) : bool :=
  match patchItems body with
  | None => true
  | Some newItemsData => (length newItemsData =? 0)%nat
  end
  || falsyString (patchRentalDate body)
  || falsyString (patchReturnDate body)
  || String.ltb (default "" (patchReturnDate body))
                (default "" (patchRentalDate body)).

Definition putRental (env : Env) (rentalId : string) (body : ApplicationPatch)
           (db : Database) : Response RentalApplication * Database :=
  if invalidEdit body then (Failed 400 InvalidData, db)
  else
    let newItemsData := default [] (patchItems body) in
    let rentalDate' := default "" (patchRentalDate body) in
    let returnDate' := default "" (patchReturnDate body) in
    match selectApplication rentalId db with
    | None => (Failed 404 ApplicationNotFound, db)
    | Some originalAppFromDb =>
        match status originalAppFromDb with
        | PENDING =>
            let fullOriginalApp :=
              fullOriginalAppOf originalAppFromDb (selectItemsOf rentalId db) in
            let updatedAppCore :=
              withDates fullOriginalApp rentalDate' returnDate' in
            match manageRentalUpdate env fullOriginalApp updatedAppCore
                    newItemsData db with
            | inl e => (Failed (caughtStatus e) e, db)
            | inr (finalApp, dbOperations) =>
                match batch dbOperations db with
                | Some db' => (Json 200 finalApp, db')
                | None => (Failed 500 FailedToUpdate, db)
                end
            end
        | _ => (Failed 403 OnlyPendingCanBeModified, db)
        end
    end.

(** *** POST /api/rentals/:id/cancel *)

Definition restoreOperations (itemsToRestore : list SelectedItemEntry)
  : list Statement :=
  map (fun item => IncreaseStock (quantity item) (itemId item)) itemsToRestore.

Definition postRentalCancel (rentalId : string) (db : Database)
  : Response unit * Database :=
  match selectApplication rentalId db with
  | None => (Failed 404 ApplicationNotFound, db)
  | Some appToCancel =>
      match status appToCancel with
      | PENDING =>
          let itemsToRestore := selectItemsOf rentalId db in
          let dbOperations :=
            restoreOperations itemsToRestore
            ++ [DeleteApplicationItems rentalId; DeleteApplication rentalId] in
          match batch dbOperations db with
          | Some db' => (Json 200 tt, db')
          | None => (Failed 500 FailedToCancel, db)
          end
      | _ => (Failed 403 OnlyPendingCanBeCancelled, db)
      end
  end.

(** *** PUT /api/admin/rentals/:id (after the credential check) *)

Definition putAdminRental (env : Env) (rentalId : string)
           (adminUpdatedData : ApplicationPatch) (db : Database)
  : Response RentalApplication * Database :=
  match selectApplication rentalId db with
  | None => (Failed 404 ApplicationNotFound, db)
  | Some originalAppFromDb =>
      let fullOriginalApp :=
        fullOriginalAppOf originalAppFromDb (selectItemsOf rentalId db) in
      let newItemsToUse := items fullOriginalApp in
      let updatedAppCore := mergePatch fullOriginalApp adminUpdatedData in
      if bool_decide (status updatedAppCore = RETURNED)
         && falsyString (actualReturnDate updatedAppCore)
      then (Failed 400 ActualReturnDateRequired, db)
      else
        match manageRentalUpdate env fullOriginalApp updatedAppCore
                newItemsToUse db with
        | inl e => (Failed (caughtStatus e) e, db)
        | inr (finalApp, dbOperations) =>
            match batch dbOperations db with
            | Some db' => (Json 200 finalApp, db')
            | None => (Failed 500 FailedToUpdate, db)
            end
        end
  end.

(** *** DELETE /api/admin/rentals/:id (after the credential check) *)

Definition deleteAdminRental (rentalId : string) (db : Database)
  : Response unit * Database :=
  match selectApplication rentalId db with
  | None => (Failed 404 ApplicationNotFound, db)
  | Some appToDelete =>
      let restore :=
        if isReserved (status appToDelete)
        then restoreOperations (selectItemsOf rentalId db)
        else [] in
      let dbOperations :=
        restore ++ [DeleteApplicationItems rentalId; DeleteApplication rentalId] in
      match batch dbOperations db with
      | Some db' => (Json 204 tt, db')
      | None => (Failed 500 FailedToDelete, db)
      end
  end.

(** *** PUT /api/items/:id (after the credential check) *)

Definition putItem (itemId' : string) (updatedItemData : Item) (db : Database)
  : Response Item * Database :=
  if currentStock updatedItemData >? initialStock updatedItemData then
    (Failed 400 CurrentStockExceedsInitial, db)
  else if (currentStock updatedItemData <? 0)
          || (initialStock updatedItemData <? 0)
          || (price updatedItemData <? 0) then
    (Failed 400 StockAndPriceCannotBeNegative, db)
  else
    match exec (UpdateItem updatedItemData itemId') db with
    | Some db' =>
        if hasItem itemId' db then (Json 200 updatedItemData, db')
        else (Failed 404 ItemNotFoundOrNoChanges, db)
    | None => (Failed 500 FailedToUpdate, db)
    end.

End Worker.

(** ** The worker, itty-router variant ([src/worker.ts], lines 1-702) *)

Module WorkerV1.
Import D1 WorkerBase.

(** The stock part of the loop body of [manageRentalUpdate]: here the cap
    does not look at the sign of the change. *)
Definition stockUpdateFor (itemDetails : Item) (itemId' : string)
           (oldQty stockChange : Z) (currentItemStockMap : gmap string Z)
  : ApiError + (list Statement * gmap string Z) :=
  if negb (stockChange =? 0) then
    let currentItemStock := default 0 (currentItemStockMap !! itemId') in
    let futureStock := currentItemStock + stockChange in
    if futureStock <? 0 then
      inl (InsufficientStockForUpdate (name itemDetails) (- stockChange)
             (currentItemStock + oldQty))
    else
      let initialItemStock := initialStock itemDetails in
      let stockChange' :=
        if futureStock >? initialItemStock
        then initialItemStock - currentItemStock
        else stockChange in
      if negb (stockChange' =? 0) then
        inr ([IncreaseStock stockChange' itemId'],
             <[itemId' := currentItemStock + stockChange']> currentItemStockMap)
      else inr ([], currentItemStockMap)
  else inr ([], currentItemStockMap).

(** [for (const itemId of allInvolvedItemIds)]: an item the database does
    not have makes the function throw. *)
Fixpoint stockUpdates (oldStatusIsReserved newStatusIsReserved : bool)
         (oldItems newItems : list SelectedItemEntry) (allDbItems : list Item)
         (involved : list string) (currentItemStockMap : gmap string Z)
  : ApiError + list Statement :=
  match involved with
  | [] => inr []
  | itemId' :: rest =>
      let oldQty := qtyOf itemId' oldItems in
      let newQty := qtyOf itemId' newItems in
      match findItem itemId' allDbItems with
      | None => inl (ItemDetailsNotFound itemId')
      | Some itemDetails =>
          match stockUpdateFor itemDetails itemId' oldQty
                  (stockChangeFor oldStatusIsReserved newStatusIsReserved
                     oldQty newQty) currentItemStockMap with
          | inl e => inl e
          | inr (ops, stockMap') =>
              match stockUpdates oldStatusIsReserved newStatusIsReserved
                      oldItems newItems allDbItems rest stockMap' with
              | inl e => inl e
              | inr ops' => inr (ops ++ ops')
              end
          end
      end
  end.

Definition manageRentalUpdate (env : Env) (originalApp : RentalApplication)
           (updatedAppCore : ApplicationRow) (newItems : list SelectedItemEntry)
           (db : Database) : ApiError + (RentalApplication * list Statement) :=
  let allDbItems := Items db in
  let currentItemStockMap := stockMapOf allDbItems in
  let oldStatusIsReserved := isReserved (status originalApp) in
  let newStatusIsReserved := isReserved (status updatedAppCore) in
  match stockUpdates oldStatusIsReserved newStatusIsReserved
          (items originalApp) newItems allDbItems
          (allInvolvedItemIds (items originalApp) newItems)
          currentItemStockMap with
  | inl e => inl e
  | inr stockOps =>
      let finalApp :=
        finalAppOf env originalApp updatedAppCore newItems allDbItems in
      inr (finalApp, stockOps ++ ledgerOperations originalApp finalApp newItems)
  end.

Definition caughtStatus (e : ApiError) : Z :=
  match e with
  | InsufficientStockForUpdate _ _ _ => 409
  | _ => 500
  end.

(** *** PUT /api/rentals/:id *)

Definition invalidEdit (body : ApplicationPatch) : bool :=
  match patchItems body with
  | None => true
  | Some newItemsData => (length newItemsData =? 0)%nat
  end
  || falsyString (patchRentalDate body)
  || falsyString (patchReturnDate body)
  || String.ltb (default "" (patchReturnDate body))
                (default "" (patchRentalDate body)).

Definition putRental (env : Env) (rentalId : string) (body : ApplicationPatch)
           (db : Database) : Response RentalApplication * Database :=
  if invalidEdit body then (Failed 400 InvalidData, db)
  else
    let newItemsData := default [] (patchItems body) in
    let rentalDate' := default "" (patchRentalDate body) in
    let returnDate' := default "" (patchReturnDate body) in
    match selectApplication rentalId db with
    | None => (Failed 404 ApplicationNotFound, db)
    | Some originalAppFromDb =>
        match status originalAppFromDb with
        | PENDING =>
            let fullOriginalApp :=
              fullOriginalAppOf originalAppFromDb (selectItemsOf rentalId db) in
            let updatedAppCore :=
              withDates fullOriginalApp rentalDate' returnDate' in
            match manageRentalUpdate env fullOriginalApp updatedAppCore
                    newItemsData db with
            | inl e => (Failed (caughtStatus e) e, db)
            | inr (finalApp, dbOperations) =>
                match batch dbOperations db with
                | Some db' => (Json 200 finalApp, db')
                | None => (Failed 500 FailedToUpdate, db)
                end
            end
        | _ => (Failed 403 OnlyPendingCanBeModified, db)
        end
    end.

(** *** PUT /api/admin/rentals/:id (behind [authMiddleware]) *)

Definition putAdminRental (env : Env) (rentalId : string)
           (adminUpdatedData : ApplicationPatch) (db : Database)
  : Response RentalApplication * Database :=
  match selectApplication rentalId db with
  | None => (Failed 404 ApplicationNotFound, db)
  | Some originalAppFromDb =>
      let fullOriginalApp :=
        fullOriginalAppOf originalAppFromDb (selectItemsOf rentalId db) in
      (* adminUpdatedData.items || fullOriginalApp.items *)
      let newItemsToUse :=
        default (items fullOriginalApp) (patchItems adminUpdatedData) in
      let updatedAppCore := mergePatch fullOriginalApp adminUpdatedData in
      if bool_decide (status updatedAppCore = RETURNED)
         && falsyString (actualReturnDate updatedAppCore)
      then (Failed 400 ActualReturnDateRequired, db)
      else
        match manageRentalUpdate env fullOriginalApp updatedAppCore
                newItemsToUse db with
        | inl e => (Failed (caughtStatus e) e, db)
        | inr (finalApp, dbOperations) =>
            match batch dbOperations db with
            | Some db' => (Json 200 finalApp, db')
            | None => (Failed 500 FailedToUpdate, db)
            end
        end
  end.

End WorkerV1.

(** ** Ledgers, stock changes and the invariants of the two stores *)

(** The stock of every item moved by [change] of its identifier. *)
Definition applyStockChange (change : string -> Z) (allItems : list Item)
  : list Item :=
  map (fun item => withCurrentStock item (currentStock item + change (id item)))
      allItems.

Definition applicationIds (ledger : list RentalApplication) : list string :=
  map (fun a : RentalApplication => appId a) ledger.

Definition findApplication (applicationId : string)
           (ledger : list RentalApplication) : option RentalApplication :=
  find (fun r : RentalApplication => String.eqb (appId r) applicationId) ledger.

Definition replaceApplication (newApp : RentalApplication)
           (ledger : list RentalApplication) : list RentalApplication :=
  map (fun a : RentalApplication =>
         if String.eqb (appId a) (appId newApp) then newApp else a) ledger.

Definition removeApplication (applicationId : string)
           (ledger : list RentalApplication) : list RentalApplication :=
  List.filter (fun r : RentalApplication =>
                 negb (String.eqb (appId r) applicationId)) ledger.

Definition wellFormedLedger (ledger : list RentalApplication) : Prop :=
  NoDup (applicationIds ledger)
  /\ Forall (fun a : RentalApplication => wellFormedEntries (items a)) ledger.

(** Every entry names an item of the inventory. *)
Definition itemsResolve (allItems : list Item) (entries : list SelectedItemEntry)
  : Prop :=
  Forall (fun e => is_Some (findItem (itemId e) allItems)) entries.

(** The consistent states of the localStorage service: identifiers are
    unique, selections are well formed, a reserved application names items
    that exist, and every item obeys the conservation law. *)
Definition consistentStorage (s : DataService.Storage) : Prop :=
  NoDup (map id (DataService.kaistWelfareItems s))
  /\ wellFormedLedger (DataService.kaistWelfareRentals s)
  /\ Forall (fun a : RentalApplication =>
               isReserved (status a) = true ->
               itemsResolve (DataService.kaistWelfareItems s) (items a))
            (DataService.kaistWelfareRentals s)
  /\ Forall (conservedItem (DataService.kaistWelfareRentals s))
            (DataService.kaistWelfareItems s).

(** The consistent states of the database: the primary keys and the
    foreign key of the junction table to the applications hold, quantities
    are not negative, and every item obeys the conservation law against
    the ledger the database holds. *)
Definition consistentDatabase (db : D1.Database) : Prop :=
  NoDup (map id (D1.Items db))
  /\ wellFormedLedger (D1.ledgerOf db)
  /\ Forall (fun r => D1.hasApplication (D1.rentalApplicationId r) db = true)
            (D1.RentalApplicationItems db)
  /\ Forall (conservedItem (D1.ledgerOf db)) (D1.Items db).

(** The core operations of the localStorage service.  The user edit and
    the admin edit both call [updateRentalApplication]. *)
Inductive storageStep (fixedDeposit : Z)
  : DataService.Storage -> DataService.Storage -> Prop :=
| StorageCreate (appData : RentalApplication) (newId today : string) s :
    wellFormedEntries (items appData) ->
    newId ∉ applicationIds (DataService.kaistWelfareRentals s) ->
    storageStep fixedDeposit s
      (DataService.storageAfter
         (DataService.addRentalApplication fixedDeposit appData newId today s))
| StorageEdit (updatedApp : RentalApplication) s :
    wellFormedEntries (items updatedApp) ->
    storageStep fixedDeposit s
      (DataService.storageAfter
         (DataService.updateRentalApplication fixedDeposit updatedApp s))
| StorageCancel (applicationId : string) s :
    storageStep fixedDeposit s
      (DataService.storageAfter
         (DataService.cancelRentalApplication applicationId s)).

(** The core operations of the worker (direct-handler variant). *)
Inductive workerStep (env : WorkerBase.Env)
  : D1.Database -> D1.Database -> Prop :=
| WorkerCreate (appData : RentalApplication) (newId today : string) db :
    wellFormedEntries (items appData) ->
    workerStep env db (snd (Worker.postRentalsApply env appData newId today db))
| WorkerUserEdit (rentalId : string) (body : WorkerBase.ApplicationPatch) db :
    wellFormedEntries (default [] (WorkerBase.patchItems body)) ->
    workerStep env db (snd (Worker.putRental env rentalId body db))
| WorkerUserCancel (rentalId : string) db :
    workerStep env db (snd (Worker.postRentalCancel rentalId db))
| WorkerAdminEdit (rentalId : string) (body : WorkerBase.ApplicationPatch) db :
    workerStep env db (snd (Worker.putAdminRental env rentalId body db))
| WorkerAdminDelete (rentalId : string) db :
    workerStep env db (snd (Worker.deleteAdminRental rentalId db)).

(** * Vocabulary of the statements *)

(** The total the specification describes: the sum of price times quantity
    over the entries whose item resolves in the price list. *)
Definition resolves (priceList : list Item) (e : SelectedItemEntry) : bool :=
  match findItem (itemId e) priceList with
  | Some _ => true
  | None => false
  end.

Definition priceOf (priceList : list Item) (e : SelectedItemEntry) : Z :=
  match findItem (itemId e) priceList with
  | Some item => price item
  | None => 0
  end.

Definition specTotalItemCost (selected : list SelectedItemEntry)
           (priceList : list Item) : Z :=
  foldr Z.add 0
        (map (fun e => priceOf priceList e * quantity e)
             (List.filter (resolves priceList) selected)).

(** The derived fields of an application are the costs of its items at the
    prices of [priceList] and the fixed deposit. *)
Definition costsRecomputed (fixedDeposit : Z) (priceList : list Item)
           (app : RentalApplication) : Prop :=
  totalItemCost app = specTotalItemCost (items app) priceList
  /\ deposit app = fixedDeposit
  /\ totalAmount app = specTotalItemCost (items app) priceList + fixedDeposit.

(** The cap in the words of the specification: a positive change that
    would lift the stock above the initial stock is cut down to what is
    missing; any other change is left as it is. *)
Definition cappedChange (current initial change : Z) : Z :=
  if (change >? 0) && (current + change >? initial)
  then initial - current
  else change.

(** What the loop body pushes and records for a change it has settled. *)
Definition writtenFor (itemId' : string) (current change : Z)
           (stockMap : gmap string Z)
  : list D1.Statement * gmap string Z :=
  if change =? 0 then ([], stockMap)
  else ([D1.IncreaseStock change itemId'],
        <[itemId' := current + change]> stockMap).

(** The items of the storage after [adjustStockForItem] has written
    [newStock] for the item it found. *)
Definition storageWithStock (itemId' : string) (item : Item) (newStock : Z)
           (s : DataService.Storage) : DataService.Storage :=
  DataService.setItems
    (map (fun i => if String.eqb (id i) itemId'
                   then withCurrentStock item newStock else i)
         (DataService.getItems s)) s.

(** The change that moves one item only. *)
Definition only (i : string) (d : Z) : string -> Z :=
  fun k => if String.eqb k i then d else 0.

Section ServiceVocabulary.

Import DataService.

(** The signed change an adjustment asks for. *)
Definition signedQuantity (adj : StockAdjustment) : Z :=
  match adjOperation adj with
  | decrease => - adjQuantity adj
  | increase => adjQuantity adj
  end.

Definition adjChange (adjs : list StockAdjustment) (i : string) : Z :=
  fold_right (fun adj acc => only (adjItemId adj) (signedQuantity adj) i + acc)
             0 adjs.

(** An adjustment fits the inventory when its item exists and the change
    neither runs out of stock nor passes the initial stock. *)
Definition adjFits (allItems : list Item) (adj : StockAdjustment) : Prop :=
  exists item,
    findItem (adjItemId adj) allItems = Some item
    /\ match adjOperation adj with
       | decrease => adjQuantity adj <= currentStock item
       | increase => currentStock item + adjQuantity adj <= initialStock item
       end.

Definition asAdjustment (op : Operation) (e : SelectedItemEntry)
  : StockAdjustment :=
  mkAdj (itemId e) (quantity e) op.

(** The application [addRentalApplication] builds. *)
Definition createdApplication (fixedDeposit : Z) (appData : RentalApplication)
           (newId today : string) (allItems : list Item) : RentalApplication :=
  mkApp (withDerived fixedDeposit appData newId today PENDING
           (fst (calculateRentalCosts fixedDeposit (items appData) allItems))
           (snd (calculateRentalCosts fixedDeposit (items appData) allItems)))
        (items appData).

(** The application [updateRentalApplication] stores. *)
Definition updatedApplication (fixedDeposit : Z) (updatedApp : RentalApplication)
           (allItems : list Item) : RentalApplication :=
  mkApp (withDerived fixedDeposit updatedApp (appId updatedApp)
           (applicationDate updatedApp) (status updatedApp)
           (fst (calculateRentalCosts fixedDeposit (items updatedApp) allItems))
           (snd (calculateRentalCosts fixedDeposit (items updatedApp) allItems)))
        (items updatedApp).

End ServiceVocabulary.

Section DatabaseVocabulary.

Import D1.

(** The statements that only add to the stock. *)
Definition increaseOf (st : Statement) : option (string * Z) :=
  match st with
  | IncreaseStock amount i => Some (i, amount)
  | _ => None
  end.

Definition opsChange (ops : list Statement) (k : string) : Z :=
  foldr (fun st acc =>
           match increaseOf st with
           | Some (i, amount) => only i amount k + acc
           | None => acc
           end) 0 ops.

(** The rows of the junction table of one application. *)
Definition rowsOf (applicationId : string) (entries : list SelectedItemEntry)
  : list ApplicationItemRow :=
  map (fun e => mkItemRow applicationId (itemId e) (quantity e)) entries.

Definition insertsOf (applicationId : string) (entries : list SelectedItemEntry)
  : list Statement :=
  map (fun item => InsertApplicationItem applicationId (itemId item)
                                         (quantity item)) entries.

End DatabaseVocabulary.

Section WorkerVocabulary.

Import D1 WorkerBase.

Definition decrementsOf (selected : list SelectedItemEntry) : list Statement :=
  map (fun e => DecreaseStockGuarded (quantity e) (itemId e) (quantity e))
      selected.

(** An entry the inventory can serve. *)
Definition inStock (allItems : list Item) (e : SelectedItemEntry) : Prop :=
  exists item, findItem (itemId e) allItems = Some item
               /\ quantity e <= currentStock item.

End WorkerVocabulary.

(** The fields a user edit may not change. *)
Definition sameOutsideEdit (stored persisted : ApplicationRow) : Prop :=
  appId persisted = appId stored
  /\ status persisted = status stored
  /\ applicantName persisted = applicantName stored
  /\ studentId persisted = studentId stored
  /\ phoneNumber persisted = phoneNumber stored
  /\ accountHolderName persisted = accountHolderName stored
  /\ accountNumber persisted = accountNumber stored
  /\ applicationDate persisted = applicationDate stored
  /\ rentalStaff persisted = rentalStaff stored
  /\ returnStaff persisted = returnStaff stored
  /\ actualReturnDate persisted = actualReturnDate stored
  /\ depositRefunded persisted = depositRefunded stored.

(** The body of a request with every key but [items], [rentalDate] and
    [returnDate] taken away. *)
Definition editFieldsOf (body : WorkerBase.ApplicationPatch)
  : WorkerBase.ApplicationPatch :=
  WorkerBase.mkPatch None None None None None None
    (WorkerBase.patchRentalDate body) (WorkerBase.patchReturnDate body)
    (WorkerBase.patchItems body)
    None None None None None None None None None.

(** The body of a request without its [items]. *)
Definition withoutItems (body : WorkerBase.ApplicationPatch)
  : WorkerBase.ApplicationPatch :=
  WorkerBase.mkPatch
    (WorkerBase.patchId body) (WorkerBase.patchApplicantName body)
    (WorkerBase.patchPhoneNumber body) (WorkerBase.patchStudentId body)
    (WorkerBase.patchAccountHolderName body)
    (WorkerBase.patchAccountNumber body) (WorkerBase.patchRentalDate body)
    (WorkerBase.patchReturnDate body) None
    (WorkerBase.patchTotalItemCost body) (WorkerBase.patchDeposit body)
    (WorkerBase.patchTotalAmount body) (WorkerBase.patchStatus body)
    (WorkerBase.patchApplicationDate body) (WorkerBase.patchRentalStaff body)
    (WorkerBase.patchReturnStaff body) (WorkerBase.patchActualReturnDate body)
    (WorkerBase.patchDepositRefunded body).

(** The request of the counterexample: one item of stock 5 out of 10, held
    by the pending application "r1", and an admin body that asks for 3. *)
Definition tent : Item := mkItem "A" "Tent" 10 5 1000 "" "" "ea".

Definition heldRow : ApplicationRow :=
  mkRow "r1" "Kim" "010" "2020" "Kim" "123" "2024-01-01" "2024-01-02"
        5000 10000 15000 PENDING "2024-01-01" None None None false.

Definition heldDatabase : D1.Database :=
  D1.mkDb [tent] [heldRow] [D1.mkItemRow "r1" "A" 5].

Definition askForThree : WorkerBase.ApplicationPatch :=
  WorkerBase.mkPatch None None None None None None None None
    (Some [mkEntry "A" 3]) None None None None None None None None None.

(** The constraints of [schema.sql] on a database: the primary key of the
    items, the two CHECK constraints on their stock, and the foreign key of
    the junction table to the applications. *)
Definition schemaHolds (db : D1.Database) : Prop :=
  NoDup (map id (D1.Items db))
  /\ Forall stockInBounds (D1.Items db)
  /\ Forall (fun r => D1.hasApplication (D1.rentalApplicationId r) db = true)
            (D1.RentalApplicationItems db).

Definition tentInStock : Item := mkItem "A" "Tent" 10 10 1000 "" "" "ea".

Definition freshDatabase : D1.Database := D1.mkDb [tentInStock] [] [].

(** A request body for the entries [selected]. *)
Definition requestFor (selected : list SelectedItemEntry) : RentalApplication :=
  mkApp (mkRow "" "Kim" "010" "2020" "Kim" "123" "2024-01-01" "2024-01-02"
               0 0 0 PENDING "" None None None false)
        selected.

Definition sixTents : RentalApplication := requestFor [mkEntry "A" 6].

Definition createdSix (newId : string) : RentalApplication :=
  mkApp (mkRow newId "Kim" "010" "2020" "Kim" "123" "2024-01-01" "2024-01-02"
               6000 10000 16000 PENDING "2024-01-01" None None None false)
        [mkEntry "A" 6].

Definition tentBelowZero : Item := mkItem "A" "Tent" 10 (-1) 1000 "" "" "ea".

Definition freshStorage : DataService.Storage :=
  DataService.mkStorage [tentInStock] [].

(** One tent, ten in stock; "r1" holds five of them in [heldDatabase]. *)
Definition twoTents : RentalApplication := requestFor [mkEntry "A" 2].

Definition tenTents : RentalApplication := requestFor [mkEntry "A" 10].

Definition elevenTents : RentalApplication := requestFor [mkEntry "A" 11].

Definition threeTentsInMarch : WorkerBase.ApplicationPatch :=
  WorkerBase.mkPatch None (Some "Lee") None None None None
    (Some "2024-03-01") (Some "2024-03-02") (Some [mkEntry "A" 3])
    (Some 1) None None (Some RETURNED) None None None None (Some true).

(** * The rest of the services and of the worker *)

(** ** Item services of [dataService.ts] *)

Module ItemService.
Import DataService.

(** [getItem] *)
Definition getItem (id' : string) (s : Storage) : option Item :=
  findItem id' (getItems s).

(** [addItem].  [itemData] is the object the caller passes; what it
    carries as [id] and [currentStock] is replaced.  [newId] stands for
    the generated identifier. *)
Definition addItem (itemData : Item) (newId : string) (s : Storage)
  : Item * Storage :=
  let allItems := getItems s in
  let newItem :=
    mkItem newId (name itemData) (initialStock itemData)
           (initialStock itemData) (price itemData) (description itemData)
           (imageUrl itemData) (unitName itemData) in
  (newItem, setItems (allItems ++ [newItem]) s).

(** The [Error] of [deleteItem]. *)
Inductive DeleteError := CannotDeleteItemWithActiveRentals.

(** [rentals.some(rental => (PENDING || RENTED) &&
       rental.items.some(itemEntry => itemEntry.itemId === id))] *)
Definition hasActiveRentals (id' : string) (rentals : list RentalApplication)
  : bool :=
  existsb (fun rental : RentalApplication =>
             isReserved (status rental)
             && existsb (fun itemEntry => String.eqb (itemId itemEntry) id')
                        (items rental))
          rentals.

(** [deleteItem]: the storage it leaves, or the error it throws before
    writing anything. *)
Definition deleteItem (id' : string) (s : Storage) : DeleteError + Storage :=
  let rentals := getRentalApplications s in
  if hasActiveRentals id' rentals then inl CannotDeleteItemWithActiveRentals
  else
    inr (setItems (List.filter (fun item => negb (String.eqb (id item) id'))
                               (getItems s)) s).

End ItemService.

(** ** Queries over the rental applications of [dataService.ts] *)

Module RentalService.
Import DataService.

(** [getRentalApplication] *)
Definition getRentalApplication (id' : string) (s : Storage)
  : option RentalApplication :=
  find (fun app : RentalApplication => String.eqb (appId app) id')
       (getRentalApplications s).

Section Dates.

(** [new Date(s).getTime()] on the application dates, which
    [addRentalApplication] writes as valid ISO dates. *)
Variable getTime : string -> Z.

(** [Array.prototype.sort] with the comparator
    [(a, b) => getTime(b.applicationDate) - getTime(a.applicationDate)]:
    the sort is stable. *)
Fixpoint insertNewestFirst (app : RentalApplication)
         (sorted : list RentalApplication) : list RentalApplication :=
  match sorted with
  | [] => [app]
  | b :: rest =>
      if getTime (applicationDate b) >? getTime (applicationDate app)
      then b :: insertNewestFirst app rest
      else app :: b :: rest
  end.

Definition sortNewestFirst (apps : list RentalApplication)
  : list RentalApplication :=
  fold_right insertNewestFirst [] apps.

(** [findRentalApplications] *)
Definition findRentalApplications (name' studentId' phoneNumber' : string)
           (s : Storage) : list RentalApplication :=
  let rentals := getRentalApplications s in
  sortNewestFirst
    (List.filter (fun app : RentalApplication =>
                    String.eqb (applicantName app) name'
                    && String.eqb (studentId app) studentId'
                    && String.eqb (phoneNumber app) phoneNumber')
                 rentals).

End Dates.

(** The object [getAdminDashboardStats] returns (the worker's
    GET /api/admin/dashboard/stats answers with the same four counts). *)
Record DashboardStats := mkStats {
  newRequests : nat;
  dueToday : nat;
  currentlyRented : nat;
  lowStockItems : nat
}.

(** [getAdminDashboardStats]; [today] stands for
    [new Date().toISOString().split('T')[0]]. *)
Definition getAdminDashboardStats (today : string) (s : Storage)
  : DashboardStats :=
  let rentals := getRentalApplications s in
  let allItems := getItems s in
  mkStats
    (length (List.filter (fun r : RentalApplication =>
                            bool_decide (status r = PENDING)) rentals))
    (length (List.filter (fun r : RentalApplication =>
                            bool_decide (status r = RENTED)
                            && String.eqb (returnDate r) today) rentals))
    (length (List.filter (fun r : RentalApplication =>
                            bool_decide (status r = RENTED)) rentals))
    (length (List.filter (fun i => (currentStock i <? 5)
                                   && (initialStock i >? 0)) allItems)).

End RentalService.

(** ** The Items table under the catalog handlers of the worker *)

Module D1Catalog.
Import D1.

(** INSERT INTO Items (id, name, initialStock, currentStock, price,
    description, imageUrl, unit) VALUES (...): the statement fails on the
    primary key and on the CHECK constraints. *)
Definition insertItem (newItem : Item) (db : Database) : option Database :=
  if hasItem (id newItem) db then None
  else if checkItem newItem then
    Some (mkDb (Items db ++ [newItem]) (RentalApplications db)
               (RentalApplicationItems db))
  else None.

(** A row of RentalApplicationItems names the item. *)
Definition isReferenced (itemId' : string) (db : Database) : bool :=
  existsb (fun rai => String.eqb (rowItemId rai) itemId')
          (RentalApplicationItems db).

(** DELETE FROM Items WHERE id = ?: the foreign key of the junction table
    is ON DELETE RESTRICT, so the statement fails when it would delete a
    row that a row of RentalApplicationItems names. *)
Definition deleteItemRow (itemId' : string) (db : Database) : option Database :=
  if hasItem itemId' db && isReferenced itemId' db then None
  else
    Some (mkDb (List.filter (fun r => negb (String.eqb (id r) itemId'))
                            (Items db))
               (RentalApplications db) (RentalApplicationItems db)).

(** SELECT 1 FROM RentalApplicationItems rai
    JOIN RentalApplications ra ON rai.rentalApplicationId = ra.id
    WHERE rai.itemId = ? AND (ra.status = ? OR ra.status = ?) LIMIT 1,
    bound to PENDING and RENTED: whether a row comes back. *)
Definition activeRentalCheck (itemId' : string) (db : Database) : bool :=
  existsb (fun rai =>
             String.eqb (rowItemId rai) itemId'
             && existsb (fun ra => String.eqb (rentalApplicationId rai)
                                              (appId ra)
                                   && isReserved (status ra))
                        (RentalApplications db))
          (RentalApplicationItems db).

(** SELECT COUNT( * ) as count FROM RentalApplications WHERE status = ? *)
Definition countByStatus (st : RentalStatus) (db : Database) : nat :=
  length (List.filter (fun ra => bool_decide (status ra = st))
                      (RentalApplications db)).

(** SELECT COUNT( * ) as count FROM RentalApplications
    WHERE status = ? AND returnDate = ? *)
Definition countByStatusAndReturnDate (st : RentalStatus) (day : string)
           (db : Database) : nat :=
  length (List.filter (fun ra => bool_decide (status ra = st)
                                 && String.eqb (returnDate ra) day)
                      (RentalApplications db)).

(** SELECT COUNT( * ) as count FROM Items
    WHERE currentStock < 5 AND initialStock > 0 *)
Definition countLowStock (db : Database) : nat :=
  length (List.filter (fun i => (currentStock i <? 5) && (initialStock i >? 0))
                      (Items db)).

End D1Catalog.

(** ** The catalog handlers of the worker, direct-handler variant *)

Module WorkerCatalog.
Import D1 D1Catalog WorkerBase.

(** The JSON body of POST /api/items, read as
    [Omit<Item, 'id' | 'currentStock'>]: each key is present or not.  The
    numbers are integers, so [Number] is the identity on them and the
    [isNaN] tests never fire. *)
Record ItemDraft := mkDraft {
  draftName : option string;
  draftInitialStock : option Z;
  draftPrice : option Z;
  draftDescription : option string;
  draftImageUrl : option string;
  draftUnit : option string
}.

(** The error bodies of the catalog handlers. *)
Inductive CatalogError :=
| MissingOrInvalidFields (nameError initialStockError priceError
                          unitError : bool)
| InternalErrorAddingItem
| CannotDeleteItemWithActiveRentals
| ItemNotFound
| InternalErrorDeletingItem.

Inductive Reply (A : Type) :=
| Sent (statusCode : Z) (value : A)
| Refused (statusCode : Z) (error : CatalogError).
Arguments Sent {A} statusCode value.
Arguments Refused {A} statusCode error.

(** [x == null || x < 0] for a number that may be missing. *)
Definition missingOrNegative (x : option Z) : bool :=
  match x with
  | None => true
  | Some v => v <? 0
  end.

(** [s || fallback] for a string that may be missing. *)
Definition orDefault (s : option string) (fallback : string) : string :=
  match s with
  | None => fallback
  | Some v => orElse v fallback
  end.

(** [`https://picsum.photos/seed/${newItemId}/200`] *)
Definition defaultImageUrl (newItemId : string) : string :=
  ("https://picsum.photos/seed/" ++ newItemId ++ "/200")%string.

(** POST /api/items (after the credential check); [newItemId] stands for
    [generateId('item')]. *)
Definition postItem (typedRawItemData : ItemDraft) (newItemId : string)
           (db : Database) : Reply Item * Database :=
  if falsyString (draftName typedRawItemData)
     || missingOrNegative (draftInitialStock typedRawItemData)
     || missingOrNegative (draftPrice typedRawItemData)
     || falsyString (draftUnit typedRawItemData)
  then
    (Refused 400
       (MissingOrInvalidFields
          (falsyString (draftName typedRawItemData))
          (missingOrNegative (draftInitialStock typedRawItemData))
          (missingOrNegative (draftPrice typedRawItemData))
          (falsyString (draftUnit typedRawItemData))), db)
  else
    let initialStockNum := default 0 (draftInitialStock typedRawItemData) in
    let priceNum := default 0 (draftPrice typedRawItemData) in
    let newItem :=
      mkItem newItemId (default "" (draftName typedRawItemData))
             initialStockNum initialStockNum priceNum
             (orDefault (draftDescription typedRawItemData) "")
             (orDefault (draftImageUrl typedRawItemData)
                        (defaultImageUrl newItemId))
             (default "" (draftUnit typedRawItemData)) in
    match insertItem newItem db with
    | Some db' => (Sent 201 newItem, db')
    | None => (Refused 500 InternalErrorAddingItem, db)
    end.

(** DELETE /api/items/:id (after the credential check) *)
Definition deleteItem (itemId' : string) (db : Database)
  : Reply unit * Database :=
  if activeRentalCheck itemId' db then
    (Refused 400 CannotDeleteItemWithActiveRentals, db)
  else
    match deleteItemRow itemId' db with
    | Some db' =>
        if hasItem itemId' db then (Sent 204 tt, db')
        else (Refused 404 ItemNotFound, db)
    | None => (Refused 500 InternalErrorDeletingItem, db)
    end.

(** GET /api/admin/dashboard/stats (after the credential check): the four
    COUNT queries of the batch; [count || 0] is the identity on a count. *)
Definition getDashboardStats (today : string) (db : Database)
  : RentalService.DashboardStats :=
  RentalService.mkStats
    (countByStatus PENDING db)
    (countByStatusAndReturnDate RENTED today db)
    (countByStatus RENTED db)
    (countLowStock db).

End WorkerCatalog.

(** ** POST /api/rentals/apply of the itty-router variant *)

Module WorkerV1Apply.
Import D1 WorkerBase.

(** The loop that validates the stock: a missing item and a short stock
    give the same error, with [itemDetail?.name || 'unknown item'] and
    [itemDetail?.currentStock || 0]. *)
Fixpoint prepareStockAdjustments (selected : list SelectedItemEntry)
         (allDbItems : list Item) : ApiError + list Statement :=
  match selected with
  | [] => inr []
  | selectedItem :: rest =>
      match findItem (itemId selectedItem) allDbItems with
      | None =>
          inl (InsufficientStock "unknown item" (quantity selectedItem) 0)
      | Some itemDetail =>
          if currentStock itemDetail <? quantity selectedItem then
            inl (InsufficientStock (orElse (name itemDetail) "unknown item")
                   (quantity selectedItem) (currentStock itemDetail))
          else
            match prepareStockAdjustments rest allDbItems with
            | inl e => inl e
            | inr ops =>
                inr (DecreaseStockGuarded (quantity selectedItem)
                       (itemId selectedItem) (quantity selectedItem) :: ops)
            end
      end
  end.

(** The handler; the new application and the order of the batch are those
    of the direct handler.  The 409 of a failed batch has a text of its
    own, 'Stock became unavailable during transaction. Please try
    again.' *)
Definition postRentalsApply (env : Env) (appData : RentalApplication)
           (newId today : string) (db : Database)
  : Response RentalApplication * Database :=
  let allDbItems := Items db in
  match prepareStockAdjustments (items appData) allDbItems with
  | inl e => (Failed 400 e, db)
  | inr stockAdjustments =>
      let newApplication :=
        Worker.newApplicationOf env appData newId today allDbItems in
      let batchOps :=
        InsertApplication newApplication
        :: map (fun item => InsertApplicationItem (appId newApplication)
                              (itemId item) (quantity item))
               (items newApplication)
        ++ stockAdjustments in
      match batch batchOps db with
      | Some db' => (Json 201 newApplication, db')
      | None => (Failed 409 StockBecameUnavailableDuringTransaction, db)
      end
  end.

End WorkerV1Apply.

(** * The pages that fill a selection ([src/unnamed/part_001]) *)

(** [CartItem extends Item { selectedQuantity }]: the fields of the item,
    as they were read when the entry was made, and the quantity selected. *)
Record CartItem := mkCartItem {
  details : Item;
  selectedQuantity : Z
}.

(** [cart.map(item => ({ itemId: item.id, quantity: item.selectedQuantity }))],
    the selection both pages hand to the service. *)
Definition entriesOf (cart : list CartItem) : list SelectedItemEntry :=
  map (fun item => mkEntry (id (details item)) (selectedQuantity item)) cart.

(** [cart.map(ci => ci.id === itemId ? { ...ci, selectedQuantity: q(ci) } : ci)] *)
Definition setQuantityOf (itemId' : string) (q : CartItem -> Z)
           (cart : list CartItem) : list CartItem :=
  map (fun cartItem =>
         if String.eqb (id (details cartItem)) itemId'
         then mkCartItem (details cartItem) (q cartItem)
         else cartItem) cart.

(** ** [UserRentalApplicationPage] *)

Module UserRentalApplicationPage.
Import DataService.

(** The modal a handler opens instead of changing the cart. *)
Inductive Notice :=
| SelectAnItem
| ItemInformationNotFound
| QuantityBelowOne
| OverCurrentStock (itemName : string) (available : Z) (unit' : string)
| TotalOverCurrentStock (newTotalQuantity : Z) (itemName : string)
                        (available : Z) (unit' : string).

(** [cart.findIndex(ci => ...)]; [None] is the -1 of the source. *)
Fixpoint findIndex (p : CartItem -> bool) (cart : list CartItem) : option nat :=
  match cart with
  | [] => None
  | ci :: rest => if p ci then Some 0%nat else option_map S (findIndex p rest)
  end.

(** [handleAddItemToCart], on the state it reads ([selectedItemId],
    [selectedQuantity], [cart]) and the storage behind [getItems()]: the
    cart it sets, or the modal it opens.  The index [findIndex] returns is
    an index of the cart, so the last branch is never taken. *)
Definition handleAddItemToCart (selectedItemId : string) (selectedQuantity' : Z)
           (cart : list CartItem) (s : Storage) : Notice + list CartItem :=
  if String.eqb selectedItemId "" then inl SelectAnItem
  else
    let currentItems := getItems s in
    match findItem selectedItemId currentItems with
    | None => inl ItemInformationNotFound
    | Some item =>
        if selectedQuantity' <=? 0 then inl QuantityBelowOne
        else if selectedQuantity' >? currentStock item then
          inl (OverCurrentStock (name item) (currentStock item) (unitName item))
        else
          match findIndex (fun ci => String.eqb (id (details ci)) selectedItemId)
                          cart with
          | Some existingCartItemIndex =>
              match cart !! existingCartItemIndex with
              | Some existing =>
                  let newTotalQuantity :=
                    selectedQuantity existing + selectedQuantity' in
                  if newTotalQuantity >? currentStock item then
                    inl (TotalOverCurrentStock newTotalQuantity (name item)
                           (currentStock item) (unitName item))
                  else
                    inr (<[existingCartItemIndex :=
                             mkCartItem (details existing) newTotalQuantity]>
                           cart)
              | None => inr cart
              end
          | None => inr (cart ++ [mkCartItem item selectedQuantity'])
          end
    end.

(** [handleRemoveFromCart] *)
Definition handleRemoveFromCart (itemIdToRemove : string)
           (cart : list CartItem) : list CartItem :=
  List.filter (fun item => negb (String.eqb (id (details item)) itemIdToRemove))
              cart.

(** [cart.reduce((sum, item) => sum + item.price * item.selectedQuantity, 0)] *)
Definition totalItemCost (cart : list CartItem) : Z :=
  fold_left (fun sum item => sum + price (details item) * selectedQuantity item)
            cart 0.

(** What [validateForm] writes to [errors.cart]. *)
Inductive CartError :=
| StockShort (itemName : string) (available : Z) (unit' : string)
| NothingSelected.

(** The loop of [validateForm] over the cart, which stops at the first
    entry whose item is not stored or is short of stock. *)
Fixpoint cartStockError (cart : list CartItem) (currentItemsData : list Item)
  : option CartError :=
  match cart with
  | [] => None
  | cartItem :: rest =>
      match findItem (id (details cartItem)) currentItemsData with
      | None =>
          Some (StockShort (name (details cartItem)) 0
                           (unitName (details cartItem)))
      | Some currentItemDetails =>
          if selectedQuantity cartItem >? currentStock currentItemDetails then
            Some (StockShort (name (details cartItem))
                             (currentStock currentItemDetails)
                             (unitName (details cartItem)))
          else cartStockError rest currentItemsData
      end
  end.

(** [errors.cart] at the end of [validateForm]. *)
Definition cartError (cart : list CartItem) (s : Storage) : option CartError :=
  match cartStockError cart (getItems s) with
  | Some e => Some e
  | None => if (length cart =? 0)%nat then Some NothingSelected else None
  end.

(** [validateForm]: [Object.keys(errors).length === 0].  [fieldErrors] is
    the number of keys the checks of the applicant's fields and of the two
    dates have put into [errors] before the cart is looked at. *)
Definition validateForm (fieldErrors : nat) (cart : list CartItem)
           (s : Storage) : bool :=
  match cartError cart s with
  | Some _ => false
  | None => (fieldErrors =? 0)%nat
  end.

(** The modal [handleSubmitApplication] opens. *)
Inductive SubmitModal :=
| InputError
| Completed (newApplication : RentalApplication)
| SubmitFailed (e : Thrown).

Section WithDeposit.

Variable FIXED_DEPOSIT_AMOUNT : Z.

(** [handleSubmitApplication]: the modal, the cart and the storage it
    leaves.  [form] stands for [{ ...applicantInfo, rentalDate, returnDate }];
    [newId] and [today] are those of the service. *)
Definition handleSubmitApplication (fieldErrors : nat) (form : ApplicationRow)
           (cart : list CartItem) (newId today : string) (s : Storage)
  : SubmitModal * list CartItem * Storage :=
  if negb (validateForm fieldErrors cart s) then (InputError, cart, s)
  else
    let rentalItems := entriesOf cart in
    match addRentalApplication FIXED_DEPOSIT_AMOUNT (mkApp form rentalItems)
                               newId today s with
    | Returned newApplication s' => (Completed newApplication, [], s')
    | Threw e s' => (SubmitFailed e, cart, s')
    end.

End WithDeposit.

End UserRentalApplicationPage.

(** ** [UserCheckStatusPage]: the edit modal *)

Module UserCheckStatusPage.
Import DataService.

Inductive Notice :=
| SelectAnItem
| QuantityBelowOne
| QuantityBelowOneUseDelete
| OverAvailable (itemName : string) (effectiveAvailableStock : Z)
                (unit' : string) (newQuantity : Z)
| TotalOverAvailable (finalQuantityInCart : Z) (itemName : string)
                     (stockCheckLimit : Z) (unit' : string)
| OverCurrentStock (itemName : string) (stockCheckLimit : Z) (unit' : string)
| NothingSelected
| WrongDates
| StockChanged (itemName : string) (requested effectiveAvailableStock : Z)
| Saved
| SaveFailed (e : Thrown).

(** [editingApplication?.items.find(i => i.itemId === itemId)?.quantity || 0] *)
Definition originalQuantityInApp (editingApplication : option RentalApplication)
           (itemId' : string) : Z :=
  match editingApplication with
  | Some app => qtyOf itemId' (items app)
  | None => 0
  end.

(** [openEditModal]: the items and the cart it sets.  An entry whose item
    is not stored gives an object without [id], and the filter drops it, as
    it drops an item whose identifier is the empty string. *)
Definition openEditModal (app : RentalApplication) (s : Storage)
  : list Item * list CartItem :=
  let currentAllItems := getItems s in
  (currentAllItems,
   flat_map (fun entry =>
               match findItem (itemId entry) currentAllItems with
               | Some itemDetail =>
                   if String.eqb (id itemDetail) "" then []
                   else [mkCartItem itemDetail (quantity entry)]
               | None => []
               end) (items app)).

(** [handleEditCartItemQuantity]; [newQuantity] is
    [parseInt(newQuantityStr, 10) || 0]. *)
Definition handleEditCartItemQuantity (itemId' : string) (newQuantity : Z)
           (allItems : list Item)
           (editingApplication : option RentalApplication)
           (editableCart : list CartItem) : option Notice * list CartItem :=
  match findItem itemId' allItems with
  | None => (None, editableCart)
  | Some itemDetailGlobal =>
      let effectiveAvailableStock :=
        currentStock itemDetailGlobal
        + originalQuantityInApp editingApplication itemId' in
      if newQuantity <=? 0 then
        (Some QuantityBelowOneUseDelete,
         setQuantityOf itemId' (fun _ => 1) editableCart)
      else if newQuantity >? effectiveAvailableStock then
        (Some (OverAvailable (name itemDetailGlobal) effectiveAvailableStock
                 (unitName itemDetailGlobal) newQuantity),
         setQuantityOf itemId'
           (fun cartItem => Z.min (selectedQuantity cartItem)
                                  effectiveAvailableStock)
           editableCart)
      else (None, setQuantityOf itemId' (fun _ => newQuantity) editableCart)
  end.

(** [handleRemoveFromEditCart] *)
Definition handleRemoveFromEditCart (itemIdToRemove : string)
           (editableCart : list CartItem) : list CartItem :=
  List.filter (fun item => negb (String.eqb (id (details item)) itemIdToRemove))
              editableCart.

(** [handleAddItemToEditCart], on [itemSelectionForEdit]. *)
Definition handleAddItemToEditCart (selectionItemId : string)
           (quantityToAdd : Z) (allItems : list Item)
           (editingApplication : option RentalApplication)
           (editableCart : list CartItem) : option Notice * list CartItem :=
  if String.eqb selectionItemId "" then (Some SelectAnItem, editableCart)
  else
    match findItem selectionItemId allItems with
    | None => (None, editableCart)
    | Some itemDetailGlobal =>
        if quantityToAdd <=? 0 then (Some QuantityBelowOne, editableCart)
        else
          let originalQuantityInAppForItem :=
            originalQuantityInApp editingApplication (id itemDetailGlobal) in
          let currentStockOfItem := currentStock itemDetailGlobal in
          match find (fun ci => String.eqb (id (details ci))
                                           (id itemDetailGlobal))
                     editableCart with
          | Some existingCartItem =>
              let finalQuantityInCart :=
                selectedQuantity existingCartItem + quantityToAdd in
              let stockCheckLimit :=
                currentStockOfItem + originalQuantityInAppForItem in
              if finalQuantityInCart >? stockCheckLimit then
                (Some (TotalOverAvailable finalQuantityInCart
                         (name itemDetailGlobal) stockCheckLimit
                         (unitName itemDetailGlobal)),
                 editableCart)
              else
                (None,
                 setQuantityOf (id itemDetailGlobal)
                               (fun _ => finalQuantityInCart) editableCart)
          | None =>
              let finalQuantityInCart := quantityToAdd in
              let stockCheckLimit := currentStockOfItem in
              if finalQuantityInCart >? stockCheckLimit then
                (Some (OverCurrentStock (name itemDetailGlobal) stockCheckLimit
                         (unitName itemDetailGlobal)),
                 editableCart)
              else
                (None,
                 editableCart
                 ++ [mkCartItem itemDetailGlobal finalQuantityInCart])
          end
    end.

(** The loop of [handleSaveEdits] over the cart, against the items just
    read: the first entry that asks for more than the stock and what the
    application holds of the item. *)
Fixpoint stockChangedError (editingApplication : RentalApplication)
         (editableCart : list CartItem) (currentGlobalItems : list Item)
  : option Notice :=
  match editableCart with
  | [] => None
  | cartItem :: rest =>
      let itemDetailGlobal :=
        findItem (id (details cartItem)) currentGlobalItems in
      let originalQuantity :=
        qtyOf (id (details cartItem)) (items editingApplication) in
      let effectiveAvailableStock :=
        match itemDetailGlobal with
        | Some itemDetail => currentStock itemDetail
        | None => 0
        end + originalQuantity in
      match itemDetailGlobal with
      | None =>
          Some (StockChanged (name (details cartItem))
                  (selectedQuantity cartItem) effectiveAvailableStock)
      | Some _ =>
          if selectedQuantity cartItem >? effectiveAvailableStock then
            Some (StockChanged (name (details cartItem))
                    (selectedQuantity cartItem) effectiveAvailableStock)
          else stockChangedError editingApplication rest currentGlobalItems
      end
  end.

(** [{ ...editingApplication, items: updatedItems, rentalDate, returnDate }] *)
Definition editedApplication (editingApplication : RentalApplication)
           (editableCart : list CartItem)
           (editableRentalDate editableReturnDate : string) : RentalApplication :=
  mkApp (mkRow (appId editingApplication) (applicantName editingApplication)
               (phoneNumber editingApplication) (studentId editingApplication)
               (accountHolderName editingApplication)
               (accountNumber editingApplication)
               editableRentalDate editableReturnDate
               (totalItemCost editingApplication) (deposit editingApplication)
               (totalAmount editingApplication) (status editingApplication)
               (applicationDate editingApplication)
               (rentalStaff editingApplication) (returnStaff editingApplication)
               (actualReturnDate editingApplication)
               (depositRefunded editingApplication))
        (entriesOf editableCart).

Section Saving.

Variable FIXED_DEPOSIT_AMOUNT : Z.

(** [a > b] on two strings. *)
Variable laterThan : string -> string -> bool.

(** [handleSaveEdits]: the modal it opens, if any, and the storage it
    leaves. *)
Definition handleSaveEdits (editingApplication : option RentalApplication)
           (editableCart : list CartItem)
           (editableRentalDate editableReturnDate : string) (s : Storage)
  : option Notice * Storage :=
  match editingApplication with
  | None => (None, s)
  | Some editing =>
      if (length editableCart =? 0)%nat then (Some NothingSelected, s)
      else if String.eqb editableRentalDate ""
              || String.eqb editableReturnDate ""
              || laterThan editableRentalDate editableReturnDate then
        (Some WrongDates, s)
      else
        let currentGlobalItems := getItems s in
        match stockChangedError editing editableCart currentGlobalItems with
        | Some notice => (Some notice, s)
        | None =>
            let updatedApp :=
              editedApplication editing editableCart editableRentalDate
                                editableReturnDate in
            match updateRentalApplication FIXED_DEPOSIT_AMOUNT updatedApp s with
            | Returned _ s' => (Some Saved, s')
            | Threw e s' => (Some (SaveFailed e), s')
            end
        end
  end.

End Saving.

End UserCheckStatusPage.

(** ** [AdminItemManagementPage] ([src/pages/admin/AdminItemManagementPage.tsx]) *)

Module AdminItemManagementPage.
Import DataService.

Inductive ModalMode := add | edit.

(** [Partial<Item> & { currentStockForEdit?: number }].  The page reads the
    text fields only through [!x], [x || d] and [x && ...], which take an
    absent field and the empty string alike: the empty string stands for
    both.  A number field is absent or a number. *)
Record EditingItem := mkEditing {
  editingId : string;
  editingName : string;
  editingInitialStock : option Z;
  currentStockForEdit : option Z;
  editingPrice : option Z;
  editingDescription : string;
  editingImageUrl : string;
  editingUnit : string
}.

(** [openModal]: the item the modal starts from. *)
Definition openModal (mode : ModalMode) (item : option Item) : EditingItem :=
  match mode, item with
  | edit, Some item =>
      mkEditing (id item) (name item) (Some (initialStock item))
                (Some (currentStock item)) (Some (price item))
                (description item) (imageUrl item) (unitName item)
  | _, _ =>
      mkEditing "" "" (Some 10) (Some 10) (Some 1000) "" "" "개"
  end.

(** The number inputs of the modal. *)
Inductive NumberField := initialStockField | currentStockForEditField | priceField.

(** [handleModalInputChange] for an input of type number; [val] is
    [parseFloat(value)], with 0 for NaN.  A change of the initial stock
    lowers the edited current stock to it. *)
Definition handleModalInputChange (field : NumberField) (val : Z)
           (editingItem : EditingItem) : EditingItem :=
  match field with
  | initialStockField =>
      mkEditing (editingId editingItem) (editingName editingItem) (Some val)
                (Some (Z.min (default val (currentStockForEdit editingItem))
                             val))
                (editingPrice editingItem) (editingDescription editingItem)
                (editingImageUrl editingItem) (editingUnit editingItem)
  | currentStockForEditField =>
      mkEditing (editingId editingItem) (editingName editingItem)
                (editingInitialStock editingItem) (Some val)
                (editingPrice editingItem) (editingDescription editingItem)
                (editingImageUrl editingItem) (editingUnit editingItem)
  | priceField =>
      mkEditing (editingId editingItem) (editingName editingItem)
                (editingInitialStock editingItem)
                (currentStockForEdit editingItem) (Some val)
                (editingDescription editingItem)
                (editingImageUrl editingItem) (editingUnit editingItem)
  end.

(** What [handleSaveItem] does: one of its two alerts, the storage it
    leaves when it goes on to close the modal, or the error of the service
    it lets through (the handler has no [try]). *)
Inductive SaveResult :=
| RequiredFieldsAlert
| StockAboveInitialAlert
| Closed (s : Storage)
| Uncaught (e : Thrown) (s : Storage).

(** [`https://picsum.photos/seed/${seed}/200`] *)
Definition seededImageUrl (seed : string) : string :=
  String.append "https://picsum.photos/seed/" (String.append seed "/200").

(** [handleSaveItem]; [newId] is the identifier [addItem] generates and
    [now] is [Date.now()] in decimal. *)
Definition handleSaveItem (modalMode : ModalMode)
           (editingItem : option EditingItem) (newId now : string)
           (s : Storage) : SaveResult :=
  match editingItem with
  | None => RequiredFieldsAlert
  | Some editingItem =>
      match editingInitialStock editingItem, editingPrice editingItem with
      | Some initialStock', Some price' =>
          if String.eqb (editingName editingItem) ""
             || (initialStock' <? 0) || (price' <? 0)
             || String.eqb (editingUnit editingItem) ""
          then RequiredFieldsAlert
          else if match currentStockForEdit editingItem with
                  | Some current => current >? initialStock'
                  | None => false
                  end
          then StockAboveInitialAlert
          else
            match modalMode with
            | add =>
                Closed
                  (snd (ItemService.addItem
                          (mkItem "" (editingName editingItem) initialStock'
                                  0 price' (editingDescription editingItem)
                                  (orElse (editingImageUrl editingItem)
                                          (seededImageUrl now))
                                  (editingUnit editingItem))
                          newId s))
            | edit =>
                if String.eqb (editingId editingItem) "" then Closed s
                else
                  match currentStockForEdit editingItem with
                  | None => Closed s
                  | Some current =>
                      let itemToUpdate :=
                        mkItem (editingId editingItem)
                               (editingName editingItem) initialStock'
                               current price'
                               (editingDescription editingItem)
                               (orElse (editingImageUrl editingItem)
                                       (seededImageUrl
                                          (editingId editingItem)))
                               (editingUnit editingItem) in
                      match updateItem itemToUpdate s with
                      | Returned _ s' => Closed s'
                      | Threw e s' => Uncaught e s'
                      end
                  end
            end
      | _, _ => RequiredFieldsAlert
      end
  end.

End AdminItemManagementPage.

(** ** The base64url helpers of the JWT utilities ([worker.ts]) *)

Module JwtUtilities.
Import Stdlib.Strings.Ascii.

(** [s.replace(/c/g, d)] for one character [c]. *)
Fixpoint replaceAll (c d : Ascii.ascii) (s : string) : string :=
  match s with
  | EmptyString => EmptyString
  | String x rest =>
      String (if Ascii.eqb x c then d else x) (replaceAll c d rest)
  end.

(** [s.replace(/=+$/, '')]: the string without its last run of [=]. *)
Fixpoint stripTrailingEquals (s : string) : string :=
  match s with
  | EmptyString => EmptyString
  | String x rest =>
      match stripTrailingEquals rest with
      | EmptyString => if Ascii.eqb x "=" then EmptyString
                       else String x EmptyString
      | kept => String x kept
      end
  end.

(** [while (base64.length % 4) { base64 += '=' }]; the loop runs at most
    three times, which is the fuel [base64UrlToUint8Array] gives it. *)
Fixpoint padWhile (fuel : nat) (base64 : string) : string :=
  match fuel with
  | O => base64
  | S fuel' =>
      if (String.length base64 mod 4 =? 0)%nat then base64
      else padWhile fuel' (base64 ++ "=")%string
  end.

Section Platform.

(** [btoa] and [atob] of the platform. *)
Variable btoa atob : string -> string.

(** [arrayBufferToBase64Url]; a byte is a character of the binary string
    [String.fromCharCode] builds. *)
Definition arrayBufferToBase64Url (buffer : list Ascii.ascii) : string :=
  let binary :=
    fold_left (fun binary byte => (binary ++ String byte EmptyString)%string)
              buffer EmptyString in
  stripTrailingEquals (replaceAll "/" "_" (replaceAll "+" "-" (btoa binary))).

(** [base64UrlToUint8Array] *)
Definition base64UrlToUint8Array (base64Url : string) : list Ascii.ascii :=
  let base64 :=
    padWhile 3 (replaceAll "_" "/" (replaceAll "-" "+" base64Url)) in
  let binary_string := atob base64 in
  String.list_ascii_of_string binary_string.

End Platform.

End JwtUtilities.

Section Base64Vocabulary.

Import Stdlib.Strings.Ascii.

(** A run of [=]. *)
Fixpoint repeatEquals (k : nat) : string :=
  match k with
  | O => EmptyString
  | S k' => String "=" (repeatEquals k')
  end.

(** No character of [s] is [c]. *)
Fixpoint freeOf (c : Ascii.ascii) (s : string) : Prop :=
  match s with
  | EmptyString => True
  | String x rest => x <> c /\ freeOf c rest
  end.

(** The shape of what [btoa] returns: a body without [=], [-] and [_],
    then at most two [=], to a length that is a multiple of four. *)
Definition base64Shape (b : string) : Prop :=
  exists body k,
    b = (body ++ repeatEquals k)%string
    /\ (k <= 2)%nat
    /\ (exists n, String.length b = 4 * n)%nat
    /\ freeOf "=" body /\ freeOf "-" body /\ freeOf "_" body.

End Base64Vocabulary.

(** ** Vocabulary of the pages *)

(** The carts the application page builds: one entry per item, every
    quantity positive. *)
Definition cartWellFormed (cart : list CartItem) : Prop :=
  NoDup (itemIds (entriesOf cart))
  /\ Forall (fun item => 0 < selectedQuantity item) cart.

(** The entry of the cart for an item: [cart.find(ci => ci.id === itemId)]. *)
Definition cartFind (itemId' : string) (cart : list CartItem) : option CartItem :=
  find (fun ci => String.eqb (id (details ci)) itemId') cart.

(** The carts of the edit modal, against the items the modal holds and the
    application being edited: one entry per item, each for an item of the
    modal, positive, and within the stock plus what the application holds
    of the item. *)
Definition editCartWithin (allItems : list Item)
           (editingApplication : RentalApplication) (cart : list CartItem)
  : Prop :=
  NoDup (itemIds (entriesOf cart))
  /\ Forall (fun ci =>
               exists item,
                 findItem (id (details ci)) allItems = Some item
                 /\ 0 < selectedQuantity ci
                    <= currentStock item
                       + qtyOf (id (details ci)) (items editingApplication))
            cart.

(** The entries [openEditModal] keeps: those whose item is stored under an
    identifier that is not empty. *)
Definition shownInModal (allItems : list Item) (entry : SelectedItemEntry)
  : bool :=
  match findItem (itemId entry) allItems with
  | Some itemDetail => negb (String.eqb (id itemDetail) "")
  | None => false
  end.

(** An entry of the edit cart that [handleSaveEdits] lets through: its
    item is stored, and the quantity is within the stock plus what the
    application holds of the item. *)
Definition withinAvailable (allItems : list Item)
           (editingApplication : RentalApplication) (ci : CartItem) : Prop :=
  exists item,
    findItem (id (details ci)) allItems = Some item
    /\ selectedQuantity ci
       <= currentStock item
          + qtyOf (id (details ci)) (items editingApplication).

(** ** Vocabulary of the services and of the worker *)

(** The number of applications of a ledger in one status. *)
Definition countStatus (st : RentalStatus) (ledger : list RentalApplication)
  : nat :=
  length (List.filter (fun r : RentalApplication =>
                         bool_decide (status r = st)) ledger).

Definition indicator (b : bool) : nat := if b then 1%nat else 0%nat.

(** The order [findRentalApplications] sorts by: [a] is not older than
    [b]. *)
Definition newerOrSame (getTime : string -> Z) (a b : RentalApplication)
  : Prop :=
  getTime (applicationDate b) <= getTime (applicationDate a).

(** The row PUT /api/items/:id writes: the values of the body under the
    identifier of the row. *)
Definition storedAs (itemId' : string) (updatedItemData : Item) : Item :=
  mkItem itemId' (name updatedItemData) (initialStock updatedItemData)
         (currentStock updatedItemData) (price updatedItemData)
         (description updatedItemData) (imageUrl updatedItemData)
         (unitName updatedItemData).

(** The stock changes [manageRentalUpdate] pushes, as entries: one for
    each involved item the database has whose change is not 0. *)
Definition changeEntries (change : string -> Z) (allItems : list Item)
           (involved : list string) : list SelectedItemEntry :=
  flat_map (fun j => match findItem j allItems with
                     | Some _ => if change j =? 0 then []
                                 else [mkEntry j (change j)]
                     | None => []
                     end) involved.

Section EditVocabulary.

Import D1.

(** The hypotheses under which the outcome of an update is decided by the
    stock alone. *)
Definition editable (db : Database) (a : string) (row0 : ApplicationRow)
           (newItems : list SelectedItemEntry) : Prop :=
  consistentDatabase db
  /\ Forall stockInBounds (Items db)
  /\ selectApplication a db = Some row0
  /\ wellFormedEntries newItems
  /\ itemsResolve (Items db) newItems.

End EditVocabulary.

(** The change of an item once the cap of the reconciliation has been
    applied to it: the change asked for, cut down to what is missing to
    the initial stock when it is positive and would pass it; nothing for
    an item that is not stored. *)
Definition cappedFor (allItems : list Item) (change : string -> Z)
           (j : string) : Z :=
  match findItem j allItems with
  | Some item => cappedChange (currentStock item) (initialStock item) (change j)
  | None => 0
  end.

(** The statements [manageRentalUpdate] pushes for the stock: for each
    involved item that is stored and whose change is not 0,
    [UPDATE Items SET currentStock = currentStock + ? WHERE id = ?]. *)
Definition stockStatementsOf (change : string -> Z) (allItems : list Item)
           (involved : list string) : list D1.Statement :=
  map (fun e => D1.IncreaseStock (quantity e) (itemId e))
      (changeEntries change allItems involved).

(** A statement that writes the row of the item [j] of the Items table. *)
Definition writesItem (st : D1.Statement) (j : string) : Prop :=
  match st with
  | D1.IncreaseStock _ i => i = j
  | D1.DecreaseStockGuarded _ i _ => i = j
  | D1.UpdateItem _ i => i = j
  | _ => False
  end.

(** ** The data of the examples *)

(** The application "r1" of [heldDatabase], as the service stores it. *)
Definition heldApplication : RentalApplication :=
  mkApp heldRow [mkEntry "A" 5].

Definition heldStorage : DataService.Storage :=
  DataService.mkStorage [tent] [heldApplication].

Definition tentAboveInitial : Item := mkItem "A" "Tent" 10 11 1000 "" "" "ea".

Definition lamp : Item := mkItem "L" "Lamp" 4 4 500 "bright" "lamp.png" "ea".

Definition lampDraft : WorkerCatalog.ItemDraft :=
  WorkerCatalog.mkDraft (Some "Lamp") (Some 4) (Some 500) None None (Some "ea").

(** An admin body that marks the application returned on the second of
    January. *)
Definition returnedOnTime : WorkerBase.ApplicationPatch :=
  WorkerBase.mkPatch None None None None None None None None None
    None None None (Some RETURNED) None None None
    (Some (Some "2024-01-02")) None.

(** "r1" edited down to three tents. *)
Definition heldEditedToThree : RentalApplication :=
  mkApp heldRow [mkEntry "A" 3].

(** The two bytes FB FF, which [btoa] encodes as [+/8=]. *)
Definition twoHighBytes : list Ascii.ascii :=
  [Ascii.ascii_of_nat 251; Ascii.ascii_of_nat 255].

(** A tent whose stock has drifted: eight are in stock while "r1" holds
    five of the ten. *)
Definition tentDrifted : Item := mkItem "A" "Tent" 10 8 1000 "" "" "ea".

Definition driftedDatabase : D1.Database :=
  D1.mkDb [tentDrifted] [heldRow] [D1.mkItemRow "r1" "A" 5].

Definition driftedStorage : DataService.Storage :=
  DataService.mkStorage [tentDrifted] [heldApplication].

(** "r1" as an admin marks it returned. *)
Definition heldReturned : RentalApplication :=
  mkApp (mkRow "r1" "Kim" "010" "2020" "Kim" "123" "2024-01-01" "2024-01-02"
               5000 10000 15000 RETURNED "2024-01-01" None None
               (Some "2024-01-02") false)
        [mkEntry "A" 5].

(** A user edit that asks for minus three tents. *)
Definition minusThreeTents : WorkerBase.ApplicationPatch :=
  WorkerBase.mkPatch None None None None None None
    (Some "2024-01-01") (Some "2024-01-02") (Some [mkEntry "A" (-3)])
    None None None None None None None None None.

(** * Properties *)

(** ** Lists, identifiers and sums *)

Section ListFacts.

Lemma eqb_string_true (a b : string) : String.eqb a b = true <-> a = b.
Proof. apply String.eqb_eq. Qed.

Lemma eqb_string_false (a b : string) : String.eqb a b = false <-> a <> b.
Proof. apply String.eqb_neq. Qed.

Lemma findItem_Some_inv i allItems item :
  findItem i allItems = Some item -> item ∈ allItems /\ id item = i.
Proof.
  unfold findItem. intros H. apply find_some in H as [Hin Heq].
  split; [by apply list_elem_of_In | by apply String.eqb_eq].
Qed.

Lemma findItem_None_inv i allItems :
  findItem i allItems = None -> i ∉ map id allItems.
Proof.
  unfold findItem. intros H Hin.
  apply list_elem_of_fmap in Hin as (item & -> & Hitem).
  apply list_elem_of_In in Hitem.
  pose proof (find_none _ _ H _ Hitem) as Hf. simpl in Hf.
  by rewrite String.eqb_refl in Hf.
Qed.

Lemma findItem_unique allItems item :
  NoDup (map id allItems) -> item ∈ allItems ->
  findItem (id item) allItems = Some item.
Proof.
  unfold findItem. induction allItems as [|x rest IH]; intros Hnd Hin.
  - by apply elem_of_nil in Hin.
  - simpl in *. apply NoDup_cons in Hnd as [Hx Hnd].
    apply elem_of_cons in Hin as [->|Hin].
    + by rewrite String.eqb_refl.
    + destruct (String.eqb (id x) (id item)) eqn:E.
      * apply String.eqb_eq in E. exfalso. apply Hx. rewrite E.
        apply list_elem_of_fmap. eauto.
      * by apply IH.
Qed.

Lemma findItem_is_Some i allItems :
  i ∈ map id allItems -> is_Some (findItem i allItems).
Proof.
  intros Hin. destruct (findItem i allItems) eqn:E; [eauto|].
  by apply findItem_None_inv in E.
Qed.

Lemma findEntry_None_inv i entries :
  findEntry i entries = None -> i ∉ itemIds entries.
Proof.
  unfold findEntry, itemIds. intros H Hin.
  apply list_elem_of_fmap in Hin as (e & -> & He).
  apply list_elem_of_In in He.
  pose proof (find_none _ _ H _ He) as Hf. simpl in Hf.
  by rewrite String.eqb_refl in Hf.
Qed.

Lemma qtyOf_absent i entries : i ∉ itemIds entries -> qtyOf i entries = 0.
Proof.
  unfold qtyOf, findEntry. intros Hni.
  destruct (find _ entries) as [e|] eqn:E; [|done].
  apply find_some in E as [Hin Heq]. apply String.eqb_eq in Heq. subst i.
  exfalso. apply Hni. apply list_elem_of_fmap. exists e.
  split; [done | by apply list_elem_of_In].
Qed.

Lemma entryTotal_absent i entries :
  i ∉ itemIds entries -> entryTotal i entries = 0.
Proof.
  induction entries as [|e rest IH]; simpl; intros Hni; [done|].
  apply not_elem_of_cons in Hni as [Hne Hni].
  destruct (String.eqb (itemId e) i) eqn:E.
  - apply String.eqb_eq in E. congruence.
  - rewrite IH; [lia | done].
Qed.

(** With one entry per item, the sum of the quantities of an item is the
    quantity [find] returns. *)
Lemma entryTotal_qtyOf i entries :
  NoDup (itemIds entries) -> entryTotal i entries = qtyOf i entries.
Proof.
  induction entries as [|e rest IH]; simpl; intros Hnd; [done|].
  apply NoDup_cons in Hnd as [Hne Hnd].
  unfold qtyOf, findEntry. simpl.
  destruct (String.eqb (itemId e) i) eqn:E.
  - apply String.eqb_eq in E. subst i.
    rewrite entryTotal_absent; [lia | done].
  - rewrite IH by done. unfold qtyOf, findEntry. lia.
Qed.

Lemma entryTotal_nonneg i entries :
  Forall (fun e => 0 <= quantity e) entries -> 0 <= entryTotal i entries.
Proof.
  induction 1 as [|e rest He _ IH]; simpl; [lia|].
  destruct (String.eqb (itemId e) i); lia.
Qed.

Lemma qtyOf_nonneg i entries :
  Forall (fun e => 0 <= quantity e) entries -> 0 <= qtyOf i entries.
Proof.
  intros Hall. unfold qtyOf, findEntry.
  destruct (find _ entries) as [e|] eqn:E; [|lia].
  apply find_some in E as [Hin _]. rewrite Forall_forall in Hall.
  apply Hall. by apply list_elem_of_In.
Qed.

Lemma entryTotal_app i xs ys :
  entryTotal i (xs ++ ys) = entryTotal i xs + entryTotal i ys.
Proof. induction xs as [|e rest IH]; simpl; [lia | rewrite IH; lia]. Qed.

Lemma heldBy_nonneg i (app : RentalApplication) :
  wellFormedEntries (items app) -> 0 <= heldBy i app.
Proof.
  intros [_ Hq]. unfold heldBy. destruct (isReserved _); [|lia].
  by apply entryTotal_nonneg.
Qed.

Lemma reservedTotal_app i xs ys :
  reservedTotal i (xs ++ ys) = reservedTotal i xs + reservedTotal i ys.
Proof. induction xs as [|a rest IH]; simpl; [lia | rewrite IH; lia]. Qed.

Lemma reservedTotal_nonneg i ledger :
  Forall (fun a : RentalApplication => wellFormedEntries (items a)) ledger ->
  0 <= reservedTotal i ledger.
Proof.
  induction 1 as [|a rest Ha _ IH]; simpl; [lia|].
  pose proof (heldBy_nonneg i a Ha). lia.
Qed.

Lemma findApplication_Some_inv a ledger app :
  findApplication a ledger = Some app -> app ∈ ledger /\ appId app = a.
Proof.
  unfold findApplication. intros H. apply find_some in H as [Hin Heq].
  split; [by apply list_elem_of_In | by apply String.eqb_eq].
Qed.

Lemma findApplication_None_inv a ledger :
  findApplication a ledger = None -> a ∉ applicationIds ledger.
Proof.
  unfold findApplication, applicationIds. intros H Hin.
  apply list_elem_of_fmap in Hin as (app & -> & Happ).
  apply list_elem_of_In in Happ.
  pose proof (find_none _ _ H _ Happ) as Hf. simpl in Hf.
  by rewrite String.eqb_refl in Hf.
Qed.

Lemma reservedTotal_absent i a ledger :
  a ∉ applicationIds ledger ->
  reservedTotal i (removeApplication a ledger) = reservedTotal i ledger.
Proof.
  induction ledger as [|x rest IH]; simpl; intros Hni; [done|].
  apply not_elem_of_cons in Hni as [Hne Hni].
  destruct (String.eqb (appId x) a) eqn:E.
  - apply String.eqb_eq in E. congruence.
  - simpl. by rewrite IH.
Qed.

Lemma removeApplication_absent a ledger :
  a ∉ applicationIds ledger -> removeApplication a ledger = ledger.
Proof.
  induction ledger as [|x rest IH]; simpl; intros Hni; [done|].
  apply not_elem_of_cons in Hni as [Hne Hni].
  destruct (String.eqb (appId x) a) eqn:E.
  - apply String.eqb_eq in E. congruence.
  - simpl. by rewrite IH.
Qed.

Lemma replaceApplication_absent (newApp : RentalApplication) ledger :
  appId newApp ∉ applicationIds ledger ->
  replaceApplication newApp ledger = ledger.
Proof.
  induction ledger as [|x rest IH]; simpl; intros Hni; [done|].
  apply not_elem_of_cons in Hni as [Hne Hni].
  destruct (String.eqb (appId x) (appId newApp)) eqn:E.
  - apply String.eqb_eq in E. congruence.
  - by rewrite IH.
Qed.

(** Removing the application [a] takes what it held out of the total. *)
Lemma reservedTotal_remove i a ledger old :
  NoDup (applicationIds ledger) ->
  findApplication a ledger = Some old ->
  reservedTotal i (removeApplication a ledger)
  = reservedTotal i ledger - heldBy i old.
Proof.
  unfold findApplication.
  induction ledger as [|x rest IH]; simpl; intros Hnd Hfind; [done|].
  apply NoDup_cons in Hnd as [Hx Hnd].
  destruct (String.eqb (appId x) a) eqn:E; simpl.
  - injection Hfind as ->. apply String.eqb_eq in E. subst a.
    rewrite reservedTotal_absent by done. lia.
  - rewrite IH by done. lia.
Qed.

(** Replacing the application takes out what the old one held and puts in
    what the new one holds. *)
Lemma reservedTotal_replace i (newApp : RentalApplication) ledger old :
  NoDup (applicationIds ledger) ->
  findApplication (appId newApp) ledger = Some old ->
  reservedTotal i (replaceApplication newApp ledger)
  = reservedTotal i ledger - heldBy i old + heldBy i newApp.
Proof.
  unfold findApplication.
  induction ledger as [|x rest IH]; simpl; intros Hnd Hfind; [done|].
  apply NoDup_cons in Hnd as [Hx Hnd].
  destruct (String.eqb (appId x) (appId newApp)) eqn:E; simpl.
  - injection Hfind as ->. apply String.eqb_eq in E.
    rewrite replaceApplication_absent by (by rewrite <- E). lia.
  - rewrite IH by done. lia.
Qed.

Lemma applicationIds_replace (newApp : RentalApplication) ledger :
  applicationIds (replaceApplication newApp ledger) = applicationIds ledger.
Proof.
  induction ledger as [|x rest IH]; simpl; [done|].
  rewrite IH. destruct (String.eqb (appId x) (appId newApp)) eqn:E; [|done].
  apply String.eqb_eq in E. by rewrite E.
Qed.

Lemma elem_of_replaceApplication (newApp x : RentalApplication) ledger :
  x ∈ replaceApplication newApp ledger -> x = newApp \/ x ∈ ledger.
Proof.
  unfold replaceApplication. intros H.
  apply list_elem_of_fmap in H as (y & -> & Hy).
  destruct (String.eqb _ _); auto.
Qed.

Lemma elem_of_removeApplication a (x : RentalApplication) ledger :
  x ∈ removeApplication a ledger -> x ∈ ledger /\ appId x <> a.
Proof.
  unfold removeApplication. rewrite !list_elem_of_In.
  rewrite filter_In. intros [Hin Hne]. split; [done|].
  apply negb_true_iff in Hne. by apply String.eqb_neq.
Qed.

Lemma NoDup_applicationIds_remove a ledger :
  NoDup (applicationIds ledger) ->
  NoDup (applicationIds (removeApplication a ledger)).
Proof.
  induction ledger as [|x rest IH]; simpl; intros Hnd; [done|].
  apply NoDup_cons in Hnd as [Hx Hnd].
  destruct (String.eqb (appId x) a); simpl; [by apply IH|].
  apply NoDup_cons. split; [|by apply IH].
  intros Hin. apply Hx. unfold applicationIds in *.
  apply list_elem_of_fmap in Hin as (y & Hy & Hin).
  apply elem_of_removeApplication in Hin as [Hin _].
  apply list_elem_of_fmap. eauto.
Qed.

End ListFacts.

(** ** Cost calculation *)

Lemma cost_fold_shift (priceList : list Item) selected acc :
  fold_left (fun total sel =>
               match findItem (itemId sel) priceList with
               | Some itemDetails => total + price itemDetails * quantity sel
               | None => total
               end) selected acc
  = acc + specTotalItemCost selected priceList.
Proof.
  revert acc. induction selected as [|e rest IH]; intros acc; simpl.
  - unfold specTotalItemCost. simpl. lia.
  - rewrite IH. unfold specTotalItemCost, resolves, priceOf. simpl.
    destruct (findItem (itemId e) priceList) eqn:E; simpl.
    + rewrite E. lia.
    + lia.
Qed.

Lemma dataService_costs fixedDeposit selected priceList :
  DataService.calculateRentalCosts fixedDeposit selected priceList
  = (specTotalItemCost selected priceList,
     specTotalItemCost selected priceList + fixedDeposit).
Proof.
  unfold DataService.calculateRentalCosts. by rewrite cost_fold_shift.
Qed.

Lemma worker_costs env selected priceList :
  WorkerBase.calculateRentalCosts selected priceList env
  = (specTotalItemCost selected priceList,
     specTotalItemCost selected priceList
     + WorkerBase.FIXED_DEPOSIT_AMOUNT_FN env).
Proof.
  unfold WorkerBase.calculateRentalCosts. by rewrite cost_fold_shift.
Qed.

Lemma specTotalItemCost_unresolved e rest priceList :
  findItem (itemId e) priceList = None ->
  specTotalItemCost (e :: rest) priceList = specTotalItemCost rest priceList.
Proof.
  intros H. unfold specTotalItemCost, resolves. simpl. by rewrite H.
Qed.

Lemma worker_manage_costs env originalApp core newItems db finalApp ops :
  Worker.manageRentalUpdate env originalApp core newItems db
  = inr (finalApp, ops) ->
  items finalApp = newItems
  /\ costsRecomputed (WorkerBase.FIXED_DEPOSIT_AMOUNT_FN env) (D1.Items db)
                     finalApp.
Proof.
  unfold Worker.manageRentalUpdate. destruct (Worker.stockUpdates _ _ _ _ _ _ _);
    [done|]. intros [= <- _].
  unfold costsRecomputed, WorkerBase.finalAppOf,
    WorkerBase.calculateRentalCosts.
  rewrite !cost_fold_shift. simpl. done.
Qed.

(** ** The defensive cap of the reconciliation *)

Lemma worker_stockUpdateFor_ok itemDetails i oldQty change
      (stockMap : gmap string Z) :
  let current := default 0 (stockMap !! i) in
  0 <= current + change ->
  Worker.stockUpdateFor itemDetails i oldQty change stockMap
  = inr (writtenFor i current
           (cappedChange current (initialStock itemDetails) change) stockMap).
Proof.
  intros current Hfut. unfold Worker.stockUpdateFor, writtenFor, cappedChange.
  fold current.
  destruct (change =? 0) eqn:E0; simpl.
  - apply Z.eqb_eq in E0. subst change. simpl. done.
  - apply Z.eqb_neq in E0.
    destruct (current + change <? 0) eqn:Ef; [lia|].
    rewrite (andb_comm (change >? 0)).
    destruct ((current + change >? initialStock itemDetails) && (change >? 0));
      simpl.
    + by destruct (initialStock itemDetails - current =? 0).
    + destruct (change =? 0) eqn:E1; [lia|done].
Qed.

Lemma worker_stockUpdateFor_short itemDetails i oldQty change
      (stockMap : gmap string Z) :
  let current := default 0 (stockMap !! i) in
  current + change < 0 -> change <> 0 ->
  exists e, Worker.stockUpdateFor itemDetails i oldQty change stockMap = inl e.
Proof.
  intros current Hfut Hne. unfold Worker.stockUpdateFor. fold current.
  destruct (change =? 0) eqn:E0; [lia|]. simpl.
  destruct (current + change <? 0) eqn:Ef; [eauto|lia].
Qed.

Lemma workerV1_stockUpdateFor_ok itemDetails i oldQty change
      (stockMap : gmap string Z) :
  let current := default 0 (stockMap !! i) in
  0 <= current + change ->
  current <= initialStock itemDetails ->
  WorkerV1.stockUpdateFor itemDetails i oldQty change stockMap
  = inr (writtenFor i current
           (cappedChange current (initialStock itemDetails) change) stockMap).
Proof.
  intros current Hfut Hcur.
  unfold WorkerV1.stockUpdateFor, writtenFor, cappedChange. fold current.
  destruct (change =? 0) eqn:E0; simpl.
  - apply Z.eqb_eq in E0. subst change. simpl. done.
  - apply Z.eqb_neq in E0.
    destruct (current + change <? 0) eqn:Ef; [lia|].
    destruct (current + change >? initialStock itemDetails) eqn:Ec.
    + destruct (change >? 0) eqn:Ep; [|lia]. simpl.
      by destruct (initialStock itemDetails - current =? 0).
    + rewrite andb_false_r. destruct (change =? 0) eqn:E1; [lia|done].
Qed.

Lemma adjustStock_increase i q s item :
  findItem i (DataService.getItems s) = Some item ->
  DataService.adjustStockForItem i q DataService.increase s
  = DataService.Returned tt
      (storageWithStock i item
         (if currentStock item + q >? initialStock item
          then initialStock item else currentStock item + q) s).
Proof. intros H. unfold DataService.adjustStockForItem. by rewrite H. Qed.

Lemma adjustStock_decrease i q s item :
  findItem i (DataService.getItems s) = Some item ->
  DataService.adjustStockForItem i q DataService.decrease s
  = if currentStock item <? q
    then DataService.Threw
           (DataService.InsufficientStock (name item) q (currentStock item)) s
    else DataService.Returned tt
           (storageWithStock i item (currentStock item - q) s).
Proof. intros H. unfold DataService.adjustStockForItem. by rewrite H. Qed.

(** ** Stock changes over the inventory *)

Section StockChanges.

Lemma withCurrentStock_same item :
  withCurrentStock item (currentStock item) = item.
Proof. by destruct item. Qed.

Lemma applyStockChange_ids change allItems :
  map id (applyStockChange change allItems) = map id allItems.
Proof.
  unfold applyStockChange. rewrite map_map. by apply map_ext.
Qed.

Lemma applyStockChange_ext f g allItems :
  (forall item, item ∈ allItems -> f (id item) = g (id item)) ->
  applyStockChange f allItems = applyStockChange g allItems.
Proof.
  intros H. unfold applyStockChange. apply map_ext_in.
  intros item Hin. apply list_elem_of_In in Hin. by rewrite H.
Qed.

Lemma applyStockChange_zero allItems :
  applyStockChange (fun _ => 0) allItems = allItems.
Proof.
  unfold applyStockChange. rewrite <- (map_id allItems) at 2.
  apply map_ext. intros item. rewrite Z.add_0_r. apply withCurrentStock_same.
Qed.

Lemma applyStockChange_compose f g allItems :
  applyStockChange g (applyStockChange f allItems)
  = applyStockChange (fun i => f i + g i) allItems.
Proof.
  unfold applyStockChange. rewrite map_map. apply map_ext.
  intros item. unfold withCurrentStock. simpl. f_equal. lia.
Qed.

Lemma bump_is_change i (f : Item -> Z) allItems :
  map (fun r => if String.eqb (id r) i
                then withCurrentStock r (currentStock r + f r) else r)
      allItems
  = map (fun r => withCurrentStock r
                    (currentStock r + if String.eqb (id r) i then f r else 0))
        allItems.
Proof.
  apply map_ext. intros r. destruct (String.eqb (id r) i); [done|].
  rewrite Z.add_0_r. by rewrite withCurrentStock_same.
Qed.

Lemma findItem_applyStockChange change i allItems :
  findItem i (applyStockChange change allItems)
  = (fun item => withCurrentStock item (currentStock item + change (id item)))
      <$> findItem i allItems.
Proof.
  unfold findItem, applyStockChange.
  induction allItems as [|x rest IH]; simpl; [done|].
  destruct (String.eqb (id x) i); [done | apply IH].
Qed.

Lemma elem_of_applyStockChange change item' allItems :
  item' ∈ applyStockChange change allItems ->
  exists item, item ∈ allItems
               /\ item' = withCurrentStock item
                            (currentStock item + change (id item)).
Proof.
  unfold applyStockChange. intros H.
  apply list_elem_of_fmap in H as (item & -> & Hin). eauto.
Qed.

Lemma same_id_same_item allItems a b :
  NoDup (map id allItems) -> a ∈ allItems -> b ∈ allItems -> id a = id b ->
  a = b.
Proof.
  intros Hnd Ha Hb Hid.
  pose proof (findItem_unique _ _ Hnd Ha) as Fa.
  pose proof (findItem_unique _ _ Hnd Hb) as Fb.
  rewrite Hid in Fa. congruence.
Qed.

(** [new Set]: no repetition, the same elements. *)
Lemma setAdd_NoDup acc x : NoDup acc -> NoDup (setAdd acc x).
Proof.
  intros H. unfold setAdd. case_bool_decide; [done|].
  apply NoDup_app. split; [done|]. split.
  - intros y Hy Hy'. apply list_elem_of_singleton in Hy'. by subst.
  - apply NoDup_singleton.
Qed.

Lemma elem_of_setAdd acc x y : y ∈ setAdd acc x <-> y ∈ acc \/ y = x.
Proof.
  unfold setAdd. case_bool_decide.
  - split; [auto|]. intros [?| ->]; done.
  - rewrite elem_of_app, list_elem_of_singleton. done.
Qed.

Lemma fold_setAdd_NoDup xs acc : NoDup acc -> NoDup (fold_left setAdd xs acc).
Proof.
  revert acc. induction xs as [|x rest IH]; simpl; intros acc H; [done|].
  apply IH. by apply setAdd_NoDup.
Qed.

Lemma elem_of_fold_setAdd xs acc y :
  y ∈ fold_left setAdd xs acc <-> y ∈ acc \/ y ∈ xs.
Proof.
  revert acc. induction xs as [|x rest IH]; simpl; intros acc.
  - split; [auto|]. intros [?|H]; [done|]. by apply elem_of_nil in H.
  - rewrite IH, elem_of_setAdd, elem_of_cons. tauto.
Qed.

Lemma newSet_NoDup xs : NoDup (newSet xs).
Proof. apply fold_setAdd_NoDup. apply NoDup_nil_2. Qed.

Lemma elem_of_newSet xs y : y ∈ newSet xs <-> y ∈ xs.
Proof.
  unfold newSet. rewrite elem_of_fold_setAdd. split; [|auto].
  intros [H|H]; [by apply elem_of_nil in H | done].
Qed.

Lemma elem_of_allInvolved oldItems newItems i :
  i ∈ allInvolvedItemIds oldItems newItems
  <-> i ∈ itemIds oldItems \/ i ∈ itemIds newItems.
Proof.
  unfold allInvolvedItemIds. by rewrite elem_of_newSet, elem_of_app.
Qed.

Lemma findItem_app i xs ys :
  findItem i (xs ++ ys)
  = match findItem i xs with
    | Some item => Some item
    | None => findItem i ys
    end.
Proof.
  unfold findItem. induction xs as [|x rest IH]; simpl; [done|].
  by destruct (String.eqb (id x) i).
Qed.

(** The stock map holds, for each item, its current stock. *)
Lemma stockMapOf_fold allItems (m : gmap string Z) i :
  fold_left (fun m item => <[id item := currentStock item]> m) allItems m !! i
  = match findItem i (rev allItems) with
    | Some item => Some (currentStock item)
    | None => m !! i
    end.
Proof.
  revert m. induction allItems as [|x rest IH]; intros m; simpl; [done|].
  rewrite IH, findItem_app.
  destruct (findItem i (rev rest)); [done|]. unfold findItem. simpl.
  destruct (String.eqb (id x) i) eqn:E.
  - apply String.eqb_eq in E. subst i. by rewrite lookup_insert_eq.
  - apply String.eqb_neq in E. by rewrite lookup_insert_ne.
Qed.

Lemma findItem_rev allItems i :
  NoDup (map id allItems) -> findItem i (rev allItems) = findItem i allItems.
Proof.
  intros Hnd.
  destruct (findItem i allItems) as [item|] eqn:E.
  - apply findItem_Some_inv in E as [Hin <-].
    apply findItem_unique.
    + rewrite map_rev. by rewrite <- Permutation.Permutation_rev.
    + by apply list_elem_of_In, in_rev, list_elem_of_In in Hin.
  - apply findItem_None_inv in E.
    destruct (findItem i (rev allItems)) as [item|] eqn:E'; [|done].
    apply findItem_Some_inv in E' as [Hin <-]. exfalso. apply E.
    apply list_elem_of_fmap. exists item. split; [done|].
    apply list_elem_of_In, in_rev. by apply list_elem_of_In.
Qed.

Lemma stockMapOf_lookup allItems i item :
  NoDup (map id allItems) -> findItem i allItems = Some item ->
  stockMapOf allItems !! i = Some (currentStock item).
Proof.
  intros Hnd Hfind. unfold stockMapOf. rewrite stockMapOf_fold.
  by rewrite findItem_rev, Hfind.
Qed.

End StockChanges.

(** ** Conservation under the three moves of the ledger *)

Section Conservation.

Lemma stockChangeFor_heldBy i (old new : RentalApplication) :
  wellFormedEntries (items old) -> wellFormedEntries (items new) ->
  WorkerBase.stockChangeFor (isReserved (status old)) (isReserved (status new))
                            (qtyOf i (items old)) (qtyOf i (items new))
  = heldBy i old - heldBy i new.
Proof.
  intros [Hnd1 Hq1] [Hnd2 Hq2]. unfold WorkerBase.stockChangeFor, heldBy.
  rewrite !entryTotal_qtyOf by done.
  pose proof (qtyOf_nonneg i _ Hq1). pose proof (qtyOf_nonneg i _ Hq2).
  destruct (isReserved (status old)), (isReserved (status new)); simpl;
    repeat match goal with
           | |- context [?a >? ?b] => destruct (Z.gtb_spec a b)
           end; lia.
Qed.

Lemma heldBy_le_reservedTotal i ledger (old : RentalApplication) :
  Forall (fun a : RentalApplication => wellFormedEntries (items a)) ledger ->
  old ∈ ledger -> heldBy i old <= reservedTotal i ledger.
Proof.
  induction 1 as [|a rest Ha Hrest IH]; intros Hin.
  - by apply elem_of_nil in Hin.
  - simpl. apply elem_of_cons in Hin as [->|Hin].
    + pose proof (reservedTotal_nonneg i rest Hrest). lia.
    + pose proof (heldBy_nonneg i a Ha). specialize (IH Hin). lia.
Qed.

Lemma conservedItem_moved ledger ledger' change item :
  conservedItem ledger item ->
  reservedTotal (id item) ledger'
  = reservedTotal (id item) ledger - change (id item) ->
  conservedItem ledger'
    (withCurrentStock item (currentStock item + change (id item))).
Proof. unfold conservedItem. simpl. lia. Qed.

Lemma conserved_after allItems ledger ledger' change :
  Forall (conservedItem ledger) allItems ->
  (forall item, item ∈ allItems ->
                reservedTotal (id item) ledger'
                = reservedTotal (id item) ledger - change (id item)) ->
  Forall (conservedItem ledger') (applyStockChange change allItems).
Proof.
  intros Hc Hr. apply Forall_forall. intros item' Hin.
  apply elem_of_applyStockChange in Hin as (item & Hin & ->).
  apply conservedItem_moved with (ledger := ledger); [|by apply Hr].
  rewrite Forall_forall in Hc. by apply Hc.
Qed.

Lemma conserved_after_replace allItems ledger (new old : RentalApplication)
      change :
  NoDup (applicationIds ledger) ->
  findApplication (appId new) ledger = Some old ->
  (forall item, item ∈ allItems ->
                change (id item) = heldBy (id item) old - heldBy (id item) new) ->
  Forall (conservedItem ledger) allItems ->
  Forall (conservedItem (replaceApplication new ledger))
         (applyStockChange change allItems).
Proof.
  intros Hnd Hfind Hch Hc. apply conserved_after with (ledger := ledger);
    [done|].
  intros item Hin. rewrite (reservedTotal_replace _ _ _ old) by done.
  rewrite Hch by done. lia.
Qed.

Lemma conserved_after_add allItems ledger (new : RentalApplication) change :
  (forall item, item ∈ allItems -> change (id item) = - heldBy (id item) new) ->
  Forall (conservedItem ledger) allItems ->
  Forall (conservedItem (ledger ++ [new])) (applyStockChange change allItems).
Proof.
  intros Hch Hc. apply conserved_after with (ledger := ledger); [done|].
  intros item Hin. rewrite reservedTotal_app. simpl.
  rewrite Hch by done. lia.
Qed.

Lemma conserved_after_remove allItems ledger a (old : RentalApplication)
      change :
  NoDup (applicationIds ledger) ->
  findApplication a ledger = Some old ->
  (forall item, item ∈ allItems -> change (id item) = heldBy (id item) old) ->
  Forall (conservedItem ledger) allItems ->
  Forall (conservedItem (removeApplication a ledger))
         (applyStockChange change allItems).
Proof.
  intros Hnd Hfind Hch Hc. apply conserved_after with (ledger := ledger);
    [done|].
  intros item Hin. rewrite (reservedTotal_remove _ _ _ old) by done.
  rewrite Hch by done. lia.
Qed.

Lemma wellFormedLedger_replace ledger (new : RentalApplication) :
  wellFormedLedger ledger -> wellFormedEntries (items new) ->
  wellFormedLedger (replaceApplication new ledger).
Proof.
  intros [Hnd Hwf] Hnew. split.
  - by rewrite applicationIds_replace.
  - apply Forall_forall. intros x Hx.
    apply elem_of_replaceApplication in Hx as [->|Hx]; [done|].
    rewrite Forall_forall in Hwf. by apply Hwf.
Qed.

Lemma wellFormedLedger_add ledger (new : RentalApplication) :
  wellFormedLedger ledger -> wellFormedEntries (items new) ->
  appId new ∉ applicationIds ledger ->
  wellFormedLedger (ledger ++ [new]).
Proof.
  intros [Hnd Hwf] Hnew Hfresh. split.
  - unfold applicationIds. rewrite map_app. simpl. apply NoDup_app.
    split; [done|]. split; [|apply NoDup_singleton].
    intros x Hx Hx'. apply list_elem_of_singleton in Hx'. by subst.
  - apply Forall_app. split; [done|]. by apply Forall_singleton.
Qed.

Lemma wellFormedLedger_remove ledger a :
  wellFormedLedger ledger -> wellFormedLedger (removeApplication a ledger).
Proof.
  intros [Hnd Hwf]. split; [by apply NoDup_applicationIds_remove|].
  apply Forall_forall. intros x Hx.
  apply elem_of_removeApplication in Hx as [Hx _].
  rewrite Forall_forall in Hwf. by apply Hwf.
Qed.

(** What an application holds of an item is held back of its stock. *)
Lemma held_fits ledger allItems (old : RentalApplication) item :
  wellFormedLedger ledger -> Forall (conservedItem ledger) allItems ->
  old ∈ ledger -> item ∈ allItems ->
  0 <= heldBy (id item) old
  /\ currentStock item + heldBy (id item) old <= initialStock item.
Proof.
  intros [_ Hwf] Hc Hold Hitem.
  rewrite Forall_forall in Hc. specialize (Hc _ Hitem).
  unfold conservedItem in Hc.
  pose proof (heldBy_le_reservedTotal (id item) _ _ Hwf Hold).
  rewrite Forall_forall in Hwf.
  pose proof (heldBy_nonneg (id item) old (Hwf _ Hold)). lia.
Qed.

End Conservation.

(** ** The localStorage service: what the stock adjustments do *)

Section ServiceAdjustments.

Import DataService.

Lemma storageWithStock_items i item newStock s :
  NoDup (map id (getItems s)) -> findItem i (getItems s) = Some item ->
  kaistWelfareItems (storageWithStock i item newStock s)
  = applyStockChange (only i (newStock - currentStock item)) (getItems s).
Proof.
  intros Hnd Hfind. unfold storageWithStock, setItems, applyStockChange. simpl.
  apply map_ext_in. intros r Hr. apply list_elem_of_In in Hr.
  apply findItem_Some_inv in Hfind as [Hitem Hid].
  unfold only. destruct (String.eqb (id r) i) eqn:E.
  - apply String.eqb_eq in E.
    assert (r = item) as -> by (eapply same_id_same_item; eauto; congruence).
    f_equal. lia.
  - by rewrite Z.add_0_r, withCurrentStock_same.
Qed.

Lemma adjust_fitting adj s :
  NoDup (map id (getItems s)) -> adjFits (getItems s) adj ->
  exists s',
    adjustStockForItem (adjItemId adj) (adjQuantity adj) (adjOperation adj) s
    = Returned tt s'
    /\ kaistWelfareItems s'
       = applyStockChange (only (adjItemId adj) (signedQuantity adj))
                          (getItems s)
    /\ kaistWelfareRentals s' = kaistWelfareRentals s.
Proof.
  intros Hnd (item & Hfind & Hfit). unfold signedQuantity.
  destruct (adjOperation adj).
  - rewrite (adjustStock_decrease _ _ _ _ Hfind).
    destruct (currentStock item <? adjQuantity adj) eqn:E; [lia|].
    eexists. split; [done|]. split; [|done].
    rewrite storageWithStock_items by done. f_equal. f_equal. lia.
  - rewrite (adjustStock_increase _ _ _ _ Hfind).
    destruct (currentStock item + adjQuantity adj >? initialStock item) eqn:E;
      [lia|].
    eexists. split; [done|]. split; [|done].
    rewrite storageWithStock_items by done. f_equal. f_equal. lia.
Qed.

Lemma findItem_after_only i d j allItems :
  j <> i ->
  findItem j (applyStockChange (only i d) allItems) = findItem j allItems.
Proof.
  intros Hne. rewrite findItem_applyStockChange.
  destruct (findItem j allItems) as [item|] eqn:E; [|done]. simpl.
  apply findItem_Some_inv in E as [_ Hid]. unfold only.
  rewrite Hid. destruct (String.eqb j i) eqn:Eq.
  - by apply String.eqb_eq in Eq.
  - by rewrite Z.add_0_r, withCurrentStock_same.
Qed.

(** Adjustments of distinct items that fit the inventory all go through,
    and the inventory moves by their sum. *)
Lemma apply_adjustments adjs s :
  NoDup (map id (getItems s)) ->
  NoDup (map adjItemId adjs) ->
  Forall (adjFits (getItems s)) adjs ->
  exists s',
    forEach (fun adj => adjustStockForItem (adjItemId adj) (adjQuantity adj)
                                           (adjOperation adj)) adjs s
    = Returned tt s'
    /\ kaistWelfareItems s' = applyStockChange (adjChange adjs) (getItems s)
    /\ kaistWelfareRentals s' = kaistWelfareRentals s.
Proof.
  revert s. induction adjs as [|adj rest IH]; intros s Hnd Hids Hfit.
  - exists s. split; [done|]. split; [|done].
    simpl. by rewrite applyStockChange_zero.
  - simpl in Hids. apply NoDup_cons in Hids as [Hfresh Hids].
    apply Forall_cons in Hfit as [Hadj Hrest].
    destruct (adjust_fitting adj s Hnd Hadj) as (s1 & Hs1 & Hitems1 & Hrent1).
    simpl. rewrite Hs1.
    destruct (IH s1) as (s2 & Hs2 & Hitems2 & Hrent2).
    + unfold getItems. rewrite Hitems1. by rewrite applyStockChange_ids.
    + done.
    + apply Forall_forall. intros adj' Hin.
      rewrite Forall_forall in Hrest.
      destruct (Hrest _ Hin) as (item & Hfind & Hok).
      exists item. split; [|done]. unfold getItems. rewrite Hitems1.
      rewrite findItem_after_only; [done|].
      intros Heq. apply Hfresh. rewrite <- Heq.
      apply list_elem_of_fmap. eauto.
    + exists s2. split; [done|]. split; [|congruence].
      rewrite Hitems2. unfold getItems. rewrite Hitems1.
      by rewrite applyStockChange_compose.
Qed.

Lemma forEach_map {A B} (g : A -> B) (f : B -> Storage -> Outcome unit) xs s :
  forEach f (map g xs) s = forEach (fun x => f (g x)) xs s.
Proof.
  revert s. induction xs as [|x rest IH]; intros s; simpl; [done|].
  destruct (f (g x) s); [apply IH | done].
Qed.

Lemma adjChange_decrease entries i :
  adjChange (map (asAdjustment decrease) entries) i = - entryTotal i entries.
Proof.
  induction entries as [|e rest IH]; simpl; [done|].
  rewrite IH. unfold only, signedQuantity. simpl.
  rewrite (String.eqb_sym i). destruct (String.eqb (itemId e) i); lia.
Qed.

Lemma adjChange_increase entries i :
  adjChange (map (asAdjustment increase) entries) i = entryTotal i entries.
Proof.
  induction entries as [|e rest IH]; simpl; [done|].
  rewrite IH. unfold only, signedQuantity. simpl.
  rewrite (String.eqb_sym i). destruct (String.eqb (itemId e) i); lia.
Qed.

Lemma validateStock_None selected allItems :
  validateStock selected allItems = None ->
  Forall (adjFits allItems) (map (asAdjustment decrease) selected).
Proof.
  induction selected as [|e rest IH]; simpl; intros H; [constructor|].
  destruct (findItem (itemId e) allItems) as [item|] eqn:E; [|done].
  destruct (currentStock item <? quantity e) eqn:Ec; [done|].
  constructor; [|by apply IH].
  exists item. simpl. split; [done|]. lia.
Qed.

Lemma validateStock_None_iff selected allItems :
  validateStock selected allItems = None
  <-> Forall (fun e => exists item,
                  findItem (itemId e) allItems = Some item
                  /\ quantity e <= currentStock item) selected.
Proof.
  induction selected as [|e rest IH]; simpl.
  - split; [constructor | done].
  - rewrite Forall_cons, <- IH.
    destruct (findItem (itemId e) allItems) as [item|] eqn:E.
    + destruct (currentStock item <? quantity e) eqn:Ec.
      * split; [done|]. intros [(it & [= <-] & Hle) _]. lia.
      * split; [|tauto]. intros H. split; [|done]. exists item.
        split; [done | lia].
    + split; [done|]. by intros [(it & ? & _) _].
Qed.

Lemma validateStock_Some selected allItems e :
  validateStock selected allItems = Some e ->
  exists itemName requested available,
    e = InsufficientStock itemName requested available.
Proof.
  induction selected as [|x rest IH]; simpl; intros H; [done|].
  destruct (findItem (itemId x) allItems) as [item|].
  - destruct (currentStock item <? quantity x); [|by apply IH].
    injection H as <-. eauto.
  - injection H as <-. eauto.
Qed.

End ServiceAdjustments.

(** ** The localStorage service: create and cancel *)

Section ServiceCreateCancel.

Import DataService.

Lemma addRentalApplication_returns fixedDeposit appData newId today s :
  NoDup (map id (getItems s)) ->
  NoDup (itemIds (items appData)) ->
  validateStock (items appData) (getItems s) = None ->
  addRentalApplication fixedDeposit appData newId today s
  = Returned (createdApplication fixedDeposit appData newId today (getItems s))
      (mkStorage
         (applyStockChange (fun i => - entryTotal i (items appData))
                           (getItems s))
         (kaistWelfareRentals s
          ++ [createdApplication fixedDeposit appData newId today (getItems s)])).
Proof.
  intros Hnd Hsel Hval. unfold addRentalApplication. rewrite Hval.
  cbn [items]. rewrite <- (forEach_map (asAdjustment decrease)
    (fun adj => adjustStockForItem (adjItemId adj) (adjQuantity adj)
                                   (adjOperation adj))).
  destruct (apply_adjustments (map (asAdjustment decrease) (items appData)) s)
    as (s' & -> & Hitems & Hrent).
  - done.
  - rewrite map_map. simpl. exact Hsel.
  - by apply validateStock_None.
  - unfold createdApplication, setRentals, getRentalApplications.
    f_equal. rewrite Hitems, Hrent. f_equal.
    apply applyStockChange_ext. intros item _. apply adjChange_decrease.
Qed.

Lemma addRentalApplication_throws fixedDeposit appData newId today s e :
  validateStock (items appData) (getItems s) = Some e ->
  addRentalApplication fixedDeposit appData newId today s = Threw e s.
Proof. intros H. unfold addRentalApplication. by rewrite H. Qed.

Lemma cancel_fits allItems ledger (app : RentalApplication) :
  NoDup (map id allItems) -> wellFormedLedger ledger ->
  Forall (conservedItem ledger) allItems ->
  app ∈ ledger -> isReserved (status app) = true ->
  itemsResolve allItems (items app) ->
  Forall (adjFits allItems) (map (asAdjustment increase) (items app)).
Proof.
  intros Hnd Hwf Hc Hin Hres Hresolve.
  apply Forall_fmap, Forall_forall. intros e He.
  unfold itemsResolve in Hresolve. rewrite Forall_forall in Hresolve.
  destruct (Hresolve _ He) as [item Hfind].
  exists item. simpl. split; [done|].
  apply findItem_Some_inv in Hfind as [Hitem Hid].
  destruct (held_fits ledger allItems app item Hwf Hc Hin Hitem) as [_ Hle].
  assert (Hq : heldBy (id item) app = quantity e).
  { unfold heldBy. rewrite Hres.
    destruct Hwf as [_ Hwf]. rewrite Forall_forall in Hwf.
    destruct (Hwf _ Hin) as [Hnd' _].
    rewrite entryTotal_qtyOf by done. rewrite Hid.
    unfold qtyOf, findEntry.
    destruct (find _ (items app)) as [e'|] eqn:E.
    - apply find_some in E as [He' Heq]. apply String.eqb_eq in Heq.
      f_equal. clear -Hnd' He He' Heq.
      induction (items app) as [|x rest IH]; [by apply elem_of_nil in He|].
      simpl in Hnd'. apply NoDup_cons in Hnd' as [Hx Hnd'].
      apply elem_of_cons in He as [->|He]; destruct He' as [->|He'].
      + done.
      + exfalso. apply Hx. rewrite <- Heq. apply list_elem_of_fmap.
        exists e'. split; [done | by apply list_elem_of_In].
      + exfalso. apply Hx. rewrite Heq. apply list_elem_of_fmap. eauto.
      + by apply IH.
    - apply list_elem_of_In in He.
      pose proof (find_none _ _ E _ He) as Hf. simpl in Hf.
      by rewrite String.eqb_refl in Hf. }
  lia.
Qed.

Lemma cancelRentalApplication_returns applicationId s app :
  consistentStorage s ->
  findApplication applicationId (kaistWelfareRentals s) = Some app ->
  status app = PENDING ->
  cancelRentalApplication applicationId s
  = Returned true
      (mkStorage
         (applyStockChange (fun i => entryTotal i (items app)) (getItems s))
         (removeApplication applicationId (kaistWelfareRentals s))).
Proof.
  intros (Hnd & Hwf & Hres & Hc) Hfind Hst.
  unfold cancelRentalApplication, getRentalApplications.
  unfold findApplication in Hfind. rewrite Hfind, Hst.
  rewrite <- (forEach_map (asAdjustment increase)
    (fun adj => adjustStockForItem (adjItemId adj) (adjQuantity adj)
                                   (adjOperation adj))).
  apply findApplication_Some_inv in Hfind as [Hin _].
  destruct (apply_adjustments (map (asAdjustment increase) (items app)) s)
    as (s' & -> & Hitems & Hrent).
  - done.
  - rewrite map_map. simpl. destruct Hwf as [_ Hwf].
    rewrite Forall_forall in Hwf. by destruct (Hwf _ Hin).
  - apply (cancel_fits _ (kaistWelfareRentals s)); try done.
    + by rewrite Hst.
    + rewrite Forall_forall in Hres. apply Hres; [done | by rewrite Hst].
  - unfold setRentals, removeApplication. f_equal. rewrite Hitems.
    f_equal. apply applyStockChange_ext. intros item _.
    apply adjChange_increase.
Qed.

Lemma itemsResolve_after change allItems entries :
  itemsResolve allItems entries ->
  itemsResolve (applyStockChange change allItems) entries.
Proof.
  unfold itemsResolve. intros H. eapply Forall_impl; [exact H|].
  intros e [item He]. simpl. rewrite findItem_applyStockChange, He. eauto.
Qed.

End ServiceCreateCancel.

(** ** The localStorage service: update *)

Section ServiceUpdate.

Import DataService.

Lemma adjChange_app xs ys i :
  adjChange (xs ++ ys) i = adjChange xs i + adjChange ys i.
Proof. induction xs as [|x rest IH]; simpl; [lia | rewrite IH; lia]. Qed.

Lemma adjChange_adjustmentFor oldRes newRes oldQty newQty j i :
  adjChange (adjustmentFor oldRes newRes oldQty newQty j) i
  = only j (WorkerBase.stockChangeFor oldRes newRes oldQty newQty) i.
Proof.
  unfold adjustmentFor, WorkerBase.stockChangeFor, only.
  destruct oldRes, newRes; simpl;
    repeat match goal with
           | |- context [?a >? ?b] => destruct (Z.gtb_spec a b); simpl
           | |- context [?a <? ?b] => destruct (Z.ltb_spec a b); simpl
           end;
    unfold only, signedQuantity; simpl;
    destruct (String.eqb i j); lia.
Qed.

Lemma adjustmentFor_inv oldRes newRes oldQty newQty j adj :
  adj ∈ adjustmentFor oldRes newRes oldQty newQty j ->
  adjItemId adj = j
  /\ (adjOperation adj = increase ->
      0 <= newQty -> oldRes = true /\ adjQuantity adj <= oldQty).
Proof.
  unfold adjustmentFor.
  destruct oldRes, newRes; simpl;
    repeat match goal with
           | |- context [?a >? ?b] => destruct (Z.gtb_spec a b); simpl
           | |- context [?a <? ?b] => destruct (Z.ltb_spec a b); simpl
           end;
    intros Hmem;
    try (by apply elem_of_nil in Hmem);
    apply list_elem_of_singleton in Hmem; subst adj; simpl;
    (split; [done|]); intros Hop Hn; try done; split; (done || lia).
Qed.

Lemma adjustmentFor_length oldRes newRes oldQty newQty j :
  (length (adjustmentFor oldRes newRes oldQty newQty j) <= 1)%nat.
Proof.
  unfold adjustmentFor.
  destruct oldRes, newRes; simpl;
    repeat match goal with
           | |- context [?a >? ?b] => destruct (Z.gtb_spec a b); simpl
           | |- context [?a <? ?b] => destruct (Z.ltb_spec a b); simpl
           end; lia.
Qed.

Lemma collectAdjustments_spec oldRes newRes oldItems newItems allItems
      involved adjs :
  collectAdjustments oldRes newRes oldItems newItems allItems involved
  = inr adjs ->
  Forall (fun j => is_Some (findItem j allItems)) involved
  /\ (forall adj, adj ∈ adjs ->
        adjItemId adj ∈ involved
        /\ adj ∈ adjustmentFor oldRes newRes (qtyOf (adjItemId adj) oldItems)
                   (qtyOf (adjItemId adj) newItems) (adjItemId adj))
  /\ (NoDup involved -> NoDup (map adjItemId adjs))
  /\ (forall i, adjChange adjs i
                = foldr (fun j acc =>
                           only j (WorkerBase.stockChangeFor oldRes newRes
                                     (qtyOf j oldItems) (qtyOf j newItems)) i
                           + acc) 0 involved).
Proof.
  revert adjs. induction involved as [|j rest IH]; simpl; intros adjs H.
  - injection H as <-. split; [constructor|]. split.
    + intros adj Hadj. by apply elem_of_nil in Hadj.
    + split; [intros _; constructor | done].
  - destruct (findItem j allItems) as [item|] eqn:Ej; [|done].
    destruct (collectAdjustments _ _ _ _ _ rest) as [e|adjs'] eqn:Er; [done|].
    injection H as <-.
    destruct (IH adjs' eq_refl) as (Hex & Hin & Hnd & Hch).
    split; [constructor; eauto|]. split; [|split].
    + intros adj Hadj. apply elem_of_app in Hadj as [Hadj|Hadj].
      * pose proof (adjustmentFor_inv _ _ _ _ _ _ Hadj) as [Hid _].
        rewrite Hid. split; [apply elem_of_cons; auto | done].
      * destruct (Hin _ Hadj) as [? ?]. split; [apply elem_of_cons; auto|done].
    + intros Hndj. apply NoDup_cons in Hndj as [Hj Hrest].
      rewrite map_app. apply NoDup_app. split; [|split; [|by apply Hnd]].
      * pose proof (adjustmentFor_length oldRes newRes (qtyOf j oldItems)
                      (qtyOf j newItems) j) as Hlen.
        destruct (adjustmentFor _ _ _ _ j) as [|a [|b l]]; simpl in *;
          [constructor | apply NoDup_singleton | lia].
      * intros x Hx Hx'. apply list_elem_of_fmap in Hx as (a & -> & Ha).
        apply list_elem_of_fmap in Hx' as (b & Hab & Hb).
        apply adjustmentFor_inv in Ha as [Ha _].
        destruct (Hin _ Hb) as [Hb' _]. apply Hj. congruence.
    + intros i. rewrite adjChange_app, adjChange_adjustmentFor, Hch. done.
Qed.

Lemma change_sum_absent (f : string -> Z) involved i :
  i ∉ involved -> foldr (fun j acc => only j (f j) i + acc) 0 involved = 0.
Proof.
  induction involved as [|j rest IH]; simpl; intros Hni; [done|].
  apply not_elem_of_cons in Hni as [Hne Hni]. rewrite IH by done.
  unfold only. destruct (String.eqb i j) eqn:E; [|lia].
  by apply String.eqb_eq in E.
Qed.

Lemma change_sum_present (f : string -> Z) involved i :
  NoDup involved -> i ∈ involved ->
  foldr (fun j acc => only j (f j) i + acc) 0 involved = f i.
Proof.
  induction involved as [|j rest IH]; simpl; intros Hnd Hin.
  - by apply elem_of_nil in Hin.
  - apply NoDup_cons in Hnd as [Hj Hnd].
    apply elem_of_cons in Hin as [->|Hin].
    + rewrite change_sum_absent by done. unfold only.
      rewrite String.eqb_refl. lia.
    + rewrite IH by done. unfold only.
      destruct (String.eqb i j) eqn:E; [|lia].
      apply String.eqb_eq in E. by subst.
Qed.

Lemma stockChangeFor_zero oldRes newRes :
  WorkerBase.stockChangeFor oldRes newRes 0 0 = 0.
Proof. by destruct oldRes, newRes. Qed.

(** Over the involved items, each once, the changes add up to the change
    of each item. *)
Lemma change_sum_involved oldRes newRes oldItems newItems i :
  foldr (fun j acc =>
           only j (WorkerBase.stockChangeFor oldRes newRes (qtyOf j oldItems)
                     (qtyOf j newItems)) i + acc)
        0 (allInvolvedItemIds oldItems newItems)
  = WorkerBase.stockChangeFor oldRes newRes (qtyOf i oldItems)
                              (qtyOf i newItems).
Proof.
  destruct (decide (i ∈ allInvolvedItemIds oldItems newItems)) as [Hin|Hni].
  - apply (change_sum_present
             (fun j => WorkerBase.stockChangeFor oldRes newRes
                         (qtyOf j oldItems) (qtyOf j newItems)));
      [apply newSet_NoDup | done].
  - rewrite change_sum_absent by done.
    rewrite elem_of_allInvolved in Hni.
    rewrite !qtyOf_absent by tauto. by rewrite stockChangeFor_zero.
Qed.

Lemma validateAdjustments_None adjs (m : gmap string Z) allItems :
  NoDup (map adjItemId adjs) ->
  validateAdjustments adjs m allItems = None ->
  Forall (fun adj => adjOperation adj = decrease ->
                     adjQuantity adj <= default 0 (m !! adjItemId adj)) adjs.
Proof.
  revert m. induction adjs as [|adj rest IH]; simpl; intros m Hnd H;
    [constructor|].
  apply NoDup_cons in Hnd as [Hfresh Hnd].
  destruct (adjOperation adj) eqn:Eop.
  - destruct (default 0 (m !! adjItemId adj) <? adjQuantity adj) eqn:E;
      [done|].
    constructor; [intros _; lia|].
    specialize (IH _ Hnd H). apply Forall_forall. intros adj' Hin Hop.
    rewrite Forall_forall in IH. specialize (IH _ Hin Hop).
    rewrite lookup_insert_ne in IH; [done|].
    intros Heq. apply Hfresh. rewrite Heq. apply list_elem_of_fmap. eauto.
  - constructor; [intros Hop; congruence|]. by apply IH.
Qed.

Lemma updateRentalApplication_returns fixedDeposit updatedApp s originalApp
      adjs :
  consistentStorage s ->
  wellFormedEntries (items updatedApp) ->
  findApplication (appId updatedApp) (kaistWelfareRentals s)
  = Some originalApp ->
  collectAdjustments (isReserved (status originalApp))
    (isReserved (status updatedApp)) (items originalApp) (items updatedApp)
    (getItems s) (allInvolvedItemIds (items originalApp) (items updatedApp))
  = inr adjs ->
  validateAdjustments adjs (stockMapOf (getItems s)) (getItems s) = None ->
  updateRentalApplication fixedDeposit updatedApp s
  = Returned (updatedApplication fixedDeposit updatedApp (getItems s))
      (mkStorage
         (applyStockChange
            (fun i => WorkerBase.stockChangeFor
                        (isReserved (status originalApp))
                        (isReserved (status updatedApp))
                        (qtyOf i (items originalApp))
                        (qtyOf i (items updatedApp)))
            (getItems s))
         (replaceApplication
            (updatedApplication fixedDeposit updatedApp (getItems s))
            (kaistWelfareRentals s))).
Proof.
  intros (Hnd & Hwf & Hres & Hc) Hnew Hfind Hcollect Hvalid.
  unfold updateRentalApplication, getRentalApplications.
  unfold findApplication in Hfind. rewrite Hfind.
  unfold withDerived. cbn [status row items appId].
  rewrite Hcollect, Hvalid.
  destruct (collectAdjustments_spec _ _ _ _ _ _ _ Hcollect)
    as (Hex & Hin & Hids & Hch).
  specialize (Hids (newSet_NoDup _)).
  pose proof (validateAdjustments_None _ _ _ Hids Hvalid) as Hdec.
  apply findApplication_Some_inv in Hfind as [Hold _].
  destruct (apply_adjustments adjs s) as (s' & -> & Hitems & Hrent).
  - done.
  - done.
  - apply Forall_forall. intros adj Hadj.
    destruct (Hin _ Hadj) as [Hinv Hfor].
    rewrite Forall_forall in Hex. destruct (Hex _ Hinv) as [item Hitem].
    exists item. split; [done|].
    destruct (adjOperation adj) eqn:Eop.
    + rewrite Forall_forall in Hdec. specialize (Hdec _ Hadj Eop).
      unfold getItems in *.
      by rewrite (stockMapOf_lookup _ _ _ Hnd Hitem) in Hdec.
    + apply adjustmentFor_inv in Hfor as [_ Hinc].
      destruct Hnew as [Hnd2 Hq2].
      destruct (Hinc Eop (qtyOf_nonneg _ _ Hq2)) as [Hr Hle].
      apply findItem_Some_inv in Hitem as [Hitem Hid].
      destruct (held_fits _ _ originalApp item Hwf Hc Hold Hitem) as [_ Hfit].
      unfold heldBy in Hfit. rewrite Hr in Hfit.
      destruct Hwf as [_ Hwf]. rewrite Forall_forall in Hwf.
      destruct (Hwf _ Hold) as [Hnd1 _].
      rewrite entryTotal_qtyOf, Hid in Hfit by done. lia.
  - unfold updatedApplication, setRentals, replaceApplication, withDerived.
    cbn [status row items appId]. f_equal.
    rewrite Hitems. f_equal. apply applyStockChange_ext. intros item _.
    rewrite Hch. apply change_sum_involved.
Qed.

End ServiceUpdate.

(** ** The localStorage service keeps its states consistent *)

Section ServiceInvariant.

Import DataService.

Lemma resolve_after change allItems ledger :
  Forall (fun a : RentalApplication =>
            isReserved (status a) = true -> itemsResolve allItems (items a))
         ledger ->
  Forall (fun a : RentalApplication =>
            isReserved (status a) = true ->
            itemsResolve (applyStockChange change allItems) (items a))
         ledger.
Proof.
  intros H. eapply Forall_impl; [exact H|]. simpl.
  intros a Ha Hr. by apply itemsResolve_after, Ha.
Qed.

Lemma create_consistent fixedDeposit appData newId today s :
  consistentStorage s ->
  wellFormedEntries (items appData) ->
  newId ∉ applicationIds (kaistWelfareRentals s) ->
  consistentStorage
    (storageAfter (addRentalApplication fixedDeposit appData newId today s)).
Proof.
  intros Hcons Hsel Hfresh.
  destruct (validateStock (items appData) (getItems s)) as [e|] eqn:Hval.
  { by rewrite (addRentalApplication_throws _ _ _ _ _ _ Hval). }
  destruct Hcons as (Hnd & Hwf & Hres & Hc).
  rewrite addRentalApplication_returns; [|done|by destruct Hsel|done].
  set (new := createdApplication fixedDeposit appData newId today (getItems s)).
  unfold storageAfter, consistentStorage. cbn [kaistWelfareItems kaistWelfareRentals].
  split; [by rewrite applyStockChange_ids|].
  split; [by apply wellFormedLedger_add|].
  split.
  - apply Forall_app. split; [by apply resolve_after|].
    apply Forall_singleton. intros _. apply itemsResolve_after.
    apply validateStock_None_iff in Hval. unfold itemsResolve.
    eapply Forall_impl; [exact Hval|]. simpl. intros x (item & -> & _). eauto.
  - apply conserved_after_add; [|done]. intros item _. done.
Qed.

Lemma edit_consistent fixedDeposit updatedApp s :
  consistentStorage s ->
  wellFormedEntries (items updatedApp) ->
  consistentStorage
    (storageAfter (updateRentalApplication fixedDeposit updatedApp s)).
Proof.
  intros Hcons Hnew.
  destruct (findApplication (appId updatedApp) (kaistWelfareRentals s))
    as [originalApp|] eqn:Hfind.
  2:{ unfold updateRentalApplication, getRentalApplications.
      unfold findApplication in Hfind. by rewrite Hfind. }
  destruct (collectAdjustments (isReserved (status originalApp))
              (isReserved (status updatedApp)) (items originalApp)
              (items updatedApp) (getItems s)
              (allInvolvedItemIds (items originalApp) (items updatedApp)))
    as [e|adjs] eqn:Hcollect.
  { unfold updateRentalApplication, getRentalApplications.
    unfold findApplication in Hfind. rewrite Hfind.
    unfold withDerived. cbn [status row items appId]. by rewrite Hcollect. }
  destruct (validateAdjustments adjs (stockMapOf (getItems s)) (getItems s))
    as [e|] eqn:Hvalid.
  { unfold updateRentalApplication, getRentalApplications.
    unfold findApplication in Hfind. rewrite Hfind.
    unfold withDerived. cbn [status row items appId].
    by rewrite Hcollect, Hvalid. }
  rewrite (updateRentalApplication_returns _ _ _ originalApp adjs) by done.
  set (new := updatedApplication fixedDeposit updatedApp (getItems s)).
  destruct Hcons as (Hnd & Hwf & Hres & Hc).
  pose proof (findApplication_Some_inv _ _ _ Hfind) as [Hold _].
  unfold storageAfter, consistentStorage.
  cbn [kaistWelfareItems kaistWelfareRentals].
  split; [by rewrite applyStockChange_ids|].
  split; [by apply wellFormedLedger_replace|].
  split.
  - apply Forall_forall. intros x Hx Hr.
    apply elem_of_replaceApplication in Hx as [->|Hx].
    + apply itemsResolve_after. simpl.
      destruct (collectAdjustments_spec _ _ _ _ _ _ _ Hcollect) as (Hex & _).
      unfold itemsResolve. apply Forall_forall. intros e He.
      rewrite Forall_forall in Hex. apply Hex.
      apply elem_of_allInvolved. right. apply list_elem_of_fmap. eauto.
    + apply itemsResolve_after. rewrite Forall_forall in Hres. by apply Hres.
  - apply (conserved_after_replace _ _ new originalApp); try done;
      [by destruct Hwf|].
    intros item _.
    assert (Hwfold : wellFormedEntries (items originalApp)).
    { destruct Hwf as [_ Hwf]. rewrite Forall_forall in Hwf. by apply Hwf. }
    by rewrite <- (stockChangeFor_heldBy _ originalApp new).
Qed.

Lemma cancel_consistent applicationId s :
  consistentStorage s ->
  consistentStorage (storageAfter (cancelRentalApplication applicationId s)).
Proof.
  intros Hcons.
  destruct (findApplication applicationId (kaistWelfareRentals s))
    as [app|] eqn:Hfind.
  2:{ unfold cancelRentalApplication, getRentalApplications.
      unfold findApplication in Hfind. by rewrite Hfind. }
  destruct (status app) eqn:Hst.
  2,3: unfold cancelRentalApplication, getRentalApplications;
       unfold findApplication in Hfind; by rewrite Hfind, Hst.
  rewrite (cancelRentalApplication_returns _ _ app) by done.
  destruct Hcons as (Hnd & Hwf & Hres & Hc).
  unfold storageAfter, consistentStorage.
  cbn [kaistWelfareItems kaistWelfareRentals].
  split; [by rewrite applyStockChange_ids|].
  split; [by apply wellFormedLedger_remove|].
  split.
  - apply Forall_forall. intros x Hx Hr.
    apply elem_of_removeApplication in Hx as [Hx _].
    apply itemsResolve_after. rewrite Forall_forall in Hres. by apply Hres.
  - apply (conserved_after_remove _ _ _ app); try done; [by destruct Hwf|].
    intros item _. unfold heldBy. by rewrite Hst.
Qed.

Lemma storage_step_consistent fixedDeposit s s' :
  consistentStorage s -> storageStep fixedDeposit s s' -> consistentStorage s'.
Proof.
  intros Hcons Hstep. destruct Hstep.
  - by apply create_consistent.
  - by apply edit_consistent.
  - by apply cancel_consistent.
Qed.

End ServiceInvariant.

(** ** The database: what the statements do *)

Section DatabaseFacts.

Import D1.

Lemma updateItems_eq matches change rows :
  updateItems matches change rows
  = if forallb (fun r => negb (matches r) || checkItem (change r)) rows
    then Some (map (fun r => if matches r then change r else r) rows)
    else None.
Proof.
  induction rows as [|r rest IH]; simpl; [done|].
  rewrite IH. destruct (matches r); simpl.
  - destruct (checkItem (change r)); simpl; [|done].
    by destruct (forallb _ rest).
  - by destruct (forallb _ rest).
Qed.

Lemma updateItems_ext m1 m2 change rows :
  (forall r, r ∈ rows -> m1 r = m2 r) ->
  updateItems m1 change rows = updateItems m2 change rows.
Proof.
  induction rows as [|r rest IH]; simpl; intros H; [done|].
  rewrite (H r) by (apply elem_of_cons; auto).
  rewrite IH; [done|]. intros x Hx. apply H. apply elem_of_cons; auto.
Qed.

Lemma checkItem_true item : checkItem item = true <-> stockInBounds item.
Proof.
  unfold checkItem, stockInBounds. rewrite andb_true_iff, !Z.leb_le. tauto.
Qed.

(** A successful UPDATE of the Items table leaves every row it rewrote
    within the CHECK constraints. *)
Lemma updateItems_checked matches change rows rows' :
  updateItems matches change rows = Some rows' ->
  Forall stockInBounds rows -> Forall stockInBounds rows'.
Proof.
  rewrite updateItems_eq.
  destruct (forallb _ rows) eqn:E; [|done]. intros [= <-] Hb.
  rewrite forallb_forall in E. apply Forall_forall. intros x Hx.
  apply list_elem_of_fmap in Hx as (r & -> & Hr).
  destruct (matches r) eqn:Em.
  - apply list_elem_of_In in Hr. specialize (E _ Hr). rewrite Em in E.
    simpl in E. by apply checkItem_true.
  - rewrite Forall_forall in Hb. by apply Hb.
Qed.

Lemma exec_IncreaseStock amount i db :
  exec (IncreaseStock amount i) db
  = if forallb (fun r => negb (String.eqb (id r) i)
                         || checkItem (withCurrentStock r
                                         (currentStock r + amount)))
               (Items db)
    then Some (mkDb (applyStockChange (only i amount) (Items db))
                    (RentalApplications db) (RentalApplicationItems db))
    else None.
Proof.
  unfold exec. rewrite updateItems_eq.
  destruct (forallb _ (Items db)); [|done].
  do 2 f_equal. unfold applyStockChange, only.
  apply map_ext. intros r. destruct (String.eqb (id r) i); [done|].
  by rewrite Z.add_0_r, withCurrentStock_same.
Qed.

Lemma updateItems_change_ext matches c1 c2 rows :
  (forall r, c1 r = c2 r) ->
  updateItems matches c1 rows = updateItems matches c2 rows.
Proof.
  intros H. induction rows as [|r rest IH]; simpl; [done|].
  by rewrite H, IH.
Qed.

Lemma exec_DecreaseStockGuarded amount i db item :
  NoDup (map id (Items db)) ->
  findItem i (Items db) = Some item ->
  amount <= currentStock item ->
  exec (DecreaseStockGuarded amount i amount) db
  = exec (IncreaseStock (- amount) i) db.
Proof.
  intros Hnd Hfind Hle. unfold exec.
  rewrite (updateItems_ext _ (fun r => String.eqb (id r) i)).
  - rewrite (updateItems_change_ext _ _
               (fun r => withCurrentStock r (currentStock r + - amount)));
      [done|].
    intros r. reflexivity.
  - intros r Hr. destruct (String.eqb (id r) i) eqn:E; [|done]. simpl.
    apply String.eqb_eq in E.
    apply findItem_Some_inv in Hfind as [Hitem Hid].
    assert (r = item) as -> by (eapply same_id_same_item; eauto; congruence).
    by apply Z.leb_le.
Qed.

Lemma run_app xs ys db :
  run (xs ++ ys) db
  = match run xs db with
    | Some db1 => run ys db1
    | None => None
    end.
Proof.
  revert db. induction xs as [|x rest IH]; intros db; simpl; [done|].
  destruct (exec x db); [apply IH | done].
Qed.

Lemma opsChange_app xs ys k :
  opsChange (xs ++ ys) k = opsChange xs k + opsChange ys k.
Proof.
  induction xs as [|x rest IH]; simpl; [lia|].
  destruct (increaseOf x) as [[i amount]|]; rewrite IH; lia.
Qed.

Lemma run_increases ops db db' :
  Forall (fun st => is_Some (increaseOf st)) ops ->
  run ops db = Some db' ->
  Items db' = applyStockChange (opsChange ops) (Items db)
  /\ RentalApplications db' = RentalApplications db
  /\ RentalApplicationItems db' = RentalApplicationItems db.
Proof.
  intros Hinc. revert db. induction Hinc as [|st rest Hst Hrest IH];
    intros db; simpl.
  - intros [= <-]. by rewrite applyStockChange_zero.
  - destruct st; try (by destruct Hst as [? [=]]).
    rewrite exec_IncreaseStock.
    destruct (forallb _ (Items db)); [|done].
    intros Hrun. destruct (IH _ Hrun) as (Hi & Ha & Hr). simpl in *.
    split; [|done]. rewrite Hi, applyStockChange_compose. done.
Qed.

Lemma restoreOperations_increases entries :
  Forall (fun st => is_Some (increaseOf st)) (Worker.restoreOperations entries).
Proof.
  unfold Worker.restoreOperations. apply Forall_fmap, Forall_forall.
  intros e _. simpl. eauto.
Qed.

Lemma opsChange_restore entries k :
  opsChange (Worker.restoreOperations entries) k = entryTotal k entries.
Proof.
  induction entries as [|e rest IH]; simpl; [done|].
  rewrite IH. unfold only. rewrite (String.eqb_sym k).
  destruct (String.eqb (itemId e) k); lia.
Qed.

Lemma run_inserts a entries db db' :
  run (insertsOf a entries) db = Some db' ->
  Items db' = Items db
  /\ RentalApplications db' = RentalApplications db
  /\ RentalApplicationItems db'
     = RentalApplicationItems db ++ rowsOf a entries.
Proof.
  revert db. induction entries as [|e rest IH]; intros db; simpl.
  - intros [= <-]. by rewrite app_nil_r.
  - destruct (hasApplicationItem _ _ _); [done|].
    destruct (negb (hasApplication _ _)); [done|].
    destruct (negb (hasItem _ _)); [done|].
    intros Hrun. destruct (IH _ Hrun) as (Hi & Ha & Hr). simpl in *.
    split; [done|]. split; [done|]. by rewrite Hr, <- app_assoc.
Qed.

Lemma selectItemsOf_rows a b entries rows items' apps :
  selectItemsOf b
    (mkDb items' apps
          (List.filter (fun r => negb (String.eqb (rentalApplicationId r) a))
                       rows ++ rowsOf a entries))
  = if String.eqb a b then entries
    else selectItemsOf b (mkDb items' apps rows).
Proof.
  unfold selectItemsOf. simpl. rewrite List.filter_app, map_app.
  destruct (String.eqb a b) eqn:E.
  - apply String.eqb_eq in E. subst b.
    assert (H1 : List.filter
                   (fun r => String.eqb (rentalApplicationId r) a)
                   (List.filter
                      (fun r => negb (String.eqb (rentalApplicationId r) a))
                      rows) = []).
    { induction rows as [|r rest IH]; simpl; [done|].
      destruct (String.eqb (rentalApplicationId r) a) eqn:Er; simpl; [done|].
      by rewrite Er. }
    rewrite H1. simpl. unfold rowsOf.
    induction entries as [|e rest IH]; simpl; [done|].
    rewrite String.eqb_refl. simpl. rewrite IH. by destruct e.
  - apply String.eqb_neq in E.
    assert (H2 : List.filter (fun r => String.eqb (rentalApplicationId r) b)
                             (rowsOf a entries) = []).
    { unfold rowsOf. induction entries as [|e rest IH]; simpl; [done|].
      destruct (String.eqb a b) eqn:Eab; [by apply String.eqb_eq in Eab|done]. }
    rewrite H2, app_nil_r. f_equal.
    induction rows as [|r rest IH]; simpl; [done|].
    destruct (String.eqb (rentalApplicationId r) a) eqn:Er; simpl.
    + apply String.eqb_eq in Er.
      destruct (String.eqb (rentalApplicationId r) b) eqn:Eb; [|done].
      apply String.eqb_eq in Eb. congruence.
    + destruct (String.eqb (rentalApplicationId r) b); by rewrite IH.
Qed.

Lemma ledgerOf_same db db' :
  RentalApplications db' = RentalApplications db ->
  RentalApplicationItems db' = RentalApplicationItems db ->
  ledgerOf db' = ledgerOf db.
Proof.
  intros Ha Hr. unfold ledgerOf, selectItemsOf. by rewrite Ha, Hr.
Qed.

Lemma findApplication_ledgerOf a db r :
  selectApplication a db = Some r ->
  findApplication a (ledgerOf db) = Some (mkApp r (selectItemsOf a db))
  /\ appId r = a.
Proof.
  unfold selectApplication, findApplication, ledgerOf. intros H.
  assert (Hid : appId r = a).
  { apply find_some in H as [_ H]. by apply String.eqb_eq. }
  split; [|done].
  induction (RentalApplications db) as [|x rest IH]; simpl in *; [done|].
  destruct (String.eqb (appId x) a) eqn:E.
  - injection H as ->. by rewrite Hid.
  - by apply IH.
Qed.

Lemma selectApplication_None a db :
  selectApplication a db = None -> a ∉ applicationIds (ledgerOf db).
Proof.
  unfold selectApplication, applicationIds, ledgerOf. intros H Hin.
  rewrite map_map in Hin. simpl in Hin.
  apply list_elem_of_fmap in Hin as (r & -> & Hr).
  apply list_elem_of_In in Hr.
  pose proof (find_none _ _ H _ Hr) as Hf. simpl in Hf.
  by rewrite String.eqb_refl in Hf.
Qed.

End DatabaseFacts.

(** ** The worker: what [manageRentalUpdate] asks of the database *)

Section WorkerReconciliation.

Import D1 WorkerBase.

Lemma worker_stockUpdateFor_inr itemDetails j oldQty change
      (stockMap stockMap' : gmap string Z) ops :
  Worker.stockUpdateFor itemDetails j oldQty change stockMap
  = inr (ops, stockMap') ->
  (change > 0 ->
   default 0 (stockMap !! j) + change <= initialStock itemDetails) ->
  ops = (if change =? 0 then [] else [IncreaseStock change j])
  /\ (forall k, k <> j -> stockMap' !! k = stockMap !! k).
Proof.
  unfold Worker.stockUpdateFor. intros H Hcap.
  destruct (change =? 0) eqn:E0; simpl in H.
  - injection H as <- <-. done.
  - apply Z.eqb_neq in E0.
    destruct (default 0 (stockMap !! j) + change <? 0); [done|].
    destruct ((default 0 (stockMap !! j) + change >? initialStock itemDetails)
              && (change >? 0)) eqn:Ec.
    + apply andb_true_iff in Ec as [Ec Ep]. lia.
    + destruct (change =? 0) eqn:E1; [lia|]. simpl in H.
      injection H as <- <-. split; [done|].
      intros k Hk. by rewrite lookup_insert_ne.
Qed.

Lemma worker_stockUpdates_spec oldRes newRes oldItems newItems allItems
      involved (stockMap : gmap string Z) ops :
  Worker.stockUpdates oldRes newRes oldItems newItems allItems involved
                      stockMap = inr ops ->
  NoDup involved ->
  (forall j item,
      j ∈ involved -> findItem j allItems = Some item ->
      stockMap !! j = Some (currentStock item)
      /\ (stockChangeFor oldRes newRes (qtyOf j oldItems) (qtyOf j newItems) > 0
          -> currentStock item
             + stockChangeFor oldRes newRes (qtyOf j oldItems)
                              (qtyOf j newItems)
             <= initialStock item)) ->
  Forall (fun st => is_Some (increaseOf st)) ops
  /\ (forall i, is_Some (findItem i allItems) ->
                opsChange ops i
                = foldr (fun j acc =>
                           only j (stockChangeFor oldRes newRes
                                     (qtyOf j oldItems) (qtyOf j newItems)) i
                           + acc) 0 involved).
Proof.
  revert stockMap ops.
  induction involved as [|j rest IH]; simpl; intros stockMap ops H Hnd Hmap.
  - injection H as <-. split; [constructor | done].
  - apply NoDup_cons in Hnd as [Hj Hnd].
    destruct (findItem j allItems) as [item|] eqn:Ej.
    + destruct (Worker.stockUpdateFor _ _ _ _ _) as [e|[ops1 m1]] eqn:E1;
        [done|].
      destruct (Worker.stockUpdates _ _ _ _ _ rest m1) as [e|ops2] eqn:E2;
        [done|].
      injection H as <-.
      destruct (Hmap j item) as [Hcur Hcap];
        [apply elem_of_cons; auto | done |].
      destruct (worker_stockUpdateFor_inr _ _ _ _ _ _ _ E1) as [-> Hother].
      { rewrite Hcur. simpl. exact Hcap. }
      destruct (IH m1 ops2 E2 Hnd) as [Hinc Hch].
      { intros j' item' Hj' Hfind'. rewrite Hother.
        - apply Hmap; [apply elem_of_cons; auto | done].
        - intros ->. done. }
      split.
      * apply Forall_app. split; [|done].
        destruct (_ =? 0); [constructor|]. apply Forall_singleton. simpl. eauto.
      * intros i Hi. rewrite opsChange_app, Hch by done.
        destruct (_ =? 0) eqn:E0; simpl.
        -- apply Z.eqb_eq in E0. rewrite E0. unfold only.
           destruct (String.eqb i j); lia.
        -- lia.
    + destruct (IH stockMap ops H Hnd) as [Hinc Hch].
      { intros j' item' Hj' Hfind'. apply Hmap; [apply elem_of_cons; auto|done]. }
      split; [done|]. intros i Hi. rewrite Hch by done.
      unfold only. destruct (String.eqb i j) eqn:E; [|lia].
      apply String.eqb_eq in E. subst i. destruct Hi as [? Hi]. congruence.
Qed.

Lemma run_ledgerOperations (originalApp finalApp : RentalApplication)
      newItems db db' :
  run (ledgerOperations originalApp finalApp newItems) db = Some db' ->
  db' = mkDb (Items db)
             (map (fun old => if String.eqb (appId old) (appId finalApp)
                              then row finalApp else old)
                  (RentalApplications db))
             (List.filter
                (fun r => negb (String.eqb (rentalApplicationId r)
                                           (appId originalApp)))
                (RentalApplicationItems db)
              ++ rowsOf (appId originalApp) newItems).
Proof.
  unfold ledgerOperations. cbn [run exec].
  fold (insertsOf (appId originalApp) newItems).
  rewrite run_app.
  destruct (run (insertsOf _ _) _) as [db1|] eqn:E; [|done].
  apply run_inserts in E as (Hi & Ha & Hr). simpl in *.
  intros [= <-]. by rewrite Hi, Ha, Hr.
Qed.

Lemma ledgerOf_replaced (finalApp : RentalApplication) items' apps rows :
  ledgerOf
    (mkDb items'
          (map (fun old => if String.eqb (appId old) (appId finalApp)
                           then row finalApp else old) apps)
          (List.filter
             (fun r => negb (String.eqb (rentalApplicationId r)
                                        (appId finalApp))) rows
           ++ rowsOf (appId finalApp) (items finalApp)))
  = replaceApplication finalApp (ledgerOf (mkDb items' apps rows)).
Proof.
  unfold ledgerOf, replaceApplication. cbn [RentalApplications].
  rewrite !map_map. apply map_ext. intros r. cbn [row appId].
  destruct (String.eqb (appId r) (appId finalApp)) eqn:E.
  - rewrite selectItemsOf_rows, String.eqb_refl. by destruct finalApp.
  - rewrite selectItemsOf_rows, (String.eqb_sym (appId finalApp)), E. done.
Qed.

(** A successful batch of [manageRentalUpdate] on a consistent database
    moves each item by its net change and replaces the application in the
    ledger. *)
Lemma worker_manage_run env db a row0 core newItems finalApp ops db' :
  consistentDatabase db ->
  selectApplication a db = Some row0 ->
  wellFormedEntries newItems ->
  Worker.manageRentalUpdate env (mkApp row0 (selectItemsOf a db)) core
                            newItems db = inr (finalApp, ops) ->
  batch ops db = Some db' ->
  Items db'
  = applyStockChange
      (fun i => stockChangeFor (isReserved (status row0))
                               (isReserved (status core))
                               (qtyOf i (selectItemsOf a db)) (qtyOf i newItems))
      (Items db)
  /\ ledgerOf db' = replaceApplication finalApp (ledgerOf db)
  /\ RentalApplicationItems db'
     = List.filter (fun r => negb (String.eqb (rentalApplicationId r) a))
                   (RentalApplicationItems db) ++ rowsOf a newItems
  /\ map appId (RentalApplications db') = map appId (RentalApplications db)
  /\ finalApp = finalAppOf env (mkApp row0 (selectItemsOf a db)) core newItems
                           (Items db).
Proof.
  intros (Hnd & Hwf & Hfk & Hc) Hsel Hnew Hmanage Hbatch.
  destruct (findApplication_ledgerOf _ _ _ Hsel) as [Hfind Hid]. subst a.
  pose proof (findApplication_Some_inv _ _ _ Hfind) as [Hold _].
  pose (old := mkApp row0 (selectItemsOf (appId row0) db)).
  assert (Hwfold : wellFormedEntries (items old)).
  { destruct Hwf as [_ Hwf']. rewrite Forall_forall in Hwf'. by apply Hwf'. }
  unfold Worker.manageRentalUpdate in Hmanage. cbn [status row items] in Hmanage.
  destruct (Worker.stockUpdates _ _ _ _ _ _ _) as [e|stockOps] eqn:Hstock;
    [done|].
  injection Hmanage as <- <-.
  destruct (worker_stockUpdates_spec _ _ _ _ _ _ _ _ Hstock) as [Hinc Hch].
  { apply newSet_NoDup. }
  { intros j item _ Hitem. split; [by apply stockMapOf_lookup|].
    pose proof (stockChangeFor_heldBy j old (mkApp core newItems) Hwfold Hnew)
      as Heq.
    cbn [status row items old] in Heq. rewrite Heq. intros Hpos.
    apply findItem_Some_inv in Hitem as [Hitem Hj].
    destruct (held_fits _ _ old item Hwf Hc Hold Hitem) as [_ Hfit].
    pose proof (heldBy_nonneg j (mkApp core newItems) Hnew).
    rewrite Hj in Hfit. lia. }
  unfold batch in Hbatch. rewrite run_app in Hbatch.
  destruct (run stockOps db) as [db1|] eqn:Hrun1; [|done].
  destruct (run_increases _ _ _ Hinc Hrun1) as (Hi1 & Ha1 & Hr1).
  apply run_ledgerOperations in Hbatch. subst db'.
  cbn [appId row old] in *. rewrite Hi1, Ha1, Hr1. cbn [Items RentalApplications
    RentalApplicationItems].
  split; [|split; [|split; [|split]]].
  - apply applyStockChange_ext. intros item Hitem. rewrite Hch.
    + apply change_sum_involved.
    + apply findItem_is_Some. apply list_elem_of_fmap. eauto.
  - pose proof (ledgerOf_replaced
                  (finalAppOf env old core newItems (Items db))
                  (applyStockChange (opsChange stockOps) (Items db))
                  (RentalApplications db) (RentalApplicationItems db)) as Hl.
    etransitivity; [exact Hl|]. f_equal.
  - done.
  - rewrite map_map. apply map_ext. intros r. cbn [finalAppOf appId row].
    destruct (String.eqb (appId r) (appId row0)) eqn:E; [|done].
    apply String.eqb_eq in E. done.
  - done.
Qed.

End WorkerReconciliation.

(** ** The worker keeps the database consistent *)

Section WorkerInvariant.

Import D1 WorkerBase.

Lemma hasApplication_iff x db :
  hasApplication x db = true <-> x ∈ map appId (RentalApplications db).
Proof.
  unfold hasApplication. rewrite existsb_exists. split.
  - intros (r & Hr & Heq). apply String.eqb_eq in Heq. subst x.
    apply list_elem_of_fmap. exists r. split; [done | by apply list_elem_of_In].
  - intros H. apply list_elem_of_fmap in H as (r & -> & Hr).
    exists r. split; [by apply list_elem_of_In | apply String.eqb_refl].
Qed.

Lemma hasApplication_same_ids x db db' :
  map appId (RentalApplications db') = map appId (RentalApplications db) ->
  hasApplication x db' = hasApplication x db.
Proof.
  intros H. apply eq_true_iff_eq. rewrite !hasApplication_iff. by rewrite H.
Qed.

Lemma selectApplication_has a db r :
  selectApplication a db = Some r -> hasApplication a db = true.
Proof.
  intros H. apply hasApplication_iff. unfold selectApplication in H.
  apply find_some in H as [Hin Heq]. apply String.eqb_eq in Heq. subst a.
  apply list_elem_of_fmap. exists r. split; [done | by apply list_elem_of_In].
Qed.

Lemma applicationIds_ledgerOf db :
  applicationIds (ledgerOf db) = map appId (RentalApplications db).
Proof. unfold applicationIds, ledgerOf. by rewrite map_map. Qed.

Lemma manage_consistent env db a row0 core newItems finalApp ops db' :
  consistentDatabase db ->
  selectApplication a db = Some row0 ->
  wellFormedEntries newItems ->
  Worker.manageRentalUpdate env (mkApp row0 (selectItemsOf a db)) core
                            newItems db = inr (finalApp, ops) ->
  batch ops db = Some db' ->
  consistentDatabase db'.
Proof.
  intros Hcons Hsel Hnew Hmanage Hbatch.
  destruct (worker_manage_run _ _ _ _ _ _ _ _ _ Hcons Hsel Hnew Hmanage Hbatch)
    as (Hitems & Hledger & Hrows & Hids & Hfinal).
  destruct Hcons as (Hnd & Hwf & Hfk & Hc).
  destruct (findApplication_ledgerOf _ _ _ Hsel) as [Hfind Hid].
  pose proof (findApplication_Some_inv _ _ _ Hfind) as [Hold _].
  assert (Hwfold : wellFormedEntries (selectItemsOf a db)).
  { destruct Hwf as [_ Hwf']. rewrite Forall_forall in Hwf'.
    apply (Hwf' _ Hold). }
  assert (Hfid : appId finalApp = a) by (by rewrite Hfinal).
  assert (Hfitems : items finalApp = newItems) by (by rewrite Hfinal).
  assert (Hfstatus : status finalApp = status core) by (by rewrite Hfinal).
  unfold consistentDatabase. rewrite Hitems, Hledger, Hrows.
  split; [by rewrite applyStockChange_ids|].
  split; [apply wellFormedLedger_replace; [done | by rewrite Hfitems]|].
  split.
  - apply Forall_app. split.
    + apply Forall_forall. intros r Hr.
      apply list_elem_of_In, filter_In in Hr as [Hr _].
      rewrite (hasApplication_same_ids _ db) by done.
      rewrite Forall_forall in Hfk. apply Hfk. by apply list_elem_of_In.
    + apply Forall_fmap, Forall_forall. intros e _. simpl.
      rewrite (hasApplication_same_ids _ db) by done.
      by eapply selectApplication_has.
  - apply (conserved_after_replace _ _ finalApp
             (mkApp row0 (selectItemsOf a db))); try done.
    + by destruct Hwf.
    + by rewrite Hfid.
    + intros item _.
      rewrite <- (stockChangeFor_heldBy _ (mkApp row0 (selectItemsOf a db))
                    finalApp); [|done|by rewrite Hfitems].
      cbn [status row items]. by rewrite Hfstatus, Hfitems.
Qed.

Lemma putRental_consistent env rentalId body db :
  consistentDatabase db ->
  wellFormedEntries (default [] (patchItems body)) ->
  consistentDatabase (snd (Worker.putRental env rentalId body db)).
Proof.
  intros Hcons Hnew. unfold Worker.putRental.
  destruct (Worker.invalidEdit body); [done|].
  destruct (selectApplication rentalId db) as [row0|] eqn:Hsel; [|done].
  destruct (status row0); try done.
  unfold fullOriginalAppOf.
  destruct (Worker.manageRentalUpdate _ _ _ _ _) as [e|[finalApp ops]] eqn:Hm;
    [done|].
  destruct (batch ops db) as [db'|] eqn:Hb; [|done].
  simpl. eapply manage_consistent; eauto.
Qed.

Lemma putAdminRental_consistent env rentalId body db :
  consistentDatabase db ->
  consistentDatabase (snd (Worker.putAdminRental env rentalId body db)).
Proof.
  intros Hcons. unfold Worker.putAdminRental.
  destruct (selectApplication rentalId db) as [row0|] eqn:Hsel; [|done].
  destruct (_ && _); [done|].
  unfold fullOriginalAppOf. cbn [items].
  destruct (Worker.manageRentalUpdate _ _ _ _ _) as [e|[finalApp ops]] eqn:Hm;
    [done|].
  destruct (batch ops db) as [db'|] eqn:Hb; [|done].
  simpl. eapply manage_consistent; eauto.
  destruct (findApplication_ledgerOf _ _ _ Hsel) as [Hfind _].
  apply findApplication_Some_inv in Hfind as [Hold _].
  destruct Hcons as (_ & [_ Hwf] & _). rewrite Forall_forall in Hwf.
  apply (Hwf _ Hold).
Qed.

Lemma selectItemsOf_without a b items' apps rows :
  a <> b ->
  selectItemsOf b
    (mkDb items' apps
          (List.filter (fun r => negb (String.eqb (rentalApplicationId r) a))
                       rows))
  = selectItemsOf b (mkDb items' apps rows).
Proof.
  intros Hne. pose proof (selectItemsOf_rows a b [] rows items' apps) as H.
  simpl in H. rewrite app_nil_r in H. rewrite H.
  destruct (String.eqb a b) eqn:E; [|done]. by apply String.eqb_eq in E.
Qed.

Lemma filter_twice {A} (f : A -> bool) xs :
  List.filter f (List.filter f xs) = List.filter f xs.
Proof.
  induction xs as [|x rest IH]; simpl; [done|].
  destruct (f x) eqn:E; simpl; [by rewrite E, IH | done].
Qed.

Lemma ledgerOf_removed a items' apps rows :
  ledgerOf
    (mkDb items'
          (List.filter (fun r => negb (String.eqb (appId r) a)) apps)
          (List.filter (fun r => negb (String.eqb (rentalApplicationId r) a))
                       rows))
  = removeApplication a (ledgerOf (mkDb items' apps rows)).
Proof.
  unfold ledgerOf, removeApplication, selectItemsOf.
  cbn [RentalApplications RentalApplicationItems].
  induction apps as [|r rest IH]; simpl; [done|].
  destruct (String.eqb (appId r) a) eqn:E; simpl; [done|].
  rewrite <- IH. f_equal. f_equal.
  apply String.eqb_neq in E.
  pose proof (selectItemsOf_without a (appId r) items' [] rows) as H.
  unfold selectItemsOf in H. simpl in H. apply H. congruence.
Qed.

(** The batch that removes an application, after giving back [restored]. *)
Lemma worker_remove_run restored a db db' :
  run (Worker.restoreOperations restored
       ++ [DeleteApplicationItems a; DeleteApplication a]) db = Some db' ->
  Items db' = applyStockChange (fun i => entryTotal i restored) (Items db)
  /\ ledgerOf db' = removeApplication a (ledgerOf db)
  /\ RentalApplications db'
     = List.filter (fun r => negb (String.eqb (appId r) a))
                   (RentalApplications db)
  /\ RentalApplicationItems db'
     = List.filter (fun r => negb (String.eqb (rentalApplicationId r) a))
                   (RentalApplicationItems db).
Proof.
  rewrite run_app.
  destruct (run (Worker.restoreOperations restored) db) as [db1|] eqn:E;
    [|done].
  destruct (run_increases _ _ _ (restoreOperations_increases restored) E)
    as (Hi & Ha & Hr).
  cbn [run exec]. intros [= <-]. cbn [Items RentalApplications
    RentalApplicationItems]. rewrite Hi, Ha, Hr, filter_twice.
  split; [apply applyStockChange_ext; intros; apply opsChange_restore|].
  split; [|done]. rewrite ledgerOf_removed. done.
Qed.

Lemma remove_consistent restored a db db' row0 :
  consistentDatabase db ->
  selectApplication a db = Some row0 ->
  restored = (if isReserved (status row0) then selectItemsOf a db else []) ->
  run (Worker.restoreOperations restored
       ++ [DeleteApplicationItems a; DeleteApplication a]) db = Some db' ->
  consistentDatabase db'.
Proof.
  intros (Hnd & Hwf & Hfk & Hc) Hsel Hrest Hrun.
  destruct (worker_remove_run _ _ _ _ Hrun) as (Hitems & Hledger & Happs & Hrows).
  destruct (findApplication_ledgerOf _ _ _ Hsel) as [Hfind Hid].
  unfold consistentDatabase. rewrite Hitems, Hledger, Hrows.
  split; [by rewrite applyStockChange_ids|].
  split; [by apply wellFormedLedger_remove|].
  split.
  - apply Forall_forall. intros r Hr.
    apply list_elem_of_In, filter_In in Hr as [Hr Hne].
    apply hasApplication_iff. rewrite Happs.
    rewrite Forall_forall in Hfk. apply list_elem_of_In in Hr.
    specialize (Hfk _ Hr). apply hasApplication_iff in Hfk.
    apply list_elem_of_fmap in Hfk as (x & Hx & Hin).
    apply list_elem_of_fmap. exists x. split; [done|].
    apply list_elem_of_In, filter_In. split; [by apply list_elem_of_In|].
    by rewrite <- Hx.
  - apply (conserved_after_remove _ _ _ (mkApp row0 (selectItemsOf a db)));
      try done; [by destruct Hwf|].
    intros item _. unfold heldBy. cbn [status row items]. subst restored.
    by destruct (isReserved (status row0)).
Qed.

Lemma postRentalCancel_consistent rentalId db :
  consistentDatabase db ->
  consistentDatabase (snd (Worker.postRentalCancel rentalId db)).
Proof.
  intros Hcons. unfold Worker.postRentalCancel.
  destruct (selectApplication rentalId db) as [row0|] eqn:Hsel; [|done].
  destruct (status row0) eqn:Hst; try done.
  destruct (batch _ db) as [db'|] eqn:Hb; [|done]. simpl.
  eapply (remove_consistent _ _ _ _ row0); eauto. by rewrite Hst.
Qed.

Lemma deleteAdminRental_consistent rentalId db :
  consistentDatabase db ->
  consistentDatabase (snd (Worker.deleteAdminRental rentalId db)).
Proof.
  intros Hcons. unfold Worker.deleteAdminRental.
  destruct (selectApplication rentalId db) as [row0|] eqn:Hsel; [|done].
  destruct (batch _ db) as [db'|] eqn:Hb; [|done]. simpl.
  eapply (remove_consistent _ _ _ _ row0); eauto.
  destruct (isReserved (status row0)); done.
Qed.

End WorkerInvariant.

(** ** The worker: create *)

Section WorkerCreate.

Import D1 WorkerBase.

Lemma prepareStockAdjustments_inr selected allItems ops :
  Worker.prepareStockAdjustments selected allItems = inr ops ->
  ops = decrementsOf selected /\ Forall (inStock allItems) selected.
Proof.
  revert ops. induction selected as [|e rest IH]; simpl; intros ops H.
  - injection H as <-. split; [done | constructor].
  - destruct (findItem (itemId e) allItems) as [item|] eqn:E; [|done].
    destruct (currentStock item <? quantity e) eqn:Ec; [done|].
    destruct (Worker.prepareStockAdjustments rest allItems) as [?|ops'];
      [done|].
    injection H as <-. destruct (IH ops' eq_refl) as [-> Hall].
    split; [done|]. constructor; [|done]. exists item. split; [done | lia].
Qed.

Lemma prepareStockAdjustments_ok selected allItems :
  Forall (inStock allItems) selected ->
  Worker.prepareStockAdjustments selected allItems
  = inr (decrementsOf selected).
Proof.
  induction 1 as [|e rest (item & Hfind & Hle) _ IH]; simpl; [done|].
  rewrite Hfind. destruct (currentStock item <? quantity e) eqn:Ec; [lia|].
  by rewrite IH.
Qed.

Lemma inStock_after_only allItems i d rest :
  i ∉ itemIds rest ->
  Forall (inStock allItems) rest ->
  Forall (inStock (applyStockChange (only i d) allItems)) rest.
Proof.
  intros Hni Hall. apply Forall_forall. intros e He.
  rewrite Forall_forall in Hall. destruct (Hall _ He) as (item & Hfind & Hle).
  exists item. split; [|done]. rewrite findItem_after_only; [done|].
  intros Heq. apply Hni. rewrite <- Heq. apply list_elem_of_fmap. eauto.
Qed.

Lemma decrease_change_step e rest allItems :
  applyStockChange (fun k => only (itemId e) (- quantity e) k
                             + - entryTotal k rest) allItems
  = applyStockChange (fun k => - entryTotal k (e :: rest)) allItems.
Proof.
  apply applyStockChange_ext. intros item _. simpl. unfold only.
  rewrite (String.eqb_sym (id item)).
  destruct (String.eqb (itemId e) (id item)); lia.
Qed.

Lemma run_decrements_inv selected db db' :
  NoDup (map id (Items db)) -> NoDup (itemIds selected) ->
  Forall (inStock (Items db)) selected ->
  run (decrementsOf selected) db = Some db' ->
  Items db' = applyStockChange (fun i => - entryTotal i selected) (Items db)
  /\ RentalApplications db' = RentalApplications db
  /\ RentalApplicationItems db' = RentalApplicationItems db.
Proof.
  revert db. induction selected as [|e rest IH]; intros db Hnd Hsel Hfit.
  - intros [= <-]. simpl. by rewrite applyStockChange_zero.
  - simpl in Hsel. apply NoDup_cons in Hsel as [He Hsel].
    apply Forall_cons in Hfit as [(item & Hfind & Hle) Hfit].
    cbn [decrementsOf map run].
    rewrite (exec_DecreaseStockGuarded _ _ _ item) by done.
    rewrite exec_IncreaseStock.
    destruct (forallb _ (Items db)); [|done].
    intros Hrun. apply IH in Hrun as (Hi & Ha & Hr).
    + simpl in *. split; [|done].
      by rewrite Hi, applyStockChange_compose, decrease_change_step.
    + simpl. by rewrite applyStockChange_ids.
    + done.
    + simpl. by apply inStock_after_only.
Qed.

Lemma run_decrements_ok selected db :
  NoDup (map id (Items db)) -> NoDup (itemIds selected) ->
  Forall (fun e => exists item,
              findItem (itemId e) (Items db) = Some item
              /\ 0 <= quantity e <= currentStock item
              /\ currentStock item <= initialStock item) selected ->
  run (decrementsOf selected) db
  = Some (mkDb (applyStockChange (fun i => - entryTotal i selected) (Items db))
               (RentalApplications db) (RentalApplicationItems db)).
Proof.
  revert db. induction selected as [|e rest IH]; intros db Hnd Hsel Hfit.
  - simpl. rewrite applyStockChange_zero. by destruct db.
  - simpl in Hsel. apply NoDup_cons in Hsel as [He Hsel].
    apply Forall_cons in Hfit as [(item & Hfind & Hq & Hb) Hfit].
    cbn [decrementsOf map run].
    rewrite (exec_DecreaseStockGuarded _ _ _ item) by (done || lia).
    rewrite exec_IncreaseStock.
    assert (Hcheck : forallb
              (fun r => negb (String.eqb (id r) (itemId e))
                        || checkItem (withCurrentStock r
                                        (currentStock r + - quantity e)))
              (Items db) = true).
    { apply forallb_forall. intros r Hr. apply list_elem_of_In in Hr.
      destruct (String.eqb (id r) (itemId e)) eqn:E; [|done]. simpl.
      apply String.eqb_eq in E.
      pose proof (findItem_Some_inv _ _ _ Hfind) as [Hitem Hid].
      assert (r = item) as -> by (eapply same_id_same_item; eauto; congruence).
      apply checkItem_true. unfold stockInBounds. simpl. lia. }
    rewrite Hcheck. fold (decrementsOf rest). rewrite IH.
    + simpl. by rewrite applyStockChange_compose, decrease_change_step.
    + simpl. by rewrite applyStockChange_ids.
    + done.
    + simpl. apply Forall_forall. intros e' He'.
      rewrite Forall_forall in Hfit.
      destruct (Hfit _ He') as (item' & Hfind' & Hq' & Hb').
      exists item'. split; [|done]. rewrite findItem_after_only; [done|].
      intros Heq. apply He. rewrite <- Heq. apply list_elem_of_fmap. eauto.
Qed.

Lemma no_rows_of_fresh a db :
  Forall (fun r => hasApplication (rentalApplicationId r) db = true)
         (RentalApplicationItems db) ->
  hasApplication a db = false ->
  List.filter (fun r => String.eqb (rentalApplicationId r) a)
              (RentalApplicationItems db) = [].
Proof.
  intros Hfk Hfresh.
  induction (RentalApplicationItems db) as [|r rest IH]; simpl; [done|].
  apply Forall_cons in Hfk as [Hr Hfk].
  destruct (String.eqb (rentalApplicationId r) a) eqn:E.
  - apply String.eqb_eq in E. congruence.
  - by apply IH.
Qed.

Lemma ledgerOf_added (newRow : ApplicationRow) entries items' apps rows :
  Forall (fun r => hasApplication (rentalApplicationId r)
                                  (mkDb items' apps rows) = true) rows ->
  hasApplication (appId newRow) (mkDb items' apps rows) = false ->
  forall items'',
  ledgerOf (mkDb items'' (apps ++ [newRow])
                 (rows ++ rowsOf (appId newRow) entries))
  = ledgerOf (mkDb items' apps rows) ++ [mkApp newRow entries].
Proof.
  intros Hfk Hfresh items''.
  pose proof (no_rows_of_fresh _ _ Hfk Hfresh) as Hnone. simpl in Hnone.
  assert (Hsel : forall b,
             selectItemsOf b (mkDb items'' (apps ++ [newRow])
                                   (rows ++ rowsOf (appId newRow) entries))
             = if String.eqb (appId newRow) b then entries
               else selectItemsOf b (mkDb items' apps rows)).
  { intros b. unfold selectItemsOf. simpl. rewrite List.filter_app, map_app.
    destruct (String.eqb (appId newRow) b) eqn:E.
    - apply String.eqb_eq in E. subst b. rewrite Hnone. simpl.
      unfold rowsOf. clear. induction entries as [|e rest IH]; simpl; [done|].
      rewrite String.eqb_refl. simpl. rewrite IH. by destruct e.
    - assert (H2 : List.filter
                     (fun r => String.eqb (rentalApplicationId r) b)
                     (rowsOf (appId newRow) entries) = []).
      { unfold rowsOf. clear -E. induction entries as [|e rest IH]; simpl;
          [done|]. by rewrite E. }
      by rewrite H2, app_nil_r. }
  unfold ledgerOf. cbn [RentalApplications]. rewrite map_app. simpl.
  rewrite Hsel, String.eqb_refl. f_equal.
  apply map_ext_in. intros r Hr. rewrite Hsel.
  destruct (String.eqb (appId newRow) (appId r)) eqn:E; [|done].
  apply String.eqb_eq in E. exfalso.
  assert (hasApplication (appId newRow) (mkDb items' apps rows) = true).
  { apply hasApplication_iff. simpl. rewrite E. apply list_elem_of_fmap.
    exists r. split; [done | by apply list_elem_of_In]. }
  congruence.
Qed.

(** A successful batch of the create handler. *)
Lemma worker_create_run env appData newId today db prepared db' :
  NoDup (map id (Items db)) ->
  NoDup (itemIds (items appData)) ->
  Worker.prepareApplication env appData newId today (Items db)
  = inr prepared ->
  batch (snd prepared) db = Some db' ->
  fst prepared = Worker.newApplicationOf env appData newId today (Items db)
  /\ hasApplication newId db = false
  /\ Items db'
     = applyStockChange (fun i => - entryTotal i (items appData)) (Items db)
  /\ RentalApplications db'
     = RentalApplications db ++ [insertedRow (fst prepared)]
  /\ RentalApplicationItems db'
     = RentalApplicationItems db ++ rowsOf newId (items appData).
Proof.
  intros Hnd Hsel Hprep Hbatch. unfold Worker.prepareApplication in Hprep.
  destruct (Worker.prepareStockAdjustments _ _) as [e|stockOps] eqn:Hstock;
    [done|].
  injection Hprep as <-. cbn [fst snd] in *.
  apply prepareStockAdjustments_inr in Hstock as [-> Hfit].
  split; [done|].
  unfold batch in Hbatch. cbn [run exec] in Hbatch.
  cbn [Worker.newApplicationOf appId row items] in Hbatch.
  destruct (hasApplication newId db) eqn:Hfresh; [done|].
  split; [done|].
  fold (insertsOf newId (items appData)) in Hbatch.
  rewrite run_app in Hbatch.
  destruct (run (insertsOf _ _) _) as [db1|] eqn:E1; [|done].
  apply run_inserts in E1 as (Hi1 & Ha1 & Hr1). simpl in Hi1, Ha1, Hr1.
  apply run_decrements_inv in Hbatch as (Hi & Ha & Hr).
  - rewrite Hi, Ha, Hr, Hi1, Ha1, Hr1. done.
  - by rewrite Hi1.
  - done.
  - by rewrite Hi1.
Qed.

Lemma postRentalsApply_consistent env appData newId today db :
  consistentDatabase db ->
  wellFormedEntries (items appData) ->
  consistentDatabase (snd (Worker.postRentalsApply env appData newId today db)).
Proof.
  intros Hcons [Hsel Hq]. unfold Worker.postRentalsApply.
  destruct (Worker.prepareApplication _ _ _ _ _) as [e|prepared] eqn:Hprep;
    [done|].
  unfold Worker.commitApplication.
  destruct (batch _ db) as [db'|] eqn:Hb; [|done]. simpl.
  destruct Hcons as (Hnd & Hwf & Hfk & Hc).
  destruct (worker_create_run _ _ _ _ _ _ _ Hnd Hsel Hprep Hb)
    as (Hnew & Hfresh & Hitems & Happs & Hrows).
  set (new := mkApp (insertedRow (fst prepared)) (items appData)).
  assert (Hid : appId (insertedRow (fst prepared)) = newId)
    by (by rewrite Hnew).
  assert (Hledger : ledgerOf db' = ledgerOf db ++ [new]).
  { destruct db as [its apps rows], db' as [its' apps' rows'].
    simpl in Happs, Hrows. subst apps' rows'. rewrite <- Hid.
    apply ledgerOf_added; [done | simpl in *; congruence]. }
  unfold consistentDatabase. rewrite Hitems, Hledger.
  split; [by rewrite applyStockChange_ids|].
  split.
  { apply wellFormedLedger_add; [done|done|].
    rewrite applicationIds_ledgerOf. cbn [new appId row]. rewrite Hid.
    intros Hin. apply hasApplication_iff in Hin. congruence. }
  split.
  - rewrite Hrows. apply Forall_app. split.
    + apply Forall_forall. intros r Hr. rewrite Forall_forall in Hfk.
      specialize (Hfk _ Hr). apply hasApplication_iff.
      apply hasApplication_iff in Hfk. rewrite Happs, map_app.
      apply elem_of_app. by left.
    + apply Forall_fmap, Forall_forall. intros e _. simpl.
      apply hasApplication_iff. rewrite Happs, map_app. apply elem_of_app.
      right. apply list_elem_of_singleton. symmetry. exact Hid.
  - apply conserved_after_add; [|done]. intros item _.
    unfold heldBy. cbn [new status row items insertedRow]. by rewrite Hnew.
Qed.

Lemma worker_step_consistent env db db' :
  consistentDatabase db -> workerStep env db db' -> consistentDatabase db'.
Proof.
  intros Hcons Hstep. destruct Hstep.
  - by apply postRentalsApply_consistent.
  - by apply putRental_consistent.
  - by apply postRentalCancel_consistent.
  - by apply putAdminRental_consistent.
  - by apply deleteAdminRental_consistent.
Qed.

End WorkerCreate.

(** ** What a successful edit went through *)

Section EditSuccess.

Import D1 WorkerBase.

Lemma worker_putRental_success env rentalId body db app db' :
  Worker.putRental env rentalId body db = (Json 200 app, db') ->
  Worker.invalidEdit body = false
  /\ exists row0 ops,
      selectApplication rentalId db = Some row0
      /\ status row0 = PENDING
      /\ Worker.manageRentalUpdate env (mkApp row0 (selectItemsOf rentalId db))
           (withDates row0 (default "" (patchRentalDate body))
                      (default "" (patchReturnDate body)))
           (default [] (patchItems body)) db = inr (app, ops)
      /\ batch ops db = Some db'.
Proof.
  unfold Worker.putRental.
  destruct (Worker.invalidEdit body); [done|].
  destruct (selectApplication rentalId db) as [row0|] eqn:Hsel; [|done].
  destruct (status row0) eqn:Hst; try done.
  unfold fullOriginalAppOf. cbn [row].
  destruct (Worker.manageRentalUpdate _ _ _ _ _) as [e|[finalApp ops]] eqn:Hm;
    [done|].
  destruct (batch ops db) as [db1|] eqn:Hb; [|done].
  intros [= <- <-]. split; [done|]. exists row0, ops. done.
Qed.

Lemma workerV1_putRental_success env rentalId body db app db' :
  WorkerV1.putRental env rentalId body db = (Json 200 app, db') ->
  WorkerV1.invalidEdit body = false
  /\ exists row0 ops,
      selectApplication rentalId db = Some row0
      /\ status row0 = PENDING
      /\ WorkerV1.manageRentalUpdate env
           (mkApp row0 (selectItemsOf rentalId db))
           (withDates row0 (default "" (patchRentalDate body))
                      (default "" (patchReturnDate body)))
           (default [] (patchItems body)) db = inr (app, ops)
      /\ batch ops db = Some db'.
Proof.
  unfold WorkerV1.putRental.
  destruct (WorkerV1.invalidEdit body); [done|].
  destruct (selectApplication rentalId db) as [row0|] eqn:Hsel; [|done].
  destruct (status row0) eqn:Hst; try done.
  unfold fullOriginalAppOf. cbn [row].
  destruct (WorkerV1.manageRentalUpdate _ _ _ _ _)
    as [e|[finalApp ops]] eqn:Hm; [done|].
  destruct (batch ops db) as [db1|] eqn:Hb; [|done].
  intros [= <- <-]. split; [done|]. exists row0, ops. done.
Qed.

Lemma worker_putAdminRental_success env rentalId body db app db' :
  Worker.putAdminRental env rentalId body db = (Json 200 app, db') ->
  exists row0 ops,
    selectApplication rentalId db = Some row0
    /\ Worker.manageRentalUpdate env (mkApp row0 (selectItemsOf rentalId db))
         (mergePatch row0 body) (selectItemsOf rentalId db) db = inr (app, ops)
    /\ batch ops db = Some db'.
Proof.
  unfold Worker.putAdminRental.
  destruct (selectApplication rentalId db) as [row0|] eqn:Hsel; [|done].
  destruct (_ && _); [done|].
  unfold fullOriginalAppOf. cbn [row items].
  destruct (Worker.manageRentalUpdate _ _ _ _ _) as [e|[finalApp ops]] eqn:Hm;
    [done|].
  destruct (batch ops db) as [db1|] eqn:Hb; [|done].
  intros [= <- <-]. exists row0, ops. done.
Qed.

Lemma workerV1_putAdminRental_success env rentalId body db app db' :
  WorkerV1.putAdminRental env rentalId body db = (Json 200 app, db') ->
  exists row0 ops,
    selectApplication rentalId db = Some row0
    /\ WorkerV1.manageRentalUpdate env
         (mkApp row0 (selectItemsOf rentalId db)) (mergePatch row0 body)
         (default (selectItemsOf rentalId db) (patchItems body)) db
       = inr (app, ops)
    /\ batch ops db = Some db'.
Proof.
  unfold WorkerV1.putAdminRental.
  destruct (selectApplication rentalId db) as [row0|] eqn:Hsel; [|done].
  destruct (_ && _); [done|].
  unfold fullOriginalAppOf. cbn [row items].
  destruct (WorkerV1.manageRentalUpdate _ _ _ _ _)
    as [e|[finalApp ops]] eqn:Hm; [done|].
  destruct (batch ops db) as [db1|] eqn:Hb; [|done].
  intros [= <- <-]. exists row0, ops. done.
Qed.

Lemma service_update_success fixedDeposit updatedApp s app s' :
  consistentStorage s ->
  wellFormedEntries (items updatedApp) ->
  DataService.updateRentalApplication fixedDeposit updatedApp s
  = DataService.Returned app s' ->
  exists originalApp,
    findApplication (appId updatedApp) (DataService.kaistWelfareRentals s)
    = Some originalApp
    /\ app = updatedApplication fixedDeposit updatedApp (DataService.getItems s)
    /\ DataService.kaistWelfareItems s'
       = applyStockChange
           (fun i => stockChangeFor (isReserved (status originalApp))
                                    (isReserved (status updatedApp))
                                    (qtyOf i (items originalApp))
                                    (qtyOf i (items updatedApp)))
           (DataService.getItems s)
    /\ DataService.kaistWelfareRentals s'
       = replaceApplication app (DataService.kaistWelfareRentals s).
Proof.
  intros Hcons Hnew Hret.
  destruct (findApplication (appId updatedApp) (DataService.kaistWelfareRentals s))
    as [originalApp|] eqn:Hfind.
  2:{ unfold DataService.updateRentalApplication,
        DataService.getRentalApplications in Hret.
      unfold findApplication in Hfind. by rewrite Hfind in Hret. }
  destruct (DataService.collectAdjustments (isReserved (status originalApp))
              (isReserved (status updatedApp)) (items originalApp)
              (items updatedApp) (DataService.getItems s)
              (allInvolvedItemIds (items originalApp) (items updatedApp)))
    as [e|adjs] eqn:Hcollect.
  { unfold DataService.updateRentalApplication,
      DataService.getRentalApplications in Hret.
    unfold findApplication in Hfind. rewrite Hfind in Hret.
    unfold DataService.withDerived in Hret.
    cbn [status row items appId] in Hret. by rewrite Hcollect in Hret. }
  destruct (DataService.validateAdjustments adjs
              (stockMapOf (DataService.getItems s)) (DataService.getItems s))
    as [e|] eqn:Hvalid.
  { unfold DataService.updateRentalApplication,
      DataService.getRentalApplications in Hret.
    unfold findApplication in Hfind. rewrite Hfind in Hret.
    unfold DataService.withDerived in Hret.
    cbn [status row items appId] in Hret.
    by rewrite Hcollect, Hvalid in Hret. }
  rewrite (updateRentalApplication_returns _ _ _ originalApp adjs) in Hret
    by done.
  injection Hret as <- <-. exists originalApp. done.
Qed.

End EditSuccess.

(** ** The batch of an update, in both variants of the worker *)

Section UpdateBatch.

Import D1 WorkerBase.

Lemma worker_stockUpdateFor_increases itemDetails j oldQty change
      (stockMap stockMap' : gmap string Z) ops :
  Worker.stockUpdateFor itemDetails j oldQty change stockMap
  = inr (ops, stockMap') ->
  Forall (fun st => is_Some (increaseOf st)) ops.
Proof.
  unfold Worker.stockUpdateFor.
  repeat match goal with
         | |- context [if ?c then _ else _] => destruct c
         end; intros [= <- <-]; repeat constructor; simpl; eauto.
Qed.

Lemma workerV1_stockUpdateFor_increases itemDetails j oldQty change
      (stockMap stockMap' : gmap string Z) ops :
  WorkerV1.stockUpdateFor itemDetails j oldQty change stockMap
  = inr (ops, stockMap') ->
  Forall (fun st => is_Some (increaseOf st)) ops.
Proof.
  unfold WorkerV1.stockUpdateFor.
  repeat match goal with
         | |- context [if ?c then _ else _] => destruct c
         end; intros [= <- <-]; repeat constructor; simpl; eauto.
Qed.

Lemma worker_stockUpdates_increases oldRes newRes oldItems newItems allItems
      involved (stockMap : gmap string Z) ops :
  Worker.stockUpdates oldRes newRes oldItems newItems allItems involved
                      stockMap = inr ops ->
  Forall (fun st => is_Some (increaseOf st)) ops.
Proof.
  revert stockMap ops. induction involved as [|j rest IH]; simpl;
    intros stockMap ops H.
  - injection H as <-. constructor.
  - destruct (findItem j allItems) as [item|]; [|by eapply IH].
    destruct (Worker.stockUpdateFor _ _ _ _ _) as [e|[ops1 m1]] eqn:E1;
      [done|].
    destruct (Worker.stockUpdates _ _ _ _ _ rest m1) as [e|ops2] eqn:E2;
      [done|].
    injection H as <-. apply Forall_app. split.
    + by eapply worker_stockUpdateFor_increases.
    + by eapply IH.
Qed.

Lemma workerV1_stockUpdates_increases oldRes newRes oldItems newItems allItems
      involved (stockMap : gmap string Z) ops :
  WorkerV1.stockUpdates oldRes newRes oldItems newItems allItems involved
                        stockMap = inr ops ->
  Forall (fun st => is_Some (increaseOf st)) ops.
Proof.
  revert stockMap ops. induction involved as [|j rest IH]; simpl;
    intros stockMap ops H.
  - injection H as <-. constructor.
  - destruct (findItem j allItems) as [item|]; [|done].
    destruct (WorkerV1.stockUpdateFor _ _ _ _ _) as [e|[ops1 m1]] eqn:E1;
      [done|].
    destruct (WorkerV1.stockUpdates _ _ _ _ _ rest m1) as [e|ops2] eqn:E2;
      [done|].
    injection H as <-. apply Forall_app. split.
    + by eapply workerV1_stockUpdateFor_increases.
    + by eapply IH.
Qed.

(** The database after the batch of an update: the stock updates, then the
    rows of the application replaced, then its row rewritten. *)
Lemma run_update_batch stockOps (originalApp finalApp : RentalApplication)
      newItems db db' :
  Forall (fun st => is_Some (increaseOf st)) stockOps ->
  batch (stockOps ++ ledgerOperations originalApp finalApp newItems) db
  = Some db' ->
  db' = mkDb (applyStockChange (opsChange stockOps) (Items db))
             (map (fun old => if String.eqb (appId old) (appId finalApp)
                              then row finalApp else old)
                  (RentalApplications db))
             (List.filter
                (fun r => negb (String.eqb (rentalApplicationId r)
                                           (appId originalApp)))
                (RentalApplicationItems db)
              ++ rowsOf (appId originalApp) newItems).
Proof.
  intros Hinc Hbatch. unfold batch in Hbatch. rewrite run_app in Hbatch.
  destruct (run stockOps db) as [db1|] eqn:Hrun1; [|done].
  destruct (run_increases _ _ _ Hinc Hrun1) as (Hi1 & Ha1 & Hr1).
  apply run_ledgerOperations in Hbatch. by rewrite Hbatch, Hi1, Ha1, Hr1.
Qed.

Lemma selectApplication_replaced a (newRow : ApplicationRow) items' apps rows
      rows' row0 :
  selectApplication a (mkDb items' apps rows) = Some row0 ->
  appId newRow = a ->
  forall items'',
  selectApplication a
    (mkDb items''
          (map (fun old => if String.eqb (appId old) (appId newRow)
                           then newRow else old) apps) rows')
  = Some newRow.
Proof.
  unfold selectApplication. simpl. intros H Hid items''. subst a.
  induction apps as [|r rest IH]; simpl in *; [done|].
  destruct (String.eqb (appId r) (appId newRow)) eqn:E.
  - by rewrite String.eqb_refl.
  - rewrite E. by apply IH.
Qed.

(** What both variants persist after a successful update. *)
Lemma update_persisted env stockOps row0 core newItems db db' a :
  selectApplication a db = Some row0 ->
  Forall (fun st => is_Some (increaseOf st)) stockOps ->
  batch (stockOps
         ++ ledgerOperations (mkApp row0 (selectItemsOf a db))
              (finalAppOf env (mkApp row0 (selectItemsOf a db)) core newItems
                          (Items db)) newItems) db = Some db' ->
  selectApplication a db'
  = Some (row (finalAppOf env (mkApp row0 (selectItemsOf a db)) core newItems
                          (Items db)))
  /\ selectItemsOf a db' = newItems.
Proof.
  intros Hsel Hinc Hbatch.
  apply run_update_batch in Hbatch; [|done]. subst db'.
  assert (Hid : appId row0 = a).
  { unfold selectApplication in Hsel. apply find_some in Hsel as [_ H].
    by apply String.eqb_eq. }
  cbn [finalAppOf appId row]. rewrite Hid. split.
  - destruct db as [its apps rows]. cbn [Items RentalApplications
      RentalApplicationItems].
    pose proof (selectApplication_replaced a
      (row (finalAppOf env (mkApp row0 (selectItemsOf a (mkDb its apps rows)))
                       core newItems its)) its apps rows) as H.
    cbn [finalAppOf appId row] in H. rewrite Hid in H. by eapply H.
  - by rewrite selectItemsOf_rows, String.eqb_refl.
Qed.

End UpdateBatch.

(** ** C10: what a user edit leaves alone *)

(** C10.  A successful user edit (in both variants of the worker) was made
    on a PENDING application; the row it persists and the application it
    returns carry the dates and the items of the request and the recomputed
    costs, and agree with the stored row on identifier, status, applicant
    identity, account, application date, staff fields, actual return date
    and deposit-refunded flag; the other keys of the request body play no
    part. *)
Theorem user_edit_frame :
  (forall env rentalId body db app db',
      Worker.putRental env rentalId body db = (WorkerBase.Json 200 app, db') ->
      exists stored,
        D1.selectApplication rentalId db = Some stored
        /\ status stored = PENDING
        /\ D1.selectApplication rentalId db' = Some (row app)
        /\ D1.selectItemsOf rentalId db' = items app
        /\ WorkerBase.patchItems body = Some (items app)
        /\ WorkerBase.patchRentalDate body = Some (rentalDate app)
        /\ WorkerBase.patchReturnDate body = Some (returnDate app)
        /\ sameOutsideEdit stored app)
  /\ (forall env rentalId body db,
         Worker.putRental env rentalId body db
         = Worker.putRental env rentalId (editFieldsOf body) db)
  /\ (forall env rentalId body db app db',
         WorkerV1.putRental env rentalId body db
         = (WorkerBase.Json 200 app, db') ->
         exists stored,
           D1.selectApplication rentalId db = Some stored
           /\ status stored = PENDING
           /\ D1.selectApplication rentalId db' = Some (row app)
           /\ D1.selectItemsOf rentalId db' = items app
           /\ WorkerBase.patchItems body = Some (items app)
           /\ WorkerBase.patchRentalDate body = Some (rentalDate app)
           /\ WorkerBase.patchReturnDate body = Some (returnDate app)
           /\ sameOutsideEdit stored app)
  /\ (forall env rentalId body db,
         WorkerV1.putRental env rentalId body db
         = WorkerV1.putRental env rentalId (editFieldsOf body) db).
Proof.
  assert (Hbody : forall body,
             (Worker.invalidEdit body = false
              \/ WorkerV1.invalidEdit body = false) ->
             WorkerBase.patchItems body
             = Some (default [] (WorkerBase.patchItems body))
             /\ WorkerBase.patchRentalDate body
                = Some (default "" (WorkerBase.patchRentalDate body))
             /\ WorkerBase.patchReturnDate body
                = Some (default "" (WorkerBase.patchReturnDate body))).
  { intros body Hv.
    assert (Hv' : Worker.invalidEdit body = false) by (by destruct Hv).
    clear Hv.
    unfold Worker.invalidEdit, WorkerBase.falsyString in Hv'.
    destruct (WorkerBase.patchItems body) as [l|]; [|done].
    destruct (WorkerBase.patchRentalDate body) as [r|];
      [|by destruct (length l =? 0)%nat].
    destruct (WorkerBase.patchReturnDate body) as [t|]; [done|].
    by destruct (length l =? 0)%nat, (String.eqb r ""). }
  split; [|split; [done|split; [|done]]].
  - intros env rentalId body db app db' Hput.
    apply worker_putRental_success in Hput
      as (Hvalid & row0 & ops & Hsel & Hst & Hm & Hb).
    destruct (Hbody body) as (Hi & Hr & Ht); [by left|].
    unfold Worker.manageRentalUpdate in Hm.
    destruct (Worker.stockUpdates _ _ _ _ _ _ _) as [e|stockOps] eqn:Hstock;
      [done|].
    injection Hm as <- <-.
    apply worker_stockUpdates_increases in Hstock.
    destruct (update_persisted _ _ _ _ _ _ _ _ Hsel Hstock Hb) as [Hrow Hitems].
    exists row0. repeat split; done.
  - intros env rentalId body db app db' Hput.
    apply workerV1_putRental_success in Hput
      as (Hvalid & row0 & ops & Hsel & Hst & Hm & Hb).
    destruct (Hbody body) as (Hi & Hr & Ht); [by right|].
    unfold WorkerV1.manageRentalUpdate in Hm.
    destruct (WorkerV1.stockUpdates _ _ _ _ _ _ _) as [e|stockOps] eqn:Hstock;
      [done|].
    injection Hm as <- <-.
    apply workerV1_stockUpdates_increases in Hstock.
    destruct (update_persisted _ _ _ _ _ _ _ _ Hsel Hstock Hb) as [Hrow Hitems].
    exists row0. repeat split; done.
Qed.

(** ** C7: the items of an admin edit *)

Section AdminEdit.

Import D1 WorkerBase.

Lemma workerV1_stockUpdateFor_inr itemDetails j oldQty change
      (stockMap stockMap' : gmap string Z) ops :
  WorkerV1.stockUpdateFor itemDetails j oldQty change stockMap
  = inr (ops, stockMap') ->
  default 0 (stockMap !! j) + change <= initialStock itemDetails ->
  ops = (if change =? 0 then [] else [IncreaseStock change j])
  /\ (forall k, k <> j -> stockMap' !! k = stockMap !! k).
Proof.
  unfold WorkerV1.stockUpdateFor. intros H Hcap.
  destruct (change =? 0) eqn:E0; simpl in H.
  - injection H as <- <-. done.
  - apply Z.eqb_neq in E0.
    destruct (default 0 (stockMap !! j) + change <? 0); [done|].
    destruct (default 0 (stockMap !! j) + change >? initialStock itemDetails)
      eqn:Ec; [lia|].
    destruct (change =? 0) eqn:E1; [lia|]. simpl in H.
    injection H as <- <-. split; [done|].
    intros k Hk. by rewrite lookup_insert_ne.
Qed.

Lemma workerV1_stockUpdates_spec oldRes newRes oldItems newItems allItems
      involved (stockMap : gmap string Z) ops :
  WorkerV1.stockUpdates oldRes newRes oldItems newItems allItems involved
                        stockMap = inr ops ->
  NoDup involved ->
  (forall j item,
      j ∈ involved -> findItem j allItems = Some item ->
      stockMap !! j = Some (currentStock item)
      /\ currentStock item
         + stockChangeFor oldRes newRes (qtyOf j oldItems) (qtyOf j newItems)
         <= initialStock item) ->
  forall i,
    opsChange ops i
    = foldr (fun j acc =>
               only j (stockChangeFor oldRes newRes (qtyOf j oldItems)
                         (qtyOf j newItems)) i + acc) 0 involved.
Proof.
  revert stockMap ops.
  induction involved as [|j rest IH]; simpl; intros stockMap ops H Hnd Hmap.
  - by injection H as <-.
  - apply NoDup_cons in Hnd as [Hj Hnd].
    destruct (findItem j allItems) as [item|] eqn:Ej; [|done].
    destruct (WorkerV1.stockUpdateFor _ _ _ _ _) as [e|[ops1 m1]] eqn:E1;
      [done|].
    destruct (WorkerV1.stockUpdates _ _ _ _ _ rest m1) as [e|ops2] eqn:E2;
      [done|].
    injection H as <-.
    destruct (Hmap j item) as [Hcur Hcap]; [apply elem_of_cons; auto|done|].
    destruct (workerV1_stockUpdateFor_inr _ _ _ _ _ _ _ E1) as [-> Hother].
    { rewrite Hcur. simpl. exact Hcap. }
    intros i. rewrite opsChange_app.
    rewrite (IH m1 ops2 E2 Hnd).
    + destruct (_ =? 0) eqn:E0; simpl; [|lia].
      apply Z.eqb_eq in E0. rewrite E0. unfold only.
      destruct (String.eqb i j); lia.
    + intros j' item' Hj' Hfind'. rewrite Hother.
      * apply Hmap; [apply elem_of_cons; auto | done].
      * intros ->. done.
Qed.

(** In the itty-router variant a successful batch of [manageRentalUpdate]
    on a consistent database moves each item by its net change. *)
Lemma workerV1_manage_items env db a row0 core newItems finalApp ops db' :
  consistentDatabase db ->
  selectApplication a db = Some row0 ->
  wellFormedEntries newItems ->
  WorkerV1.manageRentalUpdate env (mkApp row0 (selectItemsOf a db)) core
                              newItems db = inr (finalApp, ops) ->
  batch ops db = Some db' ->
  Items db'
  = applyStockChange
      (fun i => stockChangeFor (isReserved (status row0))
                               (isReserved (status core))
                               (qtyOf i (selectItemsOf a db)) (qtyOf i newItems))
      (Items db).
Proof.
  intros (Hnd & Hwf & Hfk & Hc) Hsel Hnew Hmanage Hbatch.
  destruct (findApplication_ledgerOf _ _ _ Hsel) as [Hfind Hid].
  pose proof (findApplication_Some_inv _ _ _ Hfind) as [Hold _].
  pose (old := mkApp row0 (selectItemsOf a db)).
  assert (Hwfold : wellFormedEntries (items old)).
  { destruct Hwf as [_ Hwf']. rewrite Forall_forall in Hwf'. by apply Hwf'. }
  unfold WorkerV1.manageRentalUpdate in Hmanage.
  cbn [status row items] in Hmanage.
  destruct (WorkerV1.stockUpdates _ _ _ _ _ _ _) as [e|stockOps] eqn:Hstock;
    [done|].
  injection Hmanage as <- <-.
  pose proof (workerV1_stockUpdates_increases _ _ _ _ _ _ _ _ Hstock) as Hinc.
  pose proof (workerV1_stockUpdates_spec _ _ _ _ _ _ _ _ Hstock
                (newSet_NoDup _)) as Hch.
  apply run_update_batch in Hbatch; [|done]. subst db'.
  cbn [Items]. apply applyStockChange_ext. intros item Hitem.
  rewrite Hch; [apply change_sum_involved|].
  intros j item' _ Hitem'. split; [by apply stockMapOf_lookup|].
  pose proof (stockChangeFor_heldBy j old (mkApp core newItems) Hwfold Hnew)
    as Heq.
  cbn [status row items old] in Heq. rewrite Heq.
  apply findItem_Some_inv in Hitem' as [Hitem' Hj].
  destruct (held_fits _ _ old item' Hwf Hc Hold Hitem') as [_ Hfit].
  pose proof (heldBy_nonneg j (mkApp core newItems) Hnew).
  rewrite Hj in Hfit. lia.
Qed.

End AdminEdit.

(** C7 fails in the direct-handler variant: the admin update of "r1" with
    a body whose items are [{A:3}] succeeds and leaves the stored entries
    at [{A:5}] and the stock at 5.  The itty-router variant, on the same
    request, stores [{A:3}] and takes the stock to 7. *)
Lemma admin_edit_items_ignored :
  (exists app db',
      Worker.putAdminRental (WorkerBase.mkEnv None) "r1" askForThree
                            heldDatabase
      = (WorkerBase.Json 200 app, db')
      /\ WorkerBase.patchItems askForThree = Some [mkEntry "A" 3]
      /\ D1.selectItemsOf "r1" db' = [mkEntry "A" 5]
      /\ D1.selectItemsOf "r1" db' <> [mkEntry "A" 3]
      /\ items app = [mkEntry "A" 5]
      /\ map currentStock (D1.Items db') = [5])
  /\ (exists app db',
         WorkerV1.putAdminRental (WorkerBase.mkEnv None) "r1" askForThree
                                 heldDatabase
         = (WorkerBase.Json 200 app, db')
         /\ D1.selectItemsOf "r1" db' = [mkEntry "A" 3]
         /\ items app = [mkEntry "A" 3]
         /\ map currentStock (D1.Items db') = [7]).
Proof.
  split.
  - eexists _, _. split; [vm_compute; reflexivity|].
    repeat split; try (vm_compute; reflexivity). vm_compute. discriminate.
  - eexists _, _. split; [vm_compute; reflexivity|].
    repeat split; vm_compute; reflexivity.
Qed.

(** C7 in the two variants of the worker.  In the itty-router variant an
    admin update whose body carries an items array stores, when it
    succeeds, that array as the entries of the application, and on a
    consistent database moves every item by the change
    [manageRentalUpdate] computes between the stored list and the new one.
    In the direct-handler variant the items of the body are not read: the
    response and the database are those of the same request without them,
    and the stored entries stay. *)
Theorem admin_edit_items :
  (forall env rentalId body db app db' newItems,
      WorkerBase.patchItems body = Some newItems ->
      WorkerV1.putAdminRental env rentalId body db
      = (WorkerBase.Json 200 app, db') ->
      items app = newItems
      /\ D1.selectItemsOf rentalId db' = newItems
      /\ exists stored,
          D1.selectApplication rentalId db = Some stored
          /\ (consistentDatabase db -> wellFormedEntries newItems ->
              D1.Items db'
              = applyStockChange
                  (fun i => WorkerBase.stockChangeFor
                              (isReserved (status stored))
                              (isReserved (status app))
                              (qtyOf i (D1.selectItemsOf rentalId db))
                              (qtyOf i newItems))
                  (D1.Items db)))
  /\ (forall env rentalId body db,
         Worker.putAdminRental env rentalId body db
         = Worker.putAdminRental env rentalId (withoutItems body) db)
  /\ (forall env rentalId body db app db',
         Worker.putAdminRental env rentalId body db
         = (WorkerBase.Json 200 app, db') ->
         items app = D1.selectItemsOf rentalId db
         /\ D1.selectItemsOf rentalId db' = D1.selectItemsOf rentalId db).
Proof.
  split; [|split; [done|]].
  - intros env rentalId body db app db' newItems Hbody Hput.
    apply workerV1_putAdminRental_success in Hput
      as (row0 & ops & Hsel & Hm & Hb).
    assert (Hd : default (D1.selectItemsOf rentalId db)
                         (WorkerBase.patchItems body) = newItems)
      by (by rewrite Hbody).
    rewrite Hd in Hm. pose proof Hm as Hm'. unfold WorkerV1.manageRentalUpdate in Hm'.
    destruct (WorkerV1.stockUpdates _ _ _ _ _ _ _) as [e|stockOps] eqn:Hstock;
      [done|].
    injection Hm' as <- <-.
    apply workerV1_stockUpdates_increases in Hstock.
    destruct (update_persisted _ _ _ _ _ _ _ _ Hsel Hstock Hb) as [_ Hitems].
    split; [done|]. split; [done|]. exists row0. split; [done|].
    intros Hcons Hwf.
    by apply (workerV1_manage_items env db rentalId row0 _ newItems _ _ db'
                Hcons Hsel Hwf Hm Hb).
  - intros env rentalId body db app db' Hput.
    apply worker_putAdminRental_success in Hput
      as (row0 & ops & Hsel & Hm & Hb).
    unfold Worker.manageRentalUpdate in Hm.
    destruct (Worker.stockUpdates _ _ _ _ _ _ _) as [e|stockOps] eqn:Hstock;
      [done|].
    injection Hm as <- <-.
    apply worker_stockUpdates_increases in Hstock.
    destruct (update_persisted _ _ _ _ _ _ _ _ Hsel Hstock Hb) as [_ Hitems].
    done.
Qed.

(** ** Create and cancel, end to end *)

Section CreateCancel.

Import D1 WorkerBase.

Lemma qtyOf_member e entries :
  NoDup (itemIds entries) -> e ∈ entries ->
  qtyOf (itemId e) entries = quantity e.
Proof.
  unfold qtyOf, findEntry.
  induction entries as [|x rest IH]; simpl; intros Hnd He.
  - by apply elem_of_nil in He.
  - apply NoDup_cons in Hnd as [Hx Hnd].
    apply elem_of_cons in He as [->|He].
    + by rewrite String.eqb_refl.
    + destruct (String.eqb (itemId x) (itemId e)) eqn:E; [|by apply IH].
      apply String.eqb_eq in E. exfalso. apply Hx. rewrite E.
      apply list_elem_of_fmap. eauto.
Qed.

Lemma entryTotal_member e entries :
  NoDup (itemIds entries) -> e ∈ entries ->
  entryTotal (itemId e) entries = quantity e.
Proof.
  intros Hnd He. rewrite entryTotal_qtyOf by done. by apply qtyOf_member.
Qed.

Lemma hasItem_of_find i db item :
  findItem i (Items db) = Some item -> hasItem i db = true.
Proof.
  intros H. unfold hasItem. apply existsb_exists. exists item.
  apply find_some in H. done.
Qed.

Lemma run_inserts_ok a entries db :
  hasApplication a db = true ->
  NoDup (itemIds entries) ->
  Forall (fun e => hasItem (itemId e) db = true) entries ->
  Forall (fun e => hasApplicationItem a (itemId e) db = false) entries ->
  run (insertsOf a entries) db
  = Some (mkDb (Items db) (RentalApplications db)
               (RentalApplicationItems db ++ rowsOf a entries)).
Proof.
  revert db. induction entries as [|e rest IH]; intros db Ha Hnd Hitems Hfree.
  - simpl. rewrite app_nil_r. by destruct db.
  - simpl in Hnd. apply NoDup_cons in Hnd as [He Hnd].
    apply Forall_cons in Hitems as [Hi Hitems].
    apply Forall_cons in Hfree as [Hf Hfree].
    cbn [insertsOf map run exec]. rewrite Hf, Ha, Hi. cbn [negb].
    fold (insertsOf a rest). rewrite IH; try done.
    + simpl. by rewrite <- app_assoc.
    + apply Forall_forall. intros e' He'.
      rewrite Forall_forall in Hfree. specialize (Hfree _ He').
      unfold hasApplicationItem in *. cbn [RentalApplicationItems].
      rewrite existsb_app, Hfree. simpl.
      destruct (String.eqb (itemId e) (itemId e')) eqn:E;
        [|by rewrite andb_false_r].
      apply String.eqb_eq in E. exfalso. apply He. rewrite E.
      apply list_elem_of_fmap. eauto.
Qed.

Lemma no_item_rows_of_fresh a i db :
  Forall (fun r => hasApplication (rentalApplicationId r) db = true)
         (RentalApplicationItems db) ->
  hasApplication a db = false ->
  hasApplicationItem a i db = false.
Proof.
  intros Hfk Hfresh. unfold hasApplicationItem.
  induction (RentalApplicationItems db) as [|r rest IH]; simpl; [done|].
  apply Forall_cons in Hfk as [Hr Hfk]. rewrite IH by done.
  destruct (String.eqb (rentalApplicationId r) a) eqn:E; [|done].
  apply String.eqb_eq in E. congruence.
Qed.

Lemma restore_change_step e rest allItems :
  applyStockChange (fun k => only (itemId e) (quantity e) k
                             + entryTotal k rest) allItems
  = applyStockChange (fun k => entryTotal k (e :: rest)) allItems.
Proof.
  apply applyStockChange_ext. intros item _. simpl. unfold only.
  rewrite (String.eqb_sym (id item)).
  destruct (String.eqb (itemId e) (id item)); lia.
Qed.

Lemma run_restore_ok entries db :
  NoDup (itemIds entries) ->
  (forall e r, e ∈ entries -> r ∈ Items db -> id r = itemId e ->
               stockInBounds (withCurrentStock r (currentStock r + quantity e)))
  ->
  run (Worker.restoreOperations entries) db
  = Some (mkDb (applyStockChange (fun i => entryTotal i entries) (Items db))
               (RentalApplications db) (RentalApplicationItems db)).
Proof.
  revert db. induction entries as [|e rest IH]; intros db Hnd Hfit.
  - simpl. rewrite applyStockChange_zero. by destruct db.
  - simpl in Hnd. apply NoDup_cons in Hnd as [He Hnd].
    cbn [Worker.restoreOperations map run]. rewrite exec_IncreaseStock.
    assert (Hcheck : forallb
              (fun r => negb (String.eqb (id r) (itemId e))
                        || checkItem (withCurrentStock r
                                        (currentStock r + quantity e)))
              (Items db) = true).
    { apply forallb_forall. intros r Hr. apply list_elem_of_In in Hr.
      destruct (String.eqb (id r) (itemId e)) eqn:E; [|done]. simpl.
      apply String.eqb_eq in E. apply checkItem_true.
      apply Hfit; [apply elem_of_cons; auto | done | done]. }
    rewrite Hcheck. fold (Worker.restoreOperations rest). rewrite IH.
    + simpl. by rewrite applyStockChange_compose, restore_change_step.
    + done.
    + simpl. intros e' r' He' Hr' Hid.
      apply elem_of_applyStockChange in Hr' as (r & Hr & ->).
      simpl in Hid. unfold only.
      destruct (String.eqb (id r) (itemId e)) eqn:E.
      * apply String.eqb_eq in E. exfalso. apply He. rewrite <- E, Hid.
        apply list_elem_of_fmap. eauto.
      * rewrite Z.add_0_r, withCurrentStock_same.
        apply Hfit; [apply elem_of_cons; auto | done | done].
Qed.

Lemma selectApplication_added a (newRow : ApplicationRow) items' apps rows :
  hasApplication a (mkDb items' apps rows) = false ->
  appId newRow = a ->
  forall items'' rows',
    selectApplication a (mkDb items'' (apps ++ [newRow]) rows') = Some newRow.
Proof.
  unfold selectApplication, hasApplication. simpl.
  intros Hfresh Hid items'' rows'.
  induction apps as [|r rest IH]; simpl in *.
  - by rewrite Hid, String.eqb_refl.
  - apply orb_false_iff in Hfresh as [Hr Hrest]. rewrite Hr. by apply IH.
Qed.

Lemma filter_out_fresh_apps a (newRow : ApplicationRow) items' apps rows :
  hasApplication a (mkDb items' apps rows) = false ->
  appId newRow = a ->
  List.filter (fun r => negb (String.eqb (appId r) a)) (apps ++ [newRow])
  = apps.
Proof.
  unfold hasApplication. simpl. intros Hfresh Hid.
  induction apps as [|r rest IH]; simpl in *.
  - by rewrite Hid, String.eqb_refl.
  - apply orb_false_iff in Hfresh as [Hr Hrest]. rewrite Hr. simpl.
    by rewrite IH.
Qed.

Lemma filter_out_fresh_rows a entries db :
  Forall (fun r => hasApplication (rentalApplicationId r) db = true)
         (RentalApplicationItems db) ->
  hasApplication a db = false ->
  List.filter (fun r => negb (String.eqb (rentalApplicationId r) a))
              (RentalApplicationItems db ++ rowsOf a entries)
  = RentalApplicationItems db.
Proof.
  intros Hfk Hfresh. rewrite List.filter_app.
  assert (H1 : List.filter
                 (fun r => negb (String.eqb (rentalApplicationId r) a))
                 (rowsOf a entries) = []).
  { unfold rowsOf. induction entries as [|e rest IH]; simpl; [done|].
    by rewrite String.eqb_refl. }
  rewrite H1, app_nil_r.
  induction (RentalApplicationItems db) as [|r rest IH]; simpl; [done|].
  apply Forall_cons in Hfk as [Hr Hfk].
  destruct (String.eqb (rentalApplicationId r) a) eqn:E.
  - apply String.eqb_eq in E. congruence.
  - simpl. by rewrite IH.
Qed.

Lemma removeApplication_added a (new : RentalApplication) ledger :
  a ∉ applicationIds ledger -> appId new = a ->
  removeApplication a (ledger ++ [new]) = ledger.
Proof.
  intros Hfresh Hid. induction ledger as [|r rest IH]; simpl.
  - by rewrite Hid, String.eqb_refl.
  - simpl in Hfresh. apply not_elem_of_cons in Hfresh as [Hne Hfresh].
    destruct (String.eqb (appId r) a) eqn:E; [by apply String.eqb_eq in E|].
    simpl. by rewrite IH.
Qed.

Lemma findApplication_added a (new : RentalApplication) ledger :
  a ∉ applicationIds ledger -> appId new = a ->
  findApplication a (ledger ++ [new]) = Some new.
Proof.
  unfold findApplication.
  intros Hfresh Hid. induction ledger as [|r rest IH]; simpl.
  - by rewrite Hid, String.eqb_refl.
  - simpl in Hfresh. apply not_elem_of_cons in Hfresh as [Hne Hfresh].
    destruct (String.eqb (appId r) a) eqn:E; [by apply String.eqb_eq in E|].
    by apply IH.
Qed.

(** The create handler succeeds on a database under its schema when the
    identifier is new and every entry is in stock. *)
Lemma worker_create_succeeds env appData newId today db :
  schemaHolds db ->
  hasApplication newId db = false ->
  wellFormedEntries (items appData) ->
  Forall (inStock (Items db)) (items appData) ->
  Worker.postRentalsApply env appData newId today db
  = (Json 201 (Worker.newApplicationOf env appData newId today (Items db)),
     mkDb (applyStockChange (fun i => - entryTotal i (items appData))
                            (Items db))
          (RentalApplications db
           ++ [insertedRow (Worker.newApplicationOf env appData newId today
                              (Items db))])
          (RentalApplicationItems db ++ rowsOf newId (items appData))).
Proof.
  intros (Hnd & Hb & Hfk) Hfresh [Hsel Hq] Hfit.
  unfold Worker.postRentalsApply, Worker.prepareApplication.
  rewrite (prepareStockAdjustments_ok _ _ Hfit).
  unfold Worker.commitApplication, batch. cbn [fst snd run exec].
  cbn [Worker.newApplicationOf appId row items]. rewrite Hfresh.
  fold (insertsOf newId (items appData)). fold (decrementsOf (items appData)).
  rewrite run_app, run_inserts_ok.
  - rewrite run_decrements_ok; [done|done|done|].
    cbn [Items]. apply Forall_forall. intros e He.
    rewrite Forall_forall in Hfit. destruct (Hfit _ He) as (item & Hfind & Hle).
    exists item. split; [done|].
    rewrite Forall_forall in Hq. specialize (Hq _ He).
    apply findItem_Some_inv in Hfind as [Hitem _].
    rewrite Forall_forall in Hb. specialize (Hb _ Hitem).
    unfold stockInBounds in Hb. lia.
  - apply hasApplication_iff. cbn [RentalApplications]. rewrite map_app.
    apply elem_of_app. right. apply list_elem_of_singleton. done.
  - done.
  - apply Forall_forall. intros e He.
    rewrite Forall_forall in Hfit. destruct (Hfit _ He) as (item & Hfind & _).
    by apply (hasItem_of_find _ _ item).
  - apply Forall_forall. intros e _.
    pose proof (no_item_rows_of_fresh newId (itemId e) db Hfk Hfresh) as H.
    exact H.
Qed.

Lemma prepareStockAdjustments_short selected allItems :
  itemsResolve allItems selected ->
  ~ Forall (inStock allItems) selected ->
  exists itemName requested available,
    Worker.prepareStockAdjustments selected allItems
    = inl (InsufficientStock itemName requested available).
Proof.
  induction 1 as [|e rest [item Hfind] Hres IH]; intros Hnot.
  - exfalso. apply Hnot. constructor.
  - simpl. rewrite Hfind.
    destruct (currentStock item <? quantity e) eqn:Ec; [eauto|].
    destruct IH as (n & q & a & ->); [|eauto].
    intros Hall. apply Hnot. constructor; [|done].
    exists item. split; [done | lia].
Qed.

End CreateCancel.

(** ** C4: the boundary of a create and its failure *)

(** C4.  A create request with one entry per item succeeds whenever every
    selected item exists with [quantity <= currentStock] (in the worker:
    on a database under its schema, with no negative quantity and a new
    identifier): the application is stored as PENDING and every item loses
    the quantity selected, so an entry with [quantity = currentStock]
    leaves that item at 0.  When every selected item exists and some entry
    asks for more than the stock (for [currentStock + 1], say), the request
    fails with the insufficient-stock error and the storage, or the
    database, is the one before. *)
Theorem create_boundary :
  (forall fixedDeposit appData newId today s,
      NoDup (map id (DataService.getItems s)) ->
      NoDup (itemIds (items appData)) ->
      Forall (inStock (DataService.getItems s)) (items appData) ->
      exists app s',
        DataService.addRentalApplication fixedDeposit appData newId today s
        = DataService.Returned app s'
        /\ status app = PENDING
        /\ items app = items appData
        /\ DataService.kaistWelfareRentals s'
           = DataService.kaistWelfareRentals s ++ [app]
        /\ DataService.kaistWelfareItems s'
           = applyStockChange (fun i => - qtyOf i (items appData))
                              (DataService.getItems s)
        /\ forall e item,
            e ∈ items appData ->
            findItem (itemId e) (DataService.getItems s) = Some item ->
            quantity e = currentStock item ->
            findItem (itemId e) (DataService.kaistWelfareItems s')
            = Some (withCurrentStock item 0))
  /\ (forall fixedDeposit appData newId today s e item,
         e ∈ items appData ->
         findItem (itemId e) (DataService.getItems s) = Some item ->
         currentStock item < quantity e ->
         exists itemName requested available,
           DataService.addRentalApplication fixedDeposit appData newId today s
           = DataService.Threw
               (DataService.InsufficientStock itemName requested available) s)
  /\ (forall env appData newId today db,
         schemaHolds db ->
         D1.hasApplication newId db = false ->
         wellFormedEntries (items appData) ->
         Forall (inStock (D1.Items db)) (items appData) ->
         exists app db',
           Worker.postRentalsApply env appData newId today db
           = (WorkerBase.Json 201 app, db')
           /\ status app = PENDING
           /\ D1.selectApplication newId db' = Some (D1.insertedRow app)
           /\ D1.selectItemsOf newId db' = items appData
           /\ D1.Items db'
              = applyStockChange (fun i => - qtyOf i (items appData))
                                 (D1.Items db)
           /\ forall e item,
               e ∈ items appData ->
               findItem (itemId e) (D1.Items db) = Some item ->
               quantity e = currentStock item ->
               findItem (itemId e) (D1.Items db')
               = Some (withCurrentStock item 0))
  /\ (forall env appData newId today db e item,
         itemsResolve (D1.Items db) (items appData) ->
         e ∈ items appData ->
         findItem (itemId e) (D1.Items db) = Some item ->
         currentStock item < quantity e ->
         exists itemName requested available,
           Worker.postRentalsApply env appData newId today db
           = (WorkerBase.Failed 400
                (WorkerBase.InsufficientStock itemName requested available),
              db)).
Proof.
  assert (Hzero : forall (sel : list SelectedItemEntry) allItems e item,
             NoDup (itemIds sel) -> e ∈ sel ->
             findItem (itemId e) allItems = Some item ->
             quantity e = currentStock item ->
             findItem (itemId e)
                      (applyStockChange (fun i => - qtyOf i sel) allItems)
             = Some (withCurrentStock item 0)).
  { intros sel allItems e item Hnd He Hfind Hq.
    rewrite findItem_applyStockChange, Hfind. simpl.
    apply findItem_Some_inv in Hfind as [_ Hid].
    rewrite Hid, qtyOf_member by done. do 2 f_equal. lia. }
  assert (Hnot : forall allItems (sel : list SelectedItemEntry) e item,
             e ∈ sel -> findItem (itemId e) allItems = Some item ->
             currentStock item < quantity e ->
             ~ Forall (inStock allItems) sel).
  { intros allItems sel e item He Hfind Hlt Hall.
    rewrite Forall_forall in Hall.
    destruct (Hall _ He) as (item' & Hfind' & Hle).
    rewrite Hfind in Hfind'. injection Hfind' as <-. lia. }
  split; [|split; [|split]].
  - intros fixedDeposit appData newId today s Hnd Hsel Hfit.
    assert (Hval : DataService.validateStock (items appData)
                     (DataService.getItems s) = None)
      by (by apply validateStock_None_iff).
    rewrite addRentalApplication_returns by done.
    eexists _, _. split; [done|]. cbn [DataService.kaistWelfareItems
      DataService.kaistWelfareRentals createdApplication status row items
      DataService.withDerived].
    assert (Hch : applyStockChange (fun i => - entryTotal i (items appData))
                                   (DataService.getItems s)
                  = applyStockChange (fun i => - qtyOf i (items appData))
                                     (DataService.getItems s)).
    { apply applyStockChange_ext. intros item _.
      by rewrite entryTotal_qtyOf. }
    rewrite Hch. repeat split; try done.
    intros e item He Hfind Hq. by apply Hzero.
  - intros fixedDeposit appData newId today s e item He Hfind Hlt.
    destruct (DataService.validateStock (items appData)
                (DataService.getItems s)) as [err|] eqn:Hval.
    + destruct (validateStock_Some _ _ _ Hval) as (n & q & a & ->).
      exists n, q, a. by apply addRentalApplication_throws.
    + apply validateStock_None_iff in Hval. exfalso.
      by apply (Hnot _ _ _ _ He Hfind Hlt).
  - intros env appData newId today db Hschema Hfresh Hwf Hfit.
    rewrite worker_create_succeeds by done.
    destruct Hschema as (Hnd & Hb & Hfk). destruct Hwf as [Hsel Hq].
    eexists _, _. split; [done|]. cbn [D1.Items].
    assert (Hch : applyStockChange (fun i => - entryTotal i (items appData))
                                   (D1.Items db)
                  = applyStockChange (fun i => - qtyOf i (items appData))
                                     (D1.Items db)).
    { apply applyStockChange_ext. intros item _.
      by rewrite entryTotal_qtyOf. }
    rewrite Hch. split; [done|]. split.
    { destruct db as [its apps rows].
      by apply (selectApplication_added newId _ its apps rows). }
    split.
    { unfold D1.selectItemsOf. cbn [D1.RentalApplicationItems].
      rewrite List.filter_app, map_app.
      rewrite (no_rows_of_fresh _ _ Hfk Hfresh). simpl.
      unfold rowsOf. clear. induction (items appData) as [|e rest IH];
        simpl; [done|].
      rewrite String.eqb_refl. simpl. rewrite IH. by destruct e. }
    split; [done|].
    intros e item He Hfind Hqe. by apply Hzero.
  - intros env appData newId today db e item Hres He Hfind Hlt.
    destruct (prepareStockAdjustments_short (items appData) (D1.Items db))
      as (n & q & a & Hprep); [done | by eapply Hnot|].
    exists n, q, a. unfold Worker.postRentalsApply, Worker.prepareApplication.
    by rewrite Hprep.
Qed.

(** ** C6: cancelling gives back what creating took *)

(** C6.  A user cancel succeeds only on a PENDING application.  When it
    succeeds the application leaves the ledger and every item gets back
    the quantities of the entries that name it (in the service, on a
    consistent storage, where no release is capped).  Creating an
    application and then cancelling it gives back the storage, or the
    database, as it was: {A:2} taken from a stock of 10 leaves 8, and the
    cancel returns it to 10. *)
Theorem cancel_reversible :
  (forall applicationId s s',
      DataService.cancelRentalApplication applicationId s
      = DataService.Returned true s' ->
      exists app,
        findApplication applicationId (DataService.kaistWelfareRentals s)
        = Some app
        /\ status app = PENDING)
  /\ (forall applicationId s app,
         consistentStorage s ->
         findApplication applicationId (DataService.kaistWelfareRentals s)
         = Some app ->
         status app = PENDING ->
         DataService.cancelRentalApplication applicationId s
         = DataService.Returned true
             (DataService.mkStorage
                (applyStockChange (fun i => entryTotal i (items app))
                                  (DataService.getItems s))
                (removeApplication applicationId
                                   (DataService.kaistWelfareRentals s))))
  /\ (forall fixedDeposit appData newId today s app s1,
         consistentStorage s ->
         wellFormedEntries (items appData) ->
         newId ∉ applicationIds (DataService.kaistWelfareRentals s) ->
         DataService.addRentalApplication fixedDeposit appData newId today s
         = DataService.Returned app s1 ->
         DataService.kaistWelfareItems s1
         = applyStockChange (fun i => - entryTotal i (items appData))
                            (DataService.getItems s)
         /\ DataService.cancelRentalApplication newId s1
            = DataService.Returned true s)
  /\ (forall rentalId db db',
         Worker.postRentalCancel rentalId db = (WorkerBase.Json 200 tt, db') ->
         exists stored,
           D1.selectApplication rentalId db = Some stored
           /\ status stored = PENDING
           /\ D1.Items db'
              = applyStockChange
                  (fun i => entryTotal i (D1.selectItemsOf rentalId db))
                  (D1.Items db)
           /\ D1.ledgerOf db' = removeApplication rentalId (D1.ledgerOf db))
  /\ (forall env appData newId today db app db1,
         schemaHolds db ->
         wellFormedEntries (items appData) ->
         Worker.postRentalsApply env appData newId today db
         = (WorkerBase.Json 201 app, db1) ->
         D1.Items db1
         = applyStockChange (fun i => - entryTotal i (items appData))
                            (D1.Items db)
         /\ Worker.postRentalCancel newId db1 = (WorkerBase.Json 200 tt, db)).
Proof.
  assert (Hback : forall sel allItems,
             applyStockChange (fun i => entryTotal i sel)
               (applyStockChange (fun i => - entryTotal i sel) allItems)
             = allItems).
  { intros sel allItems. rewrite applyStockChange_compose.
    rewrite <- (applyStockChange_zero allItems) at 2.
    apply applyStockChange_ext. intros item _. lia. }
  split; [|split; [|split; [|split]]].
  - intros applicationId s s'. unfold DataService.cancelRentalApplication,
      DataService.getRentalApplications, findApplication.
    destruct (find _ _) as [app|]; [|done].
    destruct (status app) eqn:Hst; [|done|done]. eauto.
  - intros applicationId s app Hcons Hfind Hst.
    by apply cancelRentalApplication_returns.
  - intros fixedDeposit appData newId today s app s1 Hcons Hwf Hfresh Hadd.
    pose proof (create_consistent fixedDeposit appData newId today s
                  Hcons Hwf Hfresh) as Hcons1.
    destruct (DataService.validateStock (items appData)
                (DataService.getItems s)) as [e|] eqn:Hval.
    { by rewrite (addRentalApplication_throws _ _ _ _ _ _ Hval) in Hadd. }
    destruct Hcons as (Hnd & Hrest). destruct Hwf as [Hsel Hq].
    rewrite addRentalApplication_returns in Hadd, Hcons1 by done.
    injection Hadd as <- <-. cbn [DataService.storageAfter] in Hcons1.
    split; [done|].
    rewrite (cancelRentalApplication_returns _ _
               (createdApplication fixedDeposit appData newId today
                                   (DataService.getItems s))); [|done| |done].
    + cbn [DataService.getItems DataService.kaistWelfareItems
        DataService.kaistWelfareRentals createdApplication items].
      rewrite Hback, removeApplication_added by done. by destruct s.
    + cbn [DataService.kaistWelfareRentals].
      by apply findApplication_added.
  - intros rentalId db db'. unfold Worker.postRentalCancel.
    destruct (D1.selectApplication rentalId db) as [row0|] eqn:Hsel; [|done].
    destruct (status row0) eqn:Hst; try done.
    destruct (D1.batch _ db) as [db1|] eqn:Hb; [|done].
    intros [= <-]. exists row0.
    destruct (worker_remove_run _ _ _ _ Hb) as (Hi & Hl & _). done.
  - intros env appData newId today db app db1 (Hnd & Hb & Hfk) [Hsel Hq] Hput.
    unfold Worker.postRentalsApply in Hput.
    destruct (Worker.prepareApplication _ _ _ _ _) as [e|prepared] eqn:Hprep;
      [done|].
    unfold Worker.commitApplication in Hput.
    destruct (D1.batch _ db) as [db1'|] eqn:Hbatch; [|done].
    injection Hput as <- <-.
    destruct (worker_create_run _ _ _ _ _ _ _ Hnd Hsel Hprep Hbatch)
      as (Hnew & Hfresh & Hitems & Happs & Hrows).
    split; [done|].
    destruct db as [its apps rows], db1' as [its1 apps1 rows1].
    cbn [D1.Items D1.RentalApplications D1.RentalApplicationItems] in *.
    subst its1 apps1 rows1.
    assert (Hid : appId (D1.insertedRow (fst prepared)) = newId)
      by (by rewrite Hnew).
    unfold Worker.postRentalCancel.
    rewrite (selectApplication_added newId _ its apps rows) by done.
    assert (Hst : status (D1.insertedRow (fst prepared)) = PENDING)
      by (by rewrite Hnew).
    rewrite Hst.
    assert (Hitems1 : D1.selectItemsOf newId
              (D1.mkDb
                 (applyStockChange (fun i => - entryTotal i (items appData)) its)
                 (apps ++ [D1.insertedRow (fst prepared)])
                 (rows ++ rowsOf newId (items appData)))
            = items appData).
    { unfold D1.selectItemsOf. cbn [D1.RentalApplicationItems].
      rewrite List.filter_app, map_app.
      pose proof (no_rows_of_fresh newId (D1.mkDb its apps rows) Hfk Hfresh)
        as Hnone.
      cbn [D1.RentalApplicationItems] in Hnone. rewrite Hnone. simpl.
      unfold rowsOf. clear. induction (items appData) as [|e rest IH];
        simpl; [done|].
      rewrite String.eqb_refl. simpl. rewrite IH. by destruct e. }
    rewrite Hitems1. unfold D1.batch. rewrite run_app, run_restore_ok.
    + cbn [D1.run D1.exec D1.Items D1.RentalApplications
        D1.RentalApplicationItems].
      rewrite Hback, filter_twice.
      rewrite (filter_out_fresh_apps newId _ its apps rows) by done.
      pose proof (filter_out_fresh_rows newId (items appData)
                    (D1.mkDb its apps rows) Hfk Hfresh) as Hr.
      cbn [D1.RentalApplicationItems] in Hr. by rewrite Hr.
    + done.
    + cbn [D1.Items]. intros e r He Hr Hid'.
      apply elem_of_applyStockChange in Hr as (item & Hitem & ->).
      simpl in Hid'. unfold stockInBounds. simpl.
      rewrite Hid', entryTotal_member by done.
      rewrite Forall_forall in Hb. specialize (Hb _ Hitem).
      unfold stockInBounds in Hb. lia.
Qed.

(** ** The CHECK constraints under the statements of the worker *)

Section Bounds.

Import D1 WorkerBase.

Lemma exec_keeps_bounds st db db' :
  exec st db = Some db' ->
  Forall stockInBounds (Items db) -> Forall stockInBounds (Items db').
Proof.
  destruct st; simpl;
    repeat match goal with
           | |- context [if ?c then _ else _] => destruct c
           end;
    try (intros [= <-]; done);
    try done;
    destruct (updateItems _ _ _) as [rows|] eqn:E; try done;
    intros [= <-] Hb; simpl; by eapply updateItems_checked.
Qed.

Lemma run_keeps_bounds ops db db' :
  run ops db = Some db' ->
  Forall stockInBounds (Items db) -> Forall stockInBounds (Items db').
Proof.
  revert db. induction ops as [|st rest IH]; intros db; simpl.
  - by intros [= <-].
  - destruct (exec st db) as [db1|] eqn:E; [|done].
    intros Hrun Hb. eapply IH; [done|]. by eapply exec_keeps_bounds.
Qed.

Lemma stepRequest_keeps_bounds env r db :
  Forall stockInBounds (Items db) ->
  Forall stockInBounds (Items (snd (Worker.stepRequest env r db))).
Proof.
  intros Hb. destruct r as [appData newId today|prepared|response]; simpl.
  - by destruct (Worker.prepareApplication _ _ _ _ _).
  - unfold Worker.commitApplication.
    destruct (batch _ db) as [db'|] eqn:E; simpl; [|done].
    by eapply run_keeps_bounds.
  - done.
Qed.

Lemma runSchedule_keeps_bounds env schedule first second db :
  Forall stockInBounds (Items db) ->
  Forall stockInBounds
         (Items (snd (Worker.runSchedule env schedule first second db))).
Proof.
  revert first second db.
  induction schedule as [|b rest IH]; intros first second db Hb; [done|].
  destruct b; simpl.
  - pose proof (stepRequest_keeps_bounds env second db Hb) as H.
    destruct (Worker.stepRequest env second db) as [second' db1].
    by apply IH.
  - pose proof (stepRequest_keeps_bounds env first db Hb) as H.
    destruct (Worker.stepRequest env first db) as [first' db1].
    by apply IH.
Qed.

Lemma batch_keeps_bounds ops db db' :
  batch ops db = Some db' ->
  Forall stockInBounds (Items db) -> Forall stockInBounds (Items db').
Proof. apply run_keeps_bounds. Qed.

Lemma worker_step_keeps_bounds env db db' :
  workerStep env db db' ->
  Forall stockInBounds (Items db) -> Forall stockInBounds (Items db').
Proof.
  intros Hstep Hb.
  destruct Hstep as [appData newId today db _|rentalId body db _|rentalId db
                     |rentalId body db|rentalId db].
  - unfold Worker.postRentalsApply.
    destruct (Worker.prepareApplication _ _ _ _ _) as [e|prepared]; [done|].
    unfold Worker.commitApplication.
    destruct (batch _ db) as [db'|] eqn:E; simpl; [|done].
    by eapply batch_keeps_bounds.
  - unfold Worker.putRental.
    destruct (Worker.invalidEdit body); [done|].
    destruct (selectApplication rentalId db) as [original|]; [|done].
    destruct (status original); try done.
    destruct (Worker.manageRentalUpdate _ _ _ _ _) as [e|[finalApp ops]];
      [done|].
    destruct (batch ops db) as [db'|] eqn:E; simpl; [|done].
    by eapply batch_keeps_bounds.
  - unfold Worker.postRentalCancel.
    destruct (selectApplication rentalId db) as [original|]; [|done].
    destruct (status original); try done.
    destruct (batch _ db) as [db'|] eqn:E; simpl; [|done].
    by eapply batch_keeps_bounds.
  - unfold Worker.putAdminRental.
    destruct (selectApplication rentalId db) as [original|]; [|done].
    destruct (_ && _); [done|].
    destruct (Worker.manageRentalUpdate _ _ _ _ _) as [e|[finalApp ops]];
      [done|].
    destruct (batch ops db) as [db'|] eqn:E; simpl; [|done].
    by eapply batch_keeps_bounds.
  - unfold Worker.deleteAdminRental.
    destruct (selectApplication rentalId db) as [original|]; [|done].
    destruct (batch _ db) as [db'|] eqn:E; simpl; [|done].
    by eapply batch_keeps_bounds.
Qed.

Lemma putItem_keeps_bounds itemId' updatedItemData db :
  Forall stockInBounds (Items db) ->
  Forall stockInBounds
         (Items (snd (Worker.putItem itemId' updatedItemData db))).
Proof.
  intros Hb. unfold Worker.putItem.
  destruct (_ >? _); [done|]. destruct (_ || _); [done|].
  destruct (exec _ db) as [db'|] eqn:E; [|done].
  destruct (hasItem itemId' db); simpl; [|done].
  by eapply exec_keeps_bounds.
Qed.

End Bounds.

(** ** C9: two create requests in flight *)

(** C9 fails in the worker.  Two requests for {A:6} against a stock of 10,
    the second reading the items before the batch of the first: both are
    answered 201, the stock ends at 4 and the two applications hold 12.
    The guarded UPDATE of the second batch changes no row and reports no
    error, and the handler does not look at the number of rows changed.
    When the second request starts after the first has ended it is refused
    with the insufficient-stock error, as is the second of two calls of
    the service, which run one after the other; under every schedule the
    stock stays within its bounds. *)
Theorem concurrent_create_double_booking :
  (exists db',
      Worker.runSchedule (WorkerBase.mkEnv None) [false; true; false; true]
        (Worker.Received sixTents "r1" "2024-01-01")
        (Worker.Received sixTents "r2" "2024-01-01") freshDatabase
      = (Worker.Responded (WorkerBase.Json 201 (createdSix "r1")),
         Worker.Responded (WorkerBase.Json 201 (createdSix "r2")), db')
      /\ map currentStock (D1.Items db') = [4]
      /\ reservedTotal "A" (D1.ledgerOf db') = 12
      /\ map initialStock (D1.Items db') = [10])
  /\ (exists db',
         Worker.runSchedule (WorkerBase.mkEnv None) [false; false; true; true]
           (Worker.Received sixTents "r1" "2024-01-01")
           (Worker.Received sixTents "r2" "2024-01-01") freshDatabase
         = (Worker.Responded (WorkerBase.Json 201 (createdSix "r1")),
            Worker.Responded
              (WorkerBase.Failed 400 (WorkerBase.InsufficientStock "Tent" 6 4)),
            db')
         /\ map currentStock (D1.Items db') = [4]
         /\ reservedTotal "A" (D1.ledgerOf db') = 6)
  /\ (exists s1,
         DataService.addRentalApplication 10000 sixTents "r1" "2024-01-01"
                                          freshStorage
         = DataService.Returned (createdSix "r1") s1
         /\ DataService.addRentalApplication 10000 sixTents "r2" "2024-01-01"
                                             s1
            = DataService.Threw (DataService.InsufficientStock "Tent" 6 4) s1
         /\ map currentStock (DataService.kaistWelfareItems s1) = [4])
  /\ (forall schedule : list bool,
         Forall stockInBounds
                (D1.Items
                   (snd (Worker.runSchedule (WorkerBase.mkEnv None) schedule
                           (Worker.Received sixTents "r1" "2024-01-01")
                           (Worker.Received sixTents "r2" "2024-01-01")
                           freshDatabase)))).
Proof.
  split; [|split; [|split]].
  - eexists. split; [vm_compute; reflexivity|].
    repeat split; vm_compute; reflexivity.
  - eexists. split; [vm_compute; reflexivity|].
    repeat split; vm_compute; reflexivity.
  - eexists. split; [vm_compute; reflexivity|].
    split; vm_compute; reflexivity.
  - intros schedule. apply runSchedule_keeps_bounds.
    apply Forall_singleton.
    unfold stockInBounds, tentInStock. simpl. lia.
Qed.

(** ** The stock bounds under the rental operations of the service *)

Section ServiceBounds.

Import DataService.

Lemma adjustStockForItem_keeps_bounds i q op s :
  0 <= q ->
  Forall stockInBounds (kaistWelfareItems s) ->
  Forall stockInBounds
         (kaistWelfareItems (storageAfter (adjustStockForItem i q op s))).
Proof.
  intros Hq Hb. unfold adjustStockForItem, getItems.
  destruct (findItem i (kaistWelfareItems s)) as [item|] eqn:Hitem; [|done].
  apply findItem_Some_inv in Hitem as [Hin _].
  assert (Hitem : stockInBounds item).
  { rewrite Forall_forall in Hb. by apply Hb. }
  assert (Hwrite : forall newStock,
             0 <= newStock <= initialStock item ->
             Forall stockInBounds
                    (map (fun k => if String.eqb (id k) i
                                   then withCurrentStock item newStock else k)
                         (kaistWelfareItems s))).
  { intros newStock Hnew. apply Forall_map.
    eapply Forall_impl; [exact Hb|]. intros k Hk. simpl.
    destruct (String.eqb (id k) i); [exact Hnew | exact Hk]. }
  unfold stockInBounds in Hitem.
  destruct op; simpl.
  - destruct (Z.ltb_spec (currentStock item) q); simpl; [done|].
    apply Hwrite. lia.
  - apply Hwrite.
    destruct (Z.gtb_spec (currentStock item + q) (initialStock item)); lia.
Qed.

Lemma forEach_keeps_bounds {A} (f : A -> Storage -> Outcome unit) xs s :
  Forall (fun x => forall s0,
              Forall stockInBounds (kaistWelfareItems s0) ->
              Forall stockInBounds (kaistWelfareItems (storageAfter (f x s0))))
         xs ->
  Forall stockInBounds (kaistWelfareItems s) ->
  Forall stockInBounds (kaistWelfareItems (storageAfter (forEach f xs s))).
Proof.
  intros Hf. revert s. induction Hf as [|x rest Hx _ IH]; intros s Hb; [done|].
  simpl. specialize (Hx s Hb).
  destruct (f x s) as [[] s1|e s1]; simpl in *; [by apply IH | done].
Qed.

Lemma adjustmentFor_nonneg oldRes newRes oldQty newQty j :
  Forall (fun adj => 0 <= adjQuantity adj)
         (adjustmentFor oldRes newRes oldQty newQty j).
Proof.
  unfold adjustmentFor.
  destruct oldRes, newRes; simpl;
    repeat match goal with
           | |- context [?a >? ?b] => destruct (Z.gtb_spec a b); simpl
           | |- context [?a <? ?b] => destruct (Z.ltb_spec a b); simpl
           end;
    repeat constructor; simpl; lia.
Qed.

Lemma collectAdjustments_nonneg oldRes newRes oldItems newItems allItems
      involved adjs :
  collectAdjustments oldRes newRes oldItems newItems allItems involved
  = inr adjs ->
  Forall (fun adj => 0 <= adjQuantity adj) adjs.
Proof.
  revert adjs. induction involved as [|j rest IH]; intros adjs; simpl.
  - by intros [= <-].
  - destruct (findItem j allItems); [|done].
    destruct (collectAdjustments _ _ _ _ _ rest) as [e|adjs']; [done|].
    intros [= <-]. apply Forall_app.
    split; [apply adjustmentFor_nonneg | by apply IH].
Qed.

Lemma storage_step_keeps_bounds fixedDeposit s s' :
  storageStep fixedDeposit s s' ->
  wellFormedLedger (kaistWelfareRentals s) ->
  Forall stockInBounds (kaistWelfareItems s) ->
  Forall stockInBounds (kaistWelfareItems s').
Proof.
  intros Hstep [_ Hledger] Hb.
  destruct Hstep as [appData newId today s [_ Hq] _|updatedApp s _
                     |applicationId s].
  - unfold addRentalApplication.
    destruct (validateStock _ _); [done|]. cbn [items].
    pose proof (forEach_keeps_bounds
                  (fun itemEntry =>
                     adjustStockForItem (itemId itemEntry) (quantity itemEntry)
                                        decrease)
                  (items appData) s) as Hrun.
    destruct (forEach _ (items appData) s) as [[] s1|e s1]; simpl in *;
      apply Hrun; try done;
      (eapply Forall_impl; [exact Hq|]); intros e' He' s0;
      by apply adjustStockForItem_keeps_bounds.
  - unfold updateRentalApplication.
    destruct (find _ _) as [originalApp|]; [|done].
    destruct (collectAdjustments _ _ _ _ _ _) as [e|adjs] eqn:Hadjs; [done|].
    destruct (validateAdjustments _ _ _); [done|].
    apply collectAdjustments_nonneg in Hadjs.
    pose proof (forEach_keeps_bounds
                  (fun adj =>
                     adjustStockForItem (adjItemId adj) (adjQuantity adj)
                                        (adjOperation adj))
                  adjs s) as Hrun.
    destruct (forEach _ adjs s) as [[] s1|e s1]; simpl in *;
      apply Hrun; try done;
      (eapply Forall_impl; [exact Hadjs|]); intros adj Hadj s0;
      by apply adjustStockForItem_keeps_bounds.
  - unfold cancelRentalApplication, getRentalApplications.
    destruct (find _ _) as [appToCancel|] eqn:Hfind; [|done].
    apply findApplication_Some_inv in Hfind as [Hin _].
    rewrite Forall_forall in Hledger. destruct (Hledger _ Hin) as [_ Hq].
    destruct (status appToCancel); try done.
    pose proof (forEach_keeps_bounds
                  (fun itemEntry =>
                     adjustStockForItem (itemId itemEntry) (quantity itemEntry)
                                        increase)
                  (items appToCancel) s) as Hrun.
    destruct (forEach _ (items appToCancel) s) as [[] s1|e s1]; simpl in *;
      apply Hrun; try done;
      (eapply Forall_impl; [exact Hq|]); intros e' He' s0;
      by apply adjustStockForItem_keeps_bounds.
Qed.

End ServiceBounds.

(** ** C3: the stock bounds and the catalog update of the service *)

(** C3 fails at the catalog update of the service.  [updateItem] refuses a
    current stock above the initial stock and nothing else: an item with
    current stock -1 is written as it is.  The same update is refused with
    status 400 by PUT /api/items/:id of the worker.  Everywhere else the
    claim holds: the rental operations of the service keep
    [0 <= currentStock <= initialStock] (on requests and stored entries
    with one entry per item and no negative quantity), and in the worker,
    under the CHECK constraints of [schema.sql], so do every core operation
    and every catalog update. *)
Theorem catalog_update_below_zero :
  DataService.updateItem tentBelowZero freshStorage
  = DataService.Returned tentBelowZero
      (DataService.mkStorage [tentBelowZero] [])
  /\ Forall stockInBounds (DataService.kaistWelfareItems freshStorage)
  /\ ~ Forall stockInBounds
       (DataService.kaistWelfareItems
          (DataService.storageAfter
             (DataService.updateItem tentBelowZero freshStorage)))
  /\ Worker.putItem "A" tentBelowZero freshDatabase
     = (WorkerBase.Failed 400 WorkerBase.StockAndPriceCannotBeNegative,
        freshDatabase)
  /\ (forall fixedDeposit s s',
         wellFormedLedger (DataService.kaistWelfareRentals s) ->
         Forall stockInBounds (DataService.kaistWelfareItems s) ->
         storageStep fixedDeposit s s' ->
         Forall stockInBounds (DataService.kaistWelfareItems s'))
  /\ (forall env db db',
         Forall stockInBounds (D1.Items db) ->
         workerStep env db db' ->
         Forall stockInBounds (D1.Items db'))
  /\ (forall itemId' updatedItemData db,
         Forall stockInBounds (D1.Items db) ->
         Forall stockInBounds
                (D1.Items (snd (Worker.putItem itemId' updatedItemData db)))).
Proof.
  split; [vm_compute; reflexivity|].
  split; [|split; [|split; [|split; [|split]]]].
  - apply Forall_singleton. unfold stockInBounds, tentInStock. simpl. lia.
  - intros H. unfold freshStorage, tentBelowZero, tentInStock in H.
    simpl in H. rewrite Forall_singleton in H.
    unfold stockInBounds in H. simpl in H. lia.
  - vm_compute. reflexivity.
  - intros fixedDeposit s s' Hledger Hb Hstep.
    by eapply storage_step_keeps_bounds.
  - intros env db db' Hb Hstep. by eapply worker_step_keeps_bounds.
  - intros itemId' updatedItemData db. apply putItem_keeps_bounds.
Qed.

(** ** The theorems at work on a small inventory *)

Lemma freshStorage_consistent : consistentStorage freshStorage.
Proof.
  split; [apply NoDup_singleton|].
  split; [split; constructor|].
  split; [constructor|].
  apply Forall_singleton. reflexivity.
Qed.

Lemma heldDatabase_consistent : consistentDatabase heldDatabase.
Proof.
  split; [apply NoDup_singleton|].
  split.
  { split; [apply NoDup_singleton|].
    apply Forall_singleton. split; [apply NoDup_singleton|].
    apply Forall_singleton. simpl. lia. }
  split; apply Forall_singleton; reflexivity.
Qed.

Lemma freshDatabase_schema : schemaHolds freshDatabase.
Proof.
  split; [apply NoDup_singleton|].
  split; [|constructor].
  apply Forall_singleton. unfold stockInBounds, tentInStock. simpl. lia.
Qed.

Lemma oneEntry_wellFormed i q : 0 <= q -> wellFormedEntries [mkEntry i q].
Proof.
  intros Hq. split; [apply NoDup_singleton | by apply Forall_singleton].
Qed.

Lemma create_boundary_witness :
  (exists app s',
      DataService.addRentalApplication 10000 tenTents "r1" "2024-01-01"
                                       freshStorage
      = DataService.Returned app s'
      /\ findItem "A" (DataService.kaistWelfareItems s')
         = Some (withCurrentStock tentInStock 0))
  /\ (exists itemName requested available,
         DataService.addRentalApplication 10000 elevenTents "r1" "2024-01-01"
                                          freshStorage
         = DataService.Threw
             (DataService.InsufficientStock itemName requested available)
             freshStorage).
Proof.
  destruct create_boundary as (Hok & Hshort & _). split.
  - destruct (Hok 10000 tenTents "r1" "2024-01-01" freshStorage)
      as (app & s' & Hadd & _ & _ & _ & _ & Hzero).
    + apply NoDup_singleton.
    + apply NoDup_singleton.
    + apply Forall_singleton. exists tentInStock. split; [reflexivity|].
      simpl. lia.
    + exists app, s'. split; [exact Hadd|].
      apply (Hzero (mkEntry "A" 10) tentInStock); [|reflexivity|reflexivity].
      apply list_elem_of_singleton. reflexivity.
  - apply (Hshort 10000 elevenTents "r1" "2024-01-01" freshStorage
                  (mkEntry "A" 11) tentInStock); [|reflexivity|simpl; lia].
    apply list_elem_of_singleton. reflexivity.
Defined.

Lemma cancel_reversible_witness :
  DataService.cancelRentalApplication "r1"
    (DataService.storageAfter
       (DataService.addRentalApplication 10000 twoTents "r1" "2024-01-01"
                                         freshStorage))
  = DataService.Returned true freshStorage
  /\ Worker.postRentalCancel "r1"
       (snd (Worker.postRentalsApply (WorkerBase.mkEnv None) twoTents "r1"
                                     "2024-01-01" freshDatabase))
     = (WorkerBase.Json 200 tt, freshDatabase).
Proof.
  destruct cancel_reversible as (_ & _ & Hservice & _ & Hworker). split.
  - edestruct (Hservice 10000 twoTents "r1" "2024-01-01" freshStorage)
      as [_ Hcancel].
    + exact freshStorage_consistent.
    + apply oneEntry_wellFormed. lia.
    + simpl. apply not_elem_of_nil.
    + vm_compute. reflexivity.
    + exact Hcancel.
  - edestruct (Hworker (WorkerBase.mkEnv None) twoTents "r1" "2024-01-01"
                       freshDatabase) as [_ Hcancel].
    + exact freshDatabase_schema.
    + apply oneEntry_wellFormed. lia.
    + vm_compute. reflexivity.
    + exact Hcancel.
Defined.

Lemma admin_edit_items_witness :
  D1.selectItemsOf "r1"
    (snd (WorkerV1.putAdminRental (WorkerBase.mkEnv None) "r1" askForThree
                                  heldDatabase))
  = [mkEntry "A" 3]
  /\ map currentStock
         (D1.Items
            (snd (WorkerV1.putAdminRental (WorkerBase.mkEnv None) "r1"
                                          askForThree heldDatabase)))
     = [7].
Proof.
  destruct admin_edit_items as (Hv1 & _).
  edestruct (Hv1 (WorkerBase.mkEnv None) "r1" askForThree heldDatabase)
    as (_ & Hstored & stored & Hsel & Hstock).
  - reflexivity.
  - vm_compute. reflexivity.
  - split; [exact Hstored|].
    vm_compute in Hsel. injection Hsel as <-.
    pose proof (Hstock heldDatabase_consistent
                  (oneEntry_wellFormed "A" 3 ltac:(lia))) as Hitems.
    apply (f_equal (map currentStock)) in Hitems.
    etransitivity; [exact Hitems|]. vm_compute. reflexivity.
Defined.

Lemma user_edit_frame_witness :
  exists stored app,
    D1.selectApplication "r1" heldDatabase = Some stored
    /\ D1.selectApplication "r1"
         (snd (Worker.putRental (WorkerBase.mkEnv None) "r1" threeTentsInMarch
                                heldDatabase))
       = Some (row app)
    /\ sameOutsideEdit stored app
    /\ rentalDate app = "2024-03-01".
Proof.
  destruct user_edit_frame as (Hv3 & _).
  edestruct (Hv3 (WorkerBase.mkEnv None) "r1" threeTentsInMarch heldDatabase)
    as (stored & Hsel & _ & Hrow & _ & _ & _ & _ & Hsame).
  - vm_compute. reflexivity.
  - eexists stored, _. split; [exact Hsel|]. split; [exact Hrow|].
    split; [exact Hsame|]. reflexivity.
Defined.

Lemma catalog_update_below_zero_witness :
  Forall stockInBounds
         (DataService.kaistWelfareItems
            (DataService.storageAfter
               (DataService.addRentalApplication 10000 tenTents "r1"
                                                 "2024-01-01" freshStorage)))
  /\ Forall stockInBounds
            (D1.Items (snd (Worker.putRental (WorkerBase.mkEnv None) "r1"
                                             threeTentsInMarch heldDatabase)))
  /\ Forall stockInBounds
            (D1.Items (snd (Worker.putItem "A" tentBelowZero freshDatabase))).
Proof.
  destruct catalog_update_below_zero
    as (_ & _ & _ & _ & Hservice & Hworker & Hput).
  split; [|split].
  - apply (Hservice 10000 freshStorage).
    + split; constructor.
    + apply Forall_singleton. unfold stockInBounds, tentInStock. simpl. lia.
    + apply StorageCreate.
      * apply oneEntry_wellFormed. lia.
      * simpl. apply not_elem_of_nil.
  - apply (Hworker (WorkerBase.mkEnv None) heldDatabase).
    + apply Forall_singleton. unfold stockInBounds, tent. simpl. lia.
    + apply WorkerUserEdit. apply oneEntry_wellFormed. lia.
  - apply Hput. apply Forall_singleton.
    unfold stockInBounds, tentInStock. simpl. lia.
Defined.

(** * The rest of the services and of the worker: properties *)

(** ** Item services of the localStorage service *)

Section ItemServiceFacts.

Import DataService ItemService.

Lemma findItem_filter_other i j allItems :
  i <> j ->
  findItem i (List.filter (fun item => negb (String.eqb (id item) j)) allItems)
  = findItem i allItems.
Proof.
  intros Hne. unfold findItem.
  induction allItems as [|x rest IH]; simpl; [done|].
  destruct (String.eqb (id x) j) eqn:Ej; simpl.
  - apply String.eqb_eq in Ej.
    destruct (String.eqb (id x) i) eqn:Ei; [|done].
    apply String.eqb_eq in Ei. congruence.
  - destruct (String.eqb (id x) i); [done | apply IH].
Qed.

Lemma findItem_filter_same j allItems :
  findItem j (List.filter (fun item => negb (String.eqb (id item) j)) allItems)
  = None.
Proof.
  unfold findItem. induction allItems as [|x rest IH]; simpl; [done|].
  destruct (String.eqb (id x) j) eqn:Ej; simpl; [done|]. by rewrite Ej.
Qed.

Lemma NoDup_ids_filter (keep : Item -> bool) allItems :
  NoDup (map id allItems) -> NoDup (map id (List.filter keep allItems)).
Proof.
  induction allItems as [|x rest IH]; simpl; intros Hnd; [done|].
  apply NoDup_cons in Hnd as [Hx Hnd].
  destruct (keep x); simpl; [|by apply IH].
  apply NoDup_cons. split; [|by apply IH].
  intros Hin. apply Hx.
  apply list_elem_of_fmap in Hin as (y & Hy & Hiny).
  apply list_elem_of_fmap. exists y. split; [done|].
  apply list_elem_of_In in Hiny. apply filter_In in Hiny as [Hiny _].
  by apply list_elem_of_In.
Qed.

Lemma hasActiveRentals_true id' rentals :
  hasActiveRentals id' rentals = true <->
  exists (app : RentalApplication) e,
    app ∈ rentals /\ isReserved (status app) = true
    /\ e ∈ items app /\ itemId e = id'.
Proof.
  unfold hasActiveRentals. rewrite existsb_exists. split.
  - intros (app & Hin & Hb). apply andb_true_iff in Hb as [Hres Hex].
    apply existsb_exists in Hex as (e & He & Heq).
    exists app, e. rewrite !list_elem_of_In.
    repeat split; try done. by apply String.eqb_eq.
  - intros (app & e & Hin & Hres & He & Heq).
    exists app. rewrite <- list_elem_of_In. split; [done|].
    apply andb_true_iff. split; [done|].
    apply existsb_exists. exists e. rewrite <- list_elem_of_In.
    split; [done | by apply String.eqb_eq].
Qed.

(** X1.  [deleteItem] throws, before writing anything, exactly when a
    PENDING or RENTED application has an entry for the item; otherwise it
    removes the items of that identifier and nothing else: the
    applications stay, a later [getItem] of the identifier finds nothing,
    and every other identifier is looked up as before. *)
Theorem service_deleteItem_effect :
  forall id' s,
    (deleteItem id' s = inl CannotDeleteItemWithActiveRentals <->
     exists (app : RentalApplication) e,
       app ∈ kaistWelfareRentals s /\ isReserved (status app) = true
       /\ e ∈ items app /\ itemId e = id')
    /\ (forall s',
           deleteItem id' s = inr s' ->
           kaistWelfareRentals s' = kaistWelfareRentals s
           /\ getItem id' s' = None
           /\ (forall j, j <> id' -> getItem j s' = getItem j s)
           /\ (forall item, item ∈ kaistWelfareItems s' <->
                            item ∈ kaistWelfareItems s /\ id item <> id')).
Proof.
  intros id' s. unfold deleteItem, getRentalApplications. split.
  - rewrite <- hasActiveRentals_true.
    destruct (hasActiveRentals id' (kaistWelfareRentals s)); split; done.
  - intros s'. destruct (hasActiveRentals _ _); [done|].
    intros [= <-]. unfold getItem, getItems. simpl.
    split; [done|]. split; [apply findItem_filter_same|].
    split; [intros j Hj; by apply findItem_filter_other|].
    intros item. rewrite !list_elem_of_In, filter_In.
    rewrite negb_true_iff, String.eqb_neq. done.
Qed.

(** X2.  [deleteItem] keeps the storage consistent: the items it removes
    are named by no reserved application, so every reserved application
    still resolves and every remaining item still obeys the conservation
    law. *)
Theorem service_deleteItem_consistent id' s s' :
  consistentStorage s ->
  deleteItem id' s = inr s' ->
  consistentStorage s'.
Proof.
  intros (Hnd & Hledger & Hres & Hcons). unfold deleteItem.
  destruct (hasActiveRentals id' (getRentalApplications s)) eqn:Hact; [done|].
  intros [= <-]. unfold getRentalApplications, getItems in *.
  split; [|split; [|split]]; simpl.
  - by apply NoDup_ids_filter.
  - done.
  - rewrite Forall_forall in Hres |- *. intros app Happ Hreserved.
    specialize (Hres app Happ Hreserved). unfold itemsResolve in *.
    rewrite Forall_forall in Hres |- *. intros e He.
    rewrite findItem_filter_other; [by apply Hres|].
    intros Heq. apply not_true_iff_false in Hact. apply Hact.
    apply hasActiveRentals_true. by exists app, e.
  - rewrite Forall_forall in Hcons |- *. intros item Hitem.
    apply Hcons. apply list_elem_of_In in Hitem.
    apply filter_In in Hitem as [Hitem _]. by apply list_elem_of_In.
Qed.

Lemma reservedTotal_unnamed i ledger :
  Forall (fun a : RentalApplication =>
            isReserved (status a) = true -> i ∉ itemIds (items a)) ledger ->
  reservedTotal i ledger = 0.
Proof.
  induction 1 as [|a rest Ha _ IH]; simpl; [done|].
  rewrite IH. unfold heldBy.
  destruct (isReserved (status a)); [|done].
  rewrite entryTotal_absent; [done | by apply Ha].
Qed.

(** X3.  [addItem] appends one item whose current stock is its initial
    stock and leaves the applications alone.  Under a new identifier the
    item is the one [getItem] finds afterwards, every other lookup is as
    before, a consistent storage stays consistent, and the stock bounds
    are kept exactly when the initial stock given is not negative
    ([addItem] itself does not look at it). *)
Theorem service_addItem_effect itemData newId s :
  let newItem := fst (addItem itemData newId s) in
  let s' := snd (addItem itemData newId s) in
  id newItem = newId
  /\ currentStock newItem = initialStock itemData
  /\ initialStock newItem = initialStock itemData
  /\ kaistWelfareItems s' = kaistWelfareItems s ++ [newItem]
  /\ kaistWelfareRentals s' = kaistWelfareRentals s
  /\ (forall j, j <> newId -> getItem j s' = getItem j s)
  /\ (newId ∉ map id (kaistWelfareItems s) ->
      getItem newId s' = Some newItem
      /\ (consistentStorage s -> consistentStorage s')
      /\ (Forall stockInBounds (kaistWelfareItems s) ->
          (Forall stockInBounds (kaistWelfareItems s')
           <-> 0 <= initialStock itemData))).
Proof.
  unfold addItem, getItem, getItems. simpl.
  repeat (split; [done|]). split.
  { intros j Hj. rewrite findItem_app.
    destruct (findItem j (kaistWelfareItems s)); [done|].
    unfold findItem. simpl.
    destruct (String.eqb newId j) eqn:E; [|done].
    apply String.eqb_eq in E. congruence. }
  intros Hfresh. split; [|split].
  - rewrite findItem_app.
    destruct (findItem newId (kaistWelfareItems s)) eqn:E.
    + apply findItem_Some_inv in E as [Hin Hid]. exfalso. apply Hfresh.
      apply list_elem_of_fmap. by exists i.
    + unfold findItem. simpl. by rewrite String.eqb_refl.
  - intros (Hnd & Hledger & Hres & Hcons).
    split; [|split; [|split]]; simpl.
    + rewrite map_app. simpl. apply NoDup_app. split; [done|].
      split; [|apply NoDup_singleton].
      intros x Hx Hx'. apply list_elem_of_singleton in Hx'. by subst x.
    + done.
    + rewrite Forall_forall in Hres |- *. intros app Happ Hreserved.
      specialize (Hres app Happ Hreserved). unfold itemsResolve in *.
      eapply Forall_impl; [exact Hres|]. intros e [item He]. simpl.
      rewrite findItem_app, He. eauto.
    + apply Forall_app. split; [done|]. apply Forall_singleton.
      unfold conservedItem. simpl.
      rewrite reservedTotal_unnamed; [lia|].
      rewrite Forall_forall in Hres |- *. intros app Happ Hreserved Hin.
      specialize (Hres app Happ Hreserved). unfold itemsResolve in Hres.
      rewrite Forall_forall in Hres.
      apply list_elem_of_fmap in Hin as (e & -> & He).
      destruct (Hres e He) as [item Hitem].
      apply findItem_Some_inv in Hitem as [Hin Hid]. apply Hfresh.
      apply list_elem_of_fmap. by exists item.
  - intros Hb. rewrite Forall_app, Forall_singleton.
    unfold stockInBounds. simpl. split; [intros [_ ?]; lia|].
    intros Hq. split; [done | lia].
Qed.

Lemma findItem_replace (u : Item) allItems :
  findItem (id u)
    (map (fun item => if String.eqb (id item) (id u) then u else item)
         allItems)
  = match findItem (id u) allItems with
    | Some _ => Some u
    | None => None
    end.
Proof.
  unfold findItem. induction allItems as [|x rest IH]; simpl; [done|].
  destruct (String.eqb (id x) (id u)) eqn:E; simpl.
  - by rewrite String.eqb_refl.
  - by rewrite E.
Qed.

Lemma findItem_replace_other (u : Item) j allItems :
  j <> id u ->
  findItem j
    (map (fun item => if String.eqb (id item) (id u) then u else item)
         allItems)
  = findItem j allItems.
Proof.
  intros Hne. unfold findItem.
  induction allItems as [|x rest IH]; simpl; [done|].
  destruct (String.eqb (id x) (id u)) eqn:E; simpl.
  - apply String.eqb_eq in E.
    destruct (String.eqb (id u) j) eqn:Eu.
    { apply String.eqb_eq in Eu. congruence. }
    destruct (String.eqb (id x) j) eqn:Ex; [|done].
    apply String.eqb_eq in Ex. congruence.
  - destruct (String.eqb (id x) j); [done | apply IH].
Qed.

Lemma replace_absent (u : Item) allItems :
  findItem (id u) allItems = None ->
  map (fun item => if String.eqb (id item) (id u) then u else item) allItems
  = allItems.
Proof.
  unfold findItem. induction allItems as [|x rest IH]; simpl; [done|].
  destruct (String.eqb (id x) (id u)); [done|].
  intros H. by rewrite IH.
Qed.

Lemma ids_replace (u : Item) allItems :
  map id (map (fun item => if String.eqb (id item) (id u) then u else item)
              allItems)
  = map id allItems.
Proof.
  induction allItems as [|x rest IH]; simpl; [done|]. rewrite IH.
  destruct (String.eqb (id x) (id u)) eqn:E; [|done].
  apply String.eqb_eq in E. by rewrite E.
Qed.

(** X4.  [updateItem] throws, writing nothing, exactly when the current
    stock given exceeds the initial stock given.  Otherwise it returns the
    item it was given and leaves the applications and every other
    identifier alone; when the identifier is stored, [getItem] then finds
    the item given, and when it is not, the storage is unchanged although
    the call returns the item.  On a consistent storage the result is
    consistent exactly when the values written for a stored identifier
    satisfy the conservation law. *)
Theorem service_updateItem_effect updatedItem s :
  (initialStock updatedItem < currentStock updatedItem ->
   updateItem updatedItem s
   = Threw (CurrentStockExceedsInitial (currentStock updatedItem)
              (initialStock updatedItem) (name updatedItem)) s)
  /\ (currentStock updatedItem <= initialStock updatedItem ->
      exists s',
        updateItem updatedItem s = Returned updatedItem s'
        /\ kaistWelfareRentals s' = kaistWelfareRentals s
        /\ (forall j, j <> id updatedItem -> getItem j s' = getItem j s)
        /\ (is_Some (getItem (id updatedItem) s) ->
            getItem (id updatedItem) s' = Some updatedItem)
        /\ (getItem (id updatedItem) s = None -> s' = s)
        /\ (consistentStorage s ->
            (consistentStorage s' <->
             (is_Some (getItem (id updatedItem) s) ->
              conservedItem (kaistWelfareRentals s) updatedItem)))).
Proof.
  unfold updateItem, getItem, getItems. split.
  - intros H. destruct (Z.gtb_spec (currentStock updatedItem)
                                   (initialStock updatedItem)); [done | lia].
  - intros H. destruct (Z.gtb_spec (currentStock updatedItem)
                                   (initialStock updatedItem)); [lia|].
    eexists. split; [reflexivity|]. simpl.
    split; [done|].
    split; [intros j Hj; by apply findItem_replace_other|].
    split.
    { intros [item Hitem]. by rewrite findItem_replace, Hitem. }
    split.
    { intros Hnone. unfold setItems. rewrite replace_absent by done.
      by destruct s. }
    intros (Hnd & Hledger & Hres & Hcons). split.
    + intros (_ & _ & _ & Hcons') [item Hitem]. simpl in Hcons'.
      rewrite Forall_forall in Hcons'. apply Hcons'.
      apply findItem_Some_inv in Hitem as [Hin Hid].
      apply list_elem_of_fmap. exists item.
      by rewrite <- Hid, String.eqb_refl.
    + intros Hnew. split; [|split; [|split]]; simpl.
      * by rewrite ids_replace.
      * done.
      * rewrite Forall_forall in Hres |- *. intros app Happ Hreserved.
        specialize (Hres app Happ Hreserved). unfold itemsResolve in *.
        eapply Forall_impl; [exact Hres|]. intros e [item He]. simpl.
        destruct (decide (itemId e = id updatedItem)) as [Heq|Hne].
        -- rewrite Heq, findItem_replace. rewrite Heq in He.
           rewrite He. eauto.
        -- rewrite findItem_replace_other by done. eauto.
      * apply Forall_map. rewrite Forall_forall in Hcons |- *.
        intros item Hitem. simpl.
        destruct (String.eqb (id item) (id updatedItem)) eqn:E;
          [|by apply Hcons].
        apply Hnew. apply String.eqb_eq in E. rewrite <- E.
        exists item. by apply findItem_unique.
Qed.

End ItemServiceFacts.

(** ** Queries over the rental applications *)

Section RentalServiceFacts.

Import DataService RentalService.

Lemma countStatus_app st xs ys :
  countStatus st (xs ++ ys) = (countStatus st xs + countStatus st ys)%nat.
Proof. unfold countStatus. by rewrite List.filter_app, length_app. Qed.

Lemma countStatus_remove st a ledger (app : RentalApplication) :
  NoDup (applicationIds ledger) ->
  findApplication a ledger = Some app ->
  (countStatus st (removeApplication a ledger)
   + indicator (bool_decide (status app = st)))%nat
  = countStatus st ledger.
Proof.
  unfold findApplication.
  induction ledger as [|x rest IH]; simpl; intros Hnd Hfind; [done|].
  apply NoDup_cons in Hnd as [Hx Hnd].
  destruct (String.eqb (appId x) a) eqn:E.
  - injection Hfind as ->. apply String.eqb_eq in E. subst a. simpl.
    rewrite removeApplication_absent by done.
    unfold countStatus at 2. simpl.
    destruct (bool_decide (status app = st)); simpl; unfold countStatus; lia.
  - simpl. specialize (IH Hnd Hfind).
    unfold countStatus in *. simpl.
    destruct (bool_decide (status x = st)); simpl; lia.
Qed.

Lemma countStatus_replace st (newApp original : RentalApplication) ledger :
  NoDup (applicationIds ledger) ->
  findApplication (appId newApp) ledger = Some original ->
  (countStatus st (replaceApplication newApp ledger)
   + indicator (bool_decide (status original = st)))%nat
  = (countStatus st ledger
     + indicator (bool_decide (status newApp = st)))%nat.
Proof.
  unfold findApplication, countStatus, replaceApplication.
  induction ledger as [|x rest IH]; simpl; intros Hnd Hfind; [done|].
  apply NoDup_cons in Hnd as [Hx Hnd].
  destruct (String.eqb (appId x) (appId newApp)) eqn:E.
  - injection Hfind as ->. apply String.eqb_eq in E.
    pose proof (replaceApplication_absent newApp rest) as Hrest.
    unfold replaceApplication in Hrest. rewrite Hrest by (by rewrite <- E).
    simpl.
    destruct (bool_decide (status newApp = st)),
      (bool_decide (status original = st)); simpl; lia.
  - specialize (IH Hnd Hfind). simpl.
    destruct (bool_decide (status x = st)); simpl; lia.
Qed.

Lemma cancel_returned_true applicationId s s' :
  cancelRentalApplication applicationId s = Returned true s' ->
  exists app : RentalApplication,
    findApplication applicationId (kaistWelfareRentals s) = Some app
    /\ status app = PENDING
    /\ kaistWelfareRentals s'
       = removeApplication applicationId (kaistWelfareRentals s).
Proof.
  unfold cancelRentalApplication, getRentalApplications, findApplication.
  destruct (find _ _) as [app|] eqn:Hfind; [|done].
  destruct (status app) eqn:Hst; try done.
  destruct (forEach _ _ _) as [[] s1|e s1] eqn:Hrun; [|done].
  intros [= <-]. exists app. repeat split; done.
Qed.

Lemma forEach_keeps_rentals {A} (f : A -> Storage -> Outcome unit) xs s :
  (forall x s0, kaistWelfareRentals (storageAfter (f x s0))
                = kaistWelfareRentals s0) ->
  kaistWelfareRentals (storageAfter (forEach f xs s)) = kaistWelfareRentals s.
Proof.
  intros Hf. revert s. induction xs as [|x rest IH]; intros s; [done|].
  simpl. specialize (Hf x s).
  destruct (f x s) as [[] s1|e s1]; simpl in *; [|done].
  by rewrite IH.
Qed.

Lemma adjustStockForItem_keeps_rentals i q op s :
  kaistWelfareRentals (storageAfter (adjustStockForItem i q op s))
  = kaistWelfareRentals s.
Proof.
  unfold adjustStockForItem.
  destruct (findItem _ _); [|done].
  destruct op; simpl; [|done].
  by destruct (_ <? _).
Qed.

Lemma add_returned fixedDeposit appData newId today s app s' :
  addRentalApplication fixedDeposit appData newId today s = Returned app s' ->
  status app = PENDING
  /\ kaistWelfareRentals s' = kaistWelfareRentals s ++ [app].
Proof.
  unfold addRentalApplication.
  destruct (validateStock _ _); [done|].
  destruct (forEach _ _ _) as [[] s1|e s1] eqn:Hrun; [|done].
  intros [= <- <-]. split; [done|]. simpl. unfold getRentalApplications.
  f_equal.
  pose proof (forEach_keeps_rentals
                (fun itemEntry =>
                   adjustStockForItem (itemId itemEntry) (quantity itemEntry)
                                      decrease)
                (items appData) s) as Hkeep.
  cbn [items] in Hrun. rewrite Hrun in Hkeep. apply Hkeep.
  intros x s0. apply adjustStockForItem_keeps_rentals.
Qed.

Lemma update_returned fixedDeposit updatedApp s app s' :
  updateRentalApplication fixedDeposit updatedApp s = Returned app s' ->
  exists originalApp : RentalApplication,
    findApplication (appId updatedApp) (kaistWelfareRentals s)
    = Some originalApp
    /\ status app = status updatedApp
    /\ appId app = appId updatedApp
    /\ kaistWelfareRentals s'
       = replaceApplication app (kaistWelfareRentals s).
Proof.
  unfold updateRentalApplication, getRentalApplications, findApplication.
  destruct (find _ _) as [originalApp|] eqn:Hfind; [|done].
  destruct (collectAdjustments _ _ _ _ _ _) as [e|adjs]; [done|].
  destruct (validateAdjustments _ _ _); [done|].
  destruct (forEach _ _ _) as [[] s1|e s1] eqn:Hrun; [|done].
  intros [= <- <-]. exists originalApp. repeat split; done.
Qed.

(** X5.  The dashboard counts of the service follow the operations on
    the ledger.  A successful [addRentalApplication] raises
    [newRequests] by one and leaves [currentlyRented] and [dueToday] as
    they were; with one application per identifier, a successful cancel
    lowers [newRequests] by one, and a successful
    [updateRentalApplication] moves one unit from the count of the stored
    status to the count of the new status.  Always
    [dueToday <= currentlyRented] and
    [newRequests + currentlyRented] is at most the number of
    applications. *)
Theorem service_dashboard_counts today s :
  let stats := getAdminDashboardStats today s in
  (dueToday stats <= currentlyRented stats)%nat
  /\ (newRequests stats + currentlyRented stats
      <= length (kaistWelfareRentals s))%nat
  /\ newRequests stats = countStatus PENDING (kaistWelfareRentals s)
  /\ currentlyRented stats = countStatus RENTED (kaistWelfareRentals s)
  /\ (forall fixedDeposit appData newId day app s',
         addRentalApplication fixedDeposit appData newId day s
         = Returned app s' ->
         let stats' := getAdminDashboardStats today s' in
         newRequests stats' = S (newRequests stats)
         /\ currentlyRented stats' = currentlyRented stats
         /\ dueToday stats' = dueToday stats)
  /\ (forall applicationId s',
         NoDup (applicationIds (kaistWelfareRentals s)) ->
         cancelRentalApplication applicationId s = Returned true s' ->
         let stats' := getAdminDashboardStats today s' in
         S (newRequests stats') = newRequests stats
         /\ currentlyRented stats' = currentlyRented stats)
  /\ (forall fixedDeposit updatedApp app s' st,
         NoDup (applicationIds (kaistWelfareRentals s)) ->
         updateRentalApplication fixedDeposit updatedApp s
         = Returned app s' ->
         exists originalApp : RentalApplication,
           findApplication (appId updatedApp) (kaistWelfareRentals s)
           = Some originalApp
           /\ (countStatus st (kaistWelfareRentals s')
               + indicator (bool_decide (status originalApp = st)))%nat
              = (countStatus st (kaistWelfareRentals s)
                 + indicator (bool_decide (status updatedApp = st)))%nat).
Proof.
  unfold getAdminDashboardStats, getRentalApplications. cbn zeta.
  cbn [dueToday currentlyRented newRequests].
  fold (countStatus PENDING (kaistWelfareRentals s)).
  fold (countStatus RENTED (kaistWelfareRentals s)).
  split.
  { unfold countStatus.
    induction (kaistWelfareRentals s) as [|x rest IH]; simpl; [done|].
    destruct (bool_decide (status x = RENTED)); simpl; [|done].
    destruct (String.eqb (returnDate x) today); simpl; lia. }
  split.
  { unfold countStatus.
    induction (kaistWelfareRentals s) as [|x rest IH]; simpl; [done|].
    destruct (status x); simpl; lia. }
  split; [done|]. split; [done|]. split; [|split].
  - intros fixedDeposit appData newId day app s' Hadd.
    apply add_returned in Hadd as [Hst Hledger]. rewrite Hledger.
    unfold countStatus. rewrite !List.filter_app, !length_app. simpl.
    rewrite Hst. simpl. lia.
  - intros applicationId s' Hnd Hcancel.
    apply cancel_returned_true in Hcancel as (app & Hfind & Hst & Hledger).
    rewrite Hledger.
    fold (countStatus PENDING
            (removeApplication applicationId (kaistWelfareRentals s))).
    fold (countStatus RENTED
            (removeApplication applicationId (kaistWelfareRentals s))).
    pose proof (countStatus_remove PENDING _ _ _ Hnd Hfind) as Hp.
    pose proof (countStatus_remove RENTED _ _ _ Hnd Hfind) as Hr.
    rewrite Hst in Hp, Hr. simpl in Hp, Hr. lia.
  - intros fixedDeposit updatedApp app s' st Hnd Hupdate.
    apply update_returned in Hupdate
      as (originalApp & Hfind & Hst & Hid & Hledger).
    exists originalApp. split; [done|]. rewrite Hledger, <- Hst.
    apply countStatus_replace; [done | by rewrite Hid].
Qed.

Section Dates.

Variable getTime : string -> Z.

Lemma insertNewestFirst_perm app sorted :
  insertNewestFirst getTime app sorted ≡ₚ app :: sorted.
Proof.
  induction sorted as [|b rest IH]; simpl; [done|].
  destruct (_ >? _); [|done]. rewrite IH. apply Permutation_swap.
Qed.

Lemma sortNewestFirst_perm apps : sortNewestFirst getTime apps ≡ₚ apps.
Proof.
  induction apps as [|a rest IH]; simpl; [done|].
  rewrite insertNewestFirst_perm. by rewrite IH.
Qed.

Lemma insertNewestFirst_sorted app sorted :
  StronglySorted (newerOrSame getTime) sorted ->
  StronglySorted (newerOrSame getTime) (insertNewestFirst getTime app sorted).
Proof.
  induction 1 as [|b rest Hrest IH Hb]; simpl.
  - repeat constructor.
  - destruct (Z.gtb_spec (getTime (applicationDate b))
                         (getTime (applicationDate app))) as [Hgt|Hle].
    + constructor; [done|].
      rewrite Forall_forall. intros x Hx.
      rewrite insertNewestFirst_perm in Hx.
      apply elem_of_cons in Hx as [->|Hx].
      * unfold newerOrSame. lia.
      * rewrite Forall_forall in Hb. by apply Hb.
    + constructor; [by constructor|].
      constructor; [unfold newerOrSame; lia|].
      eapply Forall_impl; [exact Hb|].
      unfold newerOrSame. intros x Hx. lia.
Qed.

Lemma sortNewestFirst_sorted apps :
  StronglySorted (newerOrSame getTime) (sortNewestFirst getTime apps).
Proof.
  induction apps as [|a rest IH]; simpl; [constructor|].
  by apply insertNewestFirst_sorted.
Qed.

(** X6.  [findRentalApplications] returns exactly the stored applications
    whose applicant name, student number and phone number all equal the
    ones asked for, each as often as it is stored, ordered from the newest
    application date to the oldest; when none matches, the result is
    empty. *)
Theorem service_findRentalApplications name' studentId' phoneNumber' s :
  let found :=
    findRentalApplications getTime name' studentId' phoneNumber' s in
  (forall app : RentalApplication,
      app ∈ found <->
      app ∈ kaistWelfareRentals s
      /\ applicantName app = name' /\ studentId app = studentId'
      /\ phoneNumber app = phoneNumber')
  /\ found ≡ₚ List.filter
                (fun app : RentalApplication =>
                   String.eqb (applicantName app) name'
                   && String.eqb (studentId app) studentId'
                   && String.eqb (phoneNumber app) phoneNumber')
                (kaistWelfareRentals s)
  /\ StronglySorted (newerOrSame getTime) found
  /\ ((forall app : RentalApplication,
          app ∈ kaistWelfareRentals s ->
          ~ (applicantName app = name' /\ studentId app = studentId'
             /\ phoneNumber app = phoneNumber')) ->
      found = []).
Proof.
  unfold findRentalApplications, getRentalApplications. cbn zeta.
  assert (Hmem : forall app : RentalApplication,
             app ∈ List.filter
                     (fun app : RentalApplication =>
                        String.eqb (applicantName app) name'
                        && String.eqb (studentId app) studentId'
                        && String.eqb (phoneNumber app) phoneNumber')
                     (kaistWelfareRentals s) <->
             app ∈ kaistWelfareRentals s
             /\ applicantName app = name' /\ studentId app = studentId'
             /\ phoneNumber app = phoneNumber').
  { intros app. rewrite !list_elem_of_In, filter_In.
    rewrite !andb_true_iff, !String.eqb_eq. tauto. }
  split; [|split; [|split]].
  - intros app. rewrite sortNewestFirst_perm. apply Hmem.
  - apply sortNewestFirst_perm.
  - apply sortNewestFirst_sorted.
  - intros Hnone.
    set (matching := List.filter _ _) in *. clearbody matching.
    destruct matching as [|x rest]; [done|].
    exfalso. destruct (Hmem x) as [Hx _].
    destruct Hx as (Hin & Hrest); [apply elem_of_cons; auto|].
    by apply (Hnone x).
Qed.

End Dates.

End RentalServiceFacts.

(** ** The catalog handlers of the worker *)

Section WorkerCatalogFacts.

Import D1 D1Catalog WorkerBase WorkerCatalog.

Lemma hasItem_true i db :
  hasItem i db = true <-> i ∈ map id (Items db).
Proof.
  unfold hasItem. rewrite existsb_exists. split.
  - intros (x & Hin & Heq). apply String.eqb_eq in Heq.
    apply list_elem_of_fmap. exists x. by rewrite list_elem_of_In.
  - intros Hin. apply list_elem_of_fmap in Hin as (x & -> & Hin).
    exists x. rewrite <- list_elem_of_In. by rewrite String.eqb_refl.
Qed.

Lemma hasItem_false i db :
  hasItem i db = false <-> i ∉ map id (Items db).
Proof. rewrite <- hasItem_true. by destruct (hasItem i db). Qed.

Lemma hasItem_find i db :
  hasItem i db = true <-> is_Some (findItem i (Items db)).
Proof.
  rewrite hasItem_true. split; [apply findItem_is_Some|].
  intros [item Hitem]. apply findItem_Some_inv in Hitem as [Hin <-].
  apply list_elem_of_fmap. by exists item.
Qed.

Lemma isReferenced_false i db :
  isReferenced i db = false ->
  forall a, i ∉ itemIds (selectItemsOf a db).
Proof.
  unfold isReferenced, selectItemsOf, itemIds. intros Hno a Hin.
  apply not_true_iff_false in Hno. apply Hno. apply existsb_exists.
  rewrite map_map in Hin. simpl in Hin.
  apply list_elem_of_fmap in Hin as (r & -> & Hin).
  apply list_elem_of_In, filter_In in Hin as [Hin _].
  exists r. by rewrite String.eqb_refl.
Qed.

Lemma reservedTotal_unreferenced i db :
  isReferenced i db = false -> reservedTotal i (ledgerOf db) = 0.
Proof.
  intros Hno. apply reservedTotal_unnamed.
  apply Forall_forall. intros app Happ _.
  unfold ledgerOf in Happ.
  apply list_elem_of_fmap in Happ as (r & -> & _). simpl.
  by apply isReferenced_false.
Qed.

(** X7.  POST /api/items answers 400, writing nothing, exactly when the
    name or the unit is missing or empty or the initial stock or the price
    is missing or negative.  Otherwise it inserts one item under the
    generated identifier, with the current stock equal to the initial
    stock, and answers 201 with it; when the identifier is already taken
    the insert fails on the primary key and the answer is 500 with the
    database unchanged.  An insert keeps the constraints of the schema,
    and keeps the conservation law when no stored entry names the new
    identifier. *)
Theorem worker_postItem_effect typedRawItemData newItemId db :
  let invalid :=
    falsyString (draftName typedRawItemData)
    || missingOrNegative (draftInitialStock typedRawItemData)
    || missingOrNegative (draftPrice typedRawItemData)
    || falsyString (draftUnit typedRawItemData) in
  (invalid = true <->
   exists e, postItem typedRawItemData newItemId db = (Refused 400 e, db))
  /\ (invalid = false -> hasItem newItemId db = true ->
      postItem typedRawItemData newItemId db
      = (Refused 500 InternalErrorAddingItem, db))
  /\ (invalid = false -> hasItem newItemId db = false ->
      exists newItem db',
        postItem typedRawItemData newItemId db = (Sent 201 newItem, db'))
  /\ (forall newItem db',
         postItem typedRawItemData newItemId db = (Sent 201 newItem, db') ->
         id newItem = newItemId
         /\ draftName typedRawItemData = Some (name newItem)
         /\ name newItem <> ""
         /\ draftInitialStock typedRawItemData = Some (initialStock newItem)
         /\ draftPrice typedRawItemData = Some (price newItem)
         /\ draftUnit typedRawItemData = Some (unitName newItem)
         /\ currentStock newItem = initialStock newItem
         /\ 0 <= initialStock newItem /\ 0 <= price newItem
         /\ imageUrl newItem <> ""
         /\ hasItem newItemId db = false
         /\ db' = mkDb (Items db ++ [newItem]) (RentalApplications db)
                       (RentalApplicationItems db)
         /\ findItem newItemId (Items db') = Some newItem
         /\ (schemaHolds db -> schemaHolds db')
         /\ (consistentDatabase db -> isReferenced newItemId db = false ->
             consistentDatabase db')).
Proof.
  cbn zeta. unfold postItem.
  destruct (falsyString (draftName typedRawItemData)
            || missingOrNegative (draftInitialStock typedRawItemData)
            || missingOrNegative (draftPrice typedRawItemData)
            || falsyString (draftUnit typedRawItemData)) eqn:Hinvalid.
  { split; [split; eauto|]. repeat split; done. }
  apply orb_false_iff in Hinvalid as [Hinvalid Hunit].
  apply orb_false_iff in Hinvalid as [Hinvalid Hprice].
  apply orb_false_iff in Hinvalid as [Hname Hstock].
  destruct (draftName typedRawItemData) as [name0|]; [|done].
  destruct (draftInitialStock typedRawItemData) as [stock0|]; [|done].
  destruct (draftPrice typedRawItemData) as [price0|]; [|done].
  destruct (draftUnit typedRawItemData) as [unit0|]; [|done].
  simpl in *. apply Z.ltb_ge in Hstock, Hprice.
  assert (Hcheck : checkItem
                     (mkItem newItemId name0 stock0 stock0 price0
                        (orDefault (draftDescription typedRawItemData) "")
                        (orDefault (draftImageUrl typedRawItemData)
                                   (defaultImageUrl newItemId)) unit0)
                   = true).
  { unfold checkItem. simpl. apply andb_true_iff.
    split; apply Z.leb_le; lia. }
  unfold insertItem. cbn [id]. rewrite Hcheck.
  split.
  { split; [done|]. intros [e He]. by destruct (hasItem newItemId db). }
  split; [intros _ ->; done|].
  split; [intros _ ->; eauto|].
  intros newItem db'. destruct (hasItem newItemId db) eqn:Hfresh; [done|].
  intros [= <- <-]. simpl.
  split; [done|]. split; [done|].
  split. { intros ->. by rewrite String.eqb_refl in Hname. }
  repeat (split; [done|]).
  split.
  { unfold orDefault, orElse, defaultImageUrl.
    destruct (draftImageUrl typedRawItemData) as [url|]; [|done].
    destruct (String.eqb url "") eqn:E; [done|].
    by apply String.eqb_neq in E. }
  split; [done|]. split; [done|].
  apply hasItem_false in Hfresh.
  split.
  { rewrite findItem_app.
    destruct (findItem newItemId (Items db)) as [x|] eqn:E.
    - apply findItem_Some_inv in E as [Hin Hid]. exfalso. apply Hfresh.
      apply list_elem_of_fmap. by exists x.
    - unfold findItem. simpl. by rewrite String.eqb_refl. }
  split.
  - intros (Hnd & Hb & Hfk). split; [|split]; simpl.
    + rewrite map_app. simpl. apply NoDup_app. split; [done|].
      split; [|apply NoDup_singleton].
      intros x Hx Hx'. apply list_elem_of_singleton in Hx'. by subst x.
    + apply Forall_app. split; [done|]. apply Forall_singleton.
      unfold stockInBounds. simpl. lia.
    + done.
  - intros (Hnd & Hledger & Hfk & Hcons) Hunref.
    split; [|split; [|split]];
      rewrite ?(ledgerOf_same db (mkDb _ _ _)) by done; simpl.
    + rewrite map_app. simpl. apply NoDup_app. split; [done|].
      split; [|apply NoDup_singleton].
      intros x Hx Hx'. apply list_elem_of_singleton in Hx'. by subst x.
    + done.
    + done.
    + apply Forall_app. split; [done|]. apply Forall_singleton.
      unfold conservedItem. simpl.
      rewrite (reservedTotal_unreferenced newItemId db Hunref). lia.
Qed.

Lemma activeRentalCheck_true itemId' db :
  activeRentalCheck itemId' db = true <->
  exists (app : RentalApplication) e,
    app ∈ ledgerOf db /\ isReserved (status app) = true
    /\ e ∈ items app /\ itemId e = itemId'.
Proof.
  unfold activeRentalCheck. rewrite existsb_exists. split.
  - intros (rai & Hrai & Hb). apply andb_true_iff in Hb as [Hid Hex].
    apply String.eqb_eq in Hid.
    apply existsb_exists in Hex as (ra & Hra & Hb).
    apply andb_true_iff in Hb as [Hkey Hres]. apply String.eqb_eq in Hkey.
    exists (mkApp ra (selectItemsOf (appId ra) db)),
      (mkEntry (rowItemId rai) (rowQuantity rai)).
    split; [|split; [done|split; [|done]]].
    + unfold ledgerOf. apply list_elem_of_fmap. exists ra.
      by rewrite list_elem_of_In.
    + simpl. unfold selectItemsOf. apply list_elem_of_fmap. exists rai.
      split; [done|]. apply list_elem_of_In, filter_In.
      split; [done | by apply String.eqb_eq].
  - intros (app & e & Happ & Hres & He & Hid).
    unfold ledgerOf in Happ.
    apply list_elem_of_fmap in Happ as (ra & -> & Hra). simpl in *.
    unfold selectItemsOf in He.
    apply list_elem_of_fmap in He as (rai & -> & Hrai).
    apply list_elem_of_In, filter_In in Hrai as [Hrai Hkey].
    simpl in Hid. exists rai. split; [done|].
    apply andb_true_iff. split; [by apply String.eqb_eq|].
    apply existsb_exists. exists ra. rewrite <- list_elem_of_In.
    split; [done|]. by rewrite Hkey.
Qed.

Lemma activeRentalCheck_referenced itemId' db :
  activeRentalCheck itemId' db = true -> isReferenced itemId' db = true.
Proof.
  unfold activeRentalCheck, isReferenced. rewrite !existsb_exists.
  intros (rai & Hrai & Hb). apply andb_true_iff in Hb as [Hid _]. eauto.
Qed.

(** X8.  DELETE /api/items/:id answers 400 exactly when a PENDING or
    RENTED application holds an entry for the item, 404 when no item has
    the identifier, and 500 when only RETURNED applications still name the
    item: the foreign key of their entries refuses the delete.  In all
    three cases the database is unchanged, so an item that a stored entry
    names is never deleted.  On 204 the item is gone, nothing else has
    changed, and the constraints of the schema and the conservation law
    still hold. *)
Theorem worker_deleteItem_effect itemId' db :
  (activeRentalCheck itemId' db = true <->
   exists (app : RentalApplication) e,
     app ∈ ledgerOf db /\ isReserved (status app) = true
     /\ e ∈ items app /\ itemId e = itemId')
  /\ (activeRentalCheck itemId' db = true <->
      deleteItem itemId' db
      = (Refused 400 CannotDeleteItemWithActiveRentals, db))
  /\ (activeRentalCheck itemId' db = false -> hasItem itemId' db = false ->
      deleteItem itemId' db = (Refused 404 ItemNotFound, db))
  /\ (activeRentalCheck itemId' db = false -> hasItem itemId' db = true ->
      isReferenced itemId' db = true ->
      deleteItem itemId' db = (Refused 500 InternalErrorDeletingItem, db))
  /\ (isReferenced itemId' db = true -> snd (deleteItem itemId' db) = db)
  /\ (forall db',
         deleteItem itemId' db = (Sent 204 tt, db') ->
         hasItem itemId' db = true
         /\ isReferenced itemId' db = false
         /\ db' = mkDb (List.filter
                          (fun r => negb (String.eqb (id r) itemId'))
                          (Items db))
                       (RentalApplications db) (RentalApplicationItems db)
         /\ findItem itemId' (Items db') = None
         /\ (forall j, j <> itemId' ->
                       findItem j (Items db') = findItem j (Items db))
         /\ (schemaHolds db -> schemaHolds db')
         /\ (consistentDatabase db -> consistentDatabase db')).
Proof.
  split; [apply activeRentalCheck_true|].
  unfold deleteItem, deleteItemRow.
  destruct (activeRentalCheck itemId' db) eqn:Hactive.
  { apply activeRentalCheck_referenced in Hactive.
    repeat split; done. }
  destruct (hasItem itemId' db) eqn:Hhas; simpl.
  2:{ repeat split; try done. }
  destruct (isReferenced itemId' db) eqn:Href; simpl.
  { repeat split; done. }
  split; [split; done|]. split; [done|]. split; [done|]. split; [done|].
  intros db' [= <-]. simpl.
  split; [done|]. split; [done|]. split; [done|].
  split; [apply findItem_filter_same|].
  split; [intros j Hj; by apply findItem_filter_other|].
  split.
  - intros (Hnd & Hb & Hfk). split; [|split]; simpl.
    + by apply NoDup_ids_filter.
    + rewrite Forall_forall in Hb |- *. intros x Hx. apply Hb.
      apply list_elem_of_In, filter_In in Hx as [Hx _].
      by apply list_elem_of_In.
    + done.
  - intros (Hnd & Hledger & Hfk & Hcons).
    split; [|split; [|split]];
      rewrite ?(ledgerOf_same db (mkDb _ _ _)) by done; simpl.
    + by apply NoDup_ids_filter.
    + done.
    + done.
    + rewrite Forall_forall in Hcons |- *. intros x Hx. apply Hcons.
      apply list_elem_of_In, filter_In in Hx as [Hx _].
      by apply list_elem_of_In.
Qed.

Lemma updateItems_all matches change rows :
  Forall (fun r => matches r = true -> checkItem (change r) = true) rows ->
  updateItems matches change rows
  = Some (map (fun r => if matches r then change r else r) rows).
Proof.
  induction 1 as [|r rest Hr _ IH]; simpl; [done|].
  destruct (matches r); [rewrite Hr by done|]; by rewrite IH.
Qed.

Lemma findItem_rewritten (change : Item -> Item) i rows :
  (forall r, id (change r) = id r) ->
  findItem i (map (fun r => if String.eqb (id r) i then change r else r) rows)
  = change <$> findItem i rows.
Proof.
  intros Hid. unfold findItem.
  induction rows as [|r rest IH]; simpl; [done|].
  destruct (String.eqb (id r) i) eqn:E; simpl.
  - by rewrite Hid, E.
  - by rewrite E.
Qed.

Lemma findItem_rewritten_other (change : Item -> Item) i j rows :
  (forall r, id (change r) = id r) -> j <> i ->
  findItem j (map (fun r => if String.eqb (id r) i then change r else r) rows)
  = findItem j rows.
Proof.
  intros Hid Hne. unfold findItem.
  induction rows as [|r rest IH]; simpl; [done|].
  destruct (String.eqb (id r) i) eqn:E; simpl.
  - rewrite Hid. apply String.eqb_eq in E.
    destruct (String.eqb (id r) j) eqn:Ej; [|done].
    apply String.eqb_eq in Ej. congruence.
  - destruct (String.eqb (id r) j); [done | apply IH].
Qed.

(** X9.  PUT /api/items/:id answers 400, writing nothing, exactly when
    the current stock given exceeds the initial stock given or one of
    current stock, initial stock and price is negative; it answers 404,
    writing nothing, when the body is valid and no item has the
    identifier of the path; otherwise it answers 200 with the body as it
    came, and the row of that identifier carries the values of the body
    under the identifier of the path, whatever identifier the body
    carried.  Every other row and the two application tables stay as they
    were, and a valid body is never answered with 500. *)
Theorem worker_putItem_effect itemId' updatedItemData db :
  let valid :=
    currentStock updatedItemData <= initialStock updatedItemData
    /\ 0 <= currentStock updatedItemData
    /\ 0 <= price updatedItemData in
  (~ valid <->
   exists e, Worker.putItem itemId' updatedItemData db = (Failed 400 e, db))
  /\ (valid -> hasItem itemId' db = false ->
      Worker.putItem itemId' updatedItemData db
      = (Failed 404 ItemNotFoundOrNoChanges, db))
  /\ (valid -> hasItem itemId' db = true ->
      exists db',
        Worker.putItem itemId' updatedItemData db
        = (Json 200 updatedItemData, db')
        /\ findItem itemId' (Items db')
           = Some (storedAs itemId' updatedItemData)
        /\ (forall j, j <> itemId' ->
                      findItem j (Items db') = findItem j (Items db))
        /\ map id (Items db') = map id (Items db)
        /\ RentalApplications db' = RentalApplications db
        /\ RentalApplicationItems db' = RentalApplicationItems db).
Proof.
  cbn zeta. unfold Worker.putItem.
  destruct (Z.gtb_spec (currentStock updatedItemData)
                       (initialStock updatedItemData)) as [Hgt|Hle].
  { split; [split; [eauto | intros _ H; lia]|]. split; intros H; lia. }
  destruct (Z.ltb_spec (currentStock updatedItemData) 0) as [Hneg|Hcur];
    simpl.
  { split; [split; [eauto | intros _ H; lia]|]. split; intros H; lia. }
  destruct (Z.ltb_spec (initialStock updatedItemData) 0) as [Hneg|Hini];
    simpl; [lia|].
  destruct (Z.ltb_spec (price updatedItemData) 0) as [Hneg|Hprice]; simpl.
  { split; [split; [eauto | intros _ H; lia]|]. split; intros H; lia. }
  set (change := fun r : Item =>
                   mkItem (id r) (name updatedItemData)
                          (initialStock updatedItemData)
                          (currentStock updatedItemData)
                          (price updatedItemData)
                          (description updatedItemData)
                          (imageUrl updatedItemData)
                          (unitName updatedItemData)).
  rewrite (updateItems_all _ change).
  2:{ apply Forall_forall. intros r _ _. unfold checkItem, change. simpl.
      apply andb_true_iff. split; apply Z.leb_le; lia. }
  destruct (hasItem itemId' db) eqn:Hhas.
  - split.
    { split; [intros H; exfalso; apply H; lia|]. by intros [e He]. }
    split; [done|]. intros _ _. eexists. split; [reflexivity|]. simpl.
    split.
    { rewrite findItem_rewritten by done.
      apply hasItem_find in Hhas as [x Hx]. rewrite Hx. simpl.
      apply findItem_Some_inv in Hx as [_ Hid].
      unfold change, storedAs. by rewrite Hid. }
    split; [intros j Hj; by apply findItem_rewritten_other|].
    split; [|done].
    rewrite map_map. apply map_ext. intros r.
    by destruct (String.eqb (id r) itemId').
  - split.
    { split; [intros H; exfalso; apply H; lia|]. by intros [e He]. }
    split; [done|]. done.
Qed.

End WorkerCatalogFacts.

(** ** Removing an application in the worker *)

Section WorkerRemoval.

Import D1 WorkerBase.

Lemma selectApplication_filtered a items' apps rows :
  selectApplication a
    (mkDb items' (List.filter (fun r => negb (String.eqb (appId r) a)) apps)
          rows)
  = None.
Proof.
  unfold selectApplication. simpl.
  induction apps as [|x rest IH]; simpl; [done|].
  destruct (String.eqb (appId x) a) eqn:E; simpl; [done|]. by rewrite E.
Qed.

Lemma selectItemsOf_filtered a items' apps rows :
  selectItemsOf a
    (mkDb items' apps
          (List.filter (fun r => negb (String.eqb (rentalApplicationId r) a))
                       rows))
  = [].
Proof.
  unfold selectItemsOf. simpl.
  induction rows as [|x rest IH]; simpl; [done|].
  destruct (String.eqb (rentalApplicationId x) a) eqn:E; simpl; [done|].
  by rewrite E.
Qed.

Lemma stored_in_ledger a db stored :
  selectApplication a db = Some stored ->
  mkApp stored (selectItemsOf a db) ∈ ledgerOf db.
Proof.
  intros Hsel. apply findApplication_ledgerOf in Hsel as [Hfind _].
  by apply findApplication_Some_inv in Hfind as [Hin _].
Qed.

(** The stock an application gives back when it is removed fits. *)
Lemma removal_restores a db stored :
  consistentDatabase db ->
  Forall stockInBounds (Items db) ->
  selectApplication a db = Some stored ->
  isReserved (status stored) = true ->
  run (Worker.restoreOperations (selectItemsOf a db)) db
  = Some (mkDb (applyStockChange (fun i => entryTotal i (selectItemsOf a db))
                                 (Items db))
               (RentalApplications db) (RentalApplicationItems db)).
Proof.
  intros (Hnd & Hledger & Hfk & Hcons) Hb Hsel Hres.
  pose proof (stored_in_ledger _ _ _ Hsel) as Hin.
  assert (Hwf : wellFormedEntries (selectItemsOf a db)).
  { destruct Hledger as [_ Hwf]. rewrite Forall_forall in Hwf.
    apply (Hwf _ Hin). }
  apply run_restore_ok; [apply Hwf|].
  intros e r He Hr Hid.
  destruct (held_fits _ _ _ r Hledger Hcons Hin Hr) as [_ Hfit].
  unfold heldBy in Hfit. cbn [status row items] in Hfit.
  rewrite Hres, Hid, entryTotal_member in Hfit by (done || apply Hwf).
  rewrite Forall_forall in Hb. specialize (Hb r Hr).
  destruct Hwf as [_ Hq]. rewrite Forall_forall in Hq. specialize (Hq e He).
  unfold stockInBounds in *. simpl. lia.
Qed.

(** X10.  DELETE /api/admin/rentals/:id answers 404, writing nothing,
    when no application has the identifier.  When it answers 204 the
    application and its entries are gone and every item has got back what
    the application held of it: the quantities of its entries when it was
    PENDING or RENTED, nothing when it was RETURNED.  On a database that
    obeys the conservation law and the stock bounds, the delete of a
    stored application always succeeds. *)
Theorem worker_deleteAdminRental_effect rentalId db :
  (selectApplication rentalId db = None ->
   Worker.deleteAdminRental rentalId db
   = (Failed 404 ApplicationNotFound, db))
  /\ (forall db',
         Worker.deleteAdminRental rentalId db = (Json 204 tt, db') ->
         exists stored,
           selectApplication rentalId db = Some stored
           /\ Items db'
              = applyStockChange
                  (fun i => heldBy i (mkApp stored (selectItemsOf rentalId db)))
                  (Items db)
           /\ (status stored = RETURNED -> Items db' = Items db)
           /\ ledgerOf db' = removeApplication rentalId (ledgerOf db)
           /\ selectApplication rentalId db' = None
           /\ selectItemsOf rentalId db' = [])
  /\ (consistentDatabase db -> Forall stockInBounds (Items db) ->
      is_Some (selectApplication rentalId db) ->
      exists db',
        Worker.deleteAdminRental rentalId db = (Json 204 tt, db')).
Proof.
  unfold Worker.deleteAdminRental. split; [by intros ->|]. split.
  - intros db'.
    destruct (selectApplication rentalId db) as [stored|] eqn:Hsel; [|done].
    destruct (batch _ db) as [db1|] eqn:Hrun; [|done].
    intros [= <-]. exists stored. split; [done|].
    unfold batch in Hrun.
    assert (Hops : (if isReserved (status stored)
                    then Worker.restoreOperations (selectItemsOf rentalId db)
                    else [])
                   = Worker.restoreOperations
                       (if isReserved (status stored)
                        then selectItemsOf rentalId db else [])).
    { by destruct (isReserved (status stored)). }
    rewrite Hops in Hrun.
    apply worker_remove_run in Hrun as (Hitems & Hledger & Happs & Hrows).
    assert (Hheld : Items db1
                    = applyStockChange
                        (fun i => heldBy i
                                    (mkApp stored (selectItemsOf rentalId db)))
                        (Items db)).
    { rewrite Hitems. apply applyStockChange_ext. intros item _.
      unfold heldBy. simpl. by destruct (isReserved (status stored)). }
    split; [done|]. split.
    { intros Hst. rewrite Hheld. unfold heldBy. simpl. rewrite Hst. simpl.
      apply applyStockChange_zero. }
    split; [done|].
    destruct db1 as [items1 apps1 rows1]. simpl in *. subst.
    split; [apply selectApplication_filtered | apply selectItemsOf_filtered].
  - intros Hcons Hb [stored Hsel]. rewrite Hsel. unfold batch.
    rewrite run_app.
    destruct (isReserved (status stored)) eqn:Hres.
    + rewrite (removal_restores _ _ _ Hcons Hb Hsel Hres). simpl. eauto.
    + simpl. eauto.
Qed.

(** X11.  POST /api/rentals/:id/cancel answers 404 when no application
    has the identifier and 403 when the application is RENTED or RETURNED,
    writing nothing in either case.  On a database that obeys the
    conservation law and the stock bounds, the cancel of a PENDING
    application always succeeds: it is never answered with 500, every
    item gets back the quantities of the entries, and the application and
    its entries are gone. *)
Theorem worker_postRentalCancel_responses rentalId db :
  (selectApplication rentalId db = None <->
   Worker.postRentalCancel rentalId db = (Failed 404 ApplicationNotFound, db))
  /\ ((exists stored,
          selectApplication rentalId db = Some stored
          /\ status stored <> PENDING) <->
      Worker.postRentalCancel rentalId db
      = (Failed 403 OnlyPendingCanBeCancelled, db))
  /\ (consistentDatabase db -> Forall stockInBounds (Items db) ->
      forall stored,
        selectApplication rentalId db = Some stored ->
        status stored = PENDING ->
        Worker.postRentalCancel rentalId db
        = (Json 200 tt,
           mkDb (applyStockChange
                   (fun i => entryTotal i (selectItemsOf rentalId db))
                   (Items db))
                (List.filter (fun r => negb (String.eqb (appId r) rentalId))
                             (RentalApplications db))
                (List.filter
                   (fun r => negb (String.eqb (rentalApplicationId r)
                                              rentalId))
                   (RentalApplicationItems db)))).
Proof.
  unfold Worker.postRentalCancel. split; [|split].
  - destruct (selectApplication rentalId db) as [stored|]; [|done].
    split; [done|]. destruct (status stored); [|done|done].
    by destruct (batch _ db).
  - destruct (selectApplication rentalId db) as [stored|].
    + destruct (status stored) eqn:Hst.
      * split; [by intros (x & [= <-] & Hne)|]. by destruct (batch _ db).
      * split; [done|]. intros _. exists stored. by rewrite Hst.
      * split; [done|]. intros _. exists stored. by rewrite Hst.
    + split; [by intros (x & Hx & _) | done].
  - intros Hcons Hb stored Hsel Hst. rewrite Hsel, Hst.
    unfold batch. rewrite run_app.
    rewrite (removal_restores _ _ stored Hcons Hb Hsel) by (by rewrite Hst).
    simpl. by rewrite filter_twice.
Qed.

End WorkerRemoval.

(** ** When [manageRentalUpdate] and its batch go through *)

Section WorkerEditOutcome.

Import D1 WorkerBase.

Lemma itemIds_changeEntries change allItems involved j :
  j ∈ itemIds (changeEntries change allItems involved) -> j ∈ involved.
Proof.
  unfold itemIds, changeEntries.
  induction involved as [|k rest IH]; simpl; [done|].
  rewrite map_app, elem_of_app. intros [Hin|Hin].
  - destruct (findItem k allItems); [|by apply elem_of_nil in Hin].
    destruct (change k =? 0); [by apply elem_of_nil in Hin|].
    apply list_elem_of_singleton in Hin. subst j. simpl.
    apply elem_of_cons; auto.
  - apply elem_of_cons. right. by apply IH.
Qed.

Lemma NoDup_changeEntries change allItems involved :
  NoDup involved -> NoDup (itemIds (changeEntries change allItems involved)).
Proof.
  induction 1 as [|k rest Hk Hnd IH]; simpl; [apply NoDup_nil_2|].
  unfold itemIds in *. rewrite map_app. apply NoDup_app.
  split; [|split; [|done]].
  - destruct (findItem k allItems); [|apply NoDup_nil_2].
    destruct (change k =? 0); [apply NoDup_nil_2 | apply NoDup_singleton].
  - intros x Hx Hx'. apply itemIds_changeEntries in Hx'.
    destruct (findItem k allItems); [|by apply elem_of_nil in Hx].
    destruct (change k =? 0); [by apply elem_of_nil in Hx|].
    apply list_elem_of_singleton in Hx. by subst x.
Qed.

Lemma elem_of_changeEntries change allItems involved e :
  e ∈ changeEntries change allItems involved ->
  itemId e ∈ involved /\ quantity e = change (itemId e)
  /\ is_Some (findItem (itemId e) allItems).
Proof.
  unfold changeEntries. intros He.
  apply list_elem_of_In, in_flat_map in He as (j & Hj & He).
  apply list_elem_of_In in Hj.
  destruct (findItem j allItems) as [item|] eqn:E; [|done].
  destruct (change j =? 0); [done|].
  destruct He as [<-|[]]. simpl. rewrite E. eauto.
Qed.

Lemma stockUpdates_ok oldRes newRes oldItems newItems allItems involved
      (stockMap : gmap string Z) :
  let change := fun j => stockChangeFor oldRes newRes (qtyOf j oldItems)
                                        (qtyOf j newItems) in
  NoDup involved ->
  (forall j item,
      j ∈ involved -> findItem j allItems = Some item ->
      stockMap !! j = Some (currentStock item)
      /\ 0 <= currentStock item + change j
      /\ (change j > 0 -> currentStock item + change j <= initialStock item))
  ->
  Worker.stockUpdates oldRes newRes oldItems newItems allItems involved
                      stockMap
  = inr (Worker.restoreOperations (changeEntries change allItems involved)).
Proof.
  intros change Hnd. revert stockMap.
  induction Hnd as [|j rest Hj Hnd IH]; intros stockMap Hall; [done|].
  simpl. destruct (findItem j allItems) as [item|] eqn:Hitem.
  2:{ apply IH. intros k x Hk. apply Hall. apply elem_of_cons; auto. }
  destruct (Hall j item) as (Hlook & Hlow & Hhigh);
    [apply elem_of_cons; auto | done |].
  fold (change j).
  rewrite worker_stockUpdateFor_ok by (rewrite Hlook; simpl; lia).
  rewrite Hlook. cbn [default Datatypes.id].
  assert (Hcap : cappedChange (currentStock item) (initialStock item)
                              (change j) = change j).
  { unfold cappedChange.
    destruct (Z.gtb_spec (change j) 0); simpl; [|done].
    destruct (Z.gtb_spec (currentStock item + change j)
                         (initialStock item)); [|done].
    specialize (Hhigh ltac:(lia)). lia. }
  rewrite Hcap. unfold writtenFor.
  destruct (change j =? 0) eqn:Hzero.
  - rewrite IH; [done|].
    intros k x Hk. apply Hall. apply elem_of_cons; auto.
  - rewrite IH.
    + unfold Worker.restoreOperations. by rewrite map_app.
    + intros k x Hk Hx.
      destruct (Hall k x) as (Hlook' & Hrest); [apply elem_of_cons; auto|done|].
      split; [|done].
      rewrite lookup_insert_ne; [done|]. intros ->. done.
Qed.

Lemma stockUpdates_short oldRes newRes oldItems newItems allItems involved
      (stockMap : gmap string Z) :
  let change := fun j => stockChangeFor oldRes newRes (qtyOf j oldItems)
                                        (qtyOf j newItems) in
  NoDup involved ->
  (forall j item,
      j ∈ involved -> findItem j allItems = Some item ->
      stockMap !! j = Some (currentStock item) /\ 0 <= currentStock item) ->
  (exists j item,
      j ∈ involved /\ findItem j allItems = Some item
      /\ currentStock item + change j < 0) ->
  exists itemName requiredChange effectiveAvailable,
    Worker.stockUpdates oldRes newRes oldItems newItems allItems involved
                        stockMap
    = inl (InsufficientStockForUpdate itemName requiredChange
             effectiveAvailable).
Proof.
  intros change Hnd. revert stockMap.
  induction Hnd as [|j rest Hj Hnd IH]; intros stockMap Hall Hshort.
  { destruct Hshort as (k & x & Hk & _). by apply elem_of_nil in Hk. }
  simpl. destruct (findItem j allItems) as [item|] eqn:Hitem.
  2:{ apply IH.
      - intros k x Hk. apply Hall. apply elem_of_cons; auto.
      - destruct Hshort as (k & x & Hk & Hx & Hlt).
        apply elem_of_cons in Hk as [->|Hk]; [congruence|]. eauto. }
  destruct (Hall j item) as (Hlook & Hnonneg); [apply elem_of_cons; auto|done|].
  fold (change j).
  destruct (Z.lt_ge_cases (currentStock item + change j) 0) as [Hlt|Hge].
  - unfold Worker.stockUpdateFor. rewrite Hlook. cbn [default Datatypes.id].
    destruct (Z.eqb_spec (change j) 0) as [Hz|Hnz]; [lia|]. simpl.
    destruct (Z.ltb_spec (currentStock item + change j) 0); [|lia]. eauto.
  - rewrite worker_stockUpdateFor_ok by (rewrite Hlook; simpl; lia).
    unfold writtenFor.
    assert (Hrest : exists k x,
               k ∈ rest /\ findItem k allItems = Some x
               /\ currentStock x + change k < 0).
    { destruct Hshort as (k & x & Hk & Hx & Hlt).
      apply elem_of_cons in Hk as [->|Hk]; [|eauto].
      rewrite Hitem in Hx. injection Hx as ->. lia. }
    destruct (_ =? 0).
    + destruct (IH stockMap) as (n & r & a & ->); [|done|eauto].
      intros k x Hk. apply Hall. apply elem_of_cons; auto.
    + match goal with
      | |- context [Worker.stockUpdates _ _ _ _ _ rest ?m] =>
          destruct (IH m) as (n & r & a & ->); [|done|eauto]
      end.
      intros k x Hk Hx.
      destruct (Hall k x) as (Hlook' & Hrest0); [apply elem_of_cons; auto|done|].
      split; [|done].
      rewrite lookup_insert_ne; [done|]. intros ->. done.
Qed.

Lemma hasApplicationItem_filtered a i items' apps rows :
  hasApplicationItem a i
    (mkDb items' apps
          (List.filter (fun r => negb (String.eqb (rentalApplicationId r) a))
                       rows))
  = false.
Proof.
  unfold hasApplicationItem. simpl.
  induction rows as [|x rest IH]; simpl; [done|].
  destruct (String.eqb (rentalApplicationId x) a) eqn:E; simpl; [done|].
  by rewrite E, IH.
Qed.

Lemma editable_lookups db a row0 newItems newRes :
  editable db a row0 newItems ->
  let change := fun j => stockChangeFor (isReserved (status row0)) newRes
                           (qtyOf j (selectItemsOf a db)) (qtyOf j newItems) in
  forall j item,
    findItem j (Items db) = Some item ->
    stockMapOf (Items db) !! j = Some (currentStock item)
    /\ 0 <= currentStock item
    /\ currentStock item <= initialStock item
    /\ (change j > 0 -> currentStock item + change j <= initialStock item).
Proof.
  intros ((Hnd & Hledger & Hfk & Hcons) & Hb & Hsel & Hwf & Hresolve) change
         j item Hitem.
  split; [by apply stockMapOf_lookup|].
  pose proof Hitem as Hfound.
  apply findItem_Some_inv in Hitem as [Hin Hid].
  rewrite Forall_forall in Hb. specialize (Hb item Hin).
  unfold stockInBounds in Hb. split; [lia|]. split; [lia|].
  intros Hpos.
  pose proof (stored_in_ledger _ _ _ Hsel) as Hstored.
  destruct (held_fits _ _ _ item Hledger Hcons Hstored Hin) as [Hheld Hfit].
  assert (Hold : wellFormedEntries (selectItemsOf a db)).
  { destruct Hledger as [_ Hall]. rewrite Forall_forall in Hall.
    apply (Hall _ Hstored). }
  assert (Hle : change j <= heldBy j (mkApp row0 (selectItemsOf a db))).
  { unfold change, heldBy, stockChangeFor. cbn [status row items].
    rewrite (entryTotal_qtyOf j (selectItemsOf a db)) by apply Hold.
    pose proof (qtyOf_nonneg j _ (proj2 Hold)).
    pose proof (qtyOf_nonneg j _ (proj2 Hwf)).
    destruct (isReserved (status row0)), newRes; simpl;
      repeat match goal with
             | |- context [?x >? ?y] => destruct (Z.gtb_spec x y)
             end; lia. }
  rewrite Hid in Hfit. lia.
Qed.

(** The update goes through when no item would fall below 0. *)
Lemma worker_manage_succeeds env db a row0 core newItems :
  editable db a row0 newItems ->
  (forall item,
      item ∈ Items db ->
      0 <= currentStock item
           + stockChangeFor (isReserved (status row0))
                            (isReserved (status core))
                            (qtyOf (id item) (selectItemsOf a db))
                            (qtyOf (id item) newItems)) ->
  exists ops db',
    Worker.manageRentalUpdate env (mkApp row0 (selectItemsOf a db)) core
                              newItems db
    = inr (finalAppOf env (mkApp row0 (selectItemsOf a db)) core newItems
                      (Items db), ops)
    /\ batch ops db = Some db'.
Proof.
  intros Hedit Hfits.
  pose proof (editable_lookups db a row0 newItems (isReserved (status core))
                Hedit) as Hlook. cbn zeta in Hlook.
  destruct Hedit as ((Hnd & Hledger & Hfk & Hcons) & Hb & Hsel & Hwf
                     & Hresolve).
  unfold Worker.manageRentalUpdate. cbn [status row items].
  set (change := fun j => stockChangeFor (isReserved (status row0))
                            (isReserved (status core))
                            (qtyOf j (selectItemsOf a db))
                            (qtyOf j newItems)) in *.
  set (involved := allInvolvedItemIds (selectItemsOf a db) newItems).
  rewrite (stockUpdates_ok _ _ _ _ _ involved).
  2:{ apply newSet_NoDup. }
  2:{ intros j item _ Hitem. destruct (Hlook j item Hitem) as (H1 & _ & _ & H4).
      split; [done|]. split; [|done].
      apply findItem_Some_inv in Hitem as [Hin Hid].
      specialize (Hfits item Hin). by rewrite Hid in Hfits. }
  fold change.
  set (entries := changeEntries change (Items db) involved).
  eexists _, _. split; [reflexivity|].
  unfold batch. rewrite run_app.
  rewrite run_restore_ok.
  2:{ apply NoDup_changeEntries, newSet_NoDup. }
  2:{ intros e r He Hr Hid.
      apply elem_of_changeEntries in He as (_ & Hq & _).
      pose proof (findItem_unique _ _ Hnd Hr) as Hfound.
      destruct (Hlook _ _ Hfound) as (_ & Hlow & Hhigh & Hcap).
      specialize (Hfits r Hr). fold (change (id r)) in Hfits, Hcap.
      rewrite Hq, <- Hid. unfold stockInBounds. simpl.
      destruct (Z.lt_ge_cases 0 (change (id r))); lia. }
  unfold ledgerOperations. cbn [run exec appId row].
  assert (Hid : appId row0 = a).
  { by apply findApplication_ledgerOf in Hsel as [_ Hid]. }
  rewrite run_app.
  fold (insertsOf (appId row0) newItems).
  rewrite run_inserts_ok.
  - simpl. eauto.
  - unfold hasApplication. simpl. rewrite Hid.
    by apply selectApplication_has in Hsel.
  - apply Hwf.
  - eapply Forall_impl; [exact Hresolve|]. intros e He.
    apply hasItem_true. simpl. rewrite applyStockChange_ids.
    destruct He as [item Hitem].
    apply findItem_Some_inv in Hitem as [Hin <-].
    apply list_elem_of_fmap. by exists item.
  - apply Forall_forall. intros e _. apply hasApplicationItem_filtered.
Qed.

(** The update is refused for lack of stock when some item would fall
    below 0. *)
Lemma worker_manage_short env db a row0 core newItems item :
  editable db a row0 newItems ->
  item ∈ Items db ->
  currentStock item
  + stockChangeFor (isReserved (status row0)) (isReserved (status core))
                   (qtyOf (id item) (selectItemsOf a db))
                   (qtyOf (id item) newItems) < 0 ->
  exists itemName requiredChange effectiveAvailable,
    Worker.manageRentalUpdate env (mkApp row0 (selectItemsOf a db)) core
                              newItems db
    = inl (InsufficientStockForUpdate itemName requiredChange
             effectiveAvailable).
Proof.
  intros Hedit Hin Hlt.
  pose proof (editable_lookups db a row0 newItems (isReserved (status core))
                Hedit) as Hlook. cbn zeta in Hlook.
  destruct Hedit as ((Hnd & Hledger & Hfk & Hcons) & Hb & Hsel & Hwf
                     & Hresolve).
  unfold Worker.manageRentalUpdate. cbn [status row items].
  destruct (stockUpdates_short (isReserved (status row0))
              (isReserved (status core)) (selectItemsOf a db) newItems
              (Items db)
              (allInvolvedItemIds (selectItemsOf a db) newItems)
              (stockMapOf (Items db))) as (n & r & e & ->);
    [apply newSet_NoDup | | | eauto].
  - intros j x _ Hx. destruct (Hlook j x Hx) as (H1 & H2 & _). done.
  - exists (id item), item.
    split; [|split; [by apply findItem_unique | done]].
    apply elem_of_allInvolved.
    destruct (decide (id item ∈ itemIds (selectItemsOf a db))) as [|Hno1];
      [auto|].
    destruct (decide (id item ∈ itemIds newItems)) as [|Hno2]; [auto|].
    exfalso. rewrite !qtyOf_absent, stockChangeFor_zero in Hlt by done.
    rewrite Forall_forall in Hb. specialize (Hb item Hin).
    unfold stockInBounds in Hb. lia.
Qed.

End WorkerEditOutcome.

(** ** The boundary of an edit in the worker *)

Section WorkerEditBoundary.

Import D1 WorkerBase.

Lemma stockChangeFor_same_entries oldRes newRes q :
  0 <= q ->
  stockChangeFor oldRes newRes q q
  = (if oldRes then q else 0) - (if newRes then q else 0).
Proof.
  intros Hq. unfold stockChangeFor.
  destruct oldRes, newRes; simpl; try lia;
    destruct (Z.gtb_spec q 0); lia.
Qed.

(** X12.  On a database that obeys the conservation law and the stock
    bounds, a valid user edit of a PENDING application whose new entries
    are one per item, not negative and name stored items is decided by the
    stock alone.  When every new quantity is at most the current stock of
    its item plus what the application already holds of it, the edit is
    answered 200 and every item moves by the old quantity minus the new
    one; when some new quantity is larger, the edit is answered 409 with
    the insufficient-stock error and the database is unchanged. *)
Theorem worker_putRental_boundary env rentalId body db stored newItems :
  editable db rentalId stored newItems ->
  status stored = PENDING ->
  Worker.invalidEdit body = false ->
  patchItems body = Some newItems ->
  ((forall e item,
       e ∈ newItems -> findItem (itemId e) (Items db) = Some item ->
       quantity e
       <= currentStock item + qtyOf (itemId e) (selectItemsOf rentalId db)) ->
   exists app db',
     Worker.putRental env rentalId body db = (Json 200 app, db')
     /\ items app = newItems
     /\ Items db'
        = applyStockChange
            (fun i => qtyOf i (selectItemsOf rentalId db) - qtyOf i newItems)
            (Items db))
  /\ ((exists e item,
          e ∈ newItems /\ findItem (itemId e) (Items db) = Some item
          /\ currentStock item + qtyOf (itemId e) (selectItemsOf rentalId db)
             < quantity e) ->
      exists itemName requiredChange effectiveAvailable,
        Worker.putRental env rentalId body db
        = (Failed 409 (InsufficientStockForUpdate itemName requiredChange
                         effectiveAvailable), db)).
Proof.
  intros Hedit Hst Hvalid Hitems.
  pose proof Hedit as (Hcons & Hb & Hsel & Hwf & Hresolve).
  unfold Worker.putRental. rewrite Hvalid, Hsel, Hst, Hitems.
  cbn [default Datatypes.id]. unfold fullOriginalAppOf.
  set (core := withDates _ _ _).
  assert (Hcore : isReserved (status core) = true) by (simpl; by rewrite Hst).
  assert (Hchange : forall i,
             stockChangeFor (isReserved (status stored))
                            (isReserved (status core))
                            (qtyOf i (selectItemsOf rentalId db))
                            (qtyOf i newItems)
             = qtyOf i (selectItemsOf rentalId db) - qtyOf i newItems).
  { intros i. rewrite Hcore, Hst. done. }
  split.
  - intros Hfits.
    destruct (worker_manage_succeeds env db rentalId stored core newItems)
      as (ops & db' & Hmanage & Hrun); [done| |].
    { intros item Hin. rewrite Hchange.
      destruct (decide (id item ∈ itemIds newItems)) as [Hmem|Hno].
      - apply list_elem_of_fmap in Hmem as (e & Hid & He).
        destruct Hcons as (Hnd & _).
        specialize (Hfits e item He).
        rewrite <- Hid, (findItem_unique _ _ Hnd Hin) in Hfits.
        specialize (Hfits eq_refl).
        assert (Hnew : qtyOf (id item) newItems = quantity e).
        { rewrite Hid. apply qtyOf_member; [apply Hwf | done]. }
        lia.
      - rewrite (qtyOf_absent _ newItems) by done.
        destruct Hcons as (_ & Hledger & _).
        pose proof (stored_in_ledger _ _ _ Hsel) as Hstored.
        destruct Hledger as [_ Hall]. rewrite Forall_forall in Hall.
        pose proof (qtyOf_nonneg (id item) _ (proj2 (Hall _ Hstored))).
        rewrite Forall_forall in Hb. specialize (Hb item Hin).
        unfold stockInBounds in Hb. simpl in *. lia. }
    rewrite Hmanage, Hrun. eexists _, _. split; [reflexivity|].
    split; [done|].
    destruct (worker_manage_run env db rentalId stored core newItems _ ops db'
                Hcons Hsel Hwf Hmanage Hrun) as (Hmoved & _).
    rewrite Hmoved. apply applyStockChange_ext. intros item _.
    apply Hchange.
  - intros (e & item & He & Hitem & Hlt).
    apply findItem_Some_inv in Hitem as [Hin Hid].
    destruct (worker_manage_short env db rentalId stored core newItems item)
      as (n & r & a & ->); [done|done| |by eauto].
    rewrite Hchange, Hid, (qtyOf_member e newItems) by (done || apply Hwf).
    lia.
Qed.

(** X13.  An admin update in the direct handler is answered 404 when no
    application has the identifier and 400 when the merged status is
    RETURNED with no actual return date, writing nothing in either case.
    Otherwise, on a database that obeys the conservation law and the stock
    bounds and whose stored entries name stored items: an update that
    keeps the application reserved, keeps it RETURNED or takes it from
    reserved to RETURNED always succeeds, moving no stock in the first two
    cases and giving every entry's quantity back in the third; an update
    that takes it from RETURNED to PENDING or RENTED succeeds, taking
    every entry's quantity, exactly when every quantity is in stock, and
    is answered 409 otherwise. *)
Theorem worker_admin_status_change env rentalId body db :
  (selectApplication rentalId db = None ->
   Worker.putAdminRental env rentalId body db
   = (Failed 404 ApplicationNotFound, db))
  /\ (forall stored,
         selectApplication rentalId db = Some stored ->
         status (mergePatch stored body) = RETURNED ->
         falsyString (actualReturnDate (mergePatch stored body)) = true ->
         Worker.putAdminRental env rentalId body db
         = (Failed 400 ActualReturnDateRequired, db))
  /\ (forall stored,
         let held := selectItemsOf rentalId db in
         let core := mergePatch stored body in
         editable db rentalId stored held ->
         (status core = RETURNED ->
          falsyString (actualReturnDate core) = false) ->
         (isReserved (status stored) = isReserved (status core) ->
          exists app db',
            Worker.putAdminRental env rentalId body db = (Json 200 app, db')
            /\ status app = status core
            /\ Items db' = Items db)
         /\ (isReserved (status stored) = true -> status core = RETURNED ->
             exists app db',
               Worker.putAdminRental env rentalId body db
               = (Json 200 app, db')
               /\ Items db'
                  = applyStockChange (fun i => entryTotal i held) (Items db))
         /\ (status stored = RETURNED -> isReserved (status core) = true ->
             ((forall e item,
                  e ∈ held -> findItem (itemId e) (Items db) = Some item ->
                  quantity e <= currentStock item) ->
              exists app db',
                Worker.putAdminRental env rentalId body db
                = (Json 200 app, db')
                /\ Items db'
                   = applyStockChange (fun i => - entryTotal i held)
                                      (Items db))
             /\ ((exists e item,
                     e ∈ held /\ findItem (itemId e) (Items db) = Some item
                     /\ currentStock item < quantity e) ->
                 exists itemName requiredChange effectiveAvailable,
                   Worker.putAdminRental env rentalId body db
                   = (Failed 409
                        (InsufficientStockForUpdate itemName requiredChange
                           effectiveAvailable), db)))).
Proof.
  unfold Worker.putAdminRental. split; [by intros ->|]. split.
  { intros stored -> Hst Hdate. unfold fullOriginalAppOf. cbn [row items].
    rewrite Hdate. by rewrite bool_decide_eq_true_2. }
  intros stored. cbn zeta. intros Hedit Hdate.
  pose proof Hedit as (Hcons & Hb & Hsel & Hwf & Hresolve).
  rewrite Hsel. unfold fullOriginalAppOf. cbn [row items].
  set (held := selectItemsOf rentalId db) in *.
  set (core := mergePatch stored body) in *.
  assert (Hdated : bool_decide (status core = RETURNED)
                  && falsyString (actualReturnDate core) = false).
  { destruct (decide (status core = RETURNED)) as [Hr|Hr].
    - by rewrite (Hdate Hr), andb_false_r.
    - by rewrite bool_decide_eq_false_2. }
  rewrite Hdated.
  assert (Hq : forall i, 0 <= qtyOf i held).
  { intros i. apply qtyOf_nonneg, Hwf. }
  assert (Hchange : forall i,
             stockChangeFor (isReserved (status stored))
                            (isReserved (status core))
                            (qtyOf i held) (qtyOf i held)
             = (if isReserved (status stored) then entryTotal i held else 0)
               - (if isReserved (status core) then entryTotal i held else 0)).
  { intros i. rewrite stockChangeFor_same_entries by done.
    by rewrite (entryTotal_qtyOf i held) by apply Hwf. }
  assert (Hok : (forall item,
                    item ∈ Items db ->
                    0 <= currentStock item
                         + stockChangeFor (isReserved (status stored))
                                          (isReserved (status core))
                                          (qtyOf (id item) held)
                                          (qtyOf (id item) held)) ->
                forall change,
                  (forall i, stockChangeFor (isReserved (status stored))
                                            (isReserved (status core))
                                            (qtyOf i held) (qtyOf i held)
                             = change i) ->
                exists app db',
                  match Worker.manageRentalUpdate env (mkApp stored held)
                          core held db with
                  | inl e => (Failed (Worker.caughtStatus e) e, db)
                  | inr (finalApp, dbOperations) =>
                      match batch dbOperations db with
                      | Some db' => (Json 200 finalApp, db')
                      | None => (Failed 500 FailedToUpdate, db)
                      end
                  end = (Json 200 app, db')
                  /\ status app = status core
                  /\ Items db' = applyStockChange change (Items db)).
  { intros Hfits change Heq.
    destruct (worker_manage_succeeds env db rentalId stored core held)
      as (ops & db' & Hmanage & Hrun); [done|done|].
    fold held in Hmanage. rewrite Hmanage, Hrun.
    eexists _, _. split; [reflexivity|]. split; [done|].
    destruct (worker_manage_run env db rentalId stored core held _ ops db'
                Hcons Hsel Hwf Hmanage Hrun) as (Hmoved & _).
    rewrite Hmoved. apply applyStockChange_ext. intros item _. apply Heq. }
  assert (Hnonneg : forall item, item ∈ Items db -> 0 <= currentStock item).
  { intros item Hin. rewrite Forall_forall in Hb. specialize (Hb item Hin).
    unfold stockInBounds in Hb. lia. }
  split; [|split].
  - intros Hsame.
    destruct (Hok) with (change := fun _ : string => 0)
      as (app & db' & Heq & Hst & Hmoved).
    + intros item Hin. rewrite Hchange, Hsame.
      specialize (Hnonneg item Hin). lia.
    + intros i. rewrite Hchange, Hsame. lia.
    + exists app, db'. rewrite Hmoved, applyStockChange_zero. done.
  - intros Hres Hret.
    destruct (Hok) with (change := fun i => entryTotal i held)
      as (app & db' & Heq & Hst & Hmoved).
    + intros item Hin. rewrite Hchange, Hres, Hret. simpl.
      specialize (Hnonneg item Hin).
      pose proof (entryTotal_nonneg (id item) held (proj2 Hwf)). lia.
    + intros i. rewrite Hchange, Hres, Hret. simpl. lia.
    + exists app, db'. done.
  - intros Hret Hres. split.
    + intros Hfits.
      destruct (Hok) with (change := fun i => - entryTotal i held)
        as (app & db' & Heq & Hst & Hmoved).
      * intros item Hin. rewrite Hchange, Hres, Hret. simpl.
        destruct (decide (id item ∈ itemIds held)) as [Hmem|Hno].
        -- apply list_elem_of_fmap in Hmem as (e & Hid & He).
           destruct Hcons as (Hnd & _).
           specialize (Hfits e item He).
           rewrite <- Hid, (findItem_unique _ _ Hnd Hin) in Hfits.
           specialize (Hfits eq_refl).
           rewrite Hid, (entryTotal_member e) by (done || apply Hwf). lia.
        -- rewrite entryTotal_absent by done.
           specialize (Hnonneg item Hin). lia.
      * intros i. rewrite Hchange, Hres, Hret. simpl. lia.
      * exists app, db'. done.
    + intros (e & item & He & Hitem & Hlt).
      apply findItem_Some_inv in Hitem as [Hin Hid].
      destruct (worker_manage_short env db rentalId stored core held item)
        as (n & r & a & Hshort); [done|done| |].
      * rewrite Hchange, Hres, Hret. simpl.
        rewrite Hid, (entryTotal_member e) by (done || apply Hwf). lia.
      * fold held in Hshort. rewrite Hshort. simpl. eauto.
Qed.

End WorkerEditBoundary.

(** ** The boundary of an update in the localStorage service *)

Section ServiceUpdateOutcome.

Import DataService.

Lemma adjustmentFor_change oldRes newRes oldQty newQty j :
  let change := WorkerBase.stockChangeFor oldRes newRes oldQty newQty in
  adjustmentFor oldRes newRes oldQty newQty j
  = if change <? 0 then [mkAdj j (- change) decrease]
    else if change >? 0 then [mkAdj j change increase]
    else [].
Proof.
  unfold adjustmentFor, WorkerBase.stockChangeFor.
  destruct oldRes, newRes; simpl;
    repeat match goal with
           | |- context [?a >? ?b] => destruct (Z.gtb_spec a b); simpl
           | |- context [?a <? ?b] => destruct (Z.ltb_spec a b); simpl
           end;
    try done; try lia; repeat f_equal; lia.
Qed.

Lemma collectAdjustments_flat oldRes newRes oldItems newItems allItems
      involved :
  Forall (fun j => is_Some (findItem j allItems)) involved ->
  collectAdjustments oldRes newRes oldItems newItems allItems involved
  = inr (flat_map (fun j => adjustmentFor oldRes newRes (qtyOf j oldItems)
                              (qtyOf j newItems) j) involved).
Proof.
  induction 1 as [|j rest [item Hj] _ IH]; simpl; [done|].
  by rewrite Hj, IH.
Qed.

Lemma collectAdjustments_missing oldRes newRes oldItems newItems allItems
      involved j :
  j ∈ involved -> findItem j allItems = None ->
  exists missing,
    collectAdjustments oldRes newRes oldItems newItems allItems involved
    = inl (ItemDetailsNotFound missing)
    /\ findItem missing allItems = None.
Proof.
  induction involved as [|k rest IH]; intros Hin Hnone.
  { by apply elem_of_nil in Hin. }
  simpl. destruct (findItem k allItems) eqn:Hk; [|eauto].
  apply elem_of_cons in Hin as [->|Hin]; [congruence|].
  destruct (IH Hin Hnone) as (missing & -> & Hmissing). eauto.
Qed.

Lemma validate_flat_ok oldRes newRes oldItems newItems allItems involved
      (m : gmap string Z) :
  let change := fun j => WorkerBase.stockChangeFor oldRes newRes
                           (qtyOf j oldItems) (qtyOf j newItems) in
  NoDup involved ->
  (forall j, j ∈ involved -> 0 <= default 0 (m !! j) + change j) ->
  validateAdjustments
    (flat_map (fun j => adjustmentFor oldRes newRes (qtyOf j oldItems)
                          (qtyOf j newItems) j) involved) m allItems
  = None.
Proof.
  intros change Hnd. revert m.
  induction Hnd as [|j rest Hj Hnd IH]; intros m Hfits; [done|].
  simpl. rewrite adjustmentFor_change. cbn zeta. fold (change j).
  pose proof (Hfits j ltac:(apply elem_of_cons; auto)) as Hhere.
  assert (Hrest : forall m' : gmap string Z,
             (forall k, k <> j -> m' !! k = m !! k) ->
             forall k, k ∈ rest -> 0 <= default 0 (m' !! k) + change k).
  { intros m' Hsame k Hk. rewrite Hsame by (intros ->; done).
    apply Hfits. apply elem_of_cons; auto. }
  destruct (Z.ltb_spec (change j) 0).
  - simpl. destruct (Z.ltb_spec (default 0 (m !! j)) (- change j)); [lia|].
    apply IH. apply Hrest. intros k Hk. by rewrite lookup_insert_ne.
  - destruct (Z.gtb_spec (change j) 0); simpl; apply IH; by apply Hrest.
Qed.

Lemma validate_flat_short oldRes newRes oldItems newItems allItems involved
      (m : gmap string Z) :
  let change := fun j => WorkerBase.stockChangeFor oldRes newRes
                           (qtyOf j oldItems) (qtyOf j newItems) in
  NoDup involved ->
  (exists j, j ∈ involved /\ default 0 (m !! j) + change j < 0
             /\ change j < 0) ->
  exists itemName requested available,
    validateAdjustments
      (flat_map (fun j => adjustmentFor oldRes newRes (qtyOf j oldItems)
                            (qtyOf j newItems) j) involved) m allItems
    = Some (InsufficientStockForUpdate itemName requested available).
Proof.
  intros change Hnd. revert m.
  induction Hnd as [|j rest Hj Hnd IH]; intros m (k & Hk & Hlt & Hneg).
  { by apply elem_of_nil in Hk. }
  simpl. rewrite adjustmentFor_change. cbn zeta. fold (change j).
  assert (Hrest : k <> j ->
                  forall m' : gmap string Z,
                    (forall i, i <> j -> m' !! i = m !! i) ->
                  exists i, i ∈ rest /\ default 0 (m' !! i) + change i < 0
                            /\ change i < 0).
  { intros Hne m' Hsame. exists k.
    apply elem_of_cons in Hk as [->|Hk]; [done|].
    rewrite Hsame by done. done. }
  destruct (Z.ltb_spec (change j) 0).
  - simpl. destruct (Z.ltb_spec (default 0 (m !! j)) (- change j)); [eauto|].
    apply IH. apply Hrest.
    + intros ->. lia.
    + intros i Hi. by rewrite lookup_insert_ne.
  - assert (Hne : k <> j) by (intros ->; lia).
    destruct (Z.gtb_spec (change j) 0); simpl; apply IH; by apply Hrest.
Qed.

Lemma involved_resolve (originalApp updatedApp : RentalApplication) allItems :
  itemsResolve allItems (items originalApp) ->
  itemsResolve allItems (items updatedApp) ->
  Forall (fun j => is_Some (findItem j allItems))
         (allInvolvedItemIds (items originalApp) (items updatedApp)).
Proof.
  intros Hold Hnew. apply Forall_forall. intros j Hj.
  apply elem_of_allInvolved in Hj.
  unfold itemsResolve in *. rewrite Forall_forall in Hold, Hnew.
  destruct Hj as [Hj|Hj];
    apply list_elem_of_fmap in Hj as (e & -> & He); auto.
Qed.

Lemma update_fits_returns fixedDeposit (updatedApp originalApp : RentalApplication)
      s :
  let change := fun i =>
    WorkerBase.stockChangeFor (isReserved (status originalApp))
      (isReserved (status updatedApp))
      (qtyOf i (items originalApp)) (qtyOf i (items updatedApp)) in
  consistentStorage s ->
  wellFormedEntries (items updatedApp) ->
  findApplication (appId updatedApp) (kaistWelfareRentals s)
  = Some originalApp ->
  itemsResolve (getItems s) (items originalApp) ->
  itemsResolve (getItems s) (items updatedApp) ->
  (forall item, item ∈ getItems s ->
                0 <= currentStock item + change (id item)) ->
  updateRentalApplication fixedDeposit updatedApp s
  = Returned
      (updatedApplication fixedDeposit updatedApp (getItems s))
      (mkStorage
         (applyStockChange change (getItems s))
         (replaceApplication
            (updatedApplication fixedDeposit updatedApp (getItems s))
            (kaistWelfareRentals s))).
Proof.
  intros change Hcons Hwf Hfind Hold Hnew Hfits.
  pose proof Hcons as (Hnd & _).
  pose proof (involved_resolve originalApp updatedApp _ Hold Hnew) as Hall.
  pose proof (collectAdjustments_flat (isReserved (status originalApp))
                (isReserved (status updatedApp)) (items originalApp)
                (items updatedApp) (getItems s) _ Hall) as Hcollect.
  apply (updateRentalApplication_returns _ _ _ originalApp _ Hcons Hwf
           Hfind Hcollect).
  apply validate_flat_ok; [apply newSet_NoDup|].
  intros j Hj. rewrite Forall_forall in Hall.
  destruct (Hall j Hj) as [item Hitem]. unfold getItems in *.
  rewrite (stockMapOf_lookup _ _ _ Hnd Hitem). simpl.
  apply findItem_Some_inv in Hitem as [Hin Hid].
  specialize (Hfits item Hin). by rewrite Hid in Hfits.
Qed.

Lemma update_short_throws fixedDeposit (updatedApp originalApp : RentalApplication)
      s :
  let change := fun i =>
    WorkerBase.stockChangeFor (isReserved (status originalApp))
      (isReserved (status updatedApp))
      (qtyOf i (items originalApp)) (qtyOf i (items updatedApp)) in
  NoDup (map id (getItems s)) ->
  Forall stockInBounds (getItems s) ->
  findApplication (appId updatedApp) (kaistWelfareRentals s)
  = Some originalApp ->
  itemsResolve (getItems s) (items originalApp) ->
  itemsResolve (getItems s) (items updatedApp) ->
  (exists item, item ∈ getItems s
                /\ currentStock item + change (id item) < 0) ->
  exists itemName requested available,
    updateRentalApplication fixedDeposit updatedApp s
    = Threw (InsufficientStockForUpdate itemName requested available) s.
Proof.
  intros change Hnd Hb Hfind Hold Hnew (item & Hin & Hlt).
  pose proof (involved_resolve originalApp updatedApp _ Hold Hnew) as Hall.
  pose proof (collectAdjustments_flat (isReserved (status originalApp))
                (isReserved (status updatedApp)) (items originalApp)
                (items updatedApp) (getItems s) _ Hall) as Hcollect.
  rewrite Forall_forall in Hb. pose proof (Hb item Hin) as Hbounds.
  unfold stockInBounds in Hbounds.
  destruct (validate_flat_short (isReserved (status originalApp))
              (isReserved (status updatedApp)) (items originalApp)
              (items updatedApp) (getItems s)
              (allInvolvedItemIds (items originalApp) (items updatedApp))
              (stockMapOf (getItems s))) as (n & r & a & Hval);
    [apply newSet_NoDup | |].
  { exists (id item). unfold getItems in *.
    rewrite (stockMapOf_lookup _ _ _ Hnd (findItem_unique _ _ Hnd Hin)).
    simpl. fold (change (id item)). split; [|lia].
    apply elem_of_allInvolved.
    destruct (decide (id item ∈ itemIds (items originalApp))); [auto|].
    destruct (decide (id item ∈ itemIds (items updatedApp))); [auto|].
    exfalso. unfold change in Hlt.
    rewrite !qtyOf_absent, stockChangeFor_zero in Hlt by done. lia. }
  exists n, r, a.
  unfold updateRentalApplication, getRentalApplications.
  unfold findApplication in Hfind. rewrite Hfind.
  unfold withDerived. cbn [status row items appId].
  by rewrite Hcollect, Hval.
Qed.

(** X14.  [updateRentalApplication] throws, writing nothing, when no
    application has the identifier, and when an entry of the stored or of
    the new list names an item that is not stored, whatever the statuses.
    Otherwise, on a consistent storage within the stock bounds and for new
    entries that are one per item and not negative, the stock alone
    decides: when no item would fall below 0 the update returns and every
    item moves by the change of the reconciliation; when some item would,
    it throws the insufficient-stock error.  Whenever it throws, the
    storage is as it was. *)
Theorem service_update_outcome fixedDeposit (updatedApp : RentalApplication)
        s :
  (findApplication (appId updatedApp) (kaistWelfareRentals s) = None ->
   updateRentalApplication fixedDeposit updatedApp s
   = Threw (ApplicationNotFound (appId updatedApp)) s)
  /\ (forall originalApp : RentalApplication,
         findApplication (appId updatedApp) (kaistWelfareRentals s)
         = Some originalApp ->
         let change := fun i =>
           WorkerBase.stockChangeFor (isReserved (status originalApp))
             (isReserved (status updatedApp))
             (qtyOf i (items originalApp)) (qtyOf i (items updatedApp)) in
         ((exists j, (j ∈ itemIds (items originalApp)
                      \/ j ∈ itemIds (items updatedApp))
                     /\ findItem j (getItems s) = None) ->
          exists missing,
            updateRentalApplication fixedDeposit updatedApp s
            = Threw (ItemDetailsNotFound missing) s
            /\ findItem missing (getItems s) = None)
         /\ (consistentStorage s ->
             Forall stockInBounds (getItems s) ->
             wellFormedEntries (items updatedApp) ->
             itemsResolve (getItems s) (items originalApp) ->
             itemsResolve (getItems s) (items updatedApp) ->
             ((forall item, item ∈ getItems s ->
                            0 <= currentStock item + change (id item)) ->
              updateRentalApplication fixedDeposit updatedApp s
              = Returned
                  (updatedApplication fixedDeposit updatedApp (getItems s))
                  (mkStorage
                     (applyStockChange change (getItems s))
                     (replaceApplication
                        (updatedApplication fixedDeposit updatedApp
                                            (getItems s))
                        (kaistWelfareRentals s))))
             /\ ((exists item, item ∈ getItems s
                               /\ currentStock item + change (id item) < 0) ->
                 exists itemName requested available,
                   updateRentalApplication fixedDeposit updatedApp s
                   = Threw (InsufficientStockForUpdate itemName requested
                              available) s)
             /\ (forall e s',
                    updateRentalApplication fixedDeposit updatedApp s
                    = Threw e s' -> s' = s))).
Proof.
  split.
  { unfold updateRentalApplication, getRentalApplications, findApplication.
    by intros ->. }
  intros originalApp Hfind change. split.
  { intros (j & Hj & Hnone).
    apply elem_of_allInvolved in Hj.
    destruct (collectAdjustments_missing
                (isReserved (status originalApp))
                (isReserved (status updatedApp)) (items originalApp)
                (items updatedApp) (getItems s) _ j Hj Hnone)
      as (missing & Hcollect & Hmissing).
    exists missing. split; [|done].
    unfold updateRentalApplication, getRentalApplications.
    unfold findApplication in Hfind. rewrite Hfind.
    unfold withDerived. cbn [status row items appId]. by rewrite Hcollect. }
  intros Hcons Hb Hwf Hold Hnew.
  pose proof Hcons as (Hnd & _).
  pose proof (update_fits_returns fixedDeposit updatedApp originalApp s Hcons
                Hwf Hfind Hold Hnew) as Hgood.
  pose proof (update_short_throws fixedDeposit updatedApp originalApp s Hnd Hb
                Hfind Hold Hnew) as Hbad.
  cbn zeta in Hgood, Hbad. fold change in Hgood, Hbad.
  split; [done|]. split; [done|].
  intros e s' Hthrew.
  destruct (decide (Forall (fun item => 0 <= currentStock item
                                              + change (id item))
                           (getItems s))) as [Hfits|Hshort].
  - rewrite Hgood in Hthrew; [done|].
    rewrite Forall_forall in Hfits. done.
  - apply not_Forall_Exists in Hshort; [|intros x; apply _].
    apply Exists_exists in Hshort as (item & Hin & Hlt).
    destruct Hbad as (n & r & a & Heq);
      [exists item; split; [done|unfold compose in Hlt; cbn beta in Hlt; lia]|].
    rewrite Heq in Hthrew. by injection Hthrew as _ <-.
Qed.

End ServiceUpdateOutcome.

(** ** The two handlers of POST /api/rentals/apply *)

Section WorkerApplyVariants.

Import D1 WorkerBase.

Lemma prepareStockAdjustments_variants selected allDbItems :
  match Worker.prepareStockAdjustments selected allDbItems with
  | inr ops => WorkerV1Apply.prepareStockAdjustments selected allDbItems
               = inr ops
  | inl (ItemWithIdNotFound missing) =>
      exists e, e ∈ selected /\ itemId e = missing
                /\ WorkerV1Apply.prepareStockAdjustments selected allDbItems
                   = inl (InsufficientStock "unknown item" (quantity e) 0)
  | inl (InsufficientStock itemName requested available) =>
      WorkerV1Apply.prepareStockAdjustments selected allDbItems
      = inl (InsufficientStock (orElse itemName "unknown item") requested
               available)
  | inl _ => False
  end.
Proof.
  induction selected as [|e rest IH]; simpl; [done|].
  destruct (findItem (itemId e) allDbItems) as [item|] eqn:Hitem.
  - destruct (currentStock item <? quantity e); [done|].
    destruct (Worker.prepareStockAdjustments rest allDbItems) as [err|ops].
    + destruct err; try done.
      * destruct IH as (e' & He' & Hid & ->). exists e'.
        split; [apply elem_of_cons; auto | done].
      * by rewrite IH.
    + by rewrite IH.
  - exists e. split; [apply elem_of_cons; auto | done].
Qed.

(** X15.  The direct handler and the itty-router handler of
    POST /api/rentals/apply leave the same database after every request and
    answer with the same status code: the same 201 with the same
    application, a 409 when the batch fails, and a 400 in the same cases.
    The texts of the 409 and of the 400 differ.  When the batch fails the
    direct handler says 'Stock became unavailable during transaction or
    data invalid. Please check stock and try again.' and the router
    handler 'Stock became unavailable during transaction. Please try
    again.'  For an item that is not stored the direct handler names the
    identifier where the router handler reports an insufficient stock of
    'unknown item' with 0 available, and an empty item name is replaced by
    'unknown item'. *)
Theorem worker_apply_variants_agree env appData newId today db :
  let direct := Worker.postRentalsApply env appData newId today db in
  let routed := WorkerV1Apply.postRentalsApply env appData newId today db in
  snd routed = snd direct
  /\ statusCodeOf (fst routed) = statusCodeOf (fst direct)
  /\ (forall app, fst direct = Json 201 app <-> fst routed = Json 201 app)
  /\ (fst direct = Failed 409 StockBecameUnavailable
      <-> fst routed = Failed 409 StockBecameUnavailableDuringTransaction)
  /\ (forall e, fst direct = Failed 409 e -> e = StockBecameUnavailable)
  /\ (forall e, fst routed = Failed 409 e ->
                e = StockBecameUnavailableDuringTransaction)
  /\ ((exists e, fst direct = Failed 400 e)
      <-> (exists e, fst routed = Failed 400 e))
  /\ (forall missing,
         fst direct = Failed 400 (ItemWithIdNotFound missing) ->
         exists e, e ∈ items appData /\ itemId e = missing
                   /\ fst routed
                      = Failed 400
                          (InsufficientStock "unknown item" (quantity e) 0))
  /\ (forall itemName requested available,
         fst direct
         = Failed 400 (InsufficientStock itemName requested available) ->
         fst routed
         = Failed 400 (InsufficientStock (orElse itemName "unknown item")
                         requested available)).
Proof.
  unfold Worker.postRentalsApply, Worker.prepareApplication,
    Worker.commitApplication, WorkerV1Apply.postRentalsApply.
  pose proof (prepareStockAdjustments_variants (items appData) (Items db))
    as Hprep.
  destruct (Worker.prepareStockAdjustments (items appData) (Items db))
    as [err|ops].
  - destruct err; try done.
    + destruct Hprep as (e & He & Hid & ->). cbn.
      repeat split; try done; eauto.
      intros missing [= <-]. eauto.
    + rewrite Hprep. cbn. repeat split; try done; eauto.
      by intros ??? [= <- <- <-].
  - rewrite Hprep. cbn [fst snd].
    destruct (batch _ db); cbn; repeat split; try done;
      try (by intros [? ?]); by intros ? [= <-].
Qed.

End WorkerApplyVariants.

(** ** The cart of the application page *)

Section ApplicationPageCart.

Import DataService UserRentalApplicationPage.

Lemma qtyOf_entriesOf j cart :
  qtyOf j (entriesOf cart)
  = match cartFind j cart with
    | Some ci => selectedQuantity ci
    | None => 0
    end.
Proof.
  unfold qtyOf, findEntry, cartFind, entriesOf.
  induction cart as [|ci rest IH]; simpl; [done|].
  by destruct (String.eqb (id (details ci)) j).
Qed.

Lemma itemIds_entriesOf cart :
  itemIds (entriesOf cart) = map (fun ci => id (details ci)) cart.
Proof. unfold itemIds, entriesOf. by rewrite map_map. Qed.

Lemma cartFind_None j cart :
  cartFind j cart = None <-> j ∉ itemIds (entriesOf cart).
Proof.
  rewrite itemIds_entriesOf. unfold cartFind.
  induction cart as [|ci rest IH]; simpl.
  - split; [intros _; apply not_elem_of_nil | done].
  - rewrite not_elem_of_cons, <- IH.
    destruct (String.eqb_spec (id (details ci)) j) as [->|Hne].
    + split; [done | by intros [? _]].
    + split; [intros H; split; [congruence | done] | by intros [_ ?]].
Qed.

Lemma findIndex_Some p cart i :
  findIndex p cart = Some i ->
  exists ci, cart !! i = Some ci /\ p ci = true /\ find p cart = Some ci.
Proof.
  revert i. induction cart as [|x rest IH]; simpl; intros i H; [done|].
  destruct (p x) eqn:Hp.
  - injection H as <-. eauto.
  - destruct (findIndex p rest) as [k|]; [|done]. injection H as <-.
    destruct (IH k eq_refl) as (ci & ? & ? & ?). eauto.
Qed.

Lemma findIndex_None p cart : findIndex p cart = None -> find p cart = None.
Proof.
  induction cart as [|x rest IH]; simpl; [done|].
  destruct (p x); [done|]. destruct (findIndex p rest); [done | auto].
Qed.

Lemma cartFind_insert_same p cart i ci x :
  findIndex p cart = Some i -> cart !! i = Some ci -> p x = true ->
  find p (<[i := x]> cart) = Some x.
Proof.
  revert i. induction cart as [|y rest IH]; simpl; intros i Hi Hlook Hx;
    [done|].
  destruct (p y) eqn:Hy.
  - injection Hi as <-. simpl. by rewrite Hx.
  - destruct (findIndex p rest) as [k|] eqn:Hk; [|done]. injection Hi as <-.
    simpl in *. rewrite Hy. by apply IH.
Qed.

Lemma cartFind_insert_other (r : CartItem -> bool) cart i ci x :
  cart !! i = Some ci -> r ci = false -> r x = false ->
  find r (<[i := x]> cart) = find r cart.
Proof.
  revert i. induction cart as [|y rest IH]; intros [|i] Hlook Hci Hx;
    simpl in *; try done.
  - injection Hlook as ->. by rewrite Hci, Hx.
  - destruct (r y); [done|]. by apply (IH i).
Qed.

Lemma find_append {A} (p : A -> bool) (xs ys : list A) :
  find p (xs ++ ys)
  = match find p xs with
    | Some x => Some x
    | None => find p ys
    end.
Proof.
  induction xs as [|x rest IH]; simpl; [done|]. by destruct (p x).
Qed.

Lemma NoDup_map_filter {A} (f : A -> string) (p : A -> bool) (l : list A) :
  NoDup (map f l) -> NoDup (map f (List.filter p l)).
Proof.
  induction l as [|x rest IH]; simpl; intros Hnd; [done|].
  apply NoDup_cons in Hnd as [Hx Hnd].
  destruct (p x); simpl; [|auto].
  apply NoDup_cons. split; [|auto].
  intros Hin. apply Hx. apply list_elem_of_fmap in Hin as (y & -> & Hy).
  apply list_elem_of_fmap. exists y. split; [done|].
  apply list_elem_of_In in Hy. apply filter_In in Hy as [Hy _].
  by apply list_elem_of_In.
Qed.

Lemma cartFind_filter_same j cart :
  cartFind j (handleRemoveFromCart j cart) = None.
Proof.
  unfold cartFind, handleRemoveFromCart.
  induction cart as [|ci rest IH]; simpl; [done|].
  destruct (String.eqb (id (details ci)) j) eqn:E; simpl; [done|].
  by rewrite E.
Qed.

Lemma cartFind_filter_other j k cart :
  k <> j -> cartFind k (handleRemoveFromCart j cart) = cartFind k cart.
Proof.
  intros Hne. unfold cartFind, handleRemoveFromCart.
  induction cart as [|ci rest IH]; simpl; [done|].
  destruct (String.eqb_spec (id (details ci)) j) as [Hj|Hj]; simpl.
  - rewrite IH. destruct (String.eqb_spec (id (details ci)) k); [|done].
    congruence.
  - by rewrite IH.
Qed.

Lemma cartFind_without j k cart :
  k <> j ->
  cartFind k (List.filter (fun item => negb (String.eqb (id (details item)) j))
                          cart)
  = cartFind k cart.
Proof. apply cartFind_filter_other. Qed.

Lemma cartWellFormed_entries cart :
  cartWellFormed cart -> wellFormedEntries (entriesOf cart).
Proof.
  intros [Hnd Hq]. split; [done|].
  unfold entriesOf. apply Forall_fmap. eapply Forall_impl; [exact Hq|].
  simpl. intros. lia.
Qed.

(** X16.  The cart of the application page keeps one entry per item and
    positive quantities.  [handleAddItemToCart] opens a modal, and leaves
    the cart, exactly when no item is selected, the selected item is not
    stored, the quantity is not positive, or the quantity together with
    what the cart already holds of the item exceeds the stock just read;
    otherwise it raises the cart's quantity of that item by the quantity
    selected, to at most the stock, and changes no other item's quantity.
    [handleRemoveFromCart] brings the quantity of the item to nothing and
    changes no other.  The selection handed to the service from such a
    cart has one entry per item and no negative quantity. *)
Theorem user_cart_invariant selectedItemId selectedQuantity' itemIdToRemove
        cart s :
  cartWellFormed cart ->
  ((exists notice,
       handleAddItemToCart selectedItemId selectedQuantity' cart s
       = inl notice)
   <-> (selectedItemId = ""
        \/ findItem selectedItemId (getItems s) = None
        \/ selectedQuantity' <= 0
        \/ exists item, findItem selectedItemId (getItems s) = Some item
                        /\ currentStock item
                           < qtyOf selectedItemId (entriesOf cart)
                             + selectedQuantity'))
  /\ (forall cart',
         handleAddItemToCart selectedItemId selectedQuantity' cart s
         = inr cart' ->
         cartWellFormed cart'
         /\ qtyOf selectedItemId (entriesOf cart')
            = qtyOf selectedItemId (entriesOf cart) + selectedQuantity'
         /\ (forall k, k <> selectedItemId ->
                       qtyOf k (entriesOf cart') = qtyOf k (entriesOf cart))
         /\ exists item, findItem selectedItemId (getItems s) = Some item
                         /\ qtyOf selectedItemId (entriesOf cart')
                            <= currentStock item)
  /\ (cartWellFormed (handleRemoveFromCart itemIdToRemove cart)
      /\ qtyOf itemIdToRemove
               (entriesOf (handleRemoveFromCart itemIdToRemove cart)) = 0
      /\ forall k, k <> itemIdToRemove ->
                   qtyOf k (entriesOf (handleRemoveFromCart itemIdToRemove cart))
                   = qtyOf k (entriesOf cart))
  /\ wellFormedEntries (entriesOf cart).
Proof.
  intros Hwf. pose proof Hwf as [Hnd Hpos].
  assert (Hheld : 0 <= qtyOf selectedItemId (entriesOf cart)).
  { apply qtyOf_nonneg. by apply cartWellFormed_entries. }
  split; [|split; [|split]].
  - unfold handleAddItemToCart.
    destruct (String.eqb_spec selectedItemId "") as [Hempty|Hempty].
    { split; [auto | eauto]. }
    destruct (findItem selectedItemId (getItems s)) as [item|] eqn:Hitem;
      [|split; [auto | eauto]].
    destruct (Z.leb_spec selectedQuantity' 0) as [Hq|Hq];
      [split; [auto | eauto]|].
    destruct (Z.gtb_spec selectedQuantity' (currentStock item)) as [Hover|Hover].
    { split; [|eauto]. intros _. right. right. right. exists item.
      split; [done | lia]. }
    rewrite qtyOf_entriesOf in *. unfold cartFind in *.
    destruct (findIndex _ cart) as [i|] eqn:Hi.
    + destruct (findIndex_Some _ _ _ Hi) as (ci & Hlook & _ & Hfind).
      rewrite Hlook, Hfind in *.
      destruct (Z.gtb_spec (selectedQuantity ci + selectedQuantity')
                           (currentStock item)) as [Htot|Htot].
      * split; [|eauto]. intros _. right. right. right. exists item.
        split; [done | lia].
      * split; [by intros [? ?]|].
        intros [?|[?|[?|(item' & [= <-] & ?)]]]; try done; lia.
    + rewrite (findIndex_None _ _ Hi) in *.
      split; [by intros [? ?]|].
      intros [?|[?|[?|(item' & [= <-] & ?)]]]; try done; lia.
  - intros cart'. unfold handleAddItemToCart.
    destruct (String.eqb_spec selectedItemId "") as [Hempty|Hempty]; [done|].
    destruct (findItem selectedItemId (getItems s)) as [item|] eqn:Hitem;
      [|done].
    destruct (Z.leb_spec selectedQuantity' 0) as [Hq|Hq]; [done|].
    destruct (Z.gtb_spec selectedQuantity' (currentStock item)) as [Hover|Hover];
      [done|].
    pose proof (findItem_Some_inv _ _ _ Hitem) as [_ Hid].
    destruct (findIndex _ cart) as [i|] eqn:Hi.
    + destruct (findIndex_Some _ _ _ Hi) as (ci & Hlook & Hp & Hfind).
      rewrite Hlook.
      destruct (Z.gtb_spec (selectedQuantity ci + selectedQuantity')
                           (currentStock item)) as [Htot|Htot]; [done|].
      intros [= <-].
      set (x := mkCartItem (details ci)
                           (selectedQuantity ci + selectedQuantity')).
      assert (Hsame : qtyOf selectedItemId (entriesOf (<[i := x]> cart))
                      = selectedQuantity ci + selectedQuantity').
      { rewrite qtyOf_entriesOf. unfold cartFind.
        by rewrite (cartFind_insert_same _ cart i ci x Hi Hlook Hp). }
      assert (Hold : qtyOf selectedItemId (entriesOf cart)
                     = selectedQuantity ci).
      { rewrite qtyOf_entriesOf. unfold cartFind. by rewrite Hfind. }
      split; [|split; [|split]].
      * split.
        -- rewrite itemIds_entriesOf, list_fmap_insert.
           rewrite list_insert_id; [by rewrite <- itemIds_entriesOf|].
           by rewrite list_lookup_fmap, Hlook.
        -- apply Forall_insert; [done|]. simpl.
           rewrite Forall_forall in Hpos.
           pose proof (Hpos ci (list_elem_of_lookup_2 _ _ _ Hlook)). lia.
      * by rewrite Hsame, Hold.
      * intros k Hk. rewrite !qtyOf_entriesOf. unfold cartFind.
        rewrite (cartFind_insert_other _ cart i ci x Hlook); [done| |].
        -- apply String.eqb_eq in Hp. apply String.eqb_neq. congruence.
        -- apply String.eqb_eq in Hp. apply String.eqb_neq. simpl.
           congruence.
      * exists item. split; [done|]. rewrite Hsame. lia.
    + intros [= <-]. pose proof (findIndex_None _ _ Hi) as Hnone.
      fold (cartFind selectedItemId cart) in Hnone.
      assert (Hold : qtyOf selectedItemId (entriesOf cart) = 0).
      { rewrite qtyOf_entriesOf. by rewrite Hnone. }
      assert (Hsame : qtyOf selectedItemId
                        (entriesOf (cart ++ [mkCartItem item selectedQuantity']))
                      = selectedQuantity').
      { rewrite qtyOf_entriesOf. unfold cartFind in *.
        rewrite find_append, Hnone. simpl. by rewrite Hid, String.eqb_refl. }
      split; [|split; [|split]].
      * split.
        -- unfold entriesOf, itemIds. rewrite !map_app. simpl.
           apply NoDup_app. split; [done|]. split; [|apply NoDup_singleton].
           intros k Hk Hk'. apply list_elem_of_singleton in Hk'. subst k.
           apply cartFind_None in Hnone. rewrite Hid in Hk. done.
        -- apply Forall_app. split; [done|]. apply Forall_singleton. simpl.
           lia.
      * rewrite Hsame, Hold. lia.
      * intros k Hk. rewrite !qtyOf_entriesOf. unfold cartFind.
        rewrite find_append. destruct (find _ cart); [done|]. simpl.
        rewrite Hid. by rewrite (proj2 (String.eqb_neq _ _) (not_eq_sym Hk)).
      * exists item. split; [done|]. rewrite Hsame. lia.
  - split; [|split].
    + split.
      * rewrite itemIds_entriesOf. apply NoDup_map_filter.
        by rewrite <- itemIds_entriesOf.
      * unfold handleRemoveFromCart. rewrite Forall_forall in Hpos.
        apply Forall_forall. intros ci Hci. apply Hpos.
        apply list_elem_of_In in Hci. apply filter_In in Hci as [Hci _].
        by apply list_elem_of_In.
    + by rewrite qtyOf_entriesOf, cartFind_filter_same.
    + intros k Hk. by rewrite !qtyOf_entriesOf, cartFind_filter_other.
  - by apply cartWellFormed_entries.
Qed.

End ApplicationPageCart.

(** ** Submitting the application page *)

Section ApplicationPageSubmit.

Import DataService.

Lemma cartStockError_None cart allItems :
  UserRentalApplicationPage.cartStockError cart allItems = None
  <-> Forall (inStock allItems) (entriesOf cart).
Proof.
  induction cart as [|ci rest IH]; simpl.
  - split; [constructor | done].
  - rewrite Forall_cons, <- IH. unfold inStock at 1. simpl.
    destruct (findItem (id (details ci)) allItems) as [item|] eqn:E.
    + destruct (Z.gtb_spec (selectedQuantity ci) (currentStock item)).
      * split; [done|]. intros [(it & [= <-] & Hle) _]. lia.
      * split; [|tauto]. intros Hrest. split; [|done]. exists item.
        split; [done | lia].
    + split; [done|]. by intros [(it & ? & _) _].
Qed.

Lemma validateForm_true fieldErrors cart s :
  UserRentalApplicationPage.validateForm fieldErrors cart s = true
  <-> fieldErrors = 0%nat /\ cart <> []
      /\ Forall (inStock (getItems s)) (entriesOf cart).
Proof.
  unfold UserRentalApplicationPage.validateForm,
    UserRentalApplicationPage.cartError.
  rewrite <- cartStockError_None.
  destruct (UserRentalApplicationPage.cartStockError cart (getItems s)).
  - split; [done | by intros (_ & _ & ?)].
  - destruct cart as [|ci rest]; simpl.
    + split; [done | by intros (_ & ? & _)].
    + rewrite Nat.eqb_eq. split; [done | by intros (? & _)].
Qed.

Lemma cart_cost_fold fixedDeposit cart allItems :
  Forall (fun ci => exists item,
              findItem (id (details ci)) allItems = Some item
              /\ price item = price (details ci)) cart ->
  fst (calculateRentalCosts fixedDeposit (entriesOf cart) allItems)
  = UserRentalApplicationPage.totalItemCost cart.
Proof.
  unfold calculateRentalCosts, UserRentalApplicationPage.totalItemCost.
  cbn [fst]. generalize 0.
  induction cart as [|ci rest IH]; intros acc Hall; simpl; [done|].
  apply Forall_cons in Hall as [(item & -> & Hprice) Hall].
  rewrite Hprice. by apply IH.
Qed.

(** X17.  [validateForm] accepts exactly when the field checks found
    nothing, the cart is not empty and every entry of the cart is within
    the stock just read.  A form it rejects leaves the cart and the storage
    as they are.  A form it accepts, with a cart of one entry per item, is
    never refused by [addRentalApplication]: the page shows the created
    application, empties the cart, and the storage holds the new
    application with every item's stock lowered by the cart's quantity.
    The item cost charged is the one the page displayed when the prices in
    the cart are still the stored ones. *)
Theorem user_submit_outcome fixedDeposit fieldErrors (form : ApplicationRow)
        cart newId today s :
  NoDup (map id (getItems s)) ->
  cartWellFormed cart ->
  let created :=
    createdApplication fixedDeposit (mkApp form (entriesOf cart)) newId today
                       (getItems s) in
  (UserRentalApplicationPage.validateForm fieldErrors cart s = true
   <-> fieldErrors = 0%nat /\ cart <> []
       /\ Forall (inStock (getItems s)) (entriesOf cart))
  /\ (UserRentalApplicationPage.validateForm fieldErrors cart s = false ->
      UserRentalApplicationPage.handleSubmitApplication fixedDeposit
        fieldErrors form cart newId today s
      = (UserRentalApplicationPage.InputError, cart, s))
  /\ (UserRentalApplicationPage.validateForm fieldErrors cart s = true ->
      UserRentalApplicationPage.handleSubmitApplication fixedDeposit
        fieldErrors form cart newId today s
      = (UserRentalApplicationPage.Completed created, [],
         mkStorage
           (applyStockChange (fun i => - qtyOf i (entriesOf cart))
                             (getItems s))
           (kaistWelfareRentals s ++ [created])))
  /\ (Forall (fun ci => exists item,
                  findItem (id (details ci)) (getItems s) = Some item
                  /\ price item = price (details ci)) cart ->
      totalItemCost created = UserRentalApplicationPage.totalItemCost cart).
Proof.
  intros Hnd [Hcart Hpos] created.
  split; [apply validateForm_true|]. split; [|split].
  - intros Hno. unfold UserRentalApplicationPage.handleSubmitApplication.
    by rewrite Hno.
  - intros Hyes. unfold UserRentalApplicationPage.handleSubmitApplication.
    rewrite Hyes. cbn [negb].
    apply validateForm_true in Hyes as (_ & _ & Hstock).
    rewrite (addRentalApplication_returns fixedDeposit
               (mkApp form (entriesOf cart)) newId today s Hnd Hcart).
    + cbn [items]. fold created. do 2 f_equal.
      apply applyStockChange_ext. intros i.
      by rewrite entryTotal_qtyOf.
    + cbn [items]. by apply validateStock_None_iff.
  - intros Hprices. subst created. unfold createdApplication, withDerived.
    cbn [row totalItemCost items]. by apply cart_cost_fold.
Qed.

End ApplicationPageSubmit.

(** ** The cart of the edit modal *)

Section EditModalCart.

Import DataService UserCheckStatusPage.

Lemma entriesOf_openEditModal (app : RentalApplication) s :
  entriesOf (snd (openEditModal app s))
  = List.filter (shownInModal (getItems s)) (items app).
Proof.
  unfold openEditModal, shownInModal. cbn [snd].
  induction (items app) as [|e rest IH]; simpl; [done|].
  destruct (findItem (itemId e) (getItems s)) as [d|] eqn:Hd; [|done].
  apply findItem_Some_inv in Hd as [_ Hid].
  destruct (String.eqb (id d) ""); simpl; [done|].
  rewrite IH, Hid. by destruct e.
Qed.

Lemma itemIds_setQuantityOf j q cart :
  itemIds (entriesOf (setQuantityOf j q cart)) = itemIds (entriesOf cart).
Proof.
  rewrite !itemIds_entriesOf. unfold setQuantityOf. rewrite map_map.
  apply map_ext. intros ci. by destruct (String.eqb (id (details ci)) j).
Qed.

Lemma cartFind_setQuantityOf_other j k q cart :
  k <> j ->
  qtyOf k (entriesOf (setQuantityOf j q cart)) = qtyOf k (entriesOf cart).
Proof.
  intros Hne. rewrite !qtyOf_entriesOf. unfold cartFind, setQuantityOf.
  induction cart as [|ci rest IH]; simpl; [done|].
  destruct (String.eqb_spec (id (details ci)) j) as [Hj|Hj]; simpl.
  - destruct (String.eqb_spec (id (details ci)) k); [congruence | done].
  - by destruct (String.eqb (id (details ci)) k).
Qed.

Lemma cartFind_setQuantityOf_same j q cart ci :
  cartFind j cart = Some ci ->
  qtyOf j (entriesOf (setQuantityOf j q cart)) = q ci.
Proof.
  rewrite qtyOf_entriesOf. unfold cartFind, setQuantityOf.
  induction cart as [|x rest IH]; simpl; [done|].
  destruct (String.eqb (id (details x)) j) eqn:E; simpl.
  - rewrite E. by intros [= ->].
  - by rewrite E.
Qed.

Lemma editCart_setQuantityOf allItems (editing : RentalApplication) j q cart
      item :
  findItem j allItems = Some item ->
  (forall ci, ci ∈ cart -> id (details ci) = j ->
              0 < selectedQuantity ci
              <= currentStock item + qtyOf j (items editing) ->
              0 < q ci <= currentStock item + qtyOf j (items editing)) ->
  editCartWithin allItems editing cart ->
  editCartWithin allItems editing (setQuantityOf j q cart).
Proof.
  intros Hitem Hq [Hnd Hall]. split; [by rewrite itemIds_setQuantityOf|].
  unfold setQuantityOf. apply Forall_fmap, Forall_forall. intros ci Hci.
  rewrite Forall_forall in Hall.
  destruct (Hall ci Hci) as (item' & Hitem' & Hwithin). simpl.
  destruct (String.eqb_spec (id (details ci)) j) as [Hj|Hj]; simpl; [|eauto].
  exists item'. split; [done|]. rewrite Hj in *.
  assert (item' = item) as -> by congruence. by apply Hq.
Qed.

(** X18.  The cart of the edit modal stays, for every item, positive and
    within the stock the modal holds plus the quantity the application
    being edited holds of it, with one entry per item.  [openEditModal]
    starts it so from an application of one positive entry per item, and
    returns the application's own selection when every entry names a
    stored item with an identifier that is not empty;
    [handleEditCartItemQuantity], [handleAddItemToEditCart] and
    [handleRemoveFromEditCart] keep it so, whatever they are given, and
    change the quantity of no item but the one they are called for. *)
Theorem user_edit_cart_invariant (editing : RentalApplication) s allItems cart
        itemId' newQuantity :
  wellFormedEntries (items editing) ->
  (Forall (fun e => 0 < quantity e) (items editing) ->
   Forall (fun item => 0 <= currentStock item) (getItems s) ->
   fst (openEditModal editing s) = getItems s
   /\ editCartWithin (getItems s) editing (snd (openEditModal editing s))
   /\ (itemsResolve (getItems s) (items editing) ->
       Forall (fun e => itemId e <> "") (items editing) ->
       entriesOf (snd (openEditModal editing s)) = items editing))
  /\ (editCartWithin allItems editing cart ->
      editCartWithin allItems editing
        (snd (handleEditCartItemQuantity itemId' newQuantity allItems
                (Some editing) cart))
      /\ editCartWithin allItems editing
           (snd (handleAddItemToEditCart itemId' newQuantity allItems
                   (Some editing) cart))
      /\ editCartWithin allItems editing
           (handleRemoveFromEditCart itemId' cart)
      /\ forall k, k <> itemId' ->
           qtyOf k (entriesOf (snd (handleEditCartItemQuantity itemId'
                                      newQuantity allItems (Some editing)
                                      cart)))
           = qtyOf k (entriesOf cart)
           /\ qtyOf k (entriesOf (snd (handleAddItemToEditCart itemId'
                                         newQuantity allItems (Some editing)
                                         cart)))
              = qtyOf k (entriesOf cart)
           /\ qtyOf k (entriesOf (handleRemoveFromEditCart itemId' cart))
              = qtyOf k (entriesOf cart)).
Proof.
  intros [Hids Hnonneg]. split.
  - intros Hpos Hstock. split; [done|]. split; [split|].
    + rewrite entriesOf_openEditModal. unfold itemIds.
      by apply NoDup_map_filter.
    + unfold openEditModal. cbn [snd]. apply Forall_forall. intros ci Hci.
      apply list_elem_of_In, in_flat_map in Hci as (e & He & Hci).
      apply list_elem_of_In in He.
      destruct (findItem (itemId e) (getItems s)) as [d|] eqn:Hd; [|done].
      destruct (String.eqb (id d) ""); [done|].
      destruct Hci as [<-|[]]. simpl.
      pose proof (findItem_Some_inv _ _ _ Hd) as [Hin Hid].
      exists d. rewrite Hid. split; [done|].
      rewrite (qtyOf_member e) by done.
      rewrite Forall_forall in Hpos. rewrite Forall_forall in Hstock.
      pose proof (Hpos e He). pose proof (Hstock d Hin). lia.
    + intros Hres Hnames. rewrite entriesOf_openEditModal.
      unfold itemsResolve in Hres.
      induction (items editing) as [|e rest IH]; simpl; [done|].
      apply Forall_cons in Hres as [[d Hd] Hres].
      apply Forall_cons in Hnames as [Hname Hnames].
      apply NoDup_cons in Hids as [_ Hids].
      apply Forall_cons in Hnonneg as [_ Hnonneg].
      apply Forall_cons in Hpos as [_ Hpos].
      unfold shownInModal at 1. rewrite Hd.
      pose proof (findItem_Some_inv _ _ _ Hd) as [_ Hid]. rewrite Hid.
      rewrite (proj2 (String.eqb_neq _ _) Hname). simpl.
      by rewrite IH.
  - intros Hcart. pose proof Hcart as [Hnd Hall].
    split; [|split; [|split]].
    + unfold handleEditCartItemQuantity.
      destruct (findItem itemId' allItems) as [g|] eqn:Hg; [|done].
      cbn [originalQuantityInApp].
      destruct (Z.leb_spec newQuantity 0); cbn [snd].
      { apply (editCart_setQuantityOf _ _ _ _ _ g Hg); [|done].
        intros. lia. }
      destruct (Z.gtb_spec newQuantity
                  (currentStock g + qtyOf itemId' (items editing)));
        cbn [snd];
        apply (editCart_setQuantityOf _ _ _ _ _ g Hg); try done;
        intros; lia.
    + unfold handleAddItemToEditCart.
      destruct (String.eqb itemId' ""); [done|].
      destruct (findItem itemId' allItems) as [g|] eqn:Hg; [|done].
      destruct (Z.leb_spec newQuantity 0); [done|].
      pose proof (findItem_Some_inv _ _ _ Hg) as [_ Hid].
      cbn [originalQuantityInApp]. rewrite Hid.
      destruct (find _ cart) as [existing|] eqn:Hfind.
      * destruct (Z.gtb_spec (selectedQuantity existing + newQuantity)
                    (currentStock g + qtyOf itemId' (items editing)));
          cbn [snd]; [done|].
        apply (editCart_setQuantityOf _ _ _ _ _ g Hg); [|done].
        intros ci Hci _ _.
        apply find_some in Hfind as [Hex _]. apply list_elem_of_In in Hex.
        rewrite Forall_forall in Hall.
        destruct (Hall existing Hex) as (it & _ & Hq). lia.
      * destruct (Z.gtb_spec newQuantity (currentStock g)); cbn [snd];
          [done|].
        fold (cartFind itemId' cart) in Hfind.
        apply cartFind_None in Hfind. split.
        -- unfold entriesOf, itemIds. rewrite !map_app. simpl.
           apply NoDup_app. split; [done|]. split; [|apply NoDup_singleton].
           intros k Hk Hk'. apply list_elem_of_singleton in Hk'. subst k.
           rewrite Hid in Hk. done.
        -- apply Forall_app. split; [done|]. apply Forall_singleton.
           exists g. simpl. rewrite Hid. split; [done|].
           pose proof (qtyOf_nonneg itemId' _ Hnonneg). lia.
    + split.
      * rewrite itemIds_entriesOf. apply NoDup_map_filter.
        by rewrite <- itemIds_entriesOf.
      * unfold handleRemoveFromEditCart. rewrite Forall_forall in Hall.
        apply Forall_forall. intros ci Hci. apply Hall.
        apply list_elem_of_In in Hci. apply filter_In in Hci as [Hci _].
        by apply list_elem_of_In.
    + intros k Hk. split; [|split].
      * unfold handleEditCartItemQuantity.
        destruct (findItem itemId' allItems) as [g|]; [|done].
        destruct (newQuantity <=? 0); cbn [snd];
          [by apply cartFind_setQuantityOf_other|].
        destruct (newQuantity >? _); cbn [snd];
          by apply cartFind_setQuantityOf_other.
      * unfold handleAddItemToEditCart.
        destruct (String.eqb itemId' ""); [done|].
        destruct (findItem itemId' allItems) as [g|] eqn:Hg; [|done].
        destruct (newQuantity <=? 0); [done|].
        pose proof (findItem_Some_inv _ _ _ Hg) as [_ Hid]. rewrite Hid.
        destruct (find _ cart) as [existing|].
        -- destruct (_ >? _); cbn [snd]; [done|].
           by apply cartFind_setQuantityOf_other.
        -- destruct (_ >? _); cbn [snd]; [done|].
           rewrite !qtyOf_entriesOf. unfold cartFind. rewrite find_append.
           destruct (find _ cart); [done|]. simpl. rewrite Hid.
           by rewrite (proj2 (String.eqb_neq _ _) (not_eq_sym Hk)).
      * rewrite !qtyOf_entriesOf. unfold handleRemoveFromEditCart.
        by rewrite (cartFind_without itemId' k cart Hk).
Qed.

End EditModalCart.

(** ** Saving the edit modal *)

Section EditModalSave.

Import DataService UserCheckStatusPage.

Lemma stockChangedError_None (editing : RentalApplication) cart allItems :
  stockChangedError editing cart allItems = None
  <-> Forall (withinAvailable allItems editing) cart.
Proof.
  induction cart as [|ci rest IH]; simpl.
  - split; [constructor | done].
  - rewrite Forall_cons, <- IH. unfold withinAvailable at 1.
    destruct (findItem (id (details ci)) allItems) as [item|] eqn:E.
    + destruct (Z.gtb_spec (selectedQuantity ci)
                  (currentStock item
                   + qtyOf (id (details ci)) (items editing))).
      * split; [done|]. intros [(it & [= <-] & Hle) _]. lia.
      * split; [|tauto]. intros Hrest. split; [|done]. exists item.
        split; [done | lia].
    + split; [done|]. by intros [(it & ? & _) _].
Qed.

Lemma edited_fits (editing : RentalApplication) cart s :
  consistentStorage s ->
  Forall stockInBounds (getItems s) ->
  findApplication (appId editing) (kaistWelfareRentals s) = Some editing ->
  NoDup (itemIds (entriesOf cart)) ->
  Forall (withinAvailable (getItems s) editing) cart ->
  forall item, item ∈ getItems s ->
               0 <= currentStock item
                    + (qtyOf (id item) (items editing)
                       - qtyOf (id item) (entriesOf cart)).
Proof.
  intros (Hnd & [_ Hwf] & _) Hb Hfind Hcart Hwithin item Hin.
  rewrite Forall_forall in Hb. pose proof (Hb item Hin) as Hbounds.
  unfold stockInBounds in Hbounds.
  apply findApplication_Some_inv in Hfind as [Hmem _].
  rewrite Forall_forall in Hwf. destruct (Hwf editing Hmem) as [_ Hq].
  pose proof (qtyOf_nonneg (id item) _ Hq) as Hold.
  rewrite qtyOf_entriesOf.
  destruct (cartFind (id item) cart) as [ci|] eqn:Hci; [|lia].
  apply find_some in Hci as [Hci Hid]. apply String.eqb_eq in Hid.
  apply list_elem_of_In in Hci. rewrite Forall_forall in Hwithin.
  destruct (Hwithin ci Hci) as (item' & Hitem' & Hle).
  rewrite Hid in Hitem', Hle. unfold getItems in *.
  rewrite (findItem_unique _ _ Hnd Hin) in Hitem'.
  injection Hitem' as <-. lia.
Qed.

(** X19.  [handleSaveEdits] on the stored copy of a reserved application,
    with a cart of one entry per item and no negative quantity, in a
    consistent storage within the stock bounds.  Its stock check passes
    exactly when every entry of the cart names a stored item and asks for
    no more than the stock plus what the application holds.  When the
    checks pass, [updateRentalApplication] never throws: the modal says
    saved, the stored application is the edited one with its costs
    recomputed, and every item's stock moves by the held quantity minus
    the cart's.  So the failure modal is never shown, and unless the modal
    says saved the storage is as it was. *)
Theorem user_save_edits_outcome fixedDeposit laterThan
        (editing : RentalApplication) cart editableRentalDate
        editableReturnDate s :
  consistentStorage s ->
  Forall stockInBounds (getItems s) ->
  findApplication (appId editing) (kaistWelfareRentals s) = Some editing ->
  isReserved (status editing) = true ->
  NoDup (itemIds (entriesOf cart)) ->
  Forall (fun ci => 0 <= selectedQuantity ci) cart ->
  let result :=
    handleSaveEdits fixedDeposit laterThan (Some editing) cart
                    editableRentalDate editableReturnDate s in
  let edited :=
    editedApplication editing cart editableRentalDate editableReturnDate in
  let wrongDates :=
    String.eqb editableRentalDate "" || String.eqb editableReturnDate ""
    || laterThan editableRentalDate editableReturnDate in
  (stockChangedError editing cart (getItems s) = None
   <-> Forall (withinAvailable (getItems s) editing) cart)
  /\ (cart <> [] -> wrongDates = false ->
      Forall (withinAvailable (getItems s) editing) cart ->
      result
      = (Some Saved,
         mkStorage
           (applyStockChange
              (fun i => qtyOf i (items editing) - qtyOf i (entriesOf cart))
              (getItems s))
           (replaceApplication
              (updatedApplication fixedDeposit edited (getItems s))
              (kaistWelfareRentals s))))
  /\ (forall e s', result <> (Some (SaveFailed e), s'))
  /\ (fst result <> Some Saved -> snd result = s).
Proof.
  intros Hcons Hb Hfind Hres Hcart Hnonneg result edited wrongDates.
  assert (Hsaved :
            Forall (withinAvailable (getItems s) editing) cart ->
            updateRentalApplication fixedDeposit edited s
            = Returned
                (updatedApplication fixedDeposit edited (getItems s))
                (mkStorage
                   (applyStockChange
                      (fun i => qtyOf i (items editing)
                                - qtyOf i (entriesOf cart))
                      (getItems s))
                   (replaceApplication
                      (updatedApplication fixedDeposit edited (getItems s))
                      (kaistWelfareRentals s)))).
  { intros Hwithin.
    pose proof Hcons as (Hnd & _ & Hresolve & _).
    pose proof (findApplication_Some_inv _ _ _ Hfind) as [Hmem _].
    rewrite Forall_forall in Hresolve.
    pose proof (Hresolve editing Hmem Hres) as Hold.
    assert (Hnew : itemsResolve (getItems s) (items edited)).
    { unfold itemsResolve, edited, editedApplication, entriesOf.
      cbn [items]. apply Forall_fmap. eapply Forall_impl; [exact Hwithin|].
      intros ci (item & Hitem & _). simpl. by rewrite Hitem. }
    assert (Hwf : wellFormedEntries (items edited)).
    { split; [done|]. unfold edited, editedApplication, entriesOf.
      cbn [items]. apply Forall_fmap.
      eapply Forall_impl; [exact Hnonneg|]. by intros ci Hci. }
    rewrite (update_fits_returns fixedDeposit edited editing s Hcons Hwf
               Hfind Hold Hnew).
    - f_equal. cbn [status row edited editedApplication items]. rewrite Hres.
      done.
    - intros item Hin. cbn [status row edited editedApplication items].
      rewrite Hres. unfold WorkerBase.stockChangeFor. simpl.
      exact (edited_fits editing cart s Hcons Hb Hfind Hcart Hwithin item
               Hin). }
  split; [apply stockChangedError_None|]. split; [|split].
  - intros Hne Hdates Hwithin. subst result. unfold handleSaveEdits.
    destruct cart as [|ci rest]; [done|]. cbn [length Nat.eqb].
    fold wrongDates. rewrite Hdates.
    rewrite (proj2 (stockChangedError_None _ _ _) Hwithin).
    fold edited. by rewrite Hsaved.
  - intros e s'. subst result. unfold handleSaveEdits.
    destruct (length cart =? 0)%nat; [done|].
    fold wrongDates. destruct wrongDates; [done|].
    destruct (stockChangedError editing cart (getItems s)) as [notice|]
      eqn:Hcheck.
    + intros [= -> _]. clear Hsaved. revert Hcheck.
      induction cart as [|ci rest IH]; simpl; [done|].
      destruct (findItem _ _); [|done].
      destruct (_ >? _); [done|].
      apply NoDup_cons in Hcart as [_ Hcart].
      apply Forall_cons in Hnonneg as [_ Hnonneg]. by apply IH.
    + fold edited. rewrite Hsaved; [done|].
      by apply stockChangedError_None.
  - subst result. unfold handleSaveEdits.
    destruct (length cart =? 0)%nat; [done|].
    fold wrongDates. destruct wrongDates; [done|].
    destruct (stockChangedError editing cart (getItems s)) eqn:Hcheck;
      [done|].
    fold edited. rewrite Hsaved; [done|].
    by apply stockChangedError_None.
Qed.

End EditModalSave.

(** ** Saving an item on the admin page *)

Section AdminPageSave.

Import DataService AdminItemManagementPage.

Lemma replace_with_itself item allItems :
  NoDup (map id allItems) -> item ∈ allItems ->
  map (fun x => if String.eqb (id x) (id item) then item else x) allItems
  = allItems.
Proof.
  induction allItems as [|x rest IH]; simpl; intros Hnd Hin; [done|].
  apply NoDup_cons in Hnd as [Hx Hnd].
  destruct (String.eqb_spec (id x) (id item)) as [Heq|Hne].
  - apply elem_of_cons in Hin as [->|Hin].
    + f_equal. clear IH. induction rest as [|y rest IH]; simpl; [done|].
      simpl in Hx. apply not_elem_of_cons in Hx as [Hy Hx].
      apply NoDup_cons in Hnd as [_ Hnd].
      rewrite (proj2 (String.eqb_neq _ _) (not_eq_sym Hy)).
      f_equal. by apply IH.
    + exfalso. apply Hx. rewrite Heq. apply list_elem_of_fmap. eauto.
  - apply elem_of_cons in Hin as [->|Hin]; [done|]. f_equal. by apply IH.
Qed.

(** X20.  [handleSaveItem] never lets an error of the service through:
    what [updateItem] would refuse, a current stock above the initial
    stock, the page has refused before.  In add mode a save appends one
    item under the new identifier, with a name and a unit, a price that is
    not negative, and its current stock equal to an initial stock that is
    not negative.  In edit mode a save either leaves the storage alone or
    is the [updateItem] of an item with the edited identifier whose
    current stock does not exceed its initial stock.  After the initial
    stock of the modal is changed the stock alert cannot fire, and saving
    a stored item as [openModal] shows it leaves the storage as it was. *)
Theorem admin_save_item_outcome modalMode (editingItem : EditingItem) newId now
        s :
  (forall e s',
      handleSaveItem modalMode (Some editingItem) newId now s
      <> Uncaught e s')
  /\ (forall s',
         handleSaveItem add (Some editingItem) newId now s = Closed s' ->
         exists newItem,
           kaistWelfareItems s' = kaistWelfareItems s ++ [newItem]
           /\ kaistWelfareRentals s' = kaistWelfareRentals s
           /\ id newItem = newId
           /\ name newItem = editingName editingItem
           /\ name newItem <> "" /\ unitName newItem <> ""
           /\ 0 <= price newItem
           /\ currentStock newItem = initialStock newItem
           /\ 0 <= initialStock newItem)
  /\ (forall s',
         handleSaveItem edit (Some editingItem) newId now s = Closed s' ->
         s' = s
         \/ exists itemToUpdate,
             updateItem itemToUpdate s = Returned itemToUpdate s'
             /\ id itemToUpdate = editingId editingItem
             /\ Some (currentStock itemToUpdate)
                = currentStockForEdit editingItem
             /\ currentStock itemToUpdate <= initialStock itemToUpdate
             /\ 0 <= initialStock itemToUpdate
             /\ 0 <= price itemToUpdate)
  /\ (forall val,
         handleSaveItem modalMode
           (Some (handleModalInputChange initialStockField val editingItem))
           newId now s
         <> StockAboveInitialAlert)
  /\ (forall item,
         NoDup (map id (getItems s)) -> item ∈ getItems s ->
         id item <> "" -> name item <> "" -> unitName item <> "" ->
         imageUrl item <> "" ->
         0 <= price item -> 0 <= initialStock item ->
         currentStock item <= initialStock item ->
         handleSaveItem edit (Some (openModal edit (Some item))) newId now s
         = Closed s).
Proof.
  split; [|split; [|split; [|split]]].
  - intros e s'. unfold handleSaveItem.
    destruct (editingInitialStock editingItem) as [initial|]; [|done].
    destruct (editingPrice editingItem) as [price'|]; [|done].
    destruct (_ || _); [done|].
    destruct (currentStockForEdit editingItem) as [current|] eqn:Hcur.
    + destruct (Z.gtb_spec current initial); [done|].
      destruct modalMode; [done|].
      destruct (String.eqb _ ""); [done|].
      unfold updateItem. cbn [currentStock initialStock].
      by destruct (Z.gtb_spec current initial); [lia|].
    + destruct modalMode; [done|]. by destruct (String.eqb _ "").
  - intros s'. unfold handleSaveItem.
    destruct (editingInitialStock editingItem) as [initial|]; [|done].
    destruct (editingPrice editingItem) as [price'|]; [|done].
    destruct (String.eqb_spec (editingName editingItem) ""); [done|].
    destruct (Z.ltb_spec initial 0); [done|].
    destruct (Z.ltb_spec price' 0); [done|].
    destruct (String.eqb_spec (editingUnit editingItem) ""); [done|].
    cbn [orb].
    destruct (match currentStockForEdit editingItem with
              | Some current => current >? initial
              | None => false
              end); [done|].
    intros [= <-]. eexists. unfold ItemService.addItem.
    cbn [snd name initialStock price description imageUrl unitName].
    split; [reflexivity|]. done.
  - intros s'. unfold handleSaveItem.
    destruct (editingInitialStock editingItem) as [initial|]; [|done].
    destruct (editingPrice editingItem) as [price'|]; [|done].
    destruct (String.eqb_spec (editingName editingItem) ""); [done|].
    destruct (Z.ltb_spec initial 0); [done|].
    destruct (Z.ltb_spec price' 0); [done|].
    destruct (String.eqb_spec (editingUnit editingItem) ""); [done|].
    cbn [orb].
    destruct (currentStockForEdit editingItem) as [current|] eqn:Hcur.
    + destruct (Z.gtb_spec current initial); [done|].
      destruct (String.eqb _ ""); [intros [= <-]; by left|].
      match goal with
      | |- context [updateItem ?it s] => set (itemToUpdate := it)
      end.
      destruct (updateItem itemToUpdate s) as [updated s1|] eqn:Hup; [|done].
      intros [= <-]. right. exists itemToUpdate.
      revert Hup. unfold updateItem. cbn [currentStock initialStock itemToUpdate].
      destruct (Z.gtb_spec current initial); [lia|]. intros [= <- <-].
      repeat split; simpl; try done; lia.
    + destruct (String.eqb _ ""); intros [= <-]; by left.
  - intros val. unfold handleSaveItem, handleModalInputChange.
    cbn [editingInitialStock editingPrice currentStockForEdit editingName
         editingUnit].
    destruct (editingPrice editingItem) as [price'|]; [|done].
    destruct (_ || _); [done|].
    destruct (Z.gtb_spec
                (Z.min (default val (currentStockForEdit editingItem)) val)
                val); [lia|].
    destruct modalMode; [done|].
    destruct (String.eqb _ ""); [done|].
    by destruct (updateItem _ s).
  - intros item Hnd Hin Hid Hname Hunit Himage Hprice Hinitial Hcurrent.
    unfold handleSaveItem, openModal.
    cbn [editingInitialStock editingPrice currentStockForEdit editingName
         editingUnit editingId editingDescription editingImageUrl].
    rewrite (proj2 (String.eqb_neq _ _) Hname).
    rewrite (proj2 (String.eqb_neq _ _) Hunit).
    rewrite (proj2 (String.eqb_neq _ _) Hid).
    destruct (Z.ltb_spec (initialStock item) 0); [lia|].
    destruct (Z.ltb_spec (price item) 0); [lia|]. cbn [orb].
    destruct (Z.gtb_spec (currentStock item) (initialStock item)); [lia|].
    unfold orElse. rewrite (proj2 (String.eqb_neq _ _) Himage).
    assert (Hsame : mkItem (id item) (name item) (initialStock item)
                           (currentStock item) (price item) (description item)
                           (imageUrl item) (unitName item) = item)
      by (by destruct item).
    rewrite Hsame. unfold updateItem.
    destruct (Z.gtb_spec (currentStock item) (initialStock item)); [lia|].
    f_equal. unfold setItems.
    rewrite (replace_with_itself item (getItems s) Hnd Hin).
    by destruct s.
Qed.

End AdminPageSave.

(** ** The dashboard of the worker *)

Section WorkerDashboard.

Import D1 D1Catalog WorkerBase WorkerCatalog.

Lemma filter_ledgerOf (p : ApplicationRow -> bool) db :
  length (List.filter (fun r : RentalApplication => p r) (ledgerOf db))
  = length (List.filter p (RentalApplications db)).
Proof.
  unfold ledgerOf.
  induction (RentalApplications db) as [|r rest IH]; simpl; [done|].
  destruct (p r); simpl; by rewrite IH.
Qed.

Lemma filter_length_le {A} (p : A -> bool) (l : list A) :
  (length (List.filter p l) <= length l)%nat.
Proof.
  induction l as [|x rest IH]; simpl; [done|]. destruct (p x); simpl; lia.
Qed.

Lemma filter_length_and {A} (p q : A -> bool) (l : list A) :
  (length (List.filter (fun x => p x && q x) l)
   <= length (List.filter p l))%nat.
Proof.
  induction l as [|x rest IH]; simpl; [done|].
  destruct (p x), (q x); simpl; lia.
Qed.

Lemma filter_length_snoc {A} (p : A -> bool) (l : list A) x :
  length (List.filter p (l ++ [x]))
  = (length (List.filter p l) + if p x then 1 else 0)%nat.
Proof.
  rewrite List.filter_app, length_app. simpl. by destruct (p x).
Qed.

(** X21.  GET /api/admin/dashboard/stats answers with the four counts
    [getAdminDashboardStats] computes from the same items and the same
    applications.  Applications due today are among those rented, new and
    rented applications together are no more than the applications, and
    the items low on stock no more than the items.  A request that
    POST /api/rentals/apply answers with 201 raises the new requests by
    one and leaves the rented and the due counts. *)
Theorem worker_dashboard_counts today env appData newId day db :
  let stats := getDashboardStats today db in
  stats
  = RentalService.getAdminDashboardStats today
      (DataService.mkStorage (Items db) (ledgerOf db))
  /\ (RentalService.dueToday stats <= RentalService.currentlyRented stats)%nat
  /\ (RentalService.newRequests stats + RentalService.currentlyRented stats
      <= length (RentalApplications db))%nat
  /\ (RentalService.lowStockItems stats <= length (Items db))%nat
  /\ (NoDup (map id (Items db)) -> NoDup (itemIds (items appData)) ->
      forall app db',
        Worker.postRentalsApply env appData newId day db
        = (Json 201 app, db') ->
        let stats' := getDashboardStats today db' in
        RentalService.newRequests stats'
        = S (RentalService.newRequests stats)
        /\ RentalService.currentlyRented stats'
           = RentalService.currentlyRented stats
        /\ RentalService.dueToday stats' = RentalService.dueToday stats).
Proof.
  intros stats. subst stats.
  unfold getDashboardStats, RentalService.getAdminDashboardStats,
    countByStatus, countByStatusAndReturnDate, countLowStock.
  cbn [RentalService.newRequests RentalService.dueToday
       RentalService.currentlyRented RentalService.lowStockItems
       DataService.getRentalApplications DataService.getItems
       DataService.kaistWelfareItems DataService.kaistWelfareRentals].
  split; [|split; [|split; [|split]]].
  - pose proof (filter_ledgerOf
                  (fun r : ApplicationRow => bool_decide (status r = PENDING))
                  db) as Hnew.
    pose proof (filter_ledgerOf
                  (fun r : ApplicationRow =>
                     bool_decide (status r = RENTED)
                     && String.eqb (returnDate r) today) db) as Hdue.
    pose proof (filter_ledgerOf
                  (fun r : ApplicationRow => bool_decide (status r = RENTED))
                  db) as Hrented.
    cbn beta in Hnew, Hdue, Hrented. by rewrite Hnew, Hdue, Hrented.
  - apply filter_length_and.
  - induction (RentalApplications db) as [|r rest IH]; simpl; [done|].
    destruct (status r); simpl; lia.
  - apply filter_length_le.
  - intros Hnd Hsel app db'. unfold Worker.postRentalsApply.
    destruct (Worker.prepareApplication _ _ _ _ _) as [e|prepared] eqn:Hprep;
      [done|].
    unfold Worker.commitApplication.
    destruct (batch _ db) as [db1|] eqn:Hb; [|done]. intros [= <- <-].
    destruct (worker_create_run _ _ _ _ _ _ _ Hnd Hsel Hprep Hb)
      as (Hnew & _ & _ & Happs & _).
    rewrite Happs, !filter_length_snoc. rewrite Hnew.
    unfold insertedRow, Worker.newApplicationOf. simpl. lia.
Qed.

End WorkerDashboard.

(** ** The base64url round trip *)

Section Base64Url.

Import Stdlib.Strings.Ascii JwtUtilities.

Lemma string_app_cons x s t :
  (String x s ++ t)%string = String x (s ++ t)%string.
Proof. reflexivity. Qed.

Lemma string_app_nil t : ("" ++ t)%string = t.
Proof. reflexivity. Qed.

Lemma string_app_empty_r s : (s ++ "")%string = s.
Proof.
  induction s as [|x s IH]; [done|]. by rewrite string_app_cons, IH.
Qed.

Lemma string_app_assoc s t u :
  ((s ++ t) ++ u)%string = (s ++ (t ++ u))%string.
Proof.
  induction s as [|x s IH]; [done|]. by rewrite !string_app_cons, IH.
Qed.

Lemma binary_of_buffer (buffer : list Ascii.ascii) acc :
  fold_left (fun binary byte => (binary ++ String byte EmptyString)%string)
            buffer acc
  = (acc ++ String.string_of_list_ascii buffer)%string.
Proof.
  revert acc. induction buffer as [|b rest IH]; intros acc; simpl.
  - by rewrite string_app_empty_r.
  - by rewrite IH, string_app_assoc, string_app_cons, string_app_nil.
Qed.

Lemma replaceAll_app c d s t :
  replaceAll c d (s ++ t) = (replaceAll c d s ++ replaceAll c d t)%string.
Proof.
  induction s as [|x s IH]; [done|].
  rewrite string_app_cons. simpl. by rewrite IH, string_app_cons.
Qed.

Lemma replaceAll_equals (c d : Ascii.ascii) k :
  c <> "="%char -> replaceAll c d (repeatEquals k) = repeatEquals k.
Proof.
  intros Hc. induction k as [|k IH]; [done|].
  cbn [repeatEquals replaceAll]. rewrite IH.
  destruct (Ascii.eqb_spec "=" c); [congruence | done].
Qed.

Lemma replaceAll_back c d s :
  freeOf d s -> replaceAll d c (replaceAll c d s) = s.
Proof.
  induction s as [|x s IH]; simpl; [done|]. intros [Hx Hs]. rewrite IH by done.
  destruct (Ascii.eqb_spec x c) as [->|Hne].
  - by rewrite Ascii.eqb_refl.
  - by rewrite (proj2 (Ascii.eqb_neq _ _) Hx).
Qed.

Lemma freeOf_replaceAll e c d s :
  d <> e -> freeOf e s -> freeOf e (replaceAll c d s).
Proof.
  intros Hd. induction s as [|x s IH]; simpl; [done|]. intros [Hx Hs].
  split; [|by apply IH]. by destruct (Ascii.eqb x c).
Qed.

Lemma stripTrailingEquals_free s :
  freeOf "=" s -> stripTrailingEquals s = s.
Proof.
  induction s as [|x s IH]; simpl; [done|]. intros [Hx Hs]. rewrite IH by done.
  destruct s; [|done]. by rewrite (proj2 (Ascii.eqb_neq _ _) Hx).
Qed.

Lemma stripTrailingEquals_run k : stripTrailingEquals (repeatEquals k) = "".
Proof. induction k as [|k IH]; simpl; [done | by rewrite IH]. Qed.

Lemma stripTrailingEquals_app s k :
  freeOf "=" s -> stripTrailingEquals (s ++ repeatEquals k) = s.
Proof.
  induction s as [|x s IH]; [intros _; apply stripTrailingEquals_run|].
  intros [Hx Hs]. rewrite string_app_cons. simpl. rewrite IH by done.
  destruct s; [|done]. by rewrite (proj2 (Ascii.eqb_neq _ _) Hx).
Qed.

Lemma string_length_app s t :
  String.length (s ++ t) = (String.length s + String.length t)%nat.
Proof.
  induction s as [|x s IH]; [done|]. rewrite string_app_cons. simpl.
  by rewrite IH.
Qed.

Lemma length_repeatEquals k : String.length (repeatEquals k) = k.
Proof. induction k as [|k IH]; simpl; [done | by rewrite IH]. Qed.

Lemma app_repeatEquals_S s k :
  ((s ++ "=") ++ repeatEquals k)%string = (s ++ repeatEquals (S k))%string.
Proof. by rewrite string_app_assoc. Qed.

Lemma padWhile_restores fuel s k n :
  (k <= fuel)%nat -> (k < 4)%nat ->
  (String.length s + k = 4 * n)%nat ->
  padWhile fuel s = (s ++ repeatEquals k)%string.
Proof.
  revert s k. induction fuel as [|fuel IH]; intros s k Hfuel Hk Hlen.
  - assert (k = 0%nat) as -> by lia. simpl. by rewrite string_app_empty_r.
  - cbn [padWhile].
    pose proof (Nat.div_mod_eq (String.length s) 4) as Hdiv.
    pose proof (Nat.mod_upper_bound (String.length s) 4 ltac:(lia)) as Hlt.
    destruct (Nat.eqb_spec (String.length s mod 4) 0) as [Hzero|Hnonzero].
    + assert (k = 0%nat) as -> by lia. simpl. by rewrite string_app_empty_r.
    + destruct k as [|k]; [lia|].
      rewrite (IH (s ++ "=")%string k); [apply app_repeatEquals_S|lia|lia|].
      rewrite string_length_app. cbn [String.length]. lia.
Qed.

(** X22.  Decoding what [arrayBufferToBase64Url] encodes gives the bytes
    back: for a buffer on which [btoa] returns a padded base64 string and
    [atob] inverts [btoa], [base64UrlToUint8Array] of the encoding is the
    buffer, and the encoding has no [=], so the padding it lost is the
    padding the decoder's loop adds. *)
Theorem base64url_round_trip btoa atob (buffer : list Ascii.ascii) :
  base64Shape (btoa (String.string_of_list_ascii buffer)) ->
  atob (btoa (String.string_of_list_ascii buffer)) = String.string_of_list_ascii buffer ->
  base64UrlToUint8Array atob (arrayBufferToBase64Url btoa buffer) = buffer
  /\ freeOf "=" (arrayBufferToBase64Url btoa buffer)
  /\ padWhile 3 (replaceAll "_" "/"
                   (replaceAll "-" "+" (arrayBufferToBase64Url btoa buffer)))
     = btoa (String.string_of_list_ascii buffer).
Proof.
  intros (body & k & Hb & Hk & [n Hlen] & Heq & Hminus & Hunder) Hinverse.
  unfold base64UrlToUint8Array, arrayBufferToBase64Url.
  rewrite binary_of_buffer, string_app_nil.
  set (b := btoa (String.string_of_list_ascii buffer)) in *.
  assert (Hurl : stripTrailingEquals
                   (replaceAll "/" "_" (replaceAll "+" "-" b))
                 = replaceAll "/" "_" (replaceAll "+" "-" body)).
  { rewrite Hb, !replaceAll_app, !replaceAll_equals by done.
    apply stripTrailingEquals_app.
    apply freeOf_replaceAll; [done|]. by apply freeOf_replaceAll. }
  assert (Hback : replaceAll "_" "/"
                    (replaceAll "-" "+"
                       (replaceAll "/" "_" (replaceAll "+" "-" body)))
                  = body).
  { assert (Hswap : forall s,
               replaceAll "-" "+" (replaceAll "/" "_" s)
               = replaceAll "/" "_" (replaceAll "-" "+" s)).
    { clear. induction s as [|x s IH]; simpl; [done|]. rewrite IH.
      f_equal.
      destruct (Ascii.eqb_spec x "/") as [->|H1]; [done|].
      destruct (Ascii.eqb_spec x "-") as [->|H2]; [done|].
      by rewrite (proj2 (Ascii.eqb_neq _ _) H1). }
    rewrite Hswap, (replaceAll_back "+" "-") by done.
    by apply replaceAll_back. }
  assert (Hpad : padWhile 3 body = b).
  { rewrite Hb. apply (padWhile_restores 3 body k n); [lia | lia|].
    rewrite Hb, string_length_app, length_repeatEquals in Hlen. done. }
  rewrite Hurl, Hback, Hpad, Hinverse.
  split; [apply String.list_ascii_of_string_of_list_ascii|]. split; [|done].
  apply freeOf_replaceAll; [done|]. by apply freeOf_replaceAll.
Qed.

End Base64Url.

(** ** C8: the costs that are stored *)

Section StoredCosts.

Import D1 WorkerBase.

Lemma findApplication_replaced a (new old : RentalApplication) ledger :
  findApplication a ledger = Some old -> appId new = a ->
  findApplication a (replaceApplication new ledger) = Some new.
Proof.
  unfold findApplication, replaceApplication. intros Hfind <-.
  induction ledger as [|x rest IH]; simpl in *; [done|].
  destruct (String.eqb (appId x) (appId new)) eqn:E.
  - simpl. by rewrite String.eqb_refl.
  - simpl. rewrite E. by apply IH.
Qed.

Lemma service_update_stored fixedDeposit (updatedApp : RentalApplication) s
      app s' :
  DataService.updateRentalApplication fixedDeposit updatedApp s
  = DataService.Returned app s' ->
  findApplication (appId updatedApp) (DataService.kaistWelfareRentals s')
  = Some app.
Proof.
  intros Hret.
  destruct (update_returned _ _ _ _ _ Hret) as (old & Hfind & _ & Hid & ->).
  by apply (findApplication_replaced _ _ old).
Qed.

Lemma run_decrements_applications selected db db' :
  run (decrementsOf selected) db = Some db' ->
  RentalApplications db' = RentalApplications db.
Proof.
  revert db. induction selected as [|e rest IH]; intros db; simpl.
  - by intros [= <-].
  - destruct (updateItems _ _ _) as [rows|]; [|done].
    intros Hrun. by rewrite (IH _ Hrun).
Qed.

Lemma worker_create_stored env appData newId today db app db' :
  Worker.postRentalsApply env appData newId today db = (Json 201 app, db') ->
  app = Worker.newApplicationOf env appData newId today (Items db)
  /\ selectApplication newId db' = Some (insertedRow app).
Proof.
  unfold Worker.postRentalsApply, Worker.prepareApplication.
  destruct (Worker.prepareStockAdjustments _ _) as [e|stockOps] eqn:Hstock;
    [done|].
  unfold Worker.commitApplication. cbn [fst snd].
  destruct (batch _ db) as [db1|] eqn:Hbatch; [|done].
  intros [= <- <-]. split; [done|].
  apply prepareStockAdjustments_inr in Hstock as [-> _].
  unfold batch in Hbatch. cbn [run exec] in Hbatch.
  cbn [Worker.newApplicationOf appId row items] in Hbatch.
  destruct (hasApplication newId db) eqn:Hfresh; [done|].
  fold (insertsOf newId (items appData)) in Hbatch.
  rewrite run_app in Hbatch.
  destruct (run (insertsOf _ _) _) as [db2|] eqn:E1; [|done].
  apply run_inserts in E1 as (_ & Ha1 & _). simpl in Ha1.
  apply run_decrements_applications in Hbatch.
  destruct db1 as [its apps rows]. simpl in Hbatch. subst apps.
  rewrite Ha1. destruct db as [its0 apps0 rows0].
  by apply (selectApplication_added newId _ its0 apps0 rows0).
Qed.

Lemma workerV1_manage_costs env originalApp core newItems db finalApp ops :
  WorkerV1.manageRentalUpdate env originalApp core newItems db
  = inr (finalApp, ops) ->
  items finalApp = newItems
  /\ costsRecomputed (FIXED_DEPOSIT_AMOUNT_FN env) (Items db) finalApp.
Proof.
  unfold WorkerV1.manageRentalUpdate.
  destruct (WorkerV1.stockUpdates _ _ _ _ _ _ _); [done|]. intros [= <- _].
  unfold costsRecomputed, finalAppOf, calculateRentalCosts.
  rewrite !cost_fold_shift. simpl. done.
Qed.

Lemma prepareStockAdjustmentsV1_inr selected allItems ops :
  WorkerV1Apply.prepareStockAdjustments selected allItems = inr ops ->
  ops = decrementsOf selected.
Proof.
  revert ops. induction selected as [|e rest IH]; simpl; intros ops H.
  - by injection H as <-.
  - destruct (findItem (itemId e) allItems) as [item|]; [|done].
    destruct (currentStock item <? quantity e); [done|].
    destruct (WorkerV1Apply.prepareStockAdjustments rest allItems)
      as [?|ops']; [done|].
    injection H as <-. by rewrite (IH ops' eq_refl).
Qed.

(** What a batch of a create leaves under the new identifier. *)
Lemma create_batch_stored (newApplication : RentalApplication) selected db
      db' :
  batch (InsertApplication newApplication
         :: insertsOf (appId newApplication) (items newApplication)
         ++ decrementsOf selected) db = Some db' ->
  selectApplication (appId newApplication) db'
  = Some (insertedRow newApplication).
Proof.
  unfold batch. cbn [run exec]. intros Hbatch.
  destruct (hasApplication (appId newApplication) db) eqn:Hfresh; [done|].
  rewrite run_app in Hbatch.
  destruct (run (insertsOf _ _) _) as [db2|] eqn:E1; [|done].
  apply run_inserts in E1 as (_ & Ha1 & _). simpl in Ha1.
  apply run_decrements_applications in Hbatch.
  destruct db' as [its apps rows]. simpl in Hbatch. subst apps.
  rewrite Ha1. destruct db as [its0 apps0 rows0].
  by apply (selectApplication_added (appId newApplication) _ its0 apps0 rows0).
Qed.

Lemma workerV1_create_stored env appData newId today db app db' :
  WorkerV1Apply.postRentalsApply env appData newId today db
  = (Json 201 app, db') ->
  app = Worker.newApplicationOf env appData newId today (Items db)
  /\ selectApplication newId db' = Some (insertedRow app).
Proof.
  unfold WorkerV1Apply.postRentalsApply.
  destruct (WorkerV1Apply.prepareStockAdjustments _ _) as [e|stockOps]
    eqn:Hstock; [done|].
  destruct (batch _ db) as [db1|] eqn:Hbatch; [|done].
  intros [= <- <-]. split; [done|].
  apply prepareStockAdjustmentsV1_inr in Hstock as ->.
  by apply (create_batch_stored _ _ _ _ Hbatch).
Qed.

(** C8.  [calculateRentalCosts] (in the service and in the worker) returns
    as [totalItemCost] the sum of price times quantity over exactly the
    selected entries whose item resolves in the price list, an entry that
    does not resolve adding nothing and raising nothing, and as
    [totalAmount] that sum plus the fixed deposit.  After every create and
    every edit that succeeds, the application stored under the identifier
    (in the storage of the service, in the database of the worker, in
    both variants of its handlers) carries the fields so computed from
    the items and the inventory read, whatever the request carried in
    them, and so does the application returned. *)
Theorem cost_calculation :
  (forall fixedDeposit selected priceList,
      DataService.calculateRentalCosts fixedDeposit selected priceList
      = (specTotalItemCost selected priceList,
         specTotalItemCost selected priceList + fixedDeposit))
  /\ (forall env selected priceList,
         WorkerBase.calculateRentalCosts selected priceList env
         = (specTotalItemCost selected priceList,
            specTotalItemCost selected priceList
            + WorkerBase.FIXED_DEPOSIT_AMOUNT_FN env))
  /\ (forall e rest priceList,
         findItem (itemId e) priceList = None ->
         specTotalItemCost (e :: rest) priceList
         = specTotalItemCost rest priceList)
  /\ (forall fixedDeposit appData newId today s app s',
         DataService.addRentalApplication fixedDeposit appData newId today s
         = DataService.Returned app s' ->
         items app = items appData
         /\ costsRecomputed fixedDeposit (DataService.getItems s) app
         /\ app ∈ DataService.kaistWelfareRentals s'
         /\ DataService.kaistWelfareRentals s'
            = DataService.kaistWelfareRentals s ++ [app])
  /\ (forall fixedDeposit updatedApp s app s',
         DataService.updateRentalApplication fixedDeposit updatedApp s
         = DataService.Returned app s' ->
         items app = items updatedApp
         /\ costsRecomputed fixedDeposit (DataService.getItems s) app
         /\ findApplication (appId updatedApp)
                            (DataService.kaistWelfareRentals s')
            = Some app)
  /\ (forall env appData newId today db app db',
         Worker.postRentalsApply env appData newId today db
         = (WorkerBase.Json 201 app, db') ->
         items app = items appData
         /\ costsRecomputed (WorkerBase.FIXED_DEPOSIT_AMOUNT_FN env)
                            (D1.Items db) app
         /\ D1.selectApplication newId db' = Some (D1.insertedRow app)
         /\ costsRecomputed (WorkerBase.FIXED_DEPOSIT_AMOUNT_FN env)
                            (D1.Items db)
                            (mkApp (D1.insertedRow app) (items app)))
  /\ (forall env rentalId body db app db',
         Worker.putRental env rentalId body db
         = (WorkerBase.Json 200 app, db') ->
         items app = default [] (WorkerBase.patchItems body)
         /\ costsRecomputed (WorkerBase.FIXED_DEPOSIT_AMOUNT_FN env)
                            (D1.Items db) app
         /\ D1.selectApplication rentalId db' = Some (row app)
         /\ D1.selectItemsOf rentalId db' = items app)
  /\ (forall env rentalId body db app db',
         Worker.putAdminRental env rentalId body db
         = (WorkerBase.Json 200 app, db') ->
         items app = D1.selectItemsOf rentalId db
         /\ costsRecomputed (WorkerBase.FIXED_DEPOSIT_AMOUNT_FN env)
                            (D1.Items db) app
         /\ D1.selectApplication rentalId db' = Some (row app)
         /\ D1.selectItemsOf rentalId db' = items app)
  /\ (forall env appData newId today db app db',
         WorkerV1Apply.postRentalsApply env appData newId today db
         = (WorkerBase.Json 201 app, db') ->
         items app = items appData
         /\ costsRecomputed (WorkerBase.FIXED_DEPOSIT_AMOUNT_FN env)
                            (D1.Items db) app
         /\ D1.selectApplication newId db' = Some (D1.insertedRow app)
         /\ costsRecomputed (WorkerBase.FIXED_DEPOSIT_AMOUNT_FN env)
                            (D1.Items db)
                            (mkApp (D1.insertedRow app) (items app)))
  /\ (forall env rentalId body db app db',
         WorkerV1.putRental env rentalId body db
         = (WorkerBase.Json 200 app, db') ->
         items app = default [] (WorkerBase.patchItems body)
         /\ costsRecomputed (WorkerBase.FIXED_DEPOSIT_AMOUNT_FN env)
                            (D1.Items db) app
         /\ D1.selectApplication rentalId db' = Some (row app)
         /\ D1.selectItemsOf rentalId db' = items app)
  /\ (forall env rentalId body db app db',
         WorkerV1.putAdminRental env rentalId body db
         = (WorkerBase.Json 200 app, db') ->
         items app = default (D1.selectItemsOf rentalId db)
                             (WorkerBase.patchItems body)
         /\ costsRecomputed (WorkerBase.FIXED_DEPOSIT_AMOUNT_FN env)
                            (D1.Items db) app
         /\ D1.selectApplication rentalId db' = Some (row app)
         /\ D1.selectItemsOf rentalId db' = items app).
Proof.
  assert (HmanagedV1 : forall env row0 core newItems db rentalId ops app db',
             selectApplication rentalId db = Some row0 ->
             WorkerV1.manageRentalUpdate env
               (mkApp row0 (selectItemsOf rentalId db)) core newItems db
             = inr (app, ops) ->
             batch ops db = Some db' ->
             items app = newItems
             /\ costsRecomputed (FIXED_DEPOSIT_AMOUNT_FN env) (Items db) app
             /\ selectApplication rentalId db' = Some (row app)
             /\ selectItemsOf rentalId db' = items app).
  { intros env row0 core newItems db rentalId ops app db' Hsel Hm Hb.
    destruct (workerV1_manage_costs _ _ _ _ _ _ _ Hm) as [Hitems Hcosts].
    split; [done|]. split; [done|].
    unfold WorkerV1.manageRentalUpdate in Hm.
    destruct (WorkerV1.stockUpdates _ _ _ _ _ _ _) as [e|stockOps] eqn:Hstock;
      [done|].
    injection Hm as <- <-.
    apply workerV1_stockUpdates_increases in Hstock.
    destruct (update_persisted _ _ _ _ _ _ _ _ Hsel Hstock Hb) as [Hrow Hrows].
    split; [exact Hrow|]. by rewrite Hrows. }
  assert (Hmanaged : forall env row0 core newItems db rentalId ops app db',
             selectApplication rentalId db = Some row0 ->
             Worker.manageRentalUpdate env
               (mkApp row0 (selectItemsOf rentalId db)) core newItems db
             = inr (app, ops) ->
             batch ops db = Some db' ->
             items app = newItems
             /\ costsRecomputed (FIXED_DEPOSIT_AMOUNT_FN env) (Items db) app
             /\ selectApplication rentalId db' = Some (row app)
             /\ selectItemsOf rentalId db' = items app).
  { intros env row0 core newItems db rentalId ops app db' Hsel Hm Hb.
    destruct (worker_manage_costs _ _ _ _ _ _ _ Hm) as [Hitems Hcosts].
    split; [done|]. split; [done|].
    unfold Worker.manageRentalUpdate in Hm.
    destruct (Worker.stockUpdates _ _ _ _ _ _ _) as [e|stockOps] eqn:Hstock;
      [done|].
    injection Hm as <- <-.
    apply worker_stockUpdates_increases in Hstock.
    destruct (update_persisted _ _ _ _ _ _ _ _ Hsel Hstock Hb) as [Hrow Hrows].
    split; [exact Hrow|]. by rewrite Hrows. }
  split; [exact dataService_costs|].
  split; [exact worker_costs|].
  split; [exact specTotalItemCost_unresolved|].
  split.
  { intros D appData newId today s app s' Hret.
    destruct (add_returned _ _ _ _ _ _ _ Hret) as [_ Hrentals].
    revert Hret. unfold DataService.addRentalApplication.
    destruct (DataService.validateStock _ _); [done|].
    destruct (DataService.forEach _ _ _) as [u s1|]; [|done].
    intros [= <- _].
    split; [done|].
    split; [rewrite !cost_fold_shift; simpl; by unfold costsRecomputed|].
    split; [|exact Hrentals].
    rewrite Hrentals. apply elem_of_app. right.
    by apply list_elem_of_singleton. }
  split.
  { intros D updatedApp s app s' Hret.
    split; [|split; [|by eapply service_update_stored]]; revert Hret;
      unfold DataService.updateRentalApplication;
      (destruct (find _ _); [|done]);
      (destruct (DataService.collectAdjustments _ _ _ _ _ _); [done|]);
      (destruct (DataService.validateAdjustments _ _ _); [done|]);
      (destruct (DataService.forEach _ _ _) as [u s1|]; [|done]);
      intros [= <- _]; rewrite ?cost_fold_shift; simpl; done. }
  split.
  { intros env appData newId today db app db' Hpost.
    destruct (worker_create_stored _ _ _ _ _ _ _ Hpost) as [-> Hstored].
    assert (Hcosts : costsRecomputed (FIXED_DEPOSIT_AMOUNT_FN env) (Items db)
                       (Worker.newApplicationOf env appData newId today
                                                (Items db))).
    { unfold Worker.newApplicationOf, calculateRentalCosts.
      rewrite !cost_fold_shift. simpl. by unfold costsRecomputed. }
    split; [done|]. split; [done|]. split; [exact Hstored|].
    exact Hcosts. }
  split.
  { intros env rentalId body db app db' Hput.
    apply worker_putRental_success in Hput
      as (_ & row0 & ops & Hsel & _ & Hm & Hb).
    by eapply Hmanaged. }
  split.
  { intros env rentalId body db app db' Hput.
    apply worker_putAdminRental_success in Hput
      as (row0 & ops & Hsel & Hm & Hb).
    by eapply Hmanaged. }
  split.
  { intros env appData newId today db app db' Hpost.
    destruct (workerV1_create_stored _ _ _ _ _ _ _ Hpost) as [-> Hstored].
    assert (Hcosts : costsRecomputed (FIXED_DEPOSIT_AMOUNT_FN env) (Items db)
                       (Worker.newApplicationOf env appData newId today
                                                (Items db))).
    { unfold Worker.newApplicationOf, calculateRentalCosts.
      rewrite !cost_fold_shift. simpl. by unfold costsRecomputed. }
    split; [done|]. split; [done|]. split; [exact Hstored|].
    exact Hcosts. }
  split.
  { intros env rentalId body db app db' Hput.
    apply workerV1_putRental_success in Hput
      as (_ & row0 & ops & Hsel & _ & Hm & Hb).
    by eapply HmanagedV1. }
  { intros env rentalId body db app db' Hput.
    apply workerV1_putAdminRental_success in Hput
      as (row0 & ops & Hsel & Hm & Hb).
    by eapply HmanagedV1. }
Qed.

End StoredCosts.

(** ** C5: the cap of the reconciliation *)

Section CappedEngine.

Import D1 WorkerBase.

Lemma cappedFor_found allItems change j item :
  findItem j allItems = Some item ->
  cappedFor allItems change j
  = cappedChange (currentStock item) (initialStock item) (change j).
Proof. unfold cappedFor. by intros ->. Qed.

Lemma cappedFor_still allItems change j :
  change j = 0 -> cappedFor allItems change j = 0.
Proof.
  unfold cappedFor. intros ->. by destruct (findItem j allItems).
Qed.

Lemma capped_in_bounds item change :
  stockInBounds item -> 0 <= currentStock item + change ->
  0 <= currentStock item
       + cappedChange (currentStock item) (initialStock item) change
    <= initialStock item.
Proof.
  unfold stockInBounds, cappedChange. intros Hb Hlow.
  destruct (Z.gtb_spec change 0); simpl; [|lia].
  destruct (Z.gtb_spec (currentStock item + change) (initialStock item)); lia.
Qed.

(** The loop of the direct variant pushes, for each involved item that is
    stored, its capped change. *)
Lemma stockUpdates_capped oldRes newRes oldItems newItems allItems involved
      (stockMap : gmap string Z) :
  let change := fun j => stockChangeFor oldRes newRes (qtyOf j oldItems)
                                        (qtyOf j newItems) in
  NoDup involved ->
  (forall j item,
      j ∈ involved -> findItem j allItems = Some item ->
      stockMap !! j = Some (currentStock item)
      /\ 0 <= currentStock item + change j) ->
  Worker.stockUpdates oldRes newRes oldItems newItems allItems involved
                      stockMap
  = inr (Worker.restoreOperations
           (changeEntries (cappedFor allItems change) allItems involved)).
Proof.
  intros change Hnd. revert stockMap.
  induction Hnd as [|j rest Hj Hnd IH]; intros stockMap Hall; [done|].
  cbn [Worker.stockUpdates changeEntries flat_map].
  fold (changeEntries (cappedFor allItems change) allItems rest).
  destruct (findItem j allItems) as [item|] eqn:Hitem.
  2:{ apply IH. intros k x Hk. apply Hall. apply elem_of_cons; auto. }
  destruct (Hall j item) as (Hlook & Hlow); [apply elem_of_cons; auto|done|].
  fold (change j).
  rewrite worker_stockUpdateFor_ok by (rewrite Hlook; simpl; lia).
  rewrite Hlook. cbn [default Datatypes.id].
  rewrite (cappedFor_found _ _ _ _ Hitem).
  unfold writtenFor.
  destruct (cappedChange _ _ _ =? 0) eqn:Hzero.
  - rewrite IH; [done|].
    intros k x Hk. apply Hall. apply elem_of_cons; auto.
  - rewrite IH.
    + unfold Worker.restoreOperations. by rewrite map_app.
    + intros k x Hk Hx.
      destruct (Hall k x) as (Hlook' & Hrest); [apply elem_of_cons; auto|done|].
      split; [|done].
      rewrite lookup_insert_ne; [done|]. intros ->. done.
Qed.

(** So does the loop of the router variant, on items all stored and
    none above its initial stock. *)
Lemma stockUpdatesV1_capped oldRes newRes oldItems newItems allItems involved
      (stockMap : gmap string Z) :
  let change := fun j => stockChangeFor oldRes newRes (qtyOf j oldItems)
                                        (qtyOf j newItems) in
  NoDup involved ->
  (forall j, j ∈ involved ->
             exists item,
               findItem j allItems = Some item
               /\ stockMap !! j = Some (currentStock item)
               /\ 0 <= currentStock item + change j
               /\ currentStock item <= initialStock item) ->
  WorkerV1.stockUpdates oldRes newRes oldItems newItems allItems involved
                        stockMap
  = inr (Worker.restoreOperations
           (changeEntries (cappedFor allItems change) allItems involved)).
Proof.
  intros change Hnd. revert stockMap.
  induction Hnd as [|j rest Hj Hnd IH]; intros stockMap Hall; [done|].
  cbn [WorkerV1.stockUpdates changeEntries flat_map].
  fold (changeEntries (cappedFor allItems change) allItems rest).
  destruct (Hall j) as (item & Hitem & Hlook & Hlow & Hhigh);
    [apply elem_of_cons; auto|].
  rewrite Hitem. fold (change j).
  rewrite workerV1_stockUpdateFor_ok by (rewrite Hlook; simpl; lia).
  rewrite Hlook. cbn [default Datatypes.id].
  rewrite (cappedFor_found _ _ _ _ Hitem).
  unfold writtenFor.
  destruct (cappedChange _ _ _ =? 0) eqn:Hzero.
  - rewrite IH; [done|].
    intros k Hk. apply Hall. apply elem_of_cons; auto.
  - rewrite IH.
    + unfold Worker.restoreOperations. by rewrite map_app.
    + intros k Hk.
      destruct (Hall k) as (x & Hx & Hlook' & Hrest);
        [apply elem_of_cons; auto|].
      exists x. split; [done|]. split; [|done].
      rewrite lookup_insert_ne; [done|]. intros ->. done.
Qed.

Lemma entryTotal_capped allItems change involved k :
  entryTotal k (changeEntries (cappedFor allItems change) allItems involved)
  = foldr (fun j acc => only j (cappedFor allItems change j) k + acc) 0
          involved.
Proof.
  induction involved as [|j rest IH]; [done|].
  cbn [changeEntries flat_map foldr].
  fold (changeEntries (cappedFor allItems change) allItems rest).
  rewrite entryTotal_app, IH. f_equal.
  unfold only. rewrite (String.eqb_sym k j).
  destruct (findItem j allItems) as [item|] eqn:Hitem.
  - destruct (Z.eqb_spec (cappedFor allItems change j) 0) as [Hz|Hnz].
    + rewrite Hz. simpl. by destruct (String.eqb j k).
    + simpl. destruct (String.eqb j k); lia.
  - unfold cappedFor. rewrite Hitem. simpl. by destruct (String.eqb j k).
Qed.

(** The statements of the capped changes all go through on a database
    within its bounds, and move every item by its capped change. *)
Lemma run_capped db change involved :
  NoDup (map id (Items db)) ->
  Forall stockInBounds (Items db) ->
  NoDup involved ->
  (forall item, item ∈ Items db -> 0 <= currentStock item + change (id item)) ->
  (forall j, j ∉ involved -> change j = 0) ->
  run (Worker.restoreOperations
         (changeEntries (cappedFor (Items db) change) (Items db) involved)) db
  = Some (mkDb (applyStockChange (cappedFor (Items db) change) (Items db))
               (RentalApplications db) (RentalApplicationItems db)).
Proof.
  intros Hids Hb Hnd Hfits Hout.
  rewrite run_restore_ok.
  - do 2 f_equal. apply applyStockChange_ext. intros item _.
    rewrite entryTotal_capped.
    destruct (decide (id item ∈ involved)) as [Hin|Hno].
    + by rewrite change_sum_present.
    + rewrite change_sum_absent by done.
      by rewrite cappedFor_still by auto.
  - by apply NoDup_changeEntries.
  - intros e r He Hr Hid.
    apply elem_of_changeEntries in He as (_ & Hq & _).
    rewrite Hq, <- Hid, (cappedFor_found _ _ _ r) by by apply findItem_unique.
    rewrite Forall_forall in Hb.
    pose proof (capped_in_bounds r (change (id r)) (Hb r Hr) (Hfits r Hr)).
    unfold stockInBounds. simpl. lia.
Qed.

Lemma change_outside oldRes newRes oldItems newItems j :
  j ∉ allInvolvedItemIds oldItems newItems ->
  stockChangeFor oldRes newRes (qtyOf j oldItems) (qtyOf j newItems) = 0.
Proof.
  rewrite elem_of_allInvolved. intros Hno.
  rewrite !qtyOf_absent by tauto. apply stockChangeFor_zero.
Qed.

Lemma run_ledger_items (originalApp finalApp : RentalApplication) newItems
      db db' :
  run (ledgerOperations originalApp finalApp newItems) db = Some db' ->
  Items db' = Items db.
Proof. intros H. by rewrite (run_ledgerOperations _ _ _ _ _ H). Qed.

(** On stored items within their bounds, none of which would fall below
    0, the two variants of [manageRentalUpdate] return the same. *)
Lemma managers_agree env (originalApp : RentalApplication) core newItems db :
  NoDup (map id (Items db)) ->
  Forall stockInBounds (Items db) ->
  itemsResolve (Items db) (items originalApp) ->
  itemsResolve (Items db) newItems ->
  (forall item,
      item ∈ Items db ->
      0 <= currentStock item
           + stockChangeFor (isReserved (status originalApp))
                            (isReserved (status core))
                            (qtyOf (id item) (items originalApp))
                            (qtyOf (id item) newItems)) ->
  WorkerV1.manageRentalUpdate env originalApp core newItems db
  = Worker.manageRentalUpdate env originalApp core newItems db.
Proof.
  intros Hids Hb Hold Hnew Hfits.
  unfold WorkerV1.manageRentalUpdate, Worker.manageRentalUpdate.
  rewrite stockUpdates_capped, stockUpdatesV1_capped;
    [done | apply newSet_NoDup | | apply newSet_NoDup |].
  - intros j Hj.
    assert (Hsome : is_Some (findItem j (Items db))).
    { apply elem_of_allInvolved in Hj.
      unfold itemsResolve in Hold, Hnew.
      rewrite Forall_forall in Hold, Hnew.
      destruct Hj as [Hj|Hj];
        apply list_elem_of_fmap in Hj as (e & -> & He); auto. }
    destruct Hsome as [item Hitem]. exists item. split; [done|].
    split; [by apply stockMapOf_lookup|].
    apply findItem_Some_inv in Hitem as [Hin Hid].
    rewrite Forall_forall in Hb. specialize (Hb item Hin).
    specialize (Hfits item Hin). rewrite Hid in Hfits.
    unfold stockInBounds in Hb. split; [done | lia].
  - intros j item _ Hitem. split; [by apply stockMapOf_lookup|].
    apply findItem_Some_inv in Hitem as [Hin Hid].
    specialize (Hfits item Hin). by rewrite Hid in Hfits.
Qed.

End CappedEngine.

Section CappedService.

Import DataService.

Lemma adjChange_absent adjs i :
  i ∉ map adjItemId adjs -> adjChange adjs i = 0.
Proof.
  induction adjs as [|adj rest IH]; simpl; intros Hno; [done|].
  apply not_elem_of_cons in Hno as [Hne Hno]. rewrite IH by done.
  unfold only. destruct (String.eqb i (adjItemId adj)) eqn:E; [|lia].
  by apply String.eqb_eq in E.
Qed.

(** One adjustment of a stored item: a decrease within the stock takes
    the quantity, an increase gives it up to the initial stock. *)
Lemma adjust_capped adj s item :
  NoDup (map id (getItems s)) ->
  findItem (adjItemId adj) (getItems s) = Some item ->
  0 < adjQuantity adj ->
  (adjOperation adj = decrease -> adjQuantity adj <= currentStock item) ->
  exists s',
    adjustStockForItem (adjItemId adj) (adjQuantity adj) (adjOperation adj) s
    = Returned tt s'
    /\ kaistWelfareItems s'
       = applyStockChange
           (only (adjItemId adj)
                 (cappedChange (currentStock item) (initialStock item)
                               (signedQuantity adj)))
           (getItems s)
    /\ kaistWelfareRentals s' = kaistWelfareRentals s.
Proof.
  intros Hnd Hfind Hpos Hdec. unfold signedQuantity, cappedChange.
  destruct (adjOperation adj).
  - rewrite (adjustStock_decrease _ _ _ _ Hfind).
    specialize (Hdec eq_refl).
    destruct (Z.ltb_spec (currentStock item) (adjQuantity adj)); [lia|].
    eexists. split; [done|]. split; [|done].
    rewrite storageWithStock_items by done. do 2 f_equal.
    destruct (Z.gtb_spec (- adjQuantity adj) 0); simpl; lia.
  - rewrite (adjustStock_increase _ _ _ _ Hfind).
    eexists. split; [done|]. split; [|done].
    rewrite storageWithStock_items by done. do 2 f_equal.
    destruct (Z.gtb_spec (adjQuantity adj) 0); [|lia]. simpl.
    destruct (Z.gtb_spec (currentStock item + adjQuantity adj)
                         (initialStock item)); lia.
Qed.

(** Adjustments of distinct stored items, the decreases within the stock,
    all go through, and every item moves by its capped change. *)
Lemma apply_adjustments_capped adjs s :
  NoDup (map id (getItems s)) ->
  NoDup (map adjItemId adjs) ->
  Forall (fun adj =>
            0 < adjQuantity adj
            /\ exists item,
                findItem (adjItemId adj) (getItems s) = Some item
                /\ (adjOperation adj = decrease ->
                    adjQuantity adj <= currentStock item)) adjs ->
  exists s',
    forEach (fun adj => adjustStockForItem (adjItemId adj) (adjQuantity adj)
                                           (adjOperation adj)) adjs s
    = Returned tt s'
    /\ kaistWelfareItems s'
       = applyStockChange (cappedFor (getItems s) (adjChange adjs)) (getItems s)
    /\ kaistWelfareRentals s' = kaistWelfareRentals s.
Proof.
  revert s. induction adjs as [|adj rest IH]; intros s Hnd Hids Hfit.
  - exists s. split; [done|]. split; [|done].
    unfold getItems.
    transitivity (applyStockChange (fun _ => 0) (kaistWelfareItems s));
      [by rewrite applyStockChange_zero|].
    apply applyStockChange_ext. intros item _.
    by rewrite cappedFor_still.
  - simpl in Hids. apply NoDup_cons in Hids as [Hfresh Hids].
    apply Forall_cons in Hfit as [(Hpos & item & Hfind & Hdec) Hrest].
    destruct (adjust_capped adj s item Hnd Hfind Hpos Hdec)
      as (s1 & Hs1 & Hitems1 & Hrent1).
    cbn [forEach]. rewrite Hs1.
    assert (Hsame : forall k, k <> adjItemId adj ->
                              findItem k (getItems s1) = findItem k (getItems s)).
    { intros k Hk. unfold getItems. rewrite Hitems1.
      by apply findItem_after_only. }
    destruct (IH s1) as (s2 & Hs2 & Hitems2 & Hrent2).
    + unfold getItems. rewrite Hitems1. by rewrite applyStockChange_ids.
    + done.
    + apply Forall_forall. intros adj' Hin.
      rewrite Forall_forall in Hrest.
      destruct (Hrest _ Hin) as (Hpos' & item' & Hfind' & Hdec').
      split; [done|]. exists item'. split; [|done].
      rewrite Hsame; [done|].
      intros Heq. apply Hfresh. rewrite <- Heq.
      apply list_elem_of_fmap. eauto.
    + exists s2. split; [done|]. split; [|congruence].
      rewrite Hitems2. unfold getItems at 2. rewrite Hitems1.
      rewrite applyStockChange_compose.
      apply applyStockChange_ext. intros x Hx.
      unfold only at 1.
      destruct (String.eqb (id x) (adjItemId adj)) eqn:E.
      * apply String.eqb_eq in E.
        assert (x = item) as ->.
        { apply findItem_Some_inv in Hfind as [Hin Hid].
          eapply same_id_same_item; eauto. congruence. }
        assert (Hzero : adjChange rest (id item) = 0).
        { rewrite E. by apply adjChange_absent. }
        rewrite (cappedFor_still (getItems s1)) by done.
        rewrite (cappedFor_found _ _ _ item) by (by rewrite E).
        cbn [adjChange fold_right]. fold (adjChange rest (id item)).
        rewrite Hzero. unfold only. rewrite E, String.eqb_refl.
        by rewrite !Z.add_0_r.
      * pose proof E as Hne. apply String.eqb_neq in Hne.
        unfold cappedFor. rewrite (Hsame _ Hne).
        destruct (findItem (id x) (getItems s)); [|done].
        cbn [adjChange fold_right]. fold (adjChange rest (id x)).
        unfold only. rewrite E. done.
Qed.

(** [updateRentalApplication] on stored items none of which would fall
    below 0: it returns, and every item is stored moved by its capped
    change. *)
Lemma update_capped_returns fixedDeposit
      (updatedApp originalApp : RentalApplication) s :
  let change := fun i =>
    WorkerBase.stockChangeFor (isReserved (status originalApp))
      (isReserved (status updatedApp))
      (qtyOf i (items originalApp)) (qtyOf i (items updatedApp)) in
  NoDup (map id (getItems s)) ->
  findApplication (appId updatedApp) (kaistWelfareRentals s)
  = Some originalApp ->
  itemsResolve (getItems s) (items originalApp) ->
  itemsResolve (getItems s) (items updatedApp) ->
  (forall item, item ∈ getItems s ->
                0 <= currentStock item + change (id item)) ->
  updateRentalApplication fixedDeposit updatedApp s
  = Returned
      (updatedApplication fixedDeposit updatedApp (getItems s))
      (mkStorage
         (applyStockChange (cappedFor (getItems s) change) (getItems s))
         (replaceApplication
            (updatedApplication fixedDeposit updatedApp (getItems s))
            (kaistWelfareRentals s))).
Proof.
  intros change Hnd Hfind Hold Hnew Hfits.
  pose proof (involved_resolve originalApp updatedApp _ Hold Hnew) as Hall.
  pose proof (collectAdjustments_flat (isReserved (status originalApp))
                (isReserved (status updatedApp)) (items originalApp)
                (items updatedApp) (getItems s) _ Hall) as Hcollect.
  set (involved := allInvolvedItemIds (items originalApp) (items updatedApp))
    in *.
  set (adjs := flat_map _ involved) in Hcollect.
  assert (Hlow : forall j, j ∈ involved ->
                           0 <= default 0 (stockMapOf (getItems s) !! j)
                                + change j).
  { intros j Hj. rewrite Forall_forall in Hall.
    destruct (Hall j Hj) as [item Hitem].
    rewrite (stockMapOf_lookup _ _ _ Hnd Hitem). simpl.
    apply findItem_Some_inv in Hitem as [Hin Hid].
    specialize (Hfits item Hin). by rewrite Hid in Hfits. }
  assert (Hvalid : validateAdjustments adjs (stockMapOf (getItems s))
                                       (getItems s) = None).
  { apply validate_flat_ok; [apply newSet_NoDup | exact Hlow]. }
  destruct (collectAdjustments_spec _ _ _ _ _ _ _ Hcollect)
    as (_ & Hin & Hids & Hch).
  specialize (Hids (newSet_NoDup _)).
  unfold updateRentalApplication, getRentalApplications.
  unfold findApplication in Hfind. rewrite Hfind.
  unfold withDerived. cbn [status row items appId].
  fold involved. rewrite Hcollect, Hvalid.
  destruct (apply_adjustments_capped adjs s) as (s' & -> & Hitems & Hrent).
  - done.
  - done.
  - apply Forall_forall. intros adj Hadj.
    destruct (Hin _ Hadj) as [Hinv Hfor].
    rewrite Forall_forall in Hall. destruct (Hall _ Hinv) as [item Hitem].
    specialize (Hlow _ Hinv).
    rewrite (stockMapOf_lookup _ _ _ Hnd Hitem) in Hlow. simpl in Hlow.
    rewrite adjustmentFor_change in Hfor. cbn zeta in Hfor.
    fold (change (adjItemId adj)) in Hfor.
    destruct (Z.ltb_spec (change (adjItemId adj)) 0).
    + apply list_elem_of_singleton in Hfor.
      rewrite Hfor. cbn [adjQuantity adjItemId adjOperation].
      rewrite Hfor in Hitem. cbn [adjItemId] in Hitem.
      split; [rewrite Hfor in *; simpl in *; lia|].
      exists item. split; [done|]. intros _.
      rewrite Hfor in Hlow. simpl in Hlow. rewrite Hfor in *. simpl in *. lia.
    + destruct (Z.gtb_spec (change (adjItemId adj)) 0);
        [|by apply elem_of_nil in Hfor].
      apply list_elem_of_singleton in Hfor.
      split; [rewrite Hfor; simpl; rewrite Hfor in *; simpl in *; lia|].
      exists item. split; [done|]. rewrite Hfor. simpl. done.
  - unfold updatedApplication, setRentals, replaceApplication, withDerived.
    cbn [status row items appId]. f_equal.
    rewrite Hitems. f_equal. apply applyStockChange_ext. intros item _.
    unfold cappedFor. destruct (findItem (id item) (getItems s)); [|done].
    f_equal. rewrite Hch. apply change_sum_involved.
Qed.

End CappedService.

(** C5.  In the reconciliation a change is cut down to
    [initialStock - currentStock] exactly when it is positive and would
    lift the stock above the initial stock, and nothing is thrown then; a
    change that is not positive is applied as it is (or refused for lack
    of stock, never capped).  So it is in the loop body of
    [manageRentalUpdate] and in [adjustStockForItem], and so it is in the
    engines themselves: on stored items within their bounds, none of which
    would fall below 0, [manageRentalUpdate] (in both variants) returns
    the statements of the capped changes, never an error, and its batch
    leaves every item moved by its capped change;
    [updateRentalApplication] returns and stores every item moved by its
    capped change. *)
Theorem defensive_clamp :
  (forall current initial change,
      (change > 0 /\ current + change > initial ->
       cappedChange current initial change = initial - current)
      /\ (~ (change > 0 /\ current + change > initial) ->
          cappedChange current initial change = change))
  /\ (forall itemDetails i oldQty change (stockMap : gmap string Z),
         let current := default 0 (stockMap !! i) in
         0 <= current ->
         (0 <= current + change ->
          Worker.stockUpdateFor itemDetails i oldQty change stockMap
          = inr (writtenFor i current
                   (cappedChange current (initialStock itemDetails) change)
                   stockMap))
         /\ (current + change < 0 ->
             change < 0
             /\ exists e,
                 Worker.stockUpdateFor itemDetails i oldQty change stockMap
                 = inl e))
  /\ (forall itemDetails i oldQty change (stockMap : gmap string Z),
         let current := default 0 (stockMap !! i) in
         0 <= current <= initialStock itemDetails ->
         0 <= current + change ->
         WorkerV1.stockUpdateFor itemDetails i oldQty change stockMap
         = inr (writtenFor i current
                  (cappedChange current (initialStock itemDetails) change)
                  stockMap))
  /\ (forall i q s item,
         findItem i (DataService.getItems s) = Some item ->
         0 < q ->
         DataService.adjustStockForItem i q DataService.increase s
         = DataService.Returned tt
             (storageWithStock i item
                (currentStock item
                 + cappedChange (currentStock item) (initialStock item) q) s))
  /\ (forall i q s item s',
         findItem i (DataService.getItems s) = Some item ->
         DataService.adjustStockForItem i q DataService.decrease s
         = DataService.Returned tt s' ->
         s' = storageWithStock i item (currentStock item - q) s)
  /\ (forall env (originalApp : RentalApplication) core newItems db,
         let change := fun j =>
           WorkerBase.stockChangeFor (isReserved (status originalApp))
             (isReserved (status core))
             (qtyOf j (items originalApp)) (qtyOf j newItems) in
         let stockOps :=
           stockStatementsOf (cappedFor (D1.Items db) change) (D1.Items db)
             (allInvolvedItemIds (items originalApp) newItems) in
         let finalApp :=
           WorkerBase.finalAppOf env originalApp core newItems (D1.Items db) in
         let dbOperations :=
           stockOps ++ WorkerBase.ledgerOperations originalApp finalApp
                                                   newItems in
         NoDup (map id (D1.Items db)) ->
         Forall stockInBounds (D1.Items db) ->
         (forall item, item ∈ D1.Items db ->
                       0 <= currentStock item + change (id item)) ->
         Worker.manageRentalUpdate env originalApp core newItems db
         = inr (finalApp, dbOperations)
         /\ D1.run stockOps db
            = Some (D1.mkDb
                      (applyStockChange (cappedFor (D1.Items db) change)
                                        (D1.Items db))
                      (D1.RentalApplications db)
                      (D1.RentalApplicationItems db))
         /\ forall db',
             D1.batch dbOperations db = Some db' ->
             D1.Items db'
             = applyStockChange (cappedFor (D1.Items db) change)
                                (D1.Items db))
  /\ (forall env (originalApp : RentalApplication) core newItems db,
         let change := fun j =>
           WorkerBase.stockChangeFor (isReserved (status originalApp))
             (isReserved (status core))
             (qtyOf j (items originalApp)) (qtyOf j newItems) in
         let stockOps :=
           stockStatementsOf (cappedFor (D1.Items db) change) (D1.Items db)
             (allInvolvedItemIds (items originalApp) newItems) in
         let finalApp :=
           WorkerBase.finalAppOf env originalApp core newItems (D1.Items db) in
         let dbOperations :=
           stockOps ++ WorkerBase.ledgerOperations originalApp finalApp
                                                   newItems in
         NoDup (map id (D1.Items db)) ->
         Forall stockInBounds (D1.Items db) ->
         itemsResolve (D1.Items db) (items originalApp) ->
         itemsResolve (D1.Items db) newItems ->
         (forall item, item ∈ D1.Items db ->
                       0 <= currentStock item + change (id item)) ->
         WorkerV1.manageRentalUpdate env originalApp core newItems db
         = inr (finalApp, dbOperations)
         /\ D1.run stockOps db
            = Some (D1.mkDb
                      (applyStockChange (cappedFor (D1.Items db) change)
                                        (D1.Items db))
                      (D1.RentalApplications db)
                      (D1.RentalApplicationItems db))
         /\ forall db',
             D1.batch dbOperations db = Some db' ->
             D1.Items db'
             = applyStockChange (cappedFor (D1.Items db) change)
                                (D1.Items db))
  /\ (forall fixedDeposit (updatedApp originalApp : RentalApplication) s,
         let change := fun j =>
           WorkerBase.stockChangeFor (isReserved (status originalApp))
             (isReserved (status updatedApp))
             (qtyOf j (items originalApp)) (qtyOf j (items updatedApp)) in
         NoDup (map id (DataService.getItems s)) ->
         findApplication (appId updatedApp) (DataService.kaistWelfareRentals s)
         = Some originalApp ->
         itemsResolve (DataService.getItems s) (items originalApp) ->
         itemsResolve (DataService.getItems s) (items updatedApp) ->
         (forall item, item ∈ DataService.getItems s ->
                       0 <= currentStock item + change (id item)) ->
         DataService.updateRentalApplication fixedDeposit updatedApp s
         = DataService.Returned
             (updatedApplication fixedDeposit updatedApp
                                 (DataService.getItems s))
             (DataService.mkStorage
                (applyStockChange (cappedFor (DataService.getItems s) change)
                                  (DataService.getItems s))
                (replaceApplication
                   (updatedApplication fixedDeposit updatedApp
                                       (DataService.getItems s))
                   (DataService.kaistWelfareRentals s)))).
Proof.
  split.
  { intros current initial change. unfold cappedChange. split.
    - intros [Hp Hc].
      destruct (change >? 0) eqn:E1; [|lia].
      destruct (current + change >? initial) eqn:E2; [done|lia].
    - intros Hn.
      destruct (change >? 0) eqn:E1; [|done].
      destruct (current + change >? initial) eqn:E2; [|done]. lia. }
  split.
  { intros itemDetails i oldQty change stockMap current Hcur. split.
    - intros Hfut. by apply worker_stockUpdateFor_ok.
    - intros Hfut. split; [subst current; lia|].
      apply worker_stockUpdateFor_short; [done | subst current; lia]. }
  split.
  { intros itemDetails i oldQty change stockMap current [H0 Hi] Hfut.
    by apply workerV1_stockUpdateFor_ok. }
  split.
  { intros i q s item Hfind Hq. rewrite (adjustStock_increase _ _ _ _ Hfind).
    unfold cappedChange.
    destruct (q >? 0) eqn:E1; [|lia]. simpl.
    destruct (currentStock item + q >? initialStock item); f_equal; f_equal; lia. }
  split.
  { intros i q s item s' Hfind. rewrite (adjustStock_decrease _ _ _ _ Hfind).
    destruct (currentStock item <? q); [done|]. by intros [= <-]. }
  assert (Hafter : forall (originalApp finalApp : RentalApplication) newItems
                          change involved db,
             NoDup (map id (D1.Items db)) ->
             Forall stockInBounds (D1.Items db) ->
             NoDup involved ->
             (forall item, item ∈ D1.Items db ->
                           0 <= currentStock item + change (id item)) ->
             (forall j, j ∉ involved -> change j = 0) ->
             let stockOps :=
               Worker.restoreOperations
                 (changeEntries (cappedFor (D1.Items db) change) (D1.Items db)
                                involved) in
             D1.run stockOps db
             = Some (D1.mkDb
                       (applyStockChange (cappedFor (D1.Items db) change)
                                         (D1.Items db))
                       (D1.RentalApplications db)
                       (D1.RentalApplicationItems db))
             /\ forall db',
                 D1.batch (stockOps ++ WorkerBase.ledgerOperations originalApp
                                         finalApp newItems) db = Some db' ->
                 D1.Items db'
                 = applyStockChange (cappedFor (D1.Items db) change)
                                    (D1.Items db)).
  { intros originalApp finalApp newItems change involved db Hids Hb Hnd Hfits
           Hout stockOps.
    pose proof (run_capped db change involved Hids Hb Hnd Hfits Hout) as Hrun.
    split; [exact Hrun|].
    intros db'. unfold D1.batch. subst stockOps. rewrite run_app, Hrun.
    intros Hledger. by rewrite (run_ledger_items _ _ _ _ _ Hledger). }
  split.
  { intros env originalApp core newItems db change stockOps finalApp
           dbOperations Hids Hb Hfits.
    split.
    - unfold Worker.manageRentalUpdate.
      rewrite stockUpdates_capped; [done | apply newSet_NoDup |].
      intros j item _ Hitem. split; [by apply stockMapOf_lookup|].
      apply findItem_Some_inv in Hitem as [Hin Hid].
      specialize (Hfits item Hin). by rewrite Hid in Hfits.
    - apply Hafter; try done; [apply newSet_NoDup|].
      intros j Hj. by apply change_outside. }
  split.
  { intros env originalApp core newItems db change stockOps finalApp
           dbOperations Hids Hb Hold Hnew Hfits.
    split.
    - unfold WorkerV1.manageRentalUpdate.
      rewrite stockUpdatesV1_capped; [done | apply newSet_NoDup |].
      intros j Hj.
      assert (Hsome : is_Some (findItem j (D1.Items db))).
      { apply elem_of_allInvolved in Hj.
        unfold itemsResolve in Hold, Hnew.
        rewrite Forall_forall in Hold, Hnew.
        destruct Hj as [Hj|Hj];
          apply list_elem_of_fmap in Hj as (e & -> & He); auto. }
      destruct Hsome as [item Hitem]. exists item. split; [done|].
      split; [by apply stockMapOf_lookup|].
      apply findItem_Some_inv in Hitem as [Hin Hid].
      rewrite Forall_forall in Hb. specialize (Hb item Hin).
      specialize (Hfits item Hin). rewrite Hid in Hfits.
      unfold stockInBounds in Hb. split; [done | lia].
    - apply Hafter; try done; [apply newSet_NoDup|].
      intros j Hj. by apply change_outside. }
  { intros fixedDeposit updatedApp originalApp s change Hnd Hfind Hold Hnew
           Hfits.
    by apply (update_capped_returns fixedDeposit updatedApp originalApp). }
Qed.

(** ** C2: the net change of an edit within the reserved states *)

Section NetChange.

Import D1 WorkerBase.

(** A reconciliation that stays reserved and fits the stock goes through
    in the direct variant, and moves every item by the old quantity minus
    the new one. *)
Lemma reserved_edit_goes_through env db a stored core newItems :
  editable db a stored newItems ->
  isReserved (status stored) = true ->
  isReserved (status core) = true ->
  (forall item,
      item ∈ Items db ->
      qtyOf (id item) newItems
      <= currentStock item + qtyOf (id item) (selectItemsOf a db)) ->
  exists ops db',
    Worker.manageRentalUpdate env (mkApp stored (selectItemsOf a db)) core
                              newItems db
    = inr (finalAppOf env (mkApp stored (selectItemsOf a db)) core newItems
                      (Items db), ops)
    /\ batch ops db = Some db'
    /\ Items db'
       = applyStockChange
           (fun i => qtyOf i (selectItemsOf a db) - qtyOf i newItems)
           (Items db).
Proof.
  intros Hedit Ho Hn Hfits.
  pose proof Hedit as (Hcons & _ & Hsel & Hwf & _).
  assert (Hchange : forall i,
             stockChangeFor (isReserved (status stored))
                            (isReserved (status core))
                            (qtyOf i (selectItemsOf a db)) (qtyOf i newItems)
             = qtyOf i (selectItemsOf a db) - qtyOf i newItems).
  { intros i. by rewrite Ho, Hn. }
  destruct (worker_manage_succeeds env db a stored core newItems)
    as (ops & db' & Hmanage & Hrun); [done| |].
  { intros item Hin. rewrite Hchange. specialize (Hfits item Hin). lia. }
  exists ops, db'. split; [done|]. split; [done|].
  destruct (worker_manage_run env db a stored core newItems _ ops db'
              Hcons Hsel Hwf Hmanage Hrun) as (Hmoved & _).
  rewrite Hmoved. apply applyStockChange_ext. intros item _. apply Hchange.
Qed.

(** There the router variant returns what the direct variant returns. *)
Lemma reserved_edit_agrees env db a stored core newItems :
  editable db a stored newItems ->
  itemsResolve (Items db) (selectItemsOf a db) ->
  isReserved (status stored) = true ->
  isReserved (status core) = true ->
  (forall item,
      item ∈ Items db ->
      qtyOf (id item) newItems
      <= currentStock item + qtyOf (id item) (selectItemsOf a db)) ->
  WorkerV1.manageRentalUpdate env (mkApp stored (selectItemsOf a db)) core
                              newItems db
  = Worker.manageRentalUpdate env (mkApp stored (selectItemsOf a db)) core
                              newItems db.
Proof.
  intros (Hcons & Hb & _ & _ & Hnew) Hold Ho Hn Hfits.
  apply managers_agree; try done; [apply Hcons|].
  intros item Hin. cbn [status row items]. rewrite Ho, Hn.
  specialize (Hfits item Hin). unfold stockChangeFor. simpl. lia.
Qed.

Lemma ledgerOperations_touch (originalApp finalApp : RentalApplication)
      newItems j :
  Forall (fun st => ~ writesItem st j)
         (ledgerOperations originalApp finalApp newItems).
Proof.
  unfold ledgerOperations. constructor; [by intros []|].
  apply Forall_app. split.
  - apply Forall_fmap, Forall_forall. by intros e _ [].
  - apply Forall_singleton. by intros [].
Qed.

(** The loop of [manageRentalUpdate] pushes no statement for an item
    whose change is 0. *)
Lemma worker_stockUpdates_touch oldRes newRes oldItems newItems allItems
      involved (stockMap : gmap string Z) ops k :
  Worker.stockUpdates oldRes newRes oldItems newItems allItems involved
                      stockMap = inr ops ->
  stockChangeFor oldRes newRes (qtyOf k oldItems) (qtyOf k newItems) = 0 ->
  Forall (fun st => ~ writesItem st k) ops.
Proof.
  intros H Hzero. revert stockMap ops H.
  induction involved as [|j rest IH]; simpl; intros stockMap ops H.
  - injection H as <-. constructor.
  - destruct (findItem j allItems) as [item|]; [|by eapply IH].
    destruct (Worker.stockUpdateFor _ _ _ _ _) as [e|[ops1 m1]] eqn:E1;
      [done|].
    destruct (Worker.stockUpdates _ _ _ _ _ rest m1) as [e|ops2] eqn:E2;
      [done|].
    injection H as <-. apply Forall_app. split; [|by eapply IH].
    revert E1. unfold Worker.stockUpdateFor.
    destruct (String.eqb_spec j k) as [->|Hne].
    + rewrite Hzero. simpl. intros [= <- _]. constructor.
    + repeat match goal with
             | |- context [if ?c then _ else _] => destruct c
             end; intros [= <- _]; repeat constructor; simpl; done.
Qed.

Lemma workerV1_stockUpdates_touch oldRes newRes oldItems newItems allItems
      involved (stockMap : gmap string Z) ops k :
  WorkerV1.stockUpdates oldRes newRes oldItems newItems allItems involved
                        stockMap = inr ops ->
  stockChangeFor oldRes newRes (qtyOf k oldItems) (qtyOf k newItems) = 0 ->
  Forall (fun st => ~ writesItem st k) ops.
Proof.
  intros H Hzero. revert stockMap ops H.
  induction involved as [|j rest IH]; simpl; intros stockMap ops H.
  - injection H as <-. constructor.
  - destruct (findItem j allItems) as [item|]; [|done].
    destruct (WorkerV1.stockUpdateFor _ _ _ _ _) as [e|[ops1 m1]] eqn:E1;
      [done|].
    destruct (WorkerV1.stockUpdates _ _ _ _ _ rest m1) as [e|ops2] eqn:E2;
      [done|].
    injection H as <-. apply Forall_app. split; [|by eapply IH].
    revert E1. unfold WorkerV1.stockUpdateFor.
    destruct (String.eqb_spec j k) as [->|Hne].
    + rewrite Hzero. simpl. intros [= <- _]. constructor.
    + repeat match goal with
             | |- context [if ?c then _ else _] => destruct c
             end; intros [= <- _]; repeat constructor; simpl; done.
Qed.

End NetChange.

(** C2.  When the old and the new status are both reserved, the change of
    stock of an item is [oldQty - newQty], with 0 for an item absent from a
    list: so in [manageRentalUpdate], and so, as one decrease or one
    increase, in [updateRentalApplication]; a change of 0 pushes no
    statement and queues no adjustment.  On a consistent state a successful
    user edit (in the worker) and a successful update that stays reserved
    (in the service) move every item by exactly that difference; an item
    whose quantity goes from 5 to 3 gains exactly 2.  And such
    reconciliations do go through: on a consistent state within the stock
    bounds, for new entries that are one per item, not negative and name
    stored items, [manageRentalUpdate] (in both variants) returns and its
    batch succeeds, the user edit of a PENDING application is answered
    200, and the update of the service returns, as soon as every new
    quantity is at most the current stock of its item plus what the
    application holds of it; the items are then stored moved by the old
    quantity minus the new one.  Whenever [manageRentalUpdate] returns,
    no statement of its batch writes an item whose change is 0, and
    [updateRentalApplication] queues no adjustment for such an item. *)
Theorem net_delta :
  (forall oldQty newQty,
      WorkerBase.stockChangeFor true true oldQty newQty = oldQty - newQty)
  /\ (forall oldQty newQty j i,
         adjChange (DataService.adjustmentFor true true oldQty newQty j) i
         = only j (oldQty - newQty) i)
  /\ (forall itemDetails j oldQty (stockMap : gmap string Z),
         Worker.stockUpdateFor itemDetails j oldQty 0 stockMap
         = inr ([], stockMap)
         /\ WorkerV1.stockUpdateFor itemDetails j oldQty 0 stockMap
            = inr ([], stockMap))
  /\ (forall qty j, DataService.adjustmentFor true true qty qty j = [])
  /\ (forall env rentalId body db app db',
         consistentDatabase db ->
         wellFormedEntries (default [] (WorkerBase.patchItems body)) ->
         Worker.putRental env rentalId body db = (WorkerBase.Json 200 app, db') ->
         D1.Items db'
         = applyStockChange
             (fun i => qtyOf i (D1.selectItemsOf rentalId db)
                       - qtyOf i (default [] (WorkerBase.patchItems body)))
             (D1.Items db)
         /\ forall item,
             findItem (id item) (D1.Items db) = Some item ->
             qtyOf (id item) (D1.selectItemsOf rentalId db) = 5 ->
             qtyOf (id item) (default [] (WorkerBase.patchItems body)) = 3 ->
             findItem (id item) (D1.Items db')
             = Some (withCurrentStock item (currentStock item + 2)))
  /\ (forall fixedDeposit updatedApp s app s' originalApp,
         consistentStorage s ->
         wellFormedEntries (items updatedApp) ->
         findApplication (appId updatedApp) (DataService.kaistWelfareRentals s)
         = Some originalApp ->
         isReserved (status originalApp) = true ->
         isReserved (status updatedApp) = true ->
         DataService.updateRentalApplication fixedDeposit updatedApp s
         = DataService.Returned app s' ->
         DataService.kaistWelfareItems s'
         = applyStockChange
             (fun i => qtyOf i (items originalApp) - qtyOf i (items updatedApp))
             (DataService.getItems s)
         /\ forall item,
             findItem (id item) (DataService.getItems s) = Some item ->
             qtyOf (id item) (items originalApp) = 5 ->
             qtyOf (id item) (items updatedApp) = 3 ->
             findItem (id item) (DataService.kaistWelfareItems s')
             = Some (withCurrentStock item (currentStock item + 2)))
  /\ (forall env db rentalId stored core newItems,
         editable db rentalId stored newItems ->
         isReserved (status stored) = true ->
         isReserved (status core) = true ->
         (forall item,
             item ∈ D1.Items db ->
             qtyOf (id item) newItems
             <= currentStock item
                + qtyOf (id item) (D1.selectItemsOf rentalId db)) ->
         exists ops db',
           Worker.manageRentalUpdate env
             (mkApp stored (D1.selectItemsOf rentalId db)) core newItems db
           = inr (WorkerBase.finalAppOf env
                    (mkApp stored (D1.selectItemsOf rentalId db)) core
                    newItems (D1.Items db), ops)
           /\ D1.batch ops db = Some db'
           /\ D1.Items db'
              = applyStockChange
                  (fun i => qtyOf i (D1.selectItemsOf rentalId db)
                            - qtyOf i newItems)
                  (D1.Items db))
  /\ (forall env db rentalId stored core newItems,
         editable db rentalId stored newItems ->
         itemsResolve (D1.Items db) (D1.selectItemsOf rentalId db) ->
         isReserved (status stored) = true ->
         isReserved (status core) = true ->
         (forall item,
             item ∈ D1.Items db ->
             qtyOf (id item) newItems
             <= currentStock item
                + qtyOf (id item) (D1.selectItemsOf rentalId db)) ->
         exists ops db',
           WorkerV1.manageRentalUpdate env
             (mkApp stored (D1.selectItemsOf rentalId db)) core newItems db
           = inr (WorkerBase.finalAppOf env
                    (mkApp stored (D1.selectItemsOf rentalId db)) core
                    newItems (D1.Items db), ops)
           /\ D1.batch ops db = Some db'
           /\ D1.Items db'
              = applyStockChange
                  (fun i => qtyOf i (D1.selectItemsOf rentalId db)
                            - qtyOf i newItems)
                  (D1.Items db))
  /\ (forall env rentalId body db stored newItems,
         editable db rentalId stored newItems ->
         status stored = PENDING ->
         Worker.invalidEdit body = false ->
         WorkerBase.patchItems body = Some newItems ->
         (forall item,
             item ∈ D1.Items db ->
             qtyOf (id item) newItems
             <= currentStock item
                + qtyOf (id item) (D1.selectItemsOf rentalId db)) ->
         exists app db',
           Worker.putRental env rentalId body db
           = (WorkerBase.Json 200 app, db')
           /\ D1.Items db'
              = applyStockChange
                  (fun i => qtyOf i (D1.selectItemsOf rentalId db)
                            - qtyOf i newItems)
                  (D1.Items db)
           /\ forall item,
               findItem (id item) (D1.Items db) = Some item ->
               qtyOf (id item) (D1.selectItemsOf rentalId db) = 5 ->
               qtyOf (id item) newItems = 3 ->
               findItem (id item) (D1.Items db')
               = Some (withCurrentStock item (currentStock item + 2)))
  /\ (forall env rentalId body db stored newItems,
         editable db rentalId stored newItems ->
         itemsResolve (D1.Items db) (D1.selectItemsOf rentalId db) ->
         status stored = PENDING ->
         WorkerV1.invalidEdit body = false ->
         WorkerBase.patchItems body = Some newItems ->
         (forall item,
             item ∈ D1.Items db ->
             qtyOf (id item) newItems
             <= currentStock item
                + qtyOf (id item) (D1.selectItemsOf rentalId db)) ->
         exists app db',
           WorkerV1.putRental env rentalId body db
           = (WorkerBase.Json 200 app, db')
           /\ D1.Items db'
              = applyStockChange
                  (fun i => qtyOf i (D1.selectItemsOf rentalId db)
                            - qtyOf i newItems)
                  (D1.Items db)
           /\ forall item,
               findItem (id item) (D1.Items db) = Some item ->
               qtyOf (id item) (D1.selectItemsOf rentalId db) = 5 ->
               qtyOf (id item) newItems = 3 ->
               findItem (id item) (D1.Items db')
               = Some (withCurrentStock item (currentStock item + 2)))
  /\ (forall fixedDeposit (updatedApp originalApp : RentalApplication) s,
         consistentStorage s ->
         wellFormedEntries (items updatedApp) ->
         findApplication (appId updatedApp) (DataService.kaistWelfareRentals s)
         = Some originalApp ->
         isReserved (status originalApp) = true ->
         isReserved (status updatedApp) = true ->
         itemsResolve (DataService.getItems s) (items originalApp) ->
         itemsResolve (DataService.getItems s) (items updatedApp) ->
         (forall item,
             item ∈ DataService.getItems s ->
             qtyOf (id item) (items updatedApp)
             <= currentStock item + qtyOf (id item) (items originalApp)) ->
         exists s',
           DataService.updateRentalApplication fixedDeposit updatedApp s
           = DataService.Returned
               (updatedApplication fixedDeposit updatedApp
                                   (DataService.getItems s)) s'
           /\ DataService.kaistWelfareItems s'
              = applyStockChange
                  (fun i => qtyOf i (items originalApp)
                            - qtyOf i (items updatedApp))
                  (DataService.getItems s)
           /\ forall item,
               findItem (id item) (DataService.getItems s) = Some item ->
               qtyOf (id item) (items originalApp) = 5 ->
               qtyOf (id item) (items updatedApp) = 3 ->
               findItem (id item) (DataService.kaistWelfareItems s')
               = Some (withCurrentStock item (currentStock item + 2)))
  /\ (forall env (originalApp : RentalApplication) core newItems db finalApp
             ops j,
         Worker.manageRentalUpdate env originalApp core newItems db
         = inr (finalApp, ops) ->
         WorkerBase.stockChangeFor (isReserved (status originalApp))
           (isReserved (status core))
           (qtyOf j (items originalApp)) (qtyOf j newItems) = 0 ->
         Forall (fun st => ~ writesItem st j) ops)
  /\ (forall env (originalApp : RentalApplication) core newItems db finalApp
             ops j,
         WorkerV1.manageRentalUpdate env originalApp core newItems db
         = inr (finalApp, ops) ->
         WorkerBase.stockChangeFor (isReserved (status originalApp))
           (isReserved (status core))
           (qtyOf j (items originalApp)) (qtyOf j newItems) = 0 ->
         Forall (fun st => ~ writesItem st j) ops)
  /\ (forall oldRes newRes oldItems newItems allItems involved adjs j,
         DataService.collectAdjustments oldRes newRes oldItems newItems
                                        allItems involved = inr adjs ->
         WorkerBase.stockChangeFor oldRes newRes (qtyOf j oldItems)
                                   (qtyOf j newItems) = 0 ->
         j ∉ map DataService.adjItemId adjs).
Proof.
  split; [done|].
  split.
  { intros oldQty newQty j i. by rewrite adjChange_adjustmentFor. }
  split; [done|].
  split.
  { intros qty j. unfold DataService.adjustmentFor. simpl.
    rewrite Z.sub_diag. done. }
  split.
  { intros env rentalId body db app db' Hcons Hnew Hput.
    apply worker_putRental_success in Hput
      as (_ & row0 & ops & Hsel & Hst & Hm & Hb).
    destruct (worker_manage_run _ _ _ _ _ _ _ _ _ Hcons Hsel Hnew Hm Hb)
      as (Hitems & _).
    cbn [WorkerBase.withDates status] in Hitems. rewrite !Hst in Hitems.
    cbn [isReserved] in Hitems.
    split; [exact Hitems|].
    intros item Hfind H5 H3. rewrite Hitems, findItem_applyStockChange, Hfind.
    simpl. rewrite H5, H3. done. }
  split.
  { intros fixedDeposit updatedApp s app s' originalApp Hcons Hnew Hfind Ho Hn
           Hret.
    destruct (service_update_success _ _ _ _ _ Hcons Hnew Hret)
      as (orig & Hfind' & _ & Hitems & _).
    rewrite Hfind in Hfind'. injection Hfind' as <-.
    rewrite Ho, Hn in Hitems.
    split; [exact Hitems|].
    intros item Hitem H5 H3. rewrite Hitems, findItem_applyStockChange, Hitem.
    simpl. rewrite H5, H3. done. }
  split.
  { intros env db rentalId stored core newItems Hedit Ho Hn Hfits.
    by apply reserved_edit_goes_through. }
  split.
  { intros env db rentalId stored core newItems Hedit Hres Ho Hn Hfits.
    rewrite reserved_edit_agrees by done.
    by apply reserved_edit_goes_through. }
  split.
  { intros env rentalId body db stored newItems Hedit Hst Hvalid Hitems Hfits.
    pose proof Hedit as (_ & _ & Hsel & _).
    unfold Worker.putRental. rewrite Hvalid, Hsel, Hst, Hitems.
    cbn [default Datatypes.id]. unfold WorkerBase.fullOriginalAppOf.
    set (core := WorkerBase.withDates _ _ _).
    destruct (reserved_edit_goes_through env db rentalId stored core newItems)
      as (ops & db' & -> & -> & Hmoved);
      [done | by rewrite Hst | by subst core; simpl; rewrite Hst | done |].
    eexists _, _. split; [reflexivity|]. split; [exact Hmoved|].
    intros item Hfind H5 H3.
    rewrite Hmoved, findItem_applyStockChange, Hfind.
    simpl. rewrite H5, H3. done. }
  split.
  { intros env rentalId body db stored newItems Hedit Hres Hst Hvalid Hitems
           Hfits.
    pose proof Hedit as (_ & _ & Hsel & _).
    unfold WorkerV1.putRental. rewrite Hvalid, Hsel, Hst, Hitems.
    cbn [default Datatypes.id]. unfold WorkerBase.fullOriginalAppOf.
    set (core := WorkerBase.withDates _ _ _).
    assert (Hcore : isReserved (status core) = true)
      by (subst core; simpl; by rewrite Hst).
    rewrite reserved_edit_agrees by (done || by rewrite Hst).
    destruct (reserved_edit_goes_through env db rentalId stored core newItems)
      as (ops & db' & -> & -> & Hmoved); [done | by rewrite Hst | done | done |].
    eexists _, _. split; [reflexivity|]. split; [exact Hmoved|].
    intros item Hfind H5 H3.
    rewrite Hmoved, findItem_applyStockChange, Hfind.
    simpl. rewrite H5, H3. done. }
  split.
  { intros fixedDeposit updatedApp originalApp s Hcons Hnew Hfind Ho Hn Hold
           Hres Hfits.
    rewrite (update_fits_returns fixedDeposit updatedApp originalApp s Hcons
               Hnew Hfind Hold Hres).
    2:{ intros item Hin. rewrite Ho, Hn. specialize (Hfits item Hin).
        unfold WorkerBase.stockChangeFor. simpl. lia. }
    eexists. split; [reflexivity|]. cbn [DataService.kaistWelfareItems].
    assert (Hitems : applyStockChange
                       (fun i => WorkerBase.stockChangeFor
                                   (isReserved (status originalApp))
                                   (isReserved (status updatedApp))
                                   (qtyOf i (items originalApp))
                                   (qtyOf i (items updatedApp)))
                       (DataService.getItems s)
                     = applyStockChange
                         (fun i => qtyOf i (items originalApp)
                                   - qtyOf i (items updatedApp))
                         (DataService.getItems s)).
    { apply applyStockChange_ext. intros item _. by rewrite Ho, Hn. }
    rewrite Hitems. split; [done|].
    intros item Hitem H5 H3. rewrite findItem_applyStockChange, Hitem.
    simpl. rewrite H5, H3. done. }
  split.
  { intros env originalApp core newItems db finalApp ops j Hm Hzero.
    unfold Worker.manageRentalUpdate in Hm.
    destruct (Worker.stockUpdates _ _ _ _ _ _ _) as [e|stockOps] eqn:Hstock;
      [done|].
    injection Hm as _ <-. apply Forall_app. split.
    - by eapply worker_stockUpdates_touch.
    - apply ledgerOperations_touch. }
  split.
  { intros env originalApp core newItems db finalApp ops j Hm Hzero.
    unfold WorkerV1.manageRentalUpdate in Hm.
    destruct (WorkerV1.stockUpdates _ _ _ _ _ _ _) as [e|stockOps] eqn:Hstock;
      [done|].
    injection Hm as _ <-. apply Forall_app. split.
    - by eapply workerV1_stockUpdates_touch.
    - apply ledgerOperations_touch. }
  { intros oldRes newRes oldItems newItems allItems involved adjs j Hcollect
           Hzero Hin.
    apply list_elem_of_fmap in Hin as (adj & -> & Hadj).
    destruct (collectAdjustments_spec _ _ _ _ _ _ _ Hcollect)
      as (_ & Hfor & _).
    destruct (Hfor _ Hadj) as [_ Hmem].
    rewrite adjustmentFor_change in Hmem. cbn zeta in Hmem.
    rewrite Hzero in Hmem. by apply elem_of_nil in Hmem. }
Qed.

(** ** C1: the conservation law *)

(** C1 fails in the worker.  The application "r1" is PENDING and holds
    five of the ten tents, five are in stock, and the database obeys the
    law.  A user edit of "r1" to the entries {A: -3} is answered 200: the
    handler checks that the list is not empty and the dates, not the sign
    of a quantity; the change of 8 is capped at the initial stock, the
    stock ends at 10 and the application holds -3, so that the stock plus
    the quantities held is 7 and not 10.  Two creates in flight break the
    law as well: both are answered 201, the stock ends at 4 and the two
    applications hold 12 of the 10.  When the operations run one at a
    time and the requests carry one entry per item and no negative
    quantity, every core operation (create, user edit, user cancel, admin
    edit, admin delete; in the service the two edits are the one
    [updateRentalApplication]) leads from a consistent state to a
    consistent state, whether it succeeds or fails: for every item,
    [currentStock] plus the quantities of the PENDING and RENTED
    applications that name it is [initialStock]. *)
Theorem conservation_broken_by_edit :
  (consistentDatabase heldDatabase
   /\ Worker.invalidEdit minusThreeTents = false
   /\ exists app db' item,
       Worker.putRental (WorkerBase.mkEnv None) "r1" minusThreeTents
                        heldDatabase
       = (WorkerBase.Json 200 app, db')
       /\ items app = [mkEntry "A" (-3)]
       /\ D1.Items db' = [item]
       /\ currentStock item = 10
       /\ initialStock item = 10
       /\ reservedTotal (id item) (D1.ledgerOf db') = -3
       /\ currentStock item + reservedTotal (id item) (D1.ledgerOf db')
          <> initialStock item)
  /\ (consistentDatabase freshDatabase
      /\ exists first second db' item,
          Worker.runSchedule (WorkerBase.mkEnv None)
            [false; true; false; true]
            (Worker.Received sixTents "r1" "2024-01-01")
            (Worker.Received sixTents "r2" "2024-01-01") freshDatabase
          = (Worker.Responded (WorkerBase.Json 201 first),
             Worker.Responded (WorkerBase.Json 201 second), db')
          /\ D1.Items db' = [item]
          /\ currentStock item = 4
          /\ initialStock item = 10
          /\ reservedTotal (id item) (D1.ledgerOf db') = 12
          /\ currentStock item + reservedTotal (id item) (D1.ledgerOf db')
             <> initialStock item)
  /\ (forall fixedDeposit s s',
         consistentStorage s -> storageStep fixedDeposit s s' ->
         consistentStorage s'
         /\ forall item,
             item ∈ DataService.kaistWelfareItems s' ->
             currentStock item
             + reservedTotal (id item) (DataService.kaistWelfareRentals s')
             = initialStock item)
  /\ (forall env db db',
         consistentDatabase db -> workerStep env db db' ->
         consistentDatabase db'
         /\ forall item,
             item ∈ D1.Items db' ->
             currentStock item + reservedTotal (id item) (D1.ledgerOf db')
             = initialStock item).
Proof.
  split.
  { split; [exact heldDatabase_consistent|].
    split; [reflexivity|].
    eexists _, _, _. split; [vm_compute; reflexivity|].
    repeat split. intros [=]. }
  split.
  { split.
    - split; [apply NoDup_singleton|].
      split; [split; constructor|].
      split; [constructor|]. apply Forall_singleton. reflexivity.
    - eexists _, _, _, _. split; [vm_compute; reflexivity|].
      repeat split. intros [=]. }
  split.
  - intros fixedDeposit s s' Hcons Hstep.
    pose proof (storage_step_consistent _ _ _ Hcons Hstep) as Hcons'.
    split; [done|]. destruct Hcons' as (_ & _ & _ & Hc).
    rewrite Forall_forall in Hc. exact Hc.
  - intros env db db' Hcons Hstep.
    pose proof (worker_step_consistent _ _ _ Hcons Hstep) as Hcons'.
    split; [done|]. destruct Hcons' as (_ & _ & _ & Hc).
    rewrite Forall_forall in Hc. exact Hc.
Qed.

(** ** The properties at work *)

Lemma heldStorage_consistent : consistentStorage heldStorage.
Proof.
  split; [apply NoDup_singleton|].
  split.
  { split; [apply NoDup_singleton|].
    apply Forall_singleton. split; [apply NoDup_singleton|].
    apply Forall_singleton. simpl. lia. }
  split.
  { apply Forall_singleton. intros _. apply Forall_singleton.
    exists tent. reflexivity. }
  apply Forall_singleton. reflexivity.
Qed.

Lemma tent_in_bounds : Forall stockInBounds [tent].
Proof. apply Forall_singleton. unfold stockInBounds. simpl. lia. Qed.

Lemma service_deleteItem_effect_witness :
  ItemService.getItem "A" (DataService.mkStorage [] []) = None
  /\ ItemService.deleteItem "A" heldStorage
     = inl ItemService.CannotDeleteItemWithActiveRentals.
Proof.
  split.
  - destruct (service_deleteItem_effect "A" freshStorage) as [_ Hgone].
    destruct (Hgone (DataService.mkStorage [] []) eq_refl) as (_ & Hnone & _).
    exact Hnone.
  - destruct (service_deleteItem_effect "A" heldStorage) as [[_ Hthrows] _].
    apply Hthrows. exists heldApplication, (mkEntry "A" 5).
    split; [apply list_elem_of_singleton; reflexivity|].
    split; [reflexivity|].
    split; [apply list_elem_of_singleton; reflexivity | reflexivity].
Defined.

Lemma service_deleteItem_consistent_witness :
  consistentStorage (DataService.mkStorage [] []).
Proof.
  exact (service_deleteItem_consistent "A" freshStorage
           (DataService.mkStorage [] []) freshStorage_consistent eq_refl).
Defined.

Lemma service_addItem_effect_witness :
  ItemService.getItem "L" (snd (ItemService.addItem lamp "L" freshStorage))
  = Some lamp
  /\ consistentStorage (snd (ItemService.addItem lamp "L" freshStorage)).
Proof.
  destruct (service_addItem_effect lamp "L" freshStorage)
    as (_ & _ & _ & _ & _ & _ & Hfresh).
  destruct Hfresh as (Hfound & Hkeeps & _).
  - intros Hin. apply list_elem_of_singleton in Hin. discriminate Hin.
  - split; [exact Hfound|]. apply Hkeeps. exact freshStorage_consistent.
Defined.

Lemma service_updateItem_effect_witness :
  DataService.updateItem tentAboveInitial freshStorage
  = DataService.Threw
      (DataService.CurrentStockExceedsInitial 11 10 "Tent") freshStorage.
Proof.
  destruct (service_updateItem_effect tentAboveInitial freshStorage)
    as [Hthrows _].
  apply Hthrows. simpl. lia.
Defined.

Lemma service_dashboard_counts_witness :
  RentalService.newRequests
    (RentalService.getAdminDashboardStats "2024-01-01"
       (DataService.storageAfter
          (DataService.addRentalApplication 10000 twoTents "r1" "2024-01-01"
                                            freshStorage)))
  = 1%nat.
Proof.
  destruct (service_dashboard_counts "2024-01-01" freshStorage)
    as (_ & _ & _ & _ & Hadd & _).
  destruct (Hadd 10000 twoTents "r1" "2024-01-01" _ _ eq_refl) as [Hnew _].
  exact Hnew.
Defined.

Lemma service_findRentalApplications_witness :
  heldApplication
  ∈ RentalService.findRentalApplications (fun _ => 0) "Kim" "2020" "010"
      heldStorage.
Proof.
  destruct (service_findRentalApplications (fun _ => 0) "Kim" "2020" "010"
              heldStorage) as [Hin _].
  apply Hin. split; [apply list_elem_of_singleton; reflexivity|].
  repeat split; reflexivity.
Defined.

Lemma worker_postItem_effect_witness :
  exists newItem db',
    WorkerCatalog.postItem lampDraft "L" freshDatabase
    = (WorkerCatalog.Sent 201 newItem, db').
Proof.
  destruct (worker_postItem_effect lampDraft "L" freshDatabase)
    as (_ & _ & Hsent & _).
  apply Hsent; reflexivity.
Defined.

Lemma worker_deleteItem_effect_witness :
  WorkerCatalog.deleteItem "A" heldDatabase
  = (WorkerCatalog.Refused 400 WorkerCatalog.CannotDeleteItemWithActiveRentals,
     heldDatabase).
Proof.
  destruct (worker_deleteItem_effect "A" heldDatabase)
    as (_ & [Hrefused _] & _).
  apply Hrefused. reflexivity.
Defined.

Lemma worker_putItem_effect_witness :
  exists db',
    Worker.putItem "A" tent heldDatabase = (WorkerBase.Json 200 tent, db')
    /\ findItem "A" (D1.Items db') = Some (storedAs "A" tent).
Proof.
  destruct (worker_putItem_effect "A" tent heldDatabase) as (_ & _ & Hput).
  destruct Hput as (db' & Hreply & Hrow & _).
  - simpl. lia.
  - reflexivity.
  - exists db'. split; [exact Hreply | exact Hrow].
Defined.

Lemma worker_deleteAdminRental_effect_witness :
  exists db',
    Worker.deleteAdminRental "r1" heldDatabase = (WorkerBase.Json 204 tt, db').
Proof.
  destruct (worker_deleteAdminRental_effect "r1" heldDatabase)
    as (_ & _ & Halways).
  apply Halways.
  - exact heldDatabase_consistent.
  - exact tent_in_bounds.
  - exists heldRow. reflexivity.
Defined.

Lemma worker_postRentalCancel_responses_witness :
  D1.Items (snd (Worker.postRentalCancel "r1" heldDatabase)) = [tentInStock].
Proof.
  destruct (worker_postRentalCancel_responses "r1" heldDatabase)
    as (_ & _ & Hcancel).
  rewrite (Hcancel heldDatabase_consistent tent_in_bounds heldRow eq_refl
             eq_refl).
  reflexivity.
Defined.

Lemma heldDatabase_editable newItems :
  wellFormedEntries newItems -> itemsResolve [tent] newItems ->
  editable heldDatabase "r1" heldRow newItems.
Proof.
  intros Hwf Hres. split; [exact heldDatabase_consistent|].
  split; [exact tent_in_bounds|]. split; [reflexivity|]. split; assumption.
Qed.

Lemma oneTentEntry_resolves q : itemsResolve [tent] [mkEntry "A" q].
Proof. apply Forall_singleton. exists tent. reflexivity. Qed.

Lemma worker_putRental_boundary_witness :
  exists app db',
    Worker.putRental (WorkerBase.mkEnv None) "r1" threeTentsInMarch heldDatabase
    = (WorkerBase.Json 200 app, db')
    /\ items app = [mkEntry "A" 3].
Proof.
  destruct (worker_putRental_boundary (WorkerBase.mkEnv None) "r1"
              threeTentsInMarch heldDatabase heldRow [mkEntry "A" 3])
    as [Hfits _].
  - apply heldDatabase_editable;
      [apply oneEntry_wellFormed; lia | apply oneTentEntry_resolves].
  - reflexivity.
  - reflexivity.
  - reflexivity.
  - destruct Hfits as (app & db' & Hreply & Hitems & _).
    + intros e item He Hitem. apply list_elem_of_singleton in He. subst e.
      injection Hitem as <-. vm_compute. discriminate.
    + exists app, db'. split; [exact Hreply | exact Hitems].
Defined.

Lemma worker_admin_status_change_witness :
  exists app db',
    Worker.putAdminRental (WorkerBase.mkEnv None) "r1" returnedOnTime
                          heldDatabase
    = (WorkerBase.Json 200 app, db')
    /\ D1.Items db' = [tentInStock].
Proof.
  destruct (worker_admin_status_change (WorkerBase.mkEnv None) "r1"
              returnedOnTime heldDatabase) as (_ & _ & Hstored).
  destruct (Hstored heldRow) as (_ & Hreturn & _).
  - apply heldDatabase_editable;
      [apply (oneEntry_wellFormed "A" 5); lia
      | apply (oneTentEntry_resolves 5)].
  - intros _. reflexivity.
  - destruct Hreturn as (app & db' & Hreply & Hitems); [reflexivity..|].
    exists app, db'. split; [exact Hreply|]. rewrite Hitems. reflexivity.
Defined.

Lemma service_update_outcome_witness :
  DataService.kaistWelfareItems
    (DataService.storageAfter
       (DataService.updateRentalApplication 10000 heldEditedToThree
                                            heldStorage))
  = [mkItem "A" "Tent" 10 7 1000 "" "" "ea"].
Proof.
  destruct (service_update_outcome 10000 heldEditedToThree heldStorage)
    as [_ Hstored].
  destruct (Hstored heldApplication eq_refl) as [_ Hdecided].
  destruct Hdecided as (Hfits & _).
  - exact heldStorage_consistent.
  - exact tent_in_bounds.
  - apply oneEntry_wellFormed. lia.
  - apply oneTentEntry_resolves.
  - apply oneTentEntry_resolves.
  - rewrite Hfits; [reflexivity|].
    intros item Hitem. apply list_elem_of_singleton in Hitem. subst item.
    vm_compute. discriminate.
Defined.

Lemma worker_apply_variants_agree_witness :
  snd (WorkerV1Apply.postRentalsApply (WorkerBase.mkEnv None) twoTents "r1"
         "2024-01-01" freshDatabase)
  = snd (Worker.postRentalsApply (WorkerBase.mkEnv None) twoTents "r1"
           "2024-01-01" freshDatabase)
  /\ fst (Worker.postRentalsApply (WorkerBase.mkEnv None) twoTents "r1"
            "2024-01-01" heldDatabase)
     = WorkerBase.Failed 409 WorkerBase.StockBecameUnavailable
  /\ fst (WorkerV1Apply.postRentalsApply (WorkerBase.mkEnv None) twoTents "r1"
            "2024-01-01" heldDatabase)
     = WorkerBase.Failed 409 WorkerBase.StockBecameUnavailableDuringTransaction.
Proof.
  destruct (worker_apply_variants_agree (WorkerBase.mkEnv None) twoTents "r1"
              "2024-01-01" freshDatabase) as [Hsame _].
  destruct (worker_apply_variants_agree (WorkerBase.mkEnv None) twoTents "r1"
              "2024-01-01" heldDatabase) as (_ & _ & _ & [Hrouted _] & _).
  split; [exact Hsame|]. split; [reflexivity|].
  apply Hrouted. reflexivity.
Defined.

Lemma emptyCart_wellFormed : cartWellFormed [].
Proof. split; constructor. Qed.

Lemma twoInCart_wellFormed : cartWellFormed [mkCartItem tentInStock 2].
Proof.
  split; [apply NoDup_singleton|]. apply Forall_singleton. simpl. lia.
Qed.

Lemma user_cart_invariant_witness :
  UserRentalApplicationPage.handleAddItemToCart "A" 2 [] freshStorage
  = inr [mkCartItem tentInStock 2]
  /\ qtyOf "A" (entriesOf [mkCartItem tentInStock 2]) = 0 + 2.
Proof.
  split; [reflexivity|].
  destruct (user_cart_invariant "A" 2 "A" [] freshStorage
              emptyCart_wellFormed) as (_ & Hadded & _).
  destruct (Hadded [mkCartItem tentInStock 2] eq_refl) as (_ & Hqty & _).
  exact Hqty.
Defined.

Lemma user_submit_outcome_witness :
  exists created s',
    UserRentalApplicationPage.handleSubmitApplication 10000 0 heldRow
      [mkCartItem tentInStock 2] "r2" "2024-01-03" freshStorage
    = (UserRentalApplicationPage.Completed created, [], s')
    /\ DataService.kaistWelfareItems s'
       = [mkItem "A" "Tent" 10 8 1000 "" "" "ea"].
Proof.
  destruct (user_submit_outcome 10000 0 heldRow [mkCartItem tentInStock 2]
              "r2" "2024-01-03" freshStorage)
    as (_ & _ & Haccepted & _).
  - apply NoDup_singleton.
  - exact twoInCart_wellFormed.
  - eexists. eexists. split; [apply Haccepted; reflexivity | reflexivity].
Defined.

Lemma user_edit_cart_invariant_witness :
  editCartWithin [tent] heldApplication
    (snd (UserCheckStatusPage.openEditModal heldApplication heldStorage))
  /\ entriesOf
       (snd (UserCheckStatusPage.openEditModal heldApplication heldStorage))
     = [mkEntry "A" 5].
Proof.
  destruct (user_edit_cart_invariant heldApplication heldStorage [tent] []
              "A" 3) as [Hopen _].
  - apply oneEntry_wellFormed. lia.
  - destruct Hopen as (_ & Hwithin & Hsame).
    + apply Forall_singleton. simpl. lia.
    + apply Forall_singleton. simpl. lia.
    + split; [exact Hwithin|]. apply Hsame.
      * apply oneTentEntry_resolves.
      * apply Forall_singleton. discriminate.
Defined.

Lemma user_save_edits_outcome_witness :
  exists s',
    UserCheckStatusPage.handleSaveEdits 10000 (fun a b => String.ltb b a)
      (Some heldApplication) [mkCartItem tent 3] "2024-01-01" "2024-01-02"
      heldStorage
    = (Some UserCheckStatusPage.Saved, s')
    /\ DataService.kaistWelfareItems s'
       = [mkItem "A" "Tent" 10 7 1000 "" "" "ea"].
Proof.
  destruct (user_save_edits_outcome 10000 (fun a b => String.ltb b a)
              heldApplication [mkCartItem tent 3] "2024-01-01" "2024-01-02"
              heldStorage) as (_ & Hsaved & _).
  - exact heldStorage_consistent.
  - exact tent_in_bounds.
  - reflexivity.
  - reflexivity.
  - apply NoDup_singleton.
  - apply Forall_singleton. simpl. lia.
  - eexists. split; [apply Hsaved|reflexivity].
    + discriminate.
    + reflexivity.
    + apply Forall_singleton. exists tent. split; [reflexivity|].
      vm_compute. discriminate.
Defined.

Lemma admin_save_item_outcome_witness :
  AdminItemManagementPage.handleSaveItem AdminItemManagementPage.edit
    (Some (AdminItemManagementPage.openModal AdminItemManagementPage.edit
             (Some lamp)))
    "n" "0" (DataService.mkStorage [lamp] [])
  = AdminItemManagementPage.Closed (DataService.mkStorage [lamp] []).
Proof.
  destruct (admin_save_item_outcome AdminItemManagementPage.edit
              (AdminItemManagementPage.openModal AdminItemManagementPage.edit
                 (Some lamp))
              "n" "0" (DataService.mkStorage [lamp] []))
    as (_ & _ & _ & _ & Hsame).
  apply Hsame; try discriminate; try (simpl; lia).
  - apply NoDup_singleton.
  - apply list_elem_of_singleton. reflexivity.
Defined.

Lemma worker_dashboard_counts_witness :
  RentalService.newRequests
    (WorkerCatalog.getDashboardStats "2024-01-01"
       (snd (Worker.postRentalsApply (WorkerBase.mkEnv None) twoTents "r1"
               "2024-01-01" freshDatabase)))
  = 1%nat.
Proof.
  destruct (worker_dashboard_counts "2024-01-01" (WorkerBase.mkEnv None)
              twoTents "r1" "2024-01-01" freshDatabase)
    as (_ & _ & _ & _ & Hcreate).
  destruct (Hcreate (NoDup_singleton _) (NoDup_singleton _) _ _ eq_refl)
    as [Hnew _].
  exact Hnew.
Defined.

Lemma base64url_round_trip_witness :
  JwtUtilities.arrayBufferToBase64Url (fun _ => "+/8=") twoHighBytes = "-_8"
  /\ JwtUtilities.base64UrlToUint8Array
       (fun _ => String.string_of_list_ascii twoHighBytes) "-_8"
     = twoHighBytes.
Proof.
  split; [reflexivity|].
  destruct (base64url_round_trip
              (fun _ => "+/8=")
              (fun _ => String.string_of_list_ascii twoHighBytes)
              twoHighBytes) as [Hback _].
  - exists "+/8", 1%nat. split; [reflexivity|]. split; [lia|].
    split; [exists 1%nat; reflexivity|].
    repeat split; discriminate.
  - reflexivity.
  - exact Hback.
Defined.

(** ** The stored state and the engines, at work *)

Lemma heldReturned_resolves : itemsResolve [tentDrifted] [mkEntry "A" 5].
Proof. apply Forall_singleton. exists tentDrifted. reflexivity. Qed.

Lemma tentDrifted_in_bounds : Forall stockInBounds [tentDrifted].
Proof. apply Forall_singleton. unfold stockInBounds. simpl. lia. Qed.

Lemma cost_calculation_witness :
  (exists app s',
      DataService.addRentalApplication 10000 twoTents "r1" "2024-01-01"
                                       freshStorage
      = DataService.Returned app s'
      /\ (totalItemCost app, deposit app, totalAmount app)
         = (2000, 10000, 12000)
      /\ DataService.kaistWelfareRentals s' = [app])
  /\ (exists app s',
         DataService.updateRentalApplication 10000 heldEditedToThree
                                             heldStorage
         = DataService.Returned app s'
         /\ (totalItemCost heldEditedToThree, totalAmount heldEditedToThree)
            = (5000, 15000)
         /\ (totalItemCost app, deposit app, totalAmount app)
            = (3000, 10000, 13000)
         /\ findApplication "r1" (DataService.kaistWelfareRentals s')
            = Some app)
  /\ (exists app db',
         Worker.postRentalsApply (WorkerBase.mkEnv None) twoTents "r1"
                                 "2024-01-01" freshDatabase
         = (WorkerBase.Json 201 app, db')
         /\ (totalItemCost app, deposit app, totalAmount app)
            = (2000, 10000, 12000)
         /\ D1.selectApplication "r1" db' = Some (D1.insertedRow app))
  /\ (exists app db',
         Worker.putRental (WorkerBase.mkEnv None) "r1" threeTentsInMarch
                          heldDatabase
         = (WorkerBase.Json 200 app, db')
         /\ WorkerBase.patchTotalItemCost threeTentsInMarch = Some 1
         /\ (totalItemCost app, deposit app, totalAmount app)
            = (3000, 10000, 13000)
         /\ D1.selectApplication "r1" db' = Some (row app))
  /\ (exists app db',
         Worker.putAdminRental (WorkerBase.mkEnv None) "r1" returnedOnTime
                               heldDatabase
         = (WorkerBase.Json 200 app, db')
         /\ (totalItemCost app, deposit app, totalAmount app)
            = (5000, 10000, 15000)
         /\ D1.selectApplication "r1" db' = Some (row app))
  /\ (exists app db',
         WorkerV1Apply.postRentalsApply (WorkerBase.mkEnv None) twoTents "r1"
                                        "2024-01-01" freshDatabase
         = (WorkerBase.Json 201 app, db')
         /\ (totalItemCost app, deposit app, totalAmount app)
            = (2000, 10000, 12000)
         /\ D1.selectApplication "r1" db' = Some (D1.insertedRow app))
  /\ (exists app db',
         WorkerV1.putRental (WorkerBase.mkEnv None) "r1" threeTentsInMarch
                            heldDatabase
         = (WorkerBase.Json 200 app, db')
         /\ (totalItemCost app, deposit app, totalAmount app)
            = (3000, 10000, 13000)
         /\ D1.selectApplication "r1" db' = Some (row app))
  /\ (exists app db',
         WorkerV1.putAdminRental (WorkerBase.mkEnv None) "r1" askForThree
                                 heldDatabase
         = (WorkerBase.Json 200 app, db')
         /\ (totalItemCost app, deposit app, totalAmount app)
            = (3000, 10000, 13000)
         /\ D1.selectApplication "r1" db' = Some (row app)).
Proof.
  destruct cost_calculation
    as (_ & _ & _ & Hadd & Hupdate & Hcreate & Hedit & Hadmin & Hcreate1
        & Hedit1 & Hadmin1).
  split; [|split; [|split; [|split; [|split; [|split; [|split]]]]]].
  - eexists _, _. split; [vm_compute; reflexivity|].
    destruct (Hadd 10000 twoTents "r1" "2024-01-01" freshStorage _ _ eq_refl)
      as (_ & (Hcost & Hdeposit & Hamount) & _ & Hstored).
    split; [|exact Hstored].
    exact (f_equal2 pair (f_equal2 pair Hcost Hdeposit) Hamount).
  - eexists _, _. split; [vm_compute; reflexivity|].
    destruct (Hupdate 10000 heldEditedToThree heldStorage _ _ eq_refl)
      as (_ & (Hcost & Hdeposit & Hamount) & Hstored).
    split; [reflexivity|].
    split; [|exact Hstored].
    exact (f_equal2 pair (f_equal2 pair Hcost Hdeposit) Hamount).
  - eexists _, _. split; [vm_compute; reflexivity|].
    destruct (Hcreate (WorkerBase.mkEnv None) twoTents "r1" "2024-01-01"
                      freshDatabase _ _ eq_refl)
      as (_ & (Hcost & Hdeposit & Hamount) & Hstored & _).
    split; [|exact Hstored].
    exact (f_equal2 pair (f_equal2 pair Hcost Hdeposit) Hamount).
  - eexists _, _. split; [vm_compute; reflexivity|].
    destruct (Hedit (WorkerBase.mkEnv None) "r1" threeTentsInMarch
                    heldDatabase _ _ eq_refl)
      as (_ & (Hcost & Hdeposit & Hamount) & Hstored & _).
    split; [reflexivity|].
    split; [|exact Hstored].
    exact (f_equal2 pair (f_equal2 pair Hcost Hdeposit) Hamount).
  - eexists _, _. split; [vm_compute; reflexivity|].
    destruct (Hadmin (WorkerBase.mkEnv None) "r1" returnedOnTime
                     heldDatabase _ _ eq_refl)
      as (_ & (Hcost & Hdeposit & Hamount) & Hstored & _).
    split; [|exact Hstored].
    exact (f_equal2 pair (f_equal2 pair Hcost Hdeposit) Hamount).
  - eexists _, _. split; [vm_compute; reflexivity|].
    destruct (Hcreate1 (WorkerBase.mkEnv None) twoTents "r1" "2024-01-01"
                       freshDatabase _ _ eq_refl)
      as (_ & (Hcost & Hdeposit & Hamount) & Hstored & _).
    split; [|exact Hstored].
    exact (f_equal2 pair (f_equal2 pair Hcost Hdeposit) Hamount).
  - eexists _, _. split; [vm_compute; reflexivity|].
    destruct (Hedit1 (WorkerBase.mkEnv None) "r1" threeTentsInMarch
                     heldDatabase _ _ eq_refl)
      as (_ & (Hcost & Hdeposit & Hamount) & Hstored & _).
    split; [|exact Hstored].
    exact (f_equal2 pair (f_equal2 pair Hcost Hdeposit) Hamount).
  - eexists _, _. split; [vm_compute; reflexivity|].
    destruct (Hadmin1 (WorkerBase.mkEnv None) "r1" askForThree
                      heldDatabase _ _ eq_refl)
      as (_ & (Hcost & Hdeposit & Hamount) & Hstored & _).
    split; [|exact Hstored].
    exact (f_equal2 pair (f_equal2 pair Hcost Hdeposit) Hamount).
Defined.

Lemma net_delta_witness :
  (exists app db',
      Worker.putRental (WorkerBase.mkEnv None) "r1" threeTentsInMarch
                       heldDatabase
      = (WorkerBase.Json 200 app, db')
      /\ findItem "A" (D1.Items db') = Some (withCurrentStock tent 7))
  /\ (exists app db',
         WorkerV1.putRental (WorkerBase.mkEnv None) "r1" threeTentsInMarch
                            heldDatabase
         = (WorkerBase.Json 200 app, db')
         /\ findItem "A" (D1.Items db') = Some (withCurrentStock tent 7))
  /\ (exists app s',
         DataService.updateRentalApplication 10000 heldEditedToThree
                                             heldStorage
         = DataService.Returned app s'
         /\ findItem "A" (DataService.kaistWelfareItems s')
            = Some (withCurrentStock tent 7)).
Proof.
  destruct net_delta
    as (_ & _ & _ & _ & _ & _ & _ & _ & Hworker & Hrouter & Hservice & _).
  assert (Hedit : editable heldDatabase "r1" heldRow [mkEntry "A" 3]).
  { apply heldDatabase_editable;
      [apply oneEntry_wellFormed; lia | apply oneTentEntry_resolves]. }
  assert (Hfits : forall item,
             item ∈ [tent] ->
             qtyOf (id item) [mkEntry "A" 3]
             <= currentStock item + qtyOf (id item) [mkEntry "A" 5]).
  { intros item Hitem. apply list_elem_of_singleton in Hitem. subst item.
    vm_compute. discriminate. }
  split; [|split].
  - destruct (Hworker (WorkerBase.mkEnv None) "r1" threeTentsInMarch
                      heldDatabase heldRow [mkEntry "A" 3])
      as (app & db' & Hreply & _ & Hgain);
      [exact Hedit | reflexivity | reflexivity | reflexivity | exact Hfits |].
    exists app, db'. split; [exact Hreply|].
    exact (Hgain tent eq_refl eq_refl eq_refl).
  - destruct (Hrouter (WorkerBase.mkEnv None) "r1" threeTentsInMarch
                      heldDatabase heldRow [mkEntry "A" 3])
      as (app & db' & Hreply & _ & Hgain);
      [exact Hedit | apply (oneTentEntry_resolves 5) | reflexivity
      | reflexivity | reflexivity | exact Hfits |].
    exists app, db'. split; [exact Hreply|].
    exact (Hgain tent eq_refl eq_refl eq_refl).
  - destruct (Hservice 10000 heldEditedToThree heldApplication heldStorage)
      as (s' & Hreturned & _ & Hgain);
      [exact heldStorage_consistent | apply oneEntry_wellFormed; lia
      | reflexivity | reflexivity | reflexivity | apply oneTentEntry_resolves
      | apply oneTentEntry_resolves | exact Hfits |].
    eexists _, s'. split; [exact Hreturned|].
    exact (Hgain tent eq_refl eq_refl eq_refl).
Defined.

Lemma defensive_clamp_witness :
  cappedChange 8 10 5 = 2
  /\ (exists app db',
         Worker.putAdminRental (WorkerBase.mkEnv None) "r1" returnedOnTime
                               driftedDatabase
         = (WorkerBase.Json 200 app, db')
         /\ D1.Items db' = [tentInStock])
  /\ (exists app db',
         WorkerV1.putAdminRental (WorkerBase.mkEnv None) "r1" returnedOnTime
                                 driftedDatabase
         = (WorkerBase.Json 200 app, db')
         /\ D1.Items db' = [tentInStock])
  /\ (exists app s',
         DataService.updateRentalApplication 10000 heldReturned driftedStorage
         = DataService.Returned app s'
         /\ DataService.kaistWelfareItems s' = [tentInStock]).
Proof.
  destruct defensive_clamp
    as (Hcap & _ & _ & _ & _ & Hworker & Hrouter & Hservice).
  split.
  { destruct (Hcap 8 10 5) as [Hcut _]. apply Hcut. lia. }
  assert (Hfits : forall item,
             item ∈ [tentDrifted] ->
             0 <= currentStock item
                  + WorkerBase.stockChangeFor true false
                      (qtyOf (id item) [mkEntry "A" 5])
                      (qtyOf (id item) [mkEntry "A" 5])).
  { intros item Hitem. apply list_elem_of_singleton in Hitem. subst item.
    vm_compute. discriminate. }
  split; [|split].
  - destruct (Hworker (WorkerBase.mkEnv None) (mkApp heldRow [mkEntry "A" 5])
                      (row heldReturned) [mkEntry "A" 5] driftedDatabase)
      as (Hmanage & _ & Hbatch).
    + apply NoDup_singleton.
    + exact tentDrifted_in_bounds.
    + exact Hfits.
    + unfold Worker.putAdminRental.
      change (D1.selectApplication "r1" driftedDatabase) with (Some heldRow).
      cbv iota beta zeta.
      change (WorkerBase.fullOriginalAppOf heldRow
                (D1.selectItemsOf "r1" driftedDatabase))
        with (mkApp heldRow [mkEntry "A" 5]).
      change (WorkerBase.mergePatch (mkApp heldRow [mkEntry "A" 5])
                                    returnedOnTime)
        with (row heldReturned).
      change (bool_decide (status (row heldReturned) = RETURNED)
              && WorkerBase.falsyString (actualReturnDate (row heldReturned)))
        with false.
      cbv iota. cbn [items]. rewrite Hmanage.
      match goal with
      | |- context [D1.batch ?ops driftedDatabase] =>
          destruct (D1.batch ops driftedDatabase) as [db'|] eqn:E;
            [|vm_compute in E; discriminate E]
      end.
      eexists _, db'. split; [reflexivity|].
      rewrite (Hbatch db' eq_refl). reflexivity.
  - destruct (Hrouter (WorkerBase.mkEnv None) (mkApp heldRow [mkEntry "A" 5])
                      (row heldReturned) [mkEntry "A" 5] driftedDatabase)
      as (Hmanage & _ & Hbatch).
    + apply NoDup_singleton.
    + exact tentDrifted_in_bounds.
    + exact heldReturned_resolves.
    + exact heldReturned_resolves.
    + exact Hfits.
    + unfold WorkerV1.putAdminRental.
      change (D1.selectApplication "r1" driftedDatabase) with (Some heldRow).
      cbv iota beta zeta.
      change (WorkerBase.fullOriginalAppOf heldRow
                (D1.selectItemsOf "r1" driftedDatabase))
        with (mkApp heldRow [mkEntry "A" 5]).
      change (WorkerBase.mergePatch (mkApp heldRow [mkEntry "A" 5])
                                    returnedOnTime)
        with (row heldReturned).
      change (bool_decide (status (row heldReturned) = RETURNED)
              && WorkerBase.falsyString (actualReturnDate (row heldReturned)))
        with false.
      cbv iota.
      change (default (items (mkApp heldRow [mkEntry "A" 5]))
                      (WorkerBase.patchItems returnedOnTime))
        with [mkEntry "A" 5].
      rewrite Hmanage.
      match goal with
      | |- context [D1.batch ?ops driftedDatabase] =>
          destruct (D1.batch ops driftedDatabase) as [db'|] eqn:E;
            [|vm_compute in E; discriminate E]
      end.
      eexists _, db'. split; [reflexivity|].
      rewrite (Hbatch db' eq_refl). reflexivity.
  - eexists _, _. split.
    + apply (Hservice 10000 heldReturned heldApplication driftedStorage).
      * apply NoDup_singleton.
      * reflexivity.
      * exact heldReturned_resolves.
      * exact heldReturned_resolves.
      * exact Hfits.
    + reflexivity.
Defined.

Lemma conservation_broken_by_edit_witness :
  consistentStorage
    (DataService.storageAfter
       (DataService.addRentalApplication 10000 twoTents "r1" "2024-01-01"
                                         freshStorage))
  /\ consistentDatabase
       (snd (Worker.putRental (WorkerBase.mkEnv None) "r1" threeTentsInMarch
                              heldDatabase)).
Proof.
  destruct conservation_broken_by_edit as (_ & _ & Hservice & Hworker). split.
  - apply (Hservice 10000 freshStorage); [exact freshStorage_consistent|].
    apply StorageCreate.
    + apply oneEntry_wellFormed. lia.
    + simpl. apply not_elem_of_nil.
  - apply (Hworker (WorkerBase.mkEnv None) heldDatabase);
      [exact heldDatabase_consistent|].
    apply WorkerUserEdit. apply oneEntry_wellFormed. lia.
Defined.
